(** * Record store of the O&G operations prototype (app.py)

    A shallow embedding of the persistence layer of [app.py] and of the
    page handlers that write through it: the CSV-backed tables, the
    atomic save, the safe load, the sequential identifiers, the seeding of
    the seven data files and the handlers creating and updating rows.

    The pandas, pathlib and Streamlit calls of the program are embedded
    at the level the program uses them:
    - a [DataFrame] is a list of column names and a list of rows of Python
      values ([cell]); dtypes are not tracked, a float64 is held as the
      decimal numeral Python prints for it (binary rounding, infinities
      and 64-bit overflow are outside the model);
    - the file system is a finite map from paths to file contents;
    - DataFrame objects live in a heap, so that rebinding a variable
      ([pd.concat]) and updating an object in place ([df.loc[...] = v])
      are told apart;
    - [datetime.now()] reads a clock, one reading per call;
    - Streamlit's notices ([st.warning], [st.success]) are appended to a
      log, and [st.cache_data] is a map from paths to cached results. *)

From Stdlib Require Import ZArith Ascii String List Lia.
From stdpp Require Import base option list gmap strings pretty.

Local Open Scope string_scope.
Local Open Scope list_scope.
Local Open Scope nat_scope.

(** ** Python values and exceptions *)

Inductive exn :=
  | KeyError (key : string)
  | ValueError (msg : string)
  | TypeError (msg : string)
  | EmptyDataError
  | ParserError (msg : string).

Inductive res (A : Type) :=
  | Ok (a : A)
  | Raise (e : exn).
Arguments Ok {A} a.
Arguments Raise {A} e.

Global Instance res_ret : MRet res := @Ok.
Global Instance res_bind : MBind res := λ A B f r,
  match r with Ok a => f a | Raise e => Raise e end.

(** [try: r except Exception: h] *)
Definition try_except {A} (r : res A) (h : exn → A) : A :=
  match r with Ok a => a | Raise e => h e end.

(** A finite float64, as the decimal numeral [mant / 10^scale]. *)
Record float64 := Dec { mant : Z; scale : nat }.

Inductive cell :=
  | CInt (z : Z)
  | CFloat (x : float64)
  | CStr (s : string)
  | CBool (b : bool)
  | CNaN.

Global Instance float64_eq_dec : EqDecision float64.
Proof. solve_decision. Defined.
Global Instance cell_eq_dec : EqDecision cell.
Proof. solve_decision. Defined.

Definition of_int (z : Z) : float64 := Dec z 0.

Definition float_leb (a b : float64) : bool :=
  (mant a * 10 ^ Z.of_nat (scale b) <=? mant b * 10 ^ Z.of_nat (scale a))%Z.

Definition float_eqb (a b : float64) : bool :=
  (mant a * 10 ^ Z.of_nat (scale b) =? mant b * 10 ^ Z.of_nat (scale a))%Z.

Definition float_max (a b : float64) : float64 :=
  if float_leb a b then b else a.

(** [int(x)] on a finite float: truncation toward zero. *)
Definition int_of_float (x : float64) : Z :=
  (mant x ÷ 10 ^ Z.of_nat (scale x))%Z.

(** ** Numerals in text *)

Definition is_digit (c : ascii) : bool :=
  (48 <=? nat_of_ascii c)%nat && (nat_of_ascii c <=? 57)%nat.

Definition digit_val (c : ascii) : Z := (Z.of_nat (nat_of_ascii c) - 48)%Z.

(** Reads a run of digits; the value read so far is [acc]. *)
Fixpoint read_digits (acc : Z) (l : list ascii) : Z * nat * list ascii :=
  match l with
  | c :: l' =>
      if is_digit c then
        let '(v, n, r) := read_digits (acc * 10 + digit_val c)%Z l' in (v, S n, r)
      else (acc, 0%nat, l)
  | [] => (acc, 0%nat, [])
  end.

(** The numerals the model reads as numbers: an optional sign, digits and
    an optional fraction ([12], [-3], [+4.50], [.5], [7.]); exponents,
    surrounding blanks and the spellings of infinities and NaN, which
    pandas also accepts, are not read. What is stated below of the value
    a text is read as is stated for the texts Python writes for an
    integer and for the texts that are numerals in no spelling
    ([is_word]). *)
Definition parse_number (s : string) : option float64 :=
  let l := list_ascii_of_string s in
  let '(neg, l) :=
    match l with
    | "-"%char :: r => (true, r)
    | "+"%char :: r => (false, r)
    | _ => (false, l)
    end in
  let '(ip, n1, r1) := read_digits 0 l in
  let sgn (v : Z) := if neg : bool then (- v)%Z else v in
  match r1 with
  | [] => if (0 <? n1)%nat then Some (Dec (sgn ip) 0) else None
  | "."%char :: r2 =>
      let '(v, n2, r3) := read_digits ip r2 in
      match r3 with
      | [] => if (0 <? n1 + n2)%nat then Some (Dec (sgn v) n2) else None
      | _ => None
      end
  | _ => None
  end.

(** Whether the numeral is written as an integer (no decimal point). *)
Definition is_int_literal (s : string) : bool :=
  match parse_number s with
  | Some _ => negb (bool_decide ("."%char ∈ list_ascii_of_string s))
  | None => false
  end.

(** ** DataFrames *)

Record DataFrame := mkDF {
  columns : list string;
  data : list (list cell)
}.

Global Instance DataFrame_eq_dec : EqDecision DataFrame.
Proof. solve_decision. Defined.

(** Every pandas frame is rectangular. *)
Definition wf (df : DataFrame) : Prop :=
  Forall (λ r, length r = length (columns df)) (data df).

(** [pd.DataFrame()] *)
Definition DataFrame_empty : DataFrame := mkDF [] [].

(** [len(df)] *)
Definition nrows (df : DataFrame) : nat := length (data df).

(** [df.empty]: no column or no row. *)
Definition df_empty (df : DataFrame) : bool :=
  bool_decide (columns df = []) || bool_decide (data df = []).

(** Position of the first column called [c]. *)
Fixpoint col_index (c : string) (cols : list string) : option nat :=
  match cols with
  | [] => None
  | c' :: cols' => if decide (c = c') then Some 0%nat else S <$> col_index c cols'
  end.

(** [c in df.columns] *)
Definition has_column (c : string) (df : DataFrame) : bool :=
  bool_decide (c ∈ columns df).

(** [df[c]]: the column as a Series; [KeyError] when there is none. *)
Definition getitem (df : DataFrame) (c : string) : res (list cell) :=
  match col_index c (columns df) with
  | Some j => Ok (map (λ r, default CNaN (r !! j)) (data df))
  | None => Raise (KeyError c)
  end.

(** The value of field [c] in row [i]. *)
Definition cell_at (df : DataFrame) (i : nat) (c : string) : option cell :=
  j ← col_index c (columns df); r ← data df !! i; r !! j.

(** [series == k] for an integer [k], element by element. *)
Definition cell_eq_int (k : Z) (v : cell) : bool :=
  match v with
  | CInt z => (z =? k)%Z
  | CFloat x => float_eqb x (of_int k)
  | CBool b => ((if b then 1 else 0) =? k)%Z
  | CStr _ | CNaN => false
  end.

Definition series_eq_int (s : list cell) (k : Z) : list bool :=
  map (cell_eq_int k) s.

(** [mask.any()] *)
Definition mask_any (mask : list bool) : bool := existsb id mask.

(** [df.loc[mask, c] = v]: sets field [c] of the rows selected by [mask];
    a column that does not exist yet is added, with NaN in the rows that
    are not selected. *)
Definition loc_set (mask : list bool) (c : string) (v : cell) (df : DataFrame)
  : DataFrame :=
  match col_index c (columns df) with
  | Some j =>
      mkDF (columns df)
           (zip_with (λ (b : bool) r, if b then <[j:=v]> r else r) mask (data df))
  | None =>
      mkDF (columns df ++ [c])
           (zip_with (λ (b : bool) r, r ++ [if b then v else CNaN]) mask (data df))
  end.

(** ** Sequential identifiers *)

(** [pd.to_numeric(series, errors="coerce")]: [None] stands for NaN.
    A text is read with [parse_number]; a float is finite, so that the
    columns for which the model answers as pandas does are those
    without infinities and without numerals [parse_number] does not
    read ([id_cell_ok] below). *)
Definition to_numeric_cell (v : cell) : option float64 :=
  match v with
  | CInt z => Some (of_int z)
  | CFloat x => Some x
  | CStr s => parse_number s
  | CBool b => Some (of_int (if b then 1 else 0))
  | CNaN => None
  end.

Definition to_numeric (s : list cell) : list (option float64) :=
  map to_numeric_cell s.

(** [series.max()]: NaN entries are skipped; NaN when nothing is left. *)
Fixpoint series_max (s : list (option float64)) : option float64 :=
  match s with
  | [] => None
  | None :: s' => series_max s'
  | Some x :: s' =>
      match series_max s' with
      | Some m => Some (float_max x m)
      | None => Some x
      end
  end.

(** [int(x)] for a float that may be NaN ([int] of an infinity, which
    no float of the model is, raises [OverflowError]). *)
Definition int_ (x : option float64) : res Z :=
  match x with
  | Some x => Ok (int_of_float x)
  | None => Raise (ValueError "cannot convert float NaN to integer")
  end.

Definition next_sequential_id (df : option DataFrame) (id_col : string) : Z :=
  match df with
  | None => 1%Z
  | Some df =>
      if df_empty df || negb (has_column id_col df) then 1%Z
      else
        try_except
          (s ← getitem df id_col;
           m ← int_ (series_max (to_numeric s));
           Ok (m + 1)%Z)
          (λ _, 1%Z)
  end.

(** ** Building and joining frames *)

(** A Python dict used as one row: keys in insertion order. *)
Abbreviation record := (list (string * cell)).

Fixpoint assoc (c : string) (r : record) : option cell :=
  match r with
  | [] => None
  | (k, v) :: r' => if decide (c = k) then Some v else assoc c r'
  end.

(** Union of column labels, in order of first appearance. *)
Definition add_labels (acc new : list string) : list string :=
  foldl (λ a k, if bool_decide (k ∈ a) then a else a ++ [k]) acc new.

(** [pd.DataFrame(records)] for a list of dicts. *)
Definition DataFrame_of_records (rs : list record) : DataFrame :=
  let cols := foldl (λ acc (r : record), add_labels acc (r.*1)) [] rs in
  mkDF cols (map (λ r, map (λ c, default CNaN (assoc c r)) cols) rs).

(** [pd.DataFrame(columns=cols)] *)
Definition DataFrame_of_columns (cols : list string) : DataFrame := mkDF cols [].

(** A row of [df] laid out on the labels [cols]; NaN where [df] has no
    such column. *)
Definition reindex_row (df : DataFrame) (cols : list string) (r : list cell)
  : list cell :=
  map (λ c, match col_index c (columns df) with
            | Some j => default CNaN (r !! j)
            | None => CNaN
            end) cols.

(** [pd.concat(dfs, ignore_index=True)] *)
Definition concat (dfs : list DataFrame) : res DataFrame :=
  match dfs with
  | [] => Raise (ValueError "No objects to concatenate")
  | _ =>
      let cols := foldl (λ acc df, add_labels acc (columns df)) [] dfs in
      Ok (mkDF cols
               (mjoin (map (λ df, map (reindex_row df cols) (data df)) dfs)))
  end.

(** ** CSV text *)

Abbreviation LF := ("010"%char).
Abbreviation CR := ("013"%char).
Abbreviation QUOTE := ("034"%char).
Abbreviation COMMA := (","%char).

Fixpoint pad_zeros (n : nat) (l : list ascii) : list ascii :=
  match n with
  | O => l
  | S n' => if decide (length l < n)%nat then "0"%char :: pad_zeros n' l else l
  end.

(** The numeral Python prints for a float: [12.5], [-0.25], [3.0] (in
    positional notation, which Python leaves below 1e-4 and from 1e16
    on, and with the digits of the decimal as they are). *)
Definition render_float (x : float64) : string :=
  let a := Z.abs (mant x) in
  let p := (10 ^ Z.of_nat (scale x))%Z in
  let frac :=
    match scale x with
    | O => "0"
    | n => string_of_list_ascii
             (pad_zeros n (list_ascii_of_string (pretty (a `mod` p)%Z)))
    end in
  (if (mant x <? 0)%Z then "-" else "") +:+ pretty (a `div` p)%Z +:+ "." +:+ frac.

(** How [to_csv] writes one value ([na_rep] is the empty text). *)
Definition render_cell (v : cell) : string :=
  match v with
  | CInt z => pretty z
  | CFloat x => render_float x
  | CStr s => s
  | CBool true => "True"
  | CBool false => "False"
  | CNaN => ""
  end.

(** The characters that make the CSV writer quote a field: the
    delimiter, the quote and the characters of the line terminator, here
    a line feed. A carriage return is not one of them (the writer of
    Python 3.13 quotes it too; the properties of the text written are
    stated for frames without carriage returns, where the two agree). *)
Definition csv_special (c : ascii) : bool :=
  bool_decide (c = COMMA ∨ c = QUOTE ∨ c = LF).

(** A quoted field: quotes inside are doubled. *)
Definition quote_field (f : list ascii) : list ascii :=
  QUOTE :: mjoin (map (λ c, if decide (c = QUOTE) then [QUOTE; QUOTE] else [c]) f)
        ++ [QUOTE].

(** Minimal quoting: only the fields that hold a special character. *)
Definition write_field (f : list ascii) : list ascii :=
  if existsb csv_special f then quote_field f else f.

Fixpoint join_fields (fs : list (list ascii)) : list ascii :=
  match fs with
  | [] => []
  | [f] => write_field f
  | f :: fs' => write_field f ++ COMMA :: join_fields fs'
  end.

(** One line of the file; a row made of a single empty field is written
    as a pair of quotes, so that the line is not blank. *)
Definition write_row (fs : list (list ascii)) : list ascii :=
  match fs with
  | [[]] => [QUOTE; QUOTE; LF]
  | _ => join_fields fs ++ [LF]
  end.

(** [df.to_csv(path, index=False)], as the text written. *)
Definition to_csv (df : DataFrame) : string :=
  string_of_list_ascii
    (write_row (map list_ascii_of_string (columns df))
     ++ mjoin (map (λ r, write_row (map (λ v, list_ascii_of_string (render_cell v)) r))
                   (data df))).

(** *** Reading: the tokenizer of the CSV reader *)

Inductive tstate :=
  | START_RECORD | WHITESPACE_LINE | START_FIELD | IN_FIELD | IN_QUOTED_FIELD
  | QUOTE_IN_QUOTED_FIELD.

Global Instance tstate_eq_dec : EqDecision tstate.
Proof. solve_decision. Defined.

(** The field, the line and the lines read so far (each latest first). *)
Record tokenizer := Tk {
  tk_state : tstate;
  tk_field : list ascii;
  tk_row : list (list ascii);
  tk_lines : list (list (list ascii))
}.

Definition tk_init : tokenizer := Tk START_RECORD [] [] [].

Definition push_char (c : ascii) (st : tstate) (t : tokenizer) : tokenizer :=
  Tk st (c :: tk_field t) (tk_row t) (tk_lines t).

Definition end_field (st : tstate) (t : tokenizer) : tokenizer :=
  Tk st [] (rev (tk_field t) :: tk_row t) (tk_lines t).

Definition end_line (t : tokenizer) : tokenizer :=
  Tk START_RECORD [] [] (rev (tk_row t) :: tk_lines t).

Definition is_newline (c : ascii) : bool := bool_decide (c = LF ∨ c = CR).

(** A space or a tab. *)
Definition is_blank (c : ascii) : bool := bool_decide (c = " "%char ∨ c = "009"%char).

Definition step_start_field (t : tokenizer) (c : ascii) : tokenizer :=
  if is_newline c then end_line (end_field START_RECORD t)
  else if decide (c = QUOTE) then
    Tk IN_QUOTED_FIELD (tk_field t) (tk_row t) (tk_lines t)
  else if decide (c = COMMA) then end_field START_FIELD t
  else push_char c IN_FIELD t.

(** One character of input. Blank lines are skipped, and so are the
    lines made of spaces and tabs only: a line that starts with one is
    read as a field once another character comes. A carriage return
    ends a line like a line feed does (the line feed that follows it is
    then a blank line). *)
Definition tk_step (t : tokenizer) (c : ascii) : tokenizer :=
  match tk_state t with
  | START_RECORD =>
      if is_newline c then t
      else if is_blank c then push_char c WHITESPACE_LINE t
      else step_start_field t c
  | WHITESPACE_LINE =>
      if is_newline c then Tk START_RECORD [] (tk_row t) (tk_lines t)
      else if is_blank c then push_char c WHITESPACE_LINE t
      else if decide (c = COMMA) then end_field START_FIELD t
      else push_char c IN_FIELD t
  | START_FIELD => step_start_field t c
  | IN_FIELD =>
      if is_newline c then end_line (end_field START_RECORD t)
      else if decide (c = COMMA) then end_field START_FIELD t
      else push_char c IN_FIELD t
  | IN_QUOTED_FIELD =>
      if decide (c = QUOTE) then
        Tk QUOTE_IN_QUOTED_FIELD (tk_field t) (tk_row t) (tk_lines t)
      else push_char c IN_QUOTED_FIELD t
  | QUOTE_IN_QUOTED_FIELD =>
      if decide (c = QUOTE) then push_char c IN_QUOTED_FIELD t
      else if decide (c = COMMA) then end_field START_FIELD t
      else if is_newline c then end_line (end_field START_RECORD t)
      else push_char c IN_FIELD t
  end.

(** End of input: the open line is closed, unless it is made of spaces
    and tabs only; inside quotes it is an error. *)
Definition tk_eof (t : tokenizer) : res (list (list (list ascii))) :=
  match tk_state t with
  | START_RECORD | WHITESPACE_LINE => Ok (rev (tk_lines t))
  | IN_QUOTED_FIELD => Raise (ParserError "EOF inside string")
  | _ => Ok (rev (tk_lines (end_line (end_field START_RECORD t))))
  end.

Definition tokenize (inp : list ascii) : res (list (list (list ascii))) :=
  tk_eof (foldl tk_step tk_init inp).

(** *** Reading: from lines to a frame *)

(** The dtype pandas infers for a column, applied to its fields:
    integers, else floats, else booleans, else text. With
    [keep_default_na=False] an empty field is the empty text. *)
Definition is_bool_literal (s : string) : option bool :=
  if bool_decide (s ∈ ["True"; "TRUE"; "true"]) then Some true
  else if bool_decide (s ∈ ["False"; "FALSE"; "false"]) then Some false
  else None.

Definition infer_column (fields : list string) : list cell :=
  if forallb is_int_literal fields then
    map (λ s, match parse_number s with Some x => CInt (mant x) | None => CStr s end) fields
  else if forallb (λ s, bool_decide (is_Some (parse_number s))) fields then
    map (λ s, match parse_number s with Some x => CFloat x | None => CStr s end) fields
  else if forallb (λ s, bool_decide (is_Some (is_bool_literal s))) fields then
    map (λ s, match is_bool_literal s with Some b => CBool b | None => CStr s end) fields
  else map CStr fields.

(** Transposition of a table whose rows all have [n] fields. *)
Definition column_of {A} (d : A) (j : nat) (rows : list (list A)) : list A :=
  map (λ r, nth j r d) rows.

Definition rows_of_columns {A} (d : A) (n : nat) (cols : list (list A))
  : list (list A) :=
  map (λ i, map (λ col, nth i col d) cols) (seq 0 n).

(** [pd.read_csv(path, keep_default_na=False)] on the text of the file.
    The first line that is not blank is the header. A first data line
    longer than the header gives its leading fields to the index; any
    later line longer than those two is an error; shorter lines are
    filled with empty fields. Header names are taken as they are
    (pandas renames the empty and the repeated ones: what is stated of
    the names read is stated for headers without either), and the text
    is taken as decoded. *)
Definition read_csv (content : string) : res DataFrame :=
  lines ← tokenize (list_ascii_of_string content);
  match lines with
  | [] => Raise EmptyDataError
  | header :: rest =>
      let ncols := length header in
      let width := match rest with
                   | [] => ncols
                   | l1 :: _ => (ncols `max` length l1)%nat
                   end in
      if forallb (λ l, length l <=? width)%nat (tail rest) then
        let rows := map (λ l, drop (width - ncols)
                                (resize width "" (map string_of_list_ascii l))) rest in
        let cols := map (λ j, infer_column (column_of "" j rows)) (seq 0 ncols) in
        Ok (mkDF (map string_of_list_ascii header)
                 (rows_of_columns CNaN (length rows) cols))
      else Raise (ParserError "Expected fewer fields")
  end.

(** ** Paths *)

(** A [pathlib.Path], as its components. *)
Abbreviation Path := (list string).

(** [p / name] *)
Definition path_div (p : Path) (name : string) : Path := p ++ [name].

(** [p.name] *)
Definition path_name (p : Path) : string := default "" (last p).

(** [s.rfind(c)] *)
Fixpoint rfind (c : ascii) (l : list ascii) : option nat :=
  match l with
  | [] => None
  | x :: l' =>
      match rfind c l' with
      | Some i => Some (S i)
      | None => if decide (x = c) then Some 0%nat else None
      end
  end.

(** [p.suffix]: the last dot of the name and what follows it, unless the
    dot starts or ends the name. *)
Definition suffix_of_name (name : list ascii) : list ascii :=
  match rfind "."%char name with
  | Some i => if (0 <? i)%nat && (i <? length name - 1)%nat then drop i name else []
  | None => []
  end.

Definition path_suffix (p : Path) : string :=
  string_of_list_ascii (suffix_of_name (list_ascii_of_string (path_name p))).

(** [p.with_suffix(suf)] *)
Definition with_suffix (p : Path) (suf : string) : res Path :=
  let name := list_ascii_of_string (path_name p) in
  let suf' := list_ascii_of_string suf in
  if bool_decide (name = []) then Raise (ValueError "has an empty name")
  else if bool_decide (suf' ≠ [] ∧ (head suf' ≠ Some "."%char ∨ suf' = ["."%char]
                                    ∨ "/"%char ∈ suf'))
  then Raise (ValueError "Invalid suffix")
  else
    let old := suffix_of_name name in
    let stem := take (length name - length old) name in
    Ok (removelast p ++ [string_of_list_ascii (stem ++ suf')]).

Definition ASSETS_DIR : Path := ["assets"].
Definition DATA_DIR : Path := ["data"].

Definition F_USUARIOS : Path := path_div DATA_DIR "usuarios.csv".
Definition F_ACTIVOS : Path := path_div DATA_DIR "activos.csv".
Definition F_NOTIF : Path := path_div DATA_DIR "notificaciones.csv".
Definition F_RONDAS_PLT : Path := path_div DATA_DIR "rondas_plantillas.csv".
Definition F_RONDAS_RUN : Path := path_div DATA_DIR "rondas_ejecuciones.csv".
Definition F_INCIDENTES : Path := path_div DATA_DIR "incidentes.csv".
Definition F_PTWOT : Path := path_div DATA_DIR "ptw_ot.csv".

(** The seven tables of the store, each with its file. *)
Inductive dataset :=
  | Usuarios | Activos | Notificaciones | RondasPlantillas
  | RondasEjecuciones | Incidentes | PtwOt.

Global Instance dataset_eq_dec : EqDecision dataset.
Proof. solve_decision. Defined.

Definition dataset_path (d : dataset) : Path :=
  match d with
  | Usuarios => F_USUARIOS
  | Activos => F_ACTIVOS
  | Notificaciones => F_NOTIF
  | RondasPlantillas => F_RONDAS_PLT
  | RondasEjecuciones => F_RONDAS_RUN
  | Incidentes => F_INCIDENTES
  | PtwOt => F_PTWOT
  end.

Definition all_datasets : list dataset :=
  [Usuarios; Activos; Notificaciones; RondasPlantillas; RondasEjecuciones;
   Incidentes; PtwOt].

(** ** The file system and its primitive steps *)

(** What one system call does to the files: opening for writing
    truncates, a write appends, [os.replace] moves a file over another
    in one step. *)
Inductive fs_op :=
  | OpOpenW (p : Path)
  | OpWrite (p : Path) (chunk : string)
  | OpReplace (src dst : Path).

Definition fs_exec (fs : gmap Path string) (op : fs_op) : gmap Path string :=
  match op with
  | OpOpenW p => <[p:=""]> fs
  | OpWrite p chunk => <[p:=default "" (fs !! p) +:+ chunk]> fs
  | OpReplace src dst =>
      match fs !! src with
      | Some c => <[dst:=c]> (delete src fs)
      | None => fs
      end
  end.

(** Writing a text to a file, a character at a time. *)
Definition write_ops (p : Path) (content : string) : list fs_op :=
  OpOpenW p :: map (λ c, OpWrite p (String c "")) (list_ascii_of_string content).

(** ** The clock *)

Record datetime := mkDate {
  year : nat; month : nat; day : nat; hour : nat; minute : nat; second : nat
}.

Definition pad (width n : nat) : string :=
  string_of_list_ascii (pad_zeros width (list_ascii_of_string (pretty n))).

(** [d.strftime("%Y-%m-%d %H:%M:%S")] *)
Definition strftime (d : datetime) : string :=
  pad 4 (year d) +:+ "-" +:+ pad 2 (month d) +:+ "-" +:+ pad 2 (day d) +:+ " "
  +:+ pad 2 (hour d) +:+ ":" +:+ pad 2 (minute d) +:+ ":" +:+ pad 2 (second d).

(** ** The state of a run and its monad *)

Inductive notice :=
  | Warning (msg : string)
  | Success (msg : string)
  | Info (msg : string).

Abbreviation loc := nat.

Record World := mkWorld {
  fs : gmap Path string;
  heap : list DataFrame;
  cache : gmap Path (DataFrame * list notice);
  clock : nat → datetime;
  ticks : nat;
  notices : list notice
}.

Definition M (A : Type) : Type := World → res A * World.

Global Instance M_ret : MRet M := λ A a w, (Ok a, w).
Global Instance M_bind : MBind M := λ A B f m w,
  match m w with
  | (Ok a, w') => f a w'
  | (Raise e, w') => (Raise e, w')
  end.

Definition lift {A} (r : res A) : M A := λ w, (r, w).

Definition set_fs (f : gmap Path string → gmap Path string) (w : World) : World :=
  mkWorld (f (fs w)) (heap w) (cache w) (clock w) (ticks w) (notices w).
Definition set_heap (f : list DataFrame → list DataFrame) (w : World) : World :=
  mkWorld (fs w) (f (heap w)) (cache w) (clock w) (ticks w) (notices w).
Definition set_cache (f : gmap Path (DataFrame * list notice) →
                          gmap Path (DataFrame * list notice)) (w : World) : World :=
  mkWorld (fs w) (heap w) (f (cache w)) (clock w) (ticks w) (notices w).
Definition set_notices (f : list notice → list notice) (w : World) : World :=
  mkWorld (fs w) (heap w) (cache w) (clock w) (ticks w) (f (notices w)).

(** A new DataFrame object. *)
Definition alloc (df : DataFrame) : M loc :=
  λ w, (Ok (length (heap w)), set_heap (λ h, h ++ [df]) w).

(** The frame a reference stands for. *)
Definition deref (l : loc) : M DataFrame :=
  λ w, match heap w !! l with
       | Some df => (Ok df, w)
       | None => (Raise (KeyError "no such object"), w)
       end.

(** In-place update of the object at [l]. *)
Definition store (l : loc) (df : DataFrame) : M unit :=
  λ w, (Ok (), set_heap (λ h, <[l:=df]> h) w).

(** [path.exists()] *)
Definition path_exists (p : Path) : M bool :=
  λ w, (Ok (bool_decide (is_Some (fs w !! p))), w).

Definition run_ops (ops : list fs_op) : M unit :=
  λ w, (Ok (), set_fs (λ f, foldl fs_exec f ops) w).

(** [datetime.now()] *)
Definition datetime_now : M datetime :=
  λ w, (Ok (clock w (ticks w)),
        mkWorld (fs w) (heap w) (cache w) (clock w) (S (ticks w)) (notices w)).

Definition now_iso : M string :=
  d ← datetime_now; mret (strftime d).

Definition st_warning (msg : string) : M unit :=
  λ w, (Ok (), set_notices (λ n, n ++ [Warning msg]) w).
Definition st_success (msg : string) : M unit :=
  λ w, (Ok (), set_notices (λ n, n ++ [Success msg]) w).
Definition st_info (msg : string) : M unit :=
  λ w, (Ok (), set_notices (λ n, n ++ [Info msg]) w).

(** [st.cache_data.clear()] *)
Definition cache_data_clear : M unit :=
  λ w, (Ok (), set_cache (λ _, ∅) w).

Definition get_world : M World := λ w, (Ok w, w).

Definition show_notices (shown : list notice) : M unit :=
  λ w, (Ok (), set_notices (λ n, n ++ shown) w).

Definition cache_put (p : Path) (v : DataFrame * list notice) : M unit :=
  λ w, (Ok (), set_cache (λ c, <[p:=v]> c) w).

(** ** Persistence *)

Definition describe (e : exn) : string :=
  match e with
  | KeyError k => k
  | ValueError m | TypeError m | ParserError m => m
  | EmptyDataError => "No columns to parse from file"
  end.

(** Reading that never fails: a missing file is an empty frame, a file
    that cannot be parsed is an empty frame and a warning. *)
Definition _safe_read_csv (path : Path) : M loc :=
  ex ← path_exists path;
  if negb ex then alloc DataFrame_empty
  else
    w ← get_world;
    match read_csv (default "" (fs w !! path)) with
    | Ok df => alloc df
    | Raise e =>
        st_warning ("Archivo dañado o no legible: " +:+ path_name path
                    +:+ ". Se carga vacío. Detalle: " +:+ describe e);;
        alloc DataFrame_empty
    end.

(** [@st.cache_data]: a call with a path already seen returns a copy of
    the cached frame and shows again the notices of the first call. *)
Definition load_csv (path : Path) : M loc :=
  w ← get_world;
  match cache w !! path with
  | Some (df, shown) => show_notices shown;; alloc df
  | None =>
      l ← _safe_read_csv path;
      df ← deref l;
      w' ← get_world;
      cache_put path (df, drop (length (notices w)) (notices w'));;
      mret l
  end.

(** The system calls of a save, in order: the text goes to the
    temporary file, which then replaces the target. *)
Definition save_csv_ops (df : DataFrame) (tmp path : Path) : list fs_op :=
  write_ops tmp (to_csv df) ++ [OpReplace tmp path].

Definition save_csv (df : loc) (path : Path) : M unit :=
  tmp ← lift (with_suffix path (path_suffix path +:+ ".tmp"));
  d ← deref df;
  run_ops (save_csv_ops d tmp path).

(** ** Frames as objects *)

Fixpoint mapM {A B} (f : A → M B) (l : list A) : M (list B) :=
  match l with
  | [] => mret []
  | a :: l' => b ← f a; bs ← mapM f l'; mret (b :: bs)
  end.

Definition when (b : bool) (m : M unit) : M unit := if b then m else mret ().

(** [pd.DataFrame(records)]: a new object. *)
Definition new_DataFrame (rs : list record) : M loc :=
  alloc (DataFrame_of_records rs).

(** [pd.concat(dfs, ignore_index=True)]: the result is a new object,
    the arguments are only read. *)
Definition pd_concat (dfs : list loc) : M loc :=
  ds ← mapM deref dfs;
  d ← lift (concat ds);
  alloc d.

(** [df.loc[mask, c] = v] on the object itself. *)
Definition loc_setitem (df : loc) (mask : list bool) (c : string) (v : cell)
  : M unit :=
  d ← deref df; store df (loc_set mask c v d).

(** [df[c] == k] *)
Definition column_eq_int (df : loc) (c : string) (k : Z) : M (list bool) :=
  d ← deref df; s ← lift (getitem d c); mret (series_eq_int s k).

(** ** Seeding *)

Definition seed_usuarios : list record :=
  [ [("user_id", CStr "op1"); ("nombre", CStr "Operario 1"); ("rol", CStr "Operario");
     ("area", CStr "Operación Área B")];
    [("user_id", CStr "op2"); ("nombre", CStr "Operario 2"); ("rol", CStr "Operario");
     ("area", CStr "Operación Área A")];
    [("user_id", CStr "sup1"); ("nombre", CStr "Supervisor 1"); ("rol", CStr "Supervisor");
     ("area", CStr "Sala Control")];
    [("user_id", CStr "hse1"); ("nombre", CStr "HSE 1"); ("rol", CStr "HSE");
     ("area", CStr "HSE")] ].

Definition seed_activos : list record :=
  [ [("tag", CStr "V-210"); ("descripcion", CStr "Válvula de control línea de producción");
     ("area", CStr "Área B")];
    [("tag", CStr "P-101"); ("descripcion", CStr "Bomba de transferencia");
     ("area", CStr "Área A")];
    [("tag", CStr "TK-1203"); ("descripcion", CStr "Tanque crudo estabilizado");
     ("area", CStr "Tanques")];
    [("tag", CStr "K-301"); ("descripcion", CStr "Compresor gas baja presión");
     ("area", CStr "Compresión")] ].

Definition seed_notif (ts1 ts2 : string) : list record :=
  [ [("id", CInt 1); ("ts_creacion", CStr ts1); ("tag", CStr "V-210");
     ("titulo", CStr "Chequear válvula V-210"); ("motivo", CStr "Sobrepresión");
     ("prioridad", CStr "P1"); ("estado", CStr "Pendiente");
     ("asignado_a", CStr "Operario 1"); ("ts_recibida", CStr "");
     ("ts_cerrada", CStr ""); ("evidencia", CStr "")];
    [("id", CInt 2); ("ts_creacion", CStr ts2); ("tag", CStr "P-101");
     ("titulo", CStr "Verificar sello mecánico"); ("motivo", CStr "Goteo observado");
     ("prioridad", CStr "P2"); ("estado", CStr "Pendiente");
     ("asignado_a", CStr "Operario 2"); ("ts_recibida", CStr "");
     ("ts_cerrada", CStr ""); ("evidencia", CStr "")] ].

Definition seed_rondas : list record :=
  [ [("plantilla", CStr "Ronda Compresores"); ("tag", CStr "K-301");
     ("variable", CStr "Presión succión [bar]");
     ("lim_inf", CFloat (Dec 20 1)); ("lim_sup", CFloat (Dec 50 1))];
    [("plantilla", CStr "Ronda Compresores"); ("tag", CStr "K-301");
     ("variable", CStr "Temperatura carcasa [°C]");
     ("lim_inf", CFloat (Dec 200 1)); ("lim_sup", CFloat (Dec 800 1))];
    [("plantilla", CStr "Ronda Tanques"); ("tag", CStr "TK-1203");
     ("variable", CStr "Nivel [%]");
     ("lim_inf", CFloat (Dec 100 1)); ("lim_sup", CFloat (Dec 850 1))];
    [("plantilla", CStr "Ronda Tanques"); ("tag", CStr "TK-1203");
     ("variable", CStr "Temperatura [°C]");
     ("lim_inf", CFloat (Dec 100 1)); ("lim_sup", CFloat (Dec 600 1))] ].

Definition rondas_run_columns : list string :=
  ["id"; "ts"; "plantilla"; "tag"; "variable"; "valor"; "en_rango"; "operario"].

Definition seed_incidentes (ts : string) : list record :=
  [ [("id", CInt 1); ("ts", CStr ts); ("tag", CStr "V-210");
     ("titulo", CStr "Near Miss por sobrepresión"); ("severidad", CStr "Medio");
     ("descripcion", CStr "Se detecta lectura por encima del umbral");
     ("reportado_por", CStr "Operario 1"); ("estado", CStr "Abierto")] ].

Definition seed_ptw (ts : string) : list record :=
  [ [("id", CInt 1); ("ts_solicitud", CStr ts); ("tipo", CStr "Trabajo caliente");
     ("solicitante", CStr "Supervisor 1"); ("area", CStr "Área B");
     ("estado", CStr "Borrador"); ("aprob_hse", CStr "No"); ("ts_cierre", CStr "");
     ("adjuntos", CStr "")] ].

(** [if not path.exists(): body] *)
Definition unless_exists (path : Path) (body : M unit) : M unit :=
  ex ← path_exists path; when (negb ex) body.

Definition seed_if_missing : M unit :=
  unless_exists F_USUARIOS
    (usuarios ← new_DataFrame seed_usuarios; save_csv usuarios F_USUARIOS);;
  unless_exists F_ACTIVOS
    (activos ← new_DataFrame seed_activos; save_csv activos F_ACTIVOS);;
  unless_exists F_NOTIF
    (ts1 ← now_iso; ts2 ← now_iso;
     notif ← new_DataFrame (seed_notif ts1 ts2); save_csv notif F_NOTIF);;
  unless_exists F_RONDAS_PLT
    (rondas ← new_DataFrame seed_rondas; save_csv rondas F_RONDAS_PLT);;
  unless_exists F_RONDAS_RUN
    (run ← alloc (DataFrame_of_columns rondas_run_columns); save_csv run F_RONDAS_RUN);;
  unless_exists F_INCIDENTES
    (ts ← now_iso; inc ← new_DataFrame (seed_incidentes ts); save_csv inc F_INCIDENTES);;
  unless_exists F_PTWOT
    (ts ← now_iso; ptw ← new_DataFrame (seed_ptw ts); save_csv ptw F_PTWOT).

(** ** Notificaciones *)

(** The button "Crear notificación"; the result is the frame the
    variable [notifs] is bound to afterwards. *)
Definition crear_notificacion (notifs : loc)
    (tag titulo motivo prioridad asignado : string) : M loc :=
  d ← deref notifs;
  let new_id := next_sequential_id (Some d) "id" in
  ts ← now_iso;
  let new_row : record :=
    [("id", CInt new_id); ("ts_creacion", CStr ts); ("tag", CStr tag);
     ("titulo", CStr titulo); ("motivo", CStr motivo); ("prioridad", CStr prioridad);
     ("estado", CStr "Pendiente"); ("asignado_a", CStr asignado);
     ("ts_recibida", CStr ""); ("ts_cerrada", CStr ""); ("evidencia", CStr "")] in
  r ← new_DataFrame [new_row];
  notifs' ← pd_concat [notifs; r];
  save_csv notifs' F_NOTIF;;
  cache_data_clear;;
  st_success ("Notificación creada (ID " +:+ pretty new_id +:+ ").");;
  mret notifs'.

(** The button "Aplicar cambio". *)
Definition aplicar_cambio (notifs : loc) (sel_id : Z)
    (nuevo_estado evidencia : string) : M unit :=
  mask ← column_eq_int notifs "id" sel_id;
  if mask_any mask then
    loc_setitem notifs mask "estado" (CStr nuevo_estado);;
    when (bool_decide (nuevo_estado = "Recibida"))
      (ts ← now_iso; loc_setitem notifs mask "ts_recibida" (CStr ts));;
    when (bool_decide (nuevo_estado = "Completada"))
      (ts ← now_iso; loc_setitem notifs mask "ts_cerrada" (CStr ts));;
    when (bool_decide (evidencia ≠ ""))
      (loc_setitem notifs mask "evidencia" (CStr evidencia));;
    save_csv notifs F_NOTIF;;
    cache_data_clear;;
    st_success "Estado actualizado."
  else st_warning "ID no encontrado.".

(** ** PTW / OT *)

Definition crear_ptw (ptwot : loc) (tipo solicitante area : string) : M loc :=
  d ← deref ptwot;
  let new_id := next_sequential_id (Some d) "id" in
  ts ← now_iso;
  let new_row : record :=
    [("id", CInt new_id); ("ts_solicitud", CStr ts); ("tipo", CStr tipo);
     ("solicitante", CStr solicitante); ("area", CStr area); ("estado", CStr "Borrador");
     ("aprob_hse", CStr "No"); ("ts_cierre", CStr ""); ("adjuntos", CStr "")] in
  r ← new_DataFrame [new_row];
  ptwot' ← pd_concat [ptwot; r];
  save_csv ptwot' F_PTWOT;;
  cache_data_clear;;
  st_success ("PTW creado (ID " +:+ pretty new_id +:+ ").");;
  mret ptwot'.

(** The button "Aplicar" of the permits page. *)
Definition aplicar_ptw (ptwot : loc) (idp : Z) (nuevo aprob_hse : string) : M unit :=
  mask ← column_eq_int ptwot "id" idp;
  if mask_any mask then
    loc_setitem ptwot mask "estado" (CStr nuevo);;
    loc_setitem ptwot mask "aprob_hse" (CStr aprob_hse);;
    when (bool_decide (nuevo = "Cerrado"))
      (ts ← now_iso; loc_setitem ptwot mask "ts_cierre" (CStr ts));;
    save_csv ptwot F_PTWOT;;
    cache_data_clear;;
    st_success "PTW actualizado."
  else st_warning "ID no encontrado.".

(** ** Incidentes *)

Definition reportar_incidente (incidentes : loc)
    (tag titulo severidad descripcion reportado_por : string) : M loc :=
  d ← deref incidentes;
  let new_id := next_sequential_id (Some d) "id" in
  ts ← now_iso;
  let new_row : record :=
    [("id", CInt new_id); ("ts", CStr ts); ("tag", CStr tag); ("titulo", CStr titulo);
     ("severidad", CStr severidad); ("descripcion", CStr descripcion);
     ("reportado_por", CStr reportado_por); ("estado", CStr "Abierto")] in
  r ← new_DataFrame [new_row];
  incidentes' ← pd_concat [incidentes; r];
  save_csv incidentes' F_INCIDENTES;;
  cache_data_clear;;
  st_success ("Incidente reportado (ID " +:+ pretty new_id +:+ ").");;
  mret incidentes'.

(** ** Rondas *)

Definition cell_eq_str (s : string) (v : cell) : bool :=
  match v with
  | CStr s' => bool_decide (s' = s)
  | _ => false
  end.

(** [df[mask]] followed by [reset_index(drop=True)] *)
Definition select_rows (mask : list bool) (df : DataFrame) : DataFrame :=
  mkDF (columns df) ((filter (λ p, p.1 = true) (zip mask (data df))).*2).

(** [r[c]] for a row [r] of [df] *)
Definition row_getitem (df : DataFrame) (r : list cell) (c : string) : res cell :=
  match col_index c (columns df) with
  | Some j => Ok (default CNaN (r !! j))
  | None => Raise (KeyError c)
  end.

(** A value used in arithmetic: text is a [TypeError], NaN is [None]. *)
Definition as_float (v : cell) : res (option float64) :=
  match v with
  | CStr _ => Raise (TypeError "unsupported operand type(s)")
  | _ => Ok (to_numeric_cell v)
  end.

Fixpoint strip_zeros (n : nat) (m : Z) : float64 :=
  match n with
  | O => Dec m 0
  | S n' => if (m `mod` 10 =? 0)%Z then strip_zeros n' (m `div` 10)%Z else Dec m n
  end.

(** [float((a + b) / 2)], as the exact middle: the float Python computes
    is the one nearest to it, or an infinity when the sum overflows. *)
Definition midpoint (a b : option float64) : option float64 :=
  a ← a; b ← b;
  Some (strip_zeros (S (scale a + scale b))
          (5 * (mant a * 10 ^ Z.of_nat (scale b) + mant b * 10 ^ Z.of_nat (scale a)))%Z).

(** [a <= b] on floats; false when either is NaN. *)
Definition leq (a b : option float64) : bool :=
  match a, b with
  | Some a, Some b => float_leb a b
  | _, _ => false
  end.

Definition float_cell (x : option float64) : cell :=
  match x with Some x => CFloat x | None => CNaN end.

(** [st.number_input(..., value=v)]: what the user entered, else [v]. *)
Definition number_input {A} (entered : option A) (value : A) : A :=
  default value entered.

Fixpoint imapM {A B} (f : nat → A → M B) (i : nat) (l : list A) : M (list B) :=
  match l with
  | [] => mret []
  | a :: l' => b ← f i a; bs ← imapM f (S i) l'; mret (b :: bs)
  end.

(** The body of the loop over the rows of the chosen template. *)
Definition lectura (plt : DataFrame) (rondas_run : loc) (sel_pl operario : string)
    (entered : nat → option (option float64)) (idx : nat) (r : list cell) : M record :=
  tag ← lift (row_getitem plt r "tag");
  variable ← lift (row_getitem plt r "variable");
  lim_inf ← lift (row_getitem plt r "lim_inf" ≫= as_float);
  lim_sup ← lift (row_getitem plt r "lim_sup" ≫= as_float);
  let valor := number_input (entered idx) (midpoint lim_inf lim_sup) in
  let en_rango := leq lim_inf valor && leq valor lim_sup in
  run ← deref rondas_run;
  let id := (next_sequential_id (Some run) "id" + Z.of_nat idx)%Z in
  ts ← now_iso;
  mret [("id", CInt id); ("ts", CStr ts); ("plantilla", CStr sel_pl); ("tag", tag);
        ("variable", variable); ("valor", float_cell valor);
        ("en_rango", CBool en_rango); ("operario", CStr operario)].

(** The rows shown on the page for template [sel_pl]. *)
Definition lecturas (rondas_plt rondas_run : loc) (sel_pl operario : string)
    (entered : nat → option (option float64)) : M (list record) :=
  plt ← deref rondas_plt;
  pl ← lift (getitem plt "plantilla");
  let subset := select_rows (map (cell_eq_str sel_pl) pl) plt in
  imapM (lectura subset rondas_run sel_pl operario entered) 0 (data subset).

(** The button "Guardar ronda". *)
Definition guardar_ronda (rondas_run : loc) (rows : list record) : M loc :=
  if bool_decide (rows ≠ []) then
    r ← new_DataFrame rows;
    rondas_run' ← pd_concat [rondas_run; r];
    save_csv rondas_run' F_RONDAS_RUN;;
    cache_data_clear;;
    st_success "Ronda guardada.";;
    mret rondas_run'
  else mret rondas_run.

(** The page "Rondas" with the button pressed. *)
Definition pagina_rondas (rondas_plt rondas_run : loc) (sel_pl operario : string)
    (entered : nat → option (option float64)) : M loc :=
  plt ← deref rondas_plt;
  if df_empty plt then st_info "No hay plantillas de rondas.";; mret rondas_run
  else
    rows ← lecturas rondas_plt rondas_run sel_pl operario entered;
    guardar_ronda rondas_run rows.

(** ** Config & IoT *)

(** The button "Evaluar evento". *)
Definition evaluar_evento (notifs : loc) (p_actual p_high : float64) : M loc :=
  if negb (float_leb p_actual p_high) then
    d ← deref notifs;
    let new_id := next_sequential_id (Some d) "id" in
    ts ← now_iso;
    let new_row : record :=
      [("id", CInt new_id); ("ts_creacion", CStr ts); ("tag", CStr "V-210");
       ("titulo", CStr "Alarma presión alta V-210");
       ("motivo", CStr ("P=" +:+ render_float p_actual +:+ " > " +:+ render_float p_high));
       ("prioridad", CStr "P1"); ("estado", CStr "Pendiente");
       ("asignado_a", CStr "Operario 1"); ("ts_recibida", CStr "");
       ("ts_cerrada", CStr ""); ("evidencia", CStr "Evento IoT simulado")] in
    r ← new_DataFrame [new_row];
    notifs' ← pd_concat [notifs; r];
    save_csv notifs' F_NOTIF;;
    cache_data_clear;;
    st_success ("Notificación P1 creada por evento IoT (ID " +:+ pretty new_id +:+ ").");;
    mret notifs'
  else st_info "No se dispara evento (P dentro de umbral).";; mret notifs.

(** A run from an empty directory. *)

Definition world0 (clk : nat → datetime) : World := mkWorld ∅ [] ∅ clk 0 [].

Definition noon : nat → datetime := λ n, mkDate 2024 5 17 12 0 n.


(** * Notions used to state the properties *)

(** The numeric values of a column: what [to_numeric] keeps. *)
Definition numeric_values (s : list cell) : list float64 := omap to_numeric_cell s.

(** [m] is a greatest element of [vs]. *)
Definition is_max (m : float64) (vs : list float64) : Prop :=
  m ∈ vs ∧ ∀ v, v ∈ vs → float_leb v m = true.


(** The files as a stop after [n] system calls leaves them. *)
Definition after_steps (n : nat) (ops : list fs_op) (fs : gmap Path string)
  : gmap Path string :=
  foldl fs_exec fs (take n ops).

(** The temporary file of a table. *)
Definition tmp_path (path : Path) : Path :=
  removelast path ++ [path_name path +:+ ".tmp"].

(** The files once [df] has been saved to [path]. *)
Definition saved (df : DataFrame) (path : Path) (fs : gmap Path string)
  : gmap Path string :=
  <[path:=to_csv df]> (delete (tmp_path path) fs).

(** The frame the button "Aplicar cambio" leaves, for the rows selected
    by [mask] and the clock reading [ts]. *)
Definition cambio_aplicado (mask : list bool) (nuevo_estado evidencia ts : string)
    (df : DataFrame) : DataFrame :=
  let d1 := loc_set mask "estado" (CStr nuevo_estado) df in
  let d2 := if bool_decide (nuevo_estado = "Recibida")
            then loc_set mask "ts_recibida" (CStr ts) d1 else d1 in
  let d3 := if bool_decide (nuevo_estado = "Completada")
            then loc_set mask "ts_cerrada" (CStr ts) d2 else d2 in
  if bool_decide (evidencia ≠ "") then loc_set mask "evidencia" (CStr evidencia) d3
  else d3.

(** The frame the button "Aplicar" of the permits page leaves. *)
Definition ptw_aplicado (mask : list bool) (nuevo aprob_hse ts : string)
    (df : DataFrame) : DataFrame :=
  let d1 := loc_set mask "estado" (CStr nuevo) df in
  let d2 := loc_set mask "aprob_hse" (CStr aprob_hse) d1 in
  if bool_decide (nuevo = "Cerrado") then loc_set mask "ts_cierre" (CStr ts) d2 else d2.

(** [m] started in [w] returns normally, with a result and a final world
    that satisfy [Q]. *)
Definition runs {A} (m : M A) (w : World) (Q : A → World → Prop) : Prop :=
  ∃ a w', m w = (Ok a, w') ∧ Q a w'.

(** One more reading of the clock. *)
Definition tick (w : World) : World :=
  mkWorld (fs w) (heap w) (cache w) (clock w) (S (ticks w)) (notices w).

(** A notifications table of two rows, numbered 1 and 2. *)
Definition notifs_dos : DataFrame :=
  mkDF ["id"; "titulo"; "estado"; "ts_recibida"; "ts_cerrada"; "evidencia"]
       [ [CInt 1; CStr "Chequear V-210"; CStr "Pendiente"; CStr ""; CStr ""; CStr ""];
         [CInt 2; CStr "Verificar sello"; CStr "Pendiente"; CStr ""; CStr ""; CStr ""] ].

(** A notifications table in which two rows carry the identifier 2. *)
Definition notifs_repetidas : DataFrame :=
  mkDF ["id"; "titulo"; "estado"; "ts_recibida"; "ts_cerrada"; "evidencia"]
       [ [CInt 1; CStr "Chequear V-210"; CStr "Pendiente"; CStr ""; CStr ""; CStr ""];
         [CInt 2; CStr "Verificar sello"; CStr "Pendiente"; CStr ""; CStr ""; CStr ""];
         [CInt 2; CStr "Revisar bomba"; CStr "Completada"; CStr "2024-05-01 08:00:00";
          CStr "2024-05-02 09:30:00"; CStr "foto.jpg"] ].

(** A world holding one frame, with its file already written. *)
Definition world_with (df : DataFrame) (path : Path) : World :=
  mkWorld {[path := to_csv df]} [df] ∅ noon 0 [].

(** [pd.concat([df, pd.DataFrame([new_row])], ignore_index=True)]: the
    expression every handler uses to add a row. *)
Definition append_row (df : loc) (new_row : record) : M loc :=
  r ← new_DataFrame [new_row]; pd_concat [df; r].

(** No two rows carry the same integer identifier. *)
Definition ids_unique (df : DataFrame) : Prop :=
  ∀ k i j vi vj,
    cell_at df i "id" = Some vi → cell_at df j "id" = Some vj →
    cell_eq_int k vi = true → cell_eq_int k vj = true → i = j.

(** The outcome of a handler that adds the records [rs] to the frame
    [df] held at [l] and saves the result to [path]: the result [d] is a
    new object at [l'], no other object changes, the file holds [d]. *)
Definition rows_added (w : World) (l : loc) (df : DataFrame) (path : Path)
    (rs : list record) (l' : loc) (w' : World) (d : DataFrame) : Prop :=
  concat [df; DataFrame_of_records rs] = Ok d
  ∧ heap w' !! l' = Some d ∧ l' ≠ l
  ∧ (∀ k x, heap w !! k = Some x → heap w' !! k = Some x)
  ∧ fs w' = saved d path (fs w)
  ∧ cache w' = ∅.

(** The template row [r] can be shown on the page "Rondas": it has a tag
    and a variable, and its limits are there and are not text. *)
Definition lectura_ok (plt : DataFrame) (r : list cell) : Prop :=
  (∃ v, row_getitem plt r "tag" = Ok v)
  ∧ (∃ v, row_getitem plt r "variable" = Ok v)
  ∧ (∃ x, row_getitem plt r "lim_inf" ≫= as_float = Ok x)
  ∧ (∃ x, row_getitem plt r "lim_sup" ≫= as_float = Ok x).

(** The rows of template [sel_pl]. *)
Definition plantilla_rows (plt : DataFrame) (pl : list cell) (sel_pl : string)
  : DataFrame :=
  select_rows (map (cell_eq_str sel_pl) pl) plt.


(** The rows each table is seeded with (the times are those of the
    clock when the table is seeded). *)
Definition is_seed (d : dataset) (df : DataFrame) : Prop :=
  match d with
  | Usuarios => df = DataFrame_of_records seed_usuarios
  | Activos => df = DataFrame_of_records seed_activos
  | Notificaciones =>
      ∃ t1 t2, df = DataFrame_of_records (seed_notif (strftime t1) (strftime t2))
  | RondasPlantillas => df = DataFrame_of_records seed_rondas
  | RondasEjecuciones => df = DataFrame_of_columns rondas_run_columns
  | Incidentes => ∃ t, df = DataFrame_of_records (seed_incidentes (strftime t))
  | PtwOt => ∃ t, df = DataFrame_of_records (seed_ptw (strftime t))
  end.

(** What one block of [seed_if_missing] does: nothing when the file is
    there; otherwise the file gets the seed rows; the files of the other
    tables are not touched. *)
Definition seeds (d : dataset) (w w' : World) : Prop :=
  (∀ d', d' ≠ d → fs w' !! dataset_path d' = fs w !! dataset_path d')
  ∧ (is_Some (fs w !! dataset_path d) → w' = w)
  ∧ (fs w !! dataset_path d = None →
     ∃ df, is_seed d df ∧ fs w' !! dataset_path d = Some (to_csv df)).

(** The blocks of the tables [ds], run one after the other. *)
Fixpoint seeded_in_turn (ds : list dataset) (w w' : World) : Prop :=
  match ds with
  | [] => w' = w
  | d :: ds' => ∃ w1, seeds d w w1 ∧ seeded_in_turn ds' w1 w'
  end.

(** A file that cannot be parsed: its last field opens a quote that is
    never closed. *)
Definition texto_roto : string := "id,titulo" +:+ String LF ("1," +:+ String QUOTE "abc").

(** The notice [_safe_read_csv] shows for a file that cannot be parsed. *)
Definition aviso_roto (path : Path) (e : exn) : notice :=
  Warning ("Archivo dañado o no legible: " +:+ path_name path
           +:+ ". Se carga vacío. Detalle: " +:+ describe e).

(** What a load that found nothing cached must return: an empty frame
    for a missing file, an empty frame and a warning for a file that
    cannot be parsed, the parsed frame otherwise. *)
Definition loaded (w : World) (path : Path) (df : DataFrame) (w' : World) : Prop :=
  match fs w !! path with
  | None => df = DataFrame_empty ∧ notices w' = notices w
  | Some c =>
      match read_csv c with
      | Ok df0 => df = df0 ∧ notices w' = notices w
      | Raise e => df = DataFrame_empty ∧ notices w' = notices w ++ [aviso_roto path e]
      end
  end.

(** A world whose notifications file holds an older text than the frame
    in memory. *)
Definition world_stale : World :=
  mkWorld {[F_NOTIF := "id" +:+ String LF ""]} [mkDF ["id"] [[CInt 1]]] ∅ noon 0 [].

(** A world with the seeded templates and one execution numbered 7. *)
Definition world_rondas : World :=
  mkWorld ∅
    [DataFrame_of_records seed_rondas;
     mkDF rondas_run_columns
          [[CInt 7; CStr "t"; CStr "Ronda Tanques"; CStr "TK-1203"; CStr "Nivel [%]";
            CFloat (Dec 500 1); CBool true; CStr "Operario 1"]]]
    ∅ noon 0 [].

(** The integers of 64 bits, those a column of integers holds. *)
Definition int64 (z : Z) : Prop := (- 2 ^ 63 ≤ z < 2 ^ 63)%Z.

(** A line of fields that is read back as it is written: no field holds
    a carriage return, and a field that is alone on its line is empty
    (it is then written as a pair of quotes) or has a character other
    than spaces and tabs. *)
Definition line_ok (fs : list (list ascii)) : bool :=
  forallb (λ f, negb (bool_decide (CR ∈ f))) fs
  && match fs with
     | [f] => bool_decide (f = []) || negb (forallb is_blank f)
     | _ => true
     end.

(** A frame whose header and rows are such lines: none of its names and
    values holds a carriage return and, when it has a single column,
    none is made of spaces and tabs only. *)
Definition csv_safe (df : DataFrame) : bool :=
  line_ok (map list_ascii_of_string (columns df))
  && forallb (λ r, line_ok (map (λ v, list_ascii_of_string (render_cell v)) r)) (data df).

(** A text without carriage return. *)
Definition plain (s : string) : Prop := CR ∉ list_ascii_of_string s.

(** No name and no value of the frame is written with a carriage return. *)
Definition no_cr (df : DataFrame) : Prop :=
  Forall plain (columns df) ∧ Forall (Forall (λ v, plain (render_cell v))) (data df).

(** The same of a record. *)
Definition record_plain (r : record) : Prop :=
  Forall (λ kv, plain kv.1 ∧ plain (render_cell kv.2)) r.

(** The characters numerals are made of, in any spelling a CSV reader
    takes for a number: digits, signs, the point, the exponent mark,
    blanks and the letters of "infinity". *)
Definition numeral_char (c : ascii) : bool :=
  is_digit c
  || bool_decide (c ∈ list_ascii_of_string "+-.eE infinityINFINITY")
  || (9 <=? nat_of_ascii c)%nat && (nat_of_ascii c <=? 13)%nat.

(** A text that is no numeral: the empty text, or a text with a
    character that no numeral has. *)
Definition is_word (s : string) : bool :=
  bool_decide (s = "") || existsb (λ c, negb (numeral_char c)) (list_ascii_of_string s).

(** ** Identifiers of the data model *)


(** A value of an identifier column of the data model: an integer below
    2^53 in magnitude (the integers a float64 holds exactly, with room
    for one more), written as text with less than 16 digits; or no
    number at all, that is a missing value or a text that is no numeral.
    Numerals with a fraction or an exponent, infinities and truth
    values are not identifiers. *)
Definition id_cell_ok (v : cell) : bool :=
  match v with
  | CInt z => (Z.abs z <? 2 ^ 53)%Z
  | CFloat x =>
      float_eqb x (of_int (int_of_float x)) && (Z.abs (int_of_float x) <? 2 ^ 53)%Z
  | CStr s =>
      is_word s
      || match parse_number s with
         | Some x => bool_decide (s = pretty (mant x)) && (Z.abs (mant x) <? 10 ^ 15)%Z
         | None => false
         end
  | CBool _ => false
  | CNaN => true
  end.


(** The column [c] of the frame holds such values only. *)
Definition id_column_ok (df : DataFrame) (c : string) : Prop :=
  ∀ i v, cell_at df i c = Some v → id_cell_ok v = true.

(** The handler [m] returns a frame with [k] more rows than [df], for
    which the next identifier is [k] above the next identifier of [df]. *)
Definition advances (m : M loc) (w : World) (df : DataFrame) (k : nat) : Prop :=
  ∃ l' w' d,
    m w = (Ok l', w') ∧ heap w' !! l' = Some d
    ∧ nrows d = nrows df + k
    ∧ next_sequential_id (Some d) "id"
      = (next_sequential_id (Some df) "id" + Z.of_nat k)%Z.

(** The handler [m] adds a row to [df] and the next run of the script
    finds it: the load of [path] that follows shows no warning and
    returns the rows of [df] with their identifiers, then the new row
    with the identifier assigned and the state [estado], and the next
    identifier is one more. *)
Definition created_and_reloaded (m : M loc) (w : World) (df : DataFrame) (path : Path)
    (estado : string) : Prop :=
  let n := next_sequential_id (Some df) "id" in
  ∃ l1 w1 l2 w2 d',
    m w = (Ok l1, w1)
    ∧ load_csv path w1 = (Ok l2, w2)
    ∧ heap w2 !! l2 = Some d'
    ∧ notices w2 = notices w1
    ∧ nrows d' = S (nrows df)
    ∧ (∀ i z, cell_at df i "id" = Some (CInt z) → cell_at d' i "id" = Some (CInt z))
    ∧ cell_at d' (nrows df) "id" = Some (CInt n)
    ∧ cell_at d' (nrows df) "estado" = Some (CStr estado)
    ∧ next_sequential_id (Some d') "id" = (n + 1)%Z.



(** ** Inicio: the counters *)

(** [series == t] for a text [t], element by element. *)
Definition series_eq_str (s : list cell) (t : string) : list bool :=
  map (cell_eq_str t) s.

(** [int(mask.sum())] *)
Definition mask_sum (mask : list bool) : Z :=
  Z.of_nat (length (filter (λ b, b = true) mask)).

(** [int((df[c] == t).sum()) if not df.empty else 0] *)
Definition count_eq (df : DataFrame) (c t : string) : res Z :=
  if negb (df_empty df) then s ← getitem df c; Ok (mask_sum (series_eq_str s t))
  else Ok 0%Z.

(** [len(df) if not df.empty else 0] *)
Definition len_or_zero (df : DataFrame) : Z :=
  if negb (df_empty df) then Z.of_nat (nrows df) else 0%Z.

Record Kpis := mkKpis { k_total : Z; k_pend : Z; k_rec : Z; k_comp : Z }.

(** The four counters of the page "Inicio". *)
Definition inicio_kpis (notifs : DataFrame) : res Kpis :=
  let k_total := len_or_zero notifs in
  k_pend ← count_eq notifs "estado" "Pendiente";
  k_rec ← count_eq notifs "estado" "Recibida";
  k_comp ← count_eq notifs "estado" "Completada";
  Ok (mkKpis k_total k_pend k_rec k_comp).

(** ** Gestión de usuarios *)

(** The length in bytes of the white-space character a text in UTF-8
    starts with, 0 when it starts with none: the ASCII blanks and
    separators (9-13, 28-32) and the Unicode spaces U+0085, U+00A0,
    U+1680, U+2000-U+200A, U+2028, U+2029, U+202F, U+205F, U+3000. *)
Definition space_width (l : list ascii) : nat :=
  match map nat_of_ascii (take 3 l) with
  | b :: rest =>
      if ((9 <=? b) && (b <=? 13) || (28 <=? b) && (b <=? 32))%nat then 1
      else
        match b, rest with
        | 194, 133 :: _ | 194, 160 :: _ => 2
        | 225, [154; 128] => 3
        | 226, [128; x] =>
            if ((128 <=? x) && (x <=? 138) || (x =? 168) || (x =? 169) || (x =? 175))%nat
            then 3 else 0
        | 226, [129; 159] => 3
        | 227, [128; 128] => 3
        | _, _ => 0
        end
  | [] => 0
  end.

(** The same for the character a text ends with. *)
Definition space_width_end (l : list ascii) : nat :=
  let n := length l in
  if bool_decide (1 ≤ n ∧ space_width (drop (n - 1) l) = 1) then 1
  else if bool_decide (2 ≤ n ∧ space_width (drop (n - 2) l) = 2) then 2
  else if bool_decide (3 ≤ n ∧ space_width (drop (n - 3) l) = 3) then 3
  else 0.

Fixpoint lstrip (fuel : nat) (l : list ascii) : list ascii :=
  match fuel with
  | O => l
  | S fuel' =>
      match space_width l with
      | O => l
      | k => lstrip fuel' (drop k l)
      end
  end.

Fixpoint rstrip (fuel : nat) (l : list ascii) : list ascii :=
  match fuel with
  | O => l
  | S fuel' =>
      match space_width_end l with
      | O => l
      | k => rstrip fuel' (take (length l - k) l)
      end
  end.

(** [s.strip()] *)
Definition py_strip (s : string) : string :=
  let l := list_ascii_of_string s in
  let l1 := lstrip (length l) l in
  string_of_list_ascii (rstrip (length l1) l1).

(** The form "Agregar": the result is the frame the variable
    [usuarios] is bound to afterwards. *)
Definition agregar_usuario (usuarios : loc) (submitted : bool)
    (nombre rol area : string) : M loc :=
  if submitted && bool_decide (py_strip nombre ≠ "") then
    d ← deref usuarios;
    let new_row : record :=
      [("user_id", CStr ("u" +:+ pretty (nrows d + 1)%nat)); ("nombre", CStr nombre);
       ("rol", CStr rol); ("area", CStr area)] in
    r ← new_DataFrame [new_row];
    usuarios' ← pd_concat [usuarios; r];
    save_csv usuarios' F_USUARIOS;;
    cache_data_clear;;
    st_success "Usuario agregado.";;
    mret usuarios'
  else mret usuarios.

(** User identifiers tell the rows apart, and those of the form
    [u<k>] have [k] at most the number of rows. *)
Definition user_ids_ok (df : DataFrame) : Prop :=
  ("user_id" ∈ columns df ∨ nrows df = 0)
  ∧ (∀ i j v, cell_at df i "user_id" = Some v → cell_at df j "user_id" = Some v → i = j)
  ∧ (∀ i (k : nat), cell_at df i "user_id" = Some (CStr ("u" +:+ pretty k)) →
       k ≤ nrows df).

(** ** The start of the script *)

(** The seven frames the script binds at its start. *)
Record Frames := mkFrames {
  f_usuarios : loc; f_activos : loc; f_notifs : loc; f_rondas_plt : loc;
  f_rondas_run : loc; f_incidentes : loc; f_ptwot : loc
}.

Definition frame_of (fr : Frames) (d : dataset) : loc :=
  match d with
  | Usuarios => f_usuarios fr
  | Activos => f_activos fr
  | Notificaciones => f_notifs fr
  | RondasPlantillas => f_rondas_plt fr
  | RondasEjecuciones => f_rondas_run fr
  | Incidentes => f_incidentes fr
  | PtwOt => f_ptwot fr
  end.

(** The top of the script: the seeds, then the seven loads. *)
Definition startup : M Frames :=
  seed_if_missing;;
  usuarios ← load_csv F_USUARIOS;
  activos ← load_csv F_ACTIVOS;
  notifs ← load_csv F_NOTIF;
  rondas_plt ← load_csv F_RONDAS_PLT;
  rondas_run ← load_csv F_RONDAS_RUN;
  incidentes ← load_csv F_INCIDENTES;
  ptwot ← load_csv F_PTWOT;
  mret (mkFrames usuarios activos notifs rondas_plt rondas_run incidentes ptwot).

(** What a frame read from the file of a table must be: the parsed
    content, or an empty frame when there is no file or it cannot be
    parsed. *)
Definition frame_of_file (content : option string) (df : DataFrame) : Prop :=
  match content with
  | None => df = DataFrame_empty
  | Some c =>
      match read_csv c with
      | Ok df0 => df = df0
      | Raise _ => df = DataFrame_empty
      end
  end.

(** The warnings for the tables whose files cannot be parsed. *)
Definition warnings_for (fs : gmap Path string) (ds : list dataset) : list notice :=
  omap (λ d, match fs !! dataset_path d with
             | Some c =>
                 match read_csv c with
                 | Ok _ => None
                 | Raise e => Some (aviso_roto (dataset_path d) e)
                 end
             | None => None
             end) ds.

(** ** Helpers visuales *)

(** [str(v)] *)
Definition py_str (v : cell) : string :=
  match v with
  | CInt z => pretty z
  | CFloat x => render_float x
  | CStr s => s
  | CBool true => "True"
  | CBool false => "False"
  | CNaN => "nan"
  end.

Definition estado_palette : gmap string string :=
  list_to_map
    [("Pendiente", "🟡"); ("Recibida", "🟠"); ("Completada", "🟢"); ("Abierto", "🟠");
     ("Cerrado", "🟢"); ("Borrador", "⚪"); ("Aprobado", "🟦")].

(** [d.get(key, default)] for a dict whose keys are texts: a key that
    is no text is never found. *)
Definition dict_get {A} (d : gmap string A) (key : cell) (dflt : A) : A :=
  match key with
  | CStr s => default dflt (d !! s)
  | _ => dflt
  end.

Definition chip_estado (estado : cell) : string :=
  dict_get estado_palette estado "⚪" +:+ " " +:+ py_str estado.

Definition prioridad_palette : gmap string cell :=
  list_to_map
    [("P1", CStr "🔴 P1"); ("P2", CStr "🟠 P2"); ("P3", CStr "🟡 P3"); ("P4", CStr "🟢 P4")].

Definition chip_prioridad (p : cell) : cell := dict_get prioridad_palette p p.

(** [df[c] = values]: the column is replaced; a column that does not
    exist yet is added as the last one. *)
Definition set_column (c : string) (vals : list cell) (df : DataFrame) : DataFrame :=
  match col_index c (columns df) with
  | Some j => mkDF (columns df) (zip_with (λ v r, <[j:=v]> r) vals (data df))
  | None => mkDF (columns df ++ [c]) (zip_with (λ v r, r ++ [v]) vals (data df))
  end.

(** [df[c] = df[c].apply(f)] on the object itself. *)
Definition apply_column (df : loc) (c : string) (f : cell → cell) : M unit :=
  d ← deref df; s ← lift (getitem d c); store df (set_column c (map f s) d).

(** The frame the inbox of the notifications shows (lines 244-246,
    before it is sorted for display): a copy with the chips in place of
    the states and the priorities. *)
Definition bandeja_df_show (notifs : loc) : M loc :=
  d ← deref notifs;
  df_show ← alloc d;
  apply_column df_show "estado" (λ v, CStr (chip_estado v));;
  apply_column df_show "prioridad" chip_prioridad;;
  mret df_show.

(** Running [m] leaves every file alone, apart from the file of the
    table [d] and its temporary file. *)
Definition writes_only {A} (d : dataset) (m : M A) (w : World) : Prop :=
  ∀ p, p ≠ dataset_path d → p ≠ tmp_path (dataset_path d) →
    fs (m w).2 !! p = fs w !! p.

(** ** Time stamps as texts *)

(** [a < b] on texts, as Python compares them: character by character,
    a proper prefix first. *)
Fixpoint lex_ltb (a b : list ascii) : bool :=
  match a, b with
  | [], [] => false
  | [], _ :: _ => true
  | _ :: _, [] => false
  | x :: a', y :: b' =>
      if (nat_of_ascii x <? nat_of_ascii y)%nat then true
      else if (nat_of_ascii x =? nat_of_ascii y)%nat then lex_ltb a' b'
      else false
  end.

Definition str_ltb (s t : string) : bool :=
  lex_ltb (list_ascii_of_string s) (list_ascii_of_string t).

(** [d1 < d2] on readings of the clock. *)
Definition datetime_ltb (d1 d2 : datetime) : bool :=
  if (year d1 <? year d2)%nat then true
  else if negb (year d1 =? year d2)%nat then false
  else if (month d1 <? month d2)%nat then true
  else if negb (month d1 =? month d2)%nat then false
  else if (day d1 <? day d2)%nat then true
  else if negb (day d1 =? day d2)%nat then false
  else if (hour d1 <? hour d2)%nat then true
  else if negb (hour d1 =? hour d2)%nat then false
  else if (minute d1 <? minute d2)%nat then true
  else if negb (minute d1 =? minute d2)%nat then false
  else (second d1 <? second d2)%nat.

(** A reading the clock can give: a year of four digits, and month,
    day, hour, minute and second in their ranges. *)
Definition valid_datetime (d : datetime) : Prop :=
  1000 ≤ year d < 10 ^ 4 ∧ 1 ≤ month d ≤ 12 ∧ 1 ≤ day d ≤ 31
  ∧ hour d ≤ 23 ∧ minute d ≤ 59 ∧ second d ≤ 59.

(** * Properties *)

(** ** The model at work *)

Example next_id_372 :
  next_sequential_id (Some (mkDF ["id"] [[CInt 3]; [CInt 7]; [CInt 2]])) "id" = 8%Z.
Proof. reflexivity. Qed.

Example next_id_mixed :
  next_sequential_id
    (Some (mkDF ["id"] [[CStr "3"]; [CStr "abc"]; [CNaN]; [CStr "2.5"]])) "id" = 4%Z.
Proof. reflexivity. Qed.

Example to_csv_small :
  to_csv (mkDF ["id"; "titulo"] [[CInt 1; CStr "a,b"]; [CInt 2; CNaN]])
  = string_of_list_ascii
      (list_ascii_of_string "id,titulo" ++ [LF]
       ++ list_ascii_of_string "1," ++ [QUOTE] ++ list_ascii_of_string "a,b" ++ [QUOTE; LF]
       ++ list_ascii_of_string "2," ++ [LF]).
Proof. reflexivity. Qed.

Example render_float_ex :
  render_float (Dec 125 1) = "12.5" ∧ render_float (Dec (-25) 2) = "-0.25"
  ∧ render_float (Dec 3 0) = "3.0" ∧ render_float (Dec 1005 3) = "1.005".
Proof. repeat split; reflexivity. Qed.

Example read_csv_small :
  read_csv (to_csv (mkDF ["id"; "titulo"] [[CInt 1; CStr "a,b"]; [CInt 2; CNaN]]))
  = Ok (mkDF ["id"; "titulo"] [[CInt 1; CStr "a,b"]; [CInt 2; CStr ""]]).
Proof. reflexivity. Qed.

Example read_csv_empty_frame : read_csv (to_csv DataFrame_empty) = Raise EmptyDataError.
Proof. reflexivity. Qed.

Example read_csv_header_only :
  read_csv (to_csv (DataFrame_of_columns ["id"; "ts"])) = Ok (mkDF ["id"; "ts"] []).
Proof. reflexivity. Qed.

Example strftime_ex :
  strftime (mkDate 2024 3 9 7 5 0) = "2024-03-09 07:05:00".
Proof. reflexivity. Qed.

Example seeded_notifs :
  fst ((l ← (seed_if_missing;; load_csv F_NOTIF); deref l) (world0 noon))
  = Ok (DataFrame_of_records
          (seed_notif "2024-05-17 12:00:00" "2024-05-17 12:00:01")).
Proof. vm_compute. reflexivity. Qed.

(** ** Decimal floats *)

Lemma pow10_pos (n : nat) : (0 < 10 ^ Z.of_nat n)%Z.
Proof. apply Z.pow_pos_nonneg; lia. Qed.

Lemma float_leb_refl (a : float64) : float_leb a a = true.
Proof. unfold float_leb. apply Z.leb_le. lia. Qed.

Lemma float_leb_trans (a b c : float64) :
  float_leb a b = true → float_leb b c = true → float_leb a c = true.
Proof.
  unfold float_leb. rewrite !Z.leb_le. intros H1 H2.
  pose proof (pow10_pos (scale a)). pose proof (pow10_pos (scale b)).
  pose proof (pow10_pos (scale c)).
  apply (Z.mul_le_mono_pos_r _ _ (10 ^ Z.of_nat (scale b))); [done|].
  transitivity (mant b * 10 ^ Z.of_nat (scale a) * 10 ^ Z.of_nat (scale c))%Z.
  - replace (mant a * 10 ^ Z.of_nat (scale c) * 10 ^ Z.of_nat (scale b))%Z
      with (mant a * 10 ^ Z.of_nat (scale b) * 10 ^ Z.of_nat (scale c))%Z by ring.
    apply Z.mul_le_mono_pos_r; done.
  - replace (mant b * 10 ^ Z.of_nat (scale a) * 10 ^ Z.of_nat (scale c))%Z
      with (mant b * 10 ^ Z.of_nat (scale c) * 10 ^ Z.of_nat (scale a))%Z by ring.
    replace (mant c * 10 ^ Z.of_nat (scale a) * 10 ^ Z.of_nat (scale b))%Z
      with (mant c * 10 ^ Z.of_nat (scale b) * 10 ^ Z.of_nat (scale a))%Z by ring.
    apply Z.mul_le_mono_pos_r; done.
Qed.

Lemma float_leb_total (a b : float64) :
  float_leb a b = false → float_leb b a = true.
Proof. unfold float_leb. rewrite Z.leb_gt, Z.leb_le. lia. Qed.

Lemma float_max_ub_l (a b : float64) : float_leb a (float_max a b) = true.
Proof.
  unfold float_max. destruct (float_leb a b) eqn:E; [done | apply float_leb_refl].
Qed.

Lemma float_max_ub_r (a b : float64) : float_leb b (float_max a b) = true.
Proof.
  unfold float_max. destruct (float_leb a b) eqn:E;
    [apply float_leb_refl | by apply float_leb_total].
Qed.

Lemma float_max_cases (a b : float64) : float_max a b = a ∨ float_max a b = b.
Proof. unfold float_max. destruct (float_leb a b); auto. Qed.

(** Floats of equal value have the same integer part. *)
Lemma int_of_float_equiv (a b : float64) :
  float_leb a b = true → float_leb b a = true → int_of_float a = int_of_float b.
Proof.
  unfold float_leb, int_of_float. rewrite !Z.leb_le. intros H1 H2.
  pose proof (pow10_pos (scale a)). pose proof (pow10_pos (scale b)).
  rewrite <- (Z.quot_mul_cancel_r (mant a) _ (10 ^ Z.of_nat (scale b))) by lia.
  rewrite <- (Z.quot_mul_cancel_r (mant b) _ (10 ^ Z.of_nat (scale a))) by lia.
  f_equal; lia.
Qed.



(** ** Columns *)

Lemma col_index_Some (c : string) (cols : list string) (j : nat) :
  col_index c cols = Some j → cols !! j = Some c.
Proof.
  revert j. induction cols as [|c' cols IH]; intros j; simpl; [done|].
  destruct (decide (c = c')) as [->|Hne].
  - intros [= <-]. done.
  - destruct (col_index c cols) as [j'|]; simpl; [|done].
    intros [= <-]. simpl. by apply IH.
Qed.

Lemma col_index_None (c : string) (cols : list string) :
  col_index c cols = None ↔ c ∉ cols.
Proof.
  induction cols as [|c' cols IH]; simpl.
  - split; [intros _; apply not_elem_of_nil | done].
  - destruct (decide (c = c')) as [->|Hne].
    + split; [done | intros H; exfalso; apply H; left].
    + rewrite not_elem_of_cons. destruct (col_index c cols); simpl.
      * split; [done|]. intros [_ H]. by apply IH in H.
      * split; [|done]. intros _. split; [done | by apply IH].
Qed.

Lemma col_index_is_Some (c : string) (cols : list string) :
  c ∈ cols → ∃ j, col_index c cols = Some j.
Proof.
  intros H. destruct (col_index c cols) as [j|] eqn:E; [eauto|].
  by apply col_index_None in E.
Qed.

Lemma col_index_lt (c : string) (cols : list string) (j : nat) :
  col_index c cols = Some j → (j < length cols)%nat.
Proof. intros H. apply col_index_Some in H. by apply lookup_lt_Some in H. Qed.

Lemma col_index_inj (c c' : string) (cols : list string) (j : nat) :
  col_index c cols = Some j → col_index c' cols = Some j → c = c'.
Proof. intros H1%col_index_Some H2%col_index_Some. congruence. Qed.

Lemma getitem_Ok (df : DataFrame) (c : string) :
  c ∈ columns df → ∃ s, getitem df c = Ok s.
Proof.
  intros [j Hj]%col_index_is_Some. unfold getitem. rewrite Hj. eauto.
Qed.

Lemma getitem_length (df : DataFrame) (c : string) (s : list cell) :
  getitem df c = Ok s → length s = nrows df.
Proof.
  unfold getitem. destruct (col_index c (columns df)); [|done].
  intros [= <-]. by rewrite length_map.
Qed.

(** An entry of a column is the field of its row. *)
Lemma getitem_lookup (df : DataFrame) (c : string) (s : list cell) (i : nat) (v : cell) :
  wf df → getitem df c = Ok s → s !! i = Some v ↔ cell_at df i c = Some v.
Proof.
  intros Hwf. unfold getitem, cell_at.
  destruct (col_index c (columns df)) as [j|] eqn:Hj; [|done].
  intros [= <-]. simpl. rewrite list_lookup_fmap.
  destruct (data df !! i) as [r|] eqn:Hr; simpl; [|done].
  assert (length r = length (columns df)) as Hlen.
  { eapply (proj1 (Forall_forall _ _) Hwf). by eapply list_elem_of_lookup_2. }
  apply col_index_lt in Hj.
  destruct (lookup_lt_is_Some_2 r j) as [x Hx]; [lia|].
  rewrite Hx. done.
Qed.

(** ** Sequential identifiers *)

Lemma series_max_spec (s : list cell) :
  match series_max (to_numeric s) with
  | Some m => is_max m (numeric_values s)
  | None => numeric_values s = []
  end.
Proof.
  induction s as [|v s IH]; simpl; [done|].
  unfold numeric_values in *. simpl.
  destruct (to_numeric_cell v) as [x|]; simpl; [|exact IH].
  fold (to_numeric s).
  destruct (series_max (to_numeric s)) as [m|].
  - destruct IH as [Hin Hub]. split.
    + destruct (float_max_cases x m) as [-> | ->]; [left | by right].
    + intros y [-> | Hy]%elem_of_cons; [apply float_max_ub_l|].
      eapply float_leb_trans; [by apply Hub | apply float_max_ub_r].
  - rewrite IH. split; [left|].
    intros y [-> | Hy]%elem_of_cons; [apply float_leb_refl | by apply elem_of_nil in Hy].
Qed.

Lemma is_max_int_part (m m' : float64) (vs : list float64) :
  is_max m vs → is_max m' vs → int_of_float m = int_of_float m'.
Proof.
  intros [Hin Hub] [Hin' Hub']. apply int_of_float_equiv; auto.
Qed.

(** The value computed inside the [try], once the guards have passed. *)
Lemma next_sequential_id_unfold (df : DataFrame) (c : string) (s : list cell) :
  getitem df c = Ok s →
  next_sequential_id (Some df) c =
    if df_empty df then 1%Z
    else match series_max (to_numeric s) with
         | Some m => (int_of_float m + 1)%Z
         | None => 1%Z
         end.
Proof.
  intros Hs. unfold next_sequential_id, has_column.
  destruct (df_empty df); [done|]. simpl.
  assert (c ∈ columns df) as Hc.
  { unfold getitem in Hs. destruct (col_index c (columns df)) eqn:E; [|done].
    apply col_index_Some in E. by eapply list_elem_of_lookup_2. }
  rewrite bool_decide_eq_true_2 by done. simpl. rewrite Hs. simpl.
  destruct (series_max (to_numeric s)); done.
Qed.

Lemma df_empty_no_values (df : DataFrame) (c : string) (s : list cell) :
  df_empty df = true → getitem df c = Ok s → s = [].
Proof.
  unfold df_empty, getitem. intros He.
  destruct (col_index c (columns df)) as [j|] eqn:Hj; [|done]. intros [= <-].
  apply orb_true_iff in He as [He | He]; apply bool_decide_eq_true in He.
  - rewrite He in Hj. done.
  - by rewrite He.
Qed.


(** ** Atomic save *)

Lemma append_cons (x : ascii) (a s : string) : String x a +:+ s = String x (a +:+ s).
Proof. reflexivity. Qed.

Lemma append_snoc (a : string) (c : ascii) (r : string) :
  (a +:+ String c "") +:+ r = a +:+ String c r.
Proof. induction a as [|x a IH]; [done|]. by rewrite !append_cons, IH. Qed.

Lemma append_empty_r (a : string) : a +:+ "" = a.
Proof. induction a as [|x a IH]; [done|]. by rewrite append_cons, IH. Qed.

(** Writing characters one by one appends them to the file. *)
Lemma foldl_write (p : Path) (chars : list ascii) (fs : gmap Path string) (acc : string) :
  fs !! p = Some acc →
  foldl fs_exec fs (map (λ c, OpWrite p (String c "")) chars)
  = <[p:=acc +:+ string_of_list_ascii chars]> fs.
Proof.
  revert fs acc. induction chars as [|c chars IH]; intros fs acc Hp; simpl.
  - rewrite append_empty_r. by rewrite insert_id.
  - rewrite Hp. simpl.
    rewrite (IH _ (acc +:+ String c "")) by apply lookup_insert_eq.
    by rewrite insert_insert_eq, append_snoc.
Qed.

(** After [n] steps of a write the file holds the first [n - 1]
    characters and the other files are as they were. *)
Lemma after_steps_write (p : Path) (content : string) (fs : gmap Path string) (n : nat) :
  after_steps (S n) (write_ops p content) fs
  = <[p:=string_of_list_ascii (take n (list_ascii_of_string content))]> fs.
Proof.
  unfold after_steps, write_ops. simpl. rewrite <- fmap_take.
  rewrite (foldl_write p _ _ "") by apply lookup_insert_eq.
  by rewrite insert_insert_eq.
Qed.

Lemma length_write_ops (p : Path) (content : string) :
  length (write_ops p content) = S (String.length content).
Proof.
  unfold write_ops. simpl. rewrite length_map. f_equal.
  induction content; simpl; [done | by f_equal].
Qed.

Lemma length_list_ascii (s : string) : length (list_ascii_of_string s) = String.length s.
Proof. induction s; simpl; [done | by f_equal]. Qed.

Lemma foldl_write_ops (p : Path) (content : string) (fs : gmap Path string) :
  foldl fs_exec fs (write_ops p content) = <[p:=content]> fs.
Proof.
  pose proof (after_steps_write p content fs (String.length content)) as Hw.
  unfold after_steps in Hw.
  rewrite take_ge in Hw by (rewrite length_write_ops; lia).
  rewrite take_ge in Hw by (rewrite length_list_ascii; lia).
  by rewrite string_of_list_ascii_of_string in Hw.
Qed.

(** The stops of a save: before the last call the target is untouched;
    right before it the temporary file holds the whole text; after it
    the target holds the whole text and the temporary file is gone. *)
Lemma save_csv_ops_steps (df : DataFrame) (tmp path : Path)
    (fs : gmap Path string) (old : string) (n : nat) :
  tmp ≠ path → fs !! path = Some old →
  let ops := save_csv_ops df tmp path in
  let fs' := after_steps n ops fs in
  (n < length ops → fs' !! path = Some old)
  ∧ (S n = length ops → fs' !! tmp = Some (to_csv df))
  ∧ (length ops ≤ n → fs' !! path = Some (to_csv df) ∧ fs' !! tmp = None).
Proof.
  intros Hne Hold ops fs'. subst ops fs'. unfold save_csv_ops.
  rewrite length_app, length_write_ops.
  change (length [OpReplace tmp path]) with 1.
  pose proof (length_list_ascii (to_csv df)) as Hlen.
  split; [|split].
  - intros Hn. unfold after_steps.
    rewrite take_app_le by (rewrite length_write_ops; lia).
    destruct n as [|n]; [done|].
    fold (after_steps (S n) (write_ops tmp (to_csv df)) fs).
    rewrite after_steps_write. by rewrite lookup_insert_ne.
  - intros Hn. unfold after_steps.
    rewrite take_app_le by (rewrite length_write_ops; lia).
    assert (n = S (String.length (to_csv df))) as -> by lia.
    fold (after_steps (S (String.length (to_csv df))) (write_ops tmp (to_csv df)) fs).
    rewrite after_steps_write, lookup_insert_eq.
    rewrite take_ge by lia. by rewrite string_of_list_ascii_of_string.
  - intros Hn. unfold after_steps.
    rewrite take_ge by (rewrite length_app, length_write_ops; simpl; lia).
    rewrite foldl_app, foldl_write_ops. simpl. rewrite lookup_insert_eq.
    rewrite lookup_insert_eq. split; [done|].
    rewrite lookup_insert_ne by done. apply lookup_delete_eq.
Qed.

(** The files after a whole save. *)
Lemma save_csv_ops_final (df : DataFrame) (tmp path : Path) (fs : gmap Path string) :
  foldl fs_exec fs (save_csv_ops df tmp path) = <[path:=to_csv df]> (delete tmp fs).
Proof.
  unfold save_csv_ops. rewrite foldl_app, foldl_write_ops. simpl.
  rewrite lookup_insert_eq. by rewrite delete_insert_eq.
Qed.

(** The temporary file of each table is its file name with [.tmp] added. *)
Lemma dataset_tmp (d : dataset) :
  with_suffix (dataset_path d) (path_suffix (dataset_path d) +:+ ".tmp")
  = Ok (removelast (dataset_path d) ++ [path_name (dataset_path d) +:+ ".tmp"]).
Proof. destruct d; reflexivity. Qed.

Lemma dataset_tmp_ne (d d' : dataset) :
  removelast (dataset_path d) ++ [path_name (dataset_path d) +:+ ".tmp"] ≠ dataset_path d'.
Proof. destruct d, d'; discriminate. Qed.

Lemma save_csv_run (d : dataset) (l : loc) (df : DataFrame) (w : World) :
  heap w !! l = Some df →
  save_csv l (dataset_path d) w
  = (Ok (), set_fs (λ f, <[dataset_path d:=to_csv df]>
                          (delete (removelast (dataset_path d)
                                   ++ [path_name (dataset_path d) +:+ ".tmp"]) f)) w).
Proof.
  intros Hl. unfold save_csv. unfold mbind, M_bind, lift. rewrite dataset_tmp.
  unfold deref. rewrite Hl. unfold run_ops, set_fs. by rewrite save_csv_ops_final.
Qed.

(** C1: [save_csv] writes the whole text of the frame to a temporary
    file, named as the target with [.tmp] added, and only then moves it
    over the target in one step; when the target held [old] before, a
    stop after any number of steps leaves the target holding either
    [old] or the whole new text. *)
Theorem save_csv_atomic (d : dataset) (l : loc) (df : DataFrame) (w : World) (old : string) :
  heap w !! l = Some df →
  fs w !! dataset_path d = Some old →
  let path := dataset_path d in
  let tmp := removelast path ++ [path_name path +:+ ".tmp"] in
  let ops := save_csv_ops df tmp path in
  with_suffix path (path_suffix path +:+ ".tmp") = Ok tmp
  ∧ (∃ w', save_csv l path w = (Ok (), w') ∧ fs w' = after_steps (length ops) ops (fs w))
  ∧ ∀ n, (n < length ops → after_steps n ops (fs w) !! path = Some old)
       ∧ (S n = length ops → after_steps n ops (fs w) !! tmp = Some (to_csv df))
       ∧ (length ops ≤ n → after_steps n ops (fs w) !! path = Some (to_csv df)
                              ∧ after_steps n ops (fs w) !! tmp = None)
       ∧ (after_steps n ops (fs w) !! path = Some old
          ∨ after_steps n ops (fs w) !! path = Some (to_csv df)).
Proof.
  intros Hl Hold path tmp ops. split; [apply dataset_tmp|]. split.
  - eexists. split; [by apply save_csv_run|].
    unfold after_steps, ops. rewrite take_ge by done. by rewrite save_csv_ops_final.
  - intros n.
    destruct (save_csv_ops_steps df tmp path (fs w) old n (dataset_tmp_ne d d) Hold)
      as (H1 & H2 & H3).
    split; [done|]. split; [done|]. split; [done|].
    destruct (decide (n < length ops)%nat) as [Hlt|Hge]; [left; auto | right].
    apply H3. fold ops. lia.
Qed.

Lemma save_csv_atomic_witness :
  after_steps 3 (save_csv_ops (mkDF ["id"] [[CInt 1]])
                   ["data"; "notificaciones.csv.tmp"] F_NOTIF) (fs world_stale) !! F_NOTIF
  = Some ("id" +:+ String LF "")
  ∧ after_steps 7 (save_csv_ops (mkDF ["id"] [[CInt 1]])
                     ["data"; "notificaciones.csv.tmp"] F_NOTIF) (fs world_stale) !! F_NOTIF
    = Some (to_csv (mkDF ["id"] [[CInt 1]])).
Proof.
  destruct (save_csv_atomic Notificaciones 0 (mkDF ["id"] [[CInt 1]]) world_stale
              ("id" +:+ String LF "") eq_refl eq_refl) as (_ & _ & H).
  split.
  - destruct (H 3) as (Hold & _). apply Hold. vm_compute. lia.
  - destruct (H 7) as (_ & _ & Hnew & _). apply Hnew. vm_compute. lia.
Defined.

(** ** Updating a frame in place *)

Lemma wf_row (df : DataFrame) (i : nat) (r : list cell) :
  wf df → data df !! i = Some r → length r = length (columns df).
Proof.
  intros Hwf Hr. eapply (proj1 (Forall_forall _ _) Hwf).
  by eapply list_elem_of_lookup_2.
Qed.

Lemma col_index_app_l (c : string) (cols more : list string) (j : nat) :
  col_index c cols = Some j → col_index c (cols ++ more) = Some j.
Proof.
  revert j. induction cols as [|c' cols IH]; intros j; simpl; [done|].
  destruct (decide (c = c')); [done|].
  destruct (col_index c cols) as [j'|] eqn:E; simpl; [|done].
  intros [= <-]. by rewrite (IH j').
Qed.

Lemma col_index_snoc_new (c : string) (cols : list string) :
  c ∉ cols → col_index c (cols ++ [c]) = Some (length cols).
Proof.
  induction cols as [|c' cols IH]; simpl; intros Hc.
  - by rewrite decide_True.
  - apply not_elem_of_cons in Hc as [Hne Hc].
    rewrite decide_False by done. by rewrite IH.
Qed.

Lemma col_index_snoc_other (c c' : string) (cols : list string) :
  c' ≠ c → col_index c' (cols ++ [c]) = col_index c' cols.
Proof.
  intros Hne. induction cols as [|x cols IH]; simpl.
  - by rewrite decide_False.
  - destruct (decide (c' = x)); [done|]. by rewrite IH.
Qed.

Lemma loc_set_columns (mask : list bool) (c : string) (v : cell) (df : DataFrame) :
  c ∈ columns df → columns (loc_set mask c v df) = columns df.
Proof.
  intros [j Hj]%col_index_is_Some. unfold loc_set. by rewrite Hj.
Qed.

Lemma loc_set_columns_incl (mask : list bool) (c c' : string) (v : cell) (df : DataFrame) :
  c' ∈ columns df → c' ∈ columns (loc_set mask c v df).
Proof.
  intros Hc. unfold loc_set. destruct (col_index c (columns df)); simpl; [done|].
  apply elem_of_app. by left.
Qed.

Lemma loc_set_nrows (mask : list bool) (c : string) (v : cell) (df : DataFrame) :
  length mask = nrows df → nrows (loc_set mask c v df) = nrows df.
Proof.
  unfold nrows, loc_set. intros Hlen.
  destruct (col_index c (columns df)); simpl; rewrite length_zip_with; lia.
Qed.

Lemma loc_set_wf (mask : list bool) (c : string) (v : cell) (df : DataFrame) :
  wf df → wf (loc_set mask c v df).
Proof.
  unfold wf, loc_set. intros Hwf.
  destruct (col_index c (columns df)) as [j|]; simpl;
    apply Forall_forall; intros r' (i & b & r & -> & Hb & Hr)%elem_of_lookup_zip_with;
    pose proof (wf_row df i r Hwf Hr) as Hlen.
  - destruct b; [by rewrite length_insert | done].
  - rewrite !length_app. simpl. lia.
Qed.

(** A field other than the one assigned keeps its value, in every row. *)
Lemma cell_at_loc_set_other (mask : list bool) (c c' : string) (v : cell)
    (df : DataFrame) (i : nat) :
  wf df → length mask = nrows df → c' ≠ c →
  cell_at (loc_set mask c v df) i c' = cell_at df i c'.
Proof.
  intros Hwf Hlen Hne. unfold cell_at, loc_set.
  destruct (col_index c (columns df)) as [j|] eqn:Hj; simpl.
  - destruct (col_index c' (columns df)) as [j'|] eqn:Hj'; simpl; [|done].
    rewrite lookup_zip_with.
    destruct (data df !! i) as [r|] eqn:Hr; simpl.
    + destruct (lookup_lt_is_Some_2 mask i) as [b Hb].
      { rewrite Hlen. by eapply lookup_lt_Some. }
      rewrite Hb. simpl. destruct b; [|done].
      apply list_lookup_insert_ne. intros ->. apply Hne. by eapply col_index_inj.
    + by destruct (mask !! i).
  - rewrite col_index_snoc_other by done.
    destruct (col_index c' (columns df)) as [j'|] eqn:Hj'; simpl; [|done].
    rewrite lookup_zip_with.
    destruct (data df !! i) as [r|] eqn:Hr; simpl.
    + destruct (lookup_lt_is_Some_2 mask i) as [b Hb].
      { rewrite Hlen. by eapply lookup_lt_Some. }
      rewrite Hb. simpl. apply lookup_app_l.
      rewrite (wf_row df i r Hwf Hr). by eapply col_index_lt.
    + by destruct (mask !! i).
Qed.

(** The field assigned takes the new value in the selected rows. *)
Lemma cell_at_loc_set_hit (mask : list bool) (c : string) (v : cell)
    (df : DataFrame) (i : nat) :
  wf df → mask !! i = Some true → i < nrows df →
  cell_at (loc_set mask c v df) i c = Some v.
Proof.
  intros Hwf Hb Hi. unfold cell_at, loc_set.
  destruct (lookup_lt_is_Some_2 (data df) i Hi) as [r Hr].
  pose proof (wf_row df i r Hwf Hr) as Hlen.
  destruct (col_index c (columns df)) as [j|] eqn:Hj; simpl.
  - rewrite Hj. simpl. rewrite lookup_zip_with, Hb, Hr. simpl.
    apply list_lookup_insert_eq. rewrite Hlen. by eapply col_index_lt.
  - apply col_index_None in Hj. rewrite col_index_snoc_new by done. simpl.
    rewrite lookup_zip_with, Hb, Hr. simpl.
    rewrite lookup_app_r by lia. rewrite Hlen, Nat.sub_diag. done.
Qed.

(** In the rows that are not selected an existing field keeps its value. *)
Lemma cell_at_loc_set_miss (mask : list bool) (c : string) (v : cell)
    (df : DataFrame) (i : nat) :
  mask !! i = Some false → c ∈ columns df →
  cell_at (loc_set mask c v df) i c = cell_at df i c.
Proof.
  intros Hb [j Hj]%col_index_is_Some. unfold cell_at, loc_set.
  rewrite Hj. simpl. rewrite Hj. simpl. rewrite lookup_zip_with, Hb. simpl.
  by destruct (data df !! i).
Qed.

(** No row is selected: nothing changes. *)
Lemma loc_set_none (mask : list bool) (c : string) (v : cell) (df : DataFrame) :
  length mask = nrows df → mask_any mask = false → c ∈ columns df →
  loc_set mask c v df = df.
Proof.
  intros Hlen Hany [j Hj]%col_index_is_Some. unfold loc_set. rewrite Hj.
  destruct df as [cols rows]. simpl in *. f_equal. unfold nrows in Hlen. simpl in Hlen.
  clear Hj. revert mask Hlen Hany. induction rows as [|r rows IH]; intros [|b mask]; try done.
  simpl. intros [= Hlen] Hany. apply orb_false_iff in Hany as [Hb Hany].
  unfold id in Hb. subst b. f_equal. by apply IH.
Qed.

(** ** Running the handlers *)

Lemma bind_run {A B} (m : M A) (f : A → M B) (w : World) :
  (m ≫= f) w = match m w with
               | (Ok a, w') => f a w'
               | (Raise e, w') => (Raise e, w')
               end.
Proof. reflexivity. Qed.

Lemma deref_run (l : loc) (df : DataFrame) (w : World) :
  heap w !! l = Some df → deref l w = (Ok df, w).
Proof. intros H. unfold deref. by rewrite H. Qed.

Lemma save_csv_saved (d : dataset) (l : loc) (df : DataFrame) (w : World) :
  heap w !! l = Some df →
  save_csv l (dataset_path d) w = (Ok (), set_fs (saved df (dataset_path d)) w).
Proof. apply save_csv_run. Qed.

Lemma column_eq_int_run (l : loc) (df : DataFrame) (c : string) (k : Z)
    (s : list cell) (w : World) :
  heap w !! l = Some df → getitem df c = Ok s →
  column_eq_int l c k w = (Ok (series_eq_int s k), w).
Proof.
  intros Hl Hs. unfold column_eq_int. rewrite bind_run, (deref_run _ _ _ Hl).
  rewrite bind_run. unfold lift. by rewrite Hs.
Qed.

Lemma column_eq_int_raise (l : loc) (df : DataFrame) (c : string) (k : Z) (w : World) :
  heap w !! l = Some df → c ∉ columns df →
  column_eq_int l c k w = (Raise (KeyError c), w).
Proof.
  intros Hl Hc%col_index_None. unfold column_eq_int.
  rewrite bind_run, (deref_run _ _ _ Hl), bind_run. unfold lift, getitem. by rewrite Hc.
Qed.

Lemma loc_setitem_run (l : loc) (df : DataFrame) (mask : list bool) (c : string)
    (v : cell) (w : World) :
  heap w !! l = Some df →
  loc_setitem l mask c v w = (Ok (), set_heap (λ h, <[l:=loc_set mask c v df]> h) w).
Proof.
  intros Hl. unfold loc_setitem. by rewrite bind_run, (deref_run _ _ _ Hl).
Qed.

Lemma heap_set_lookup (l : loc) (df df' : DataFrame) (w : World) :
  heap w !! l = Some df →
  heap (set_heap (λ h, <[l:=df']> h) w) !! l = Some df'.
Proof.
  intros Hl. simpl. apply list_lookup_insert_eq. by eapply lookup_lt_Some.
Qed.

Section Runs.
Context {A : Type} (w : World) (Q : A → World → Prop).

Lemma runs_bind {B} (m : M B) (f : B → M A) :
  runs m w (λ b w', runs (f b) w' Q) → runs (m ≫= f) w Q.
Proof.
  intros (b & w' & Hm & a & w'' & Hf & HQ). exists a, w''.
  by rewrite bind_run, Hm.
Qed.

Lemma runs_ret (a : A) : Q a w → runs (mret a) w Q.
Proof. intros HQ. by exists a, w. Qed.

Lemma runs_lift (a : A) (r : res A) : r = Ok a → Q a w → runs (lift r) w Q.
Proof. intros -> HQ. by exists a, w. Qed.
End Runs.

Section RunsPrimitives.
Context (w : World).

Lemma runs_deref (l : loc) (df : DataFrame) (Q : DataFrame → World → Prop) :
  heap w !! l = Some df → Q df w → runs (deref l) w Q.
Proof. intros Hl HQ. exists df, w. by rewrite (deref_run _ _ _ Hl). Qed.

Lemma runs_alloc (df : DataFrame) (Q : loc → World → Prop) :
  Q (length (heap w)) (set_heap (λ h, h ++ [df]) w) → runs (alloc df) w Q.
Proof. intros HQ. by eexists _, _. Qed.

Lemma runs_loc_setitem (l : loc) (df : DataFrame) (mask : list bool) (c : string)
    (v : cell) (Q : () → World → Prop) :
  heap w !! l = Some df →
  Q () (set_heap (λ h, <[l:=loc_set mask c v df]> h) w) →
  runs (loc_setitem l mask c v) w Q.
Proof. intros Hl HQ. eexists _, _. by rewrite (loc_setitem_run _ _ _ _ _ _ Hl). Qed.

Lemma runs_column_eq_int (l : loc) (df : DataFrame) (c : string) (k : Z)
    (s : list cell) (Q : list bool → World → Prop) :
  heap w !! l = Some df → getitem df c = Ok s →
  Q (series_eq_int s k) w → runs (column_eq_int l c k) w Q.
Proof.
  intros Hl Hs HQ. eexists _, _. by rewrite (column_eq_int_run _ _ _ _ _ _ Hl Hs).
Qed.

Lemma runs_now_iso (Q : string → World → Prop) :
  Q (strftime (clock w (ticks w))) (tick w) → runs now_iso w Q.
Proof. intros HQ. by eexists _, _. Qed.

Lemma runs_save_csv (d : dataset) (l : loc) (df : DataFrame) (Q : () → World → Prop) :
  heap w !! l = Some df →
  Q () (set_fs (saved df (dataset_path d)) w) →
  runs (save_csv l (dataset_path d)) w Q.
Proof. intros Hl HQ. eexists _, _. by rewrite (save_csv_saved _ _ _ _ Hl). Qed.

Lemma runs_cache_data_clear (Q : () → World → Prop) :
  Q () (set_cache (λ _, ∅) w) → runs cache_data_clear w Q.
Proof. intros HQ. by eexists _, _. Qed.

Lemma runs_st_success (msg : string) (Q : () → World → Prop) :
  Q () (set_notices (λ n, n ++ [Success msg]) w) → runs (st_success msg) w Q.
Proof. intros HQ. by eexists _, _. Qed.

Lemma runs_st_warning (msg : string) (Q : () → World → Prop) :
  Q () (set_notices (λ n, n ++ [Warning msg]) w) → runs (st_warning msg) w Q.
Proof. intros HQ. by eexists _, _. Qed.

Lemma runs_st_info (msg : string) (Q : () → World → Prop) :
  Q () (set_notices (λ n, n ++ [Info msg]) w) → runs (st_info msg) w Q.
Proof. intros HQ. by eexists _, _. Qed.

Lemma runs_path_exists (p : Path) (Q : bool → World → Prop) :
  Q (bool_decide (is_Some (fs w !! p))) w → runs (path_exists p) w Q.
Proof. intros HQ. by eexists _, _. Qed.
End RunsPrimitives.

(** The object at [l] after an update in place. *)
Lemma heap_updated (l : loc) (df df' : DataFrame) (h : list DataFrame) :
  h !! l = Some df → <[l:=df']> h !! l = Some df'.
Proof. intros Hl. apply list_lookup_insert_eq. by eapply lookup_lt_Some. Qed.

Ltac world_simpl :=
  cbn [heap fs cache clock ticks notices set_heap set_fs set_cache set_notices tick].

Lemma heap_appended (h : list DataFrame) (a d : DataFrame) :
  (h ++ [a; d]) !! S (length h) = Some d.
Proof.
  rewrite lookup_app_r by lia. by replace (S (length h) - length h) with 1 by lia.
Qed.

Lemma heap_alloc (h : list DataFrame) (d : DataFrame) : (h ++ [d]) !! length h = Some d.
Proof. by rewrite lookup_app_r, Nat.sub_diag. Qed.

Ltac solve_heap := world_simpl; eauto using heap_updated, heap_appended, heap_alloc.

Ltac wp_save d := change (dataset_path d); eapply runs_save_csv; [solve_heap|].

(** One step of a handler; stops in front of the addition of rows. *)
Ltac wp_step :=
  lazymatch goal with
  | |- runs (new_DataFrame _ ≫= _) _ _ => fail
  | |- runs (_ ≫= _) _ _ => apply runs_bind
  | |- runs (mret _) _ _ => apply runs_ret
  | |- runs now_iso _ _ => apply runs_now_iso
  | |- runs cache_data_clear _ _ => apply runs_cache_data_clear
  | |- runs (st_success _) _ _ => apply runs_st_success
  | |- runs (st_warning _) _ _ => apply runs_st_warning
  | |- runs (st_info _) _ _ => apply runs_st_info
  | |- runs (path_exists _) _ _ => apply runs_path_exists
  | |- runs (alloc _) _ _ => apply runs_alloc
  | |- runs (loc_setitem _ _ _ _) _ _ => eapply runs_loc_setitem; [solve_heap|]
  | |- runs (deref _) _ _ => eapply runs_deref; [solve_heap|]
  | |- runs (save_csv _ F_USUARIOS) _ _ =>
      change F_USUARIOS with (dataset_path Usuarios); eapply runs_save_csv; [solve_heap|]
  | |- runs (save_csv _ F_ACTIVOS) _ _ =>
      change F_ACTIVOS with (dataset_path Activos); eapply runs_save_csv; [solve_heap|]
  | |- runs (save_csv _ F_NOTIF) _ _ =>
      change F_NOTIF with (dataset_path Notificaciones); eapply runs_save_csv; [solve_heap|]
  | |- runs (save_csv _ F_RONDAS_PLT) _ _ =>
      change F_RONDAS_PLT with (dataset_path RondasPlantillas);
      eapply runs_save_csv; [solve_heap|]
  | |- runs (save_csv _ F_RONDAS_RUN) _ _ =>
      change F_RONDAS_RUN with (dataset_path RondasEjecuciones);
      eapply runs_save_csv; [solve_heap|]
  | |- runs (save_csv _ F_INCIDENTES) _ _ =>
      change F_INCIDENTES with (dataset_path Incidentes); eapply runs_save_csv; [solve_heap|]
  | |- runs (save_csv _ F_PTWOT) _ _ =>
      change F_PTWOT with (dataset_path PtwOt); eapply runs_save_csv; [solve_heap|]
  end.

Lemma aplicar_cambio_found (notifs : loc) (df : DataFrame) (sel_id : Z)
    (nuevo_estado evidencia : string) (s : list cell) (w : World) :
  heap w !! notifs = Some df → getitem df "id" = Ok s →
  mask_any (series_eq_int s sel_id) = true →
  runs (aplicar_cambio notifs sel_id nuevo_estado evidencia) w (λ _ w',
    let df' := cambio_aplicado (series_eq_int s sel_id) nuevo_estado evidencia
                 (strftime (clock w (ticks w))) df in
    heap w' = <[notifs:=df']> (heap w)
    ∧ fs w' = saved df' F_NOTIF (fs w)
    ∧ cache w' = ∅
    ∧ notices w' = notices w ++ [Success "Estado actualizado."]).
Proof.
  intros Hl Hs Hany. unfold aplicar_cambio, cambio_aplicado.
  apply runs_bind. eapply runs_column_eq_int; [done..|]. rewrite Hany.
  set (mask := series_eq_int s sel_id).
  destruct (bool_decide (nuevo_estado = "Recibida")) eqn:E1;
  destruct (bool_decide (nuevo_estado = "Completada")) eqn:E2;
  destruct (bool_decide (evidencia ≠ "")) eqn:E3;
  try (apply bool_decide_eq_true in E1; apply bool_decide_eq_true in E2; congruence);
  unfold when; repeat wp_step; world_simpl; rewrite ?list_insert_insert_eq; done.
Qed.

Lemma aplicar_cambio_not_found (notifs : loc) (df : DataFrame) (sel_id : Z)
    (nuevo_estado evidencia : string) (s : list cell) (w : World) :
  heap w !! notifs = Some df → getitem df "id" = Ok s →
  mask_any (series_eq_int s sel_id) = false →
  aplicar_cambio notifs sel_id nuevo_estado evidencia w
  = (Ok (), set_notices (λ n, n ++ [Warning "ID no encontrado."]) w).
Proof.
  intros Hl Hs Hany. unfold aplicar_cambio.
  by rewrite bind_run, (column_eq_int_run _ _ _ _ _ _ Hl Hs), Hany.
Qed.

Lemma aplicar_ptw_found (ptwot : loc) (df : DataFrame) (idp : Z)
    (nuevo aprob_hse : string) (s : list cell) (w : World) :
  heap w !! ptwot = Some df → getitem df "id" = Ok s →
  mask_any (series_eq_int s idp) = true →
  runs (aplicar_ptw ptwot idp nuevo aprob_hse) w (λ _ w',
    let df' := ptw_aplicado (series_eq_int s idp) nuevo aprob_hse
                 (strftime (clock w (ticks w))) df in
    heap w' = <[ptwot:=df']> (heap w)
    ∧ fs w' = saved df' F_PTWOT (fs w)
    ∧ cache w' = ∅
    ∧ notices w' = notices w ++ [Success "PTW actualizado."]).
Proof.
  intros Hl Hs Hany. unfold aplicar_ptw, ptw_aplicado.
  apply runs_bind. eapply runs_column_eq_int; [done..|]. rewrite Hany.
  set (mask := series_eq_int s idp).
  destruct (bool_decide (nuevo = "Cerrado")) eqn:E1;
  unfold when; repeat wp_step; world_simpl; rewrite ?list_insert_insert_eq; done.
Qed.

Lemma aplicar_ptw_not_found (ptwot : loc) (df : DataFrame) (idp : Z)
    (nuevo aprob_hse : string) (s : list cell) (w : World) :
  heap w !! ptwot = Some df → getitem df "id" = Ok s →
  mask_any (series_eq_int s idp) = false →
  aplicar_ptw ptwot idp nuevo aprob_hse w
  = (Ok (), set_notices (λ n, n ++ [Warning "ID no encontrado."]) w).
Proof.
  intros Hl Hs Hany. unfold aplicar_ptw.
  by rewrite bind_run, (column_eq_int_run _ _ _ _ _ _ Hl Hs), Hany.
Qed.

(** ** What a change of state does to the frame *)

Lemma mask_any_false (mask : list bool) :
  mask_any mask = false ↔ ∀ i b, mask !! i = Some b → b = false.
Proof.
  unfold mask_any. induction mask as [|b mask IH]; simpl.
  - split; [intros _ i b | done]. by rewrite lookup_nil.
  - rewrite orb_false_iff, IH. unfold id. split.
    + intros [-> H] [|i] b'; simpl; [by intros [= <-] | apply H].
    + intros H. split; [by apply (H 0) | intros i b' Hi; by apply (H (S i))].
Qed.

Lemma mask_any_true (mask : list bool) (i : nat) :
  mask !! i = Some true → mask_any mask = true.
Proof.
  intros Hi. destruct (mask_any mask) eqn:E; [done|].
  by apply (proj1 (mask_any_false mask) E) in Hi.
Qed.

(** The mask of [df["id"] == k] selects the rows whose identifier is [k]. *)
Lemma mask_lookup (df : DataFrame) (s : list cell) (k : Z) (i : nat) (b : bool) :
  wf df → getitem df "id" = Ok s →
  series_eq_int s k !! i = Some b ↔
  ∃ v, cell_at df i "id" = Some v ∧ cell_eq_int k v = b.
Proof.
  intros Hwf Hs. unfold series_eq_int. rewrite list_lookup_fmap. split.
  - destruct (s !! i) as [v|] eqn:Hv; simpl; [|done]. intros [= <-].
    exists v. split; [|done]. by apply (getitem_lookup df "id" s i v Hwf Hs).
  - intros (v & Hv & <-). apply (getitem_lookup df "id" s i v Hwf Hs) in Hv.
    by rewrite Hv.
Qed.

Lemma cell_at_lt (df : DataFrame) (i : nat) (c : string) (v : cell) :
  cell_at df i c = Some v → i < nrows df.
Proof.
  unfold cell_at, nrows. destruct (col_index c (columns df)); simpl; [|done].
  destruct (data df !! i) eqn:E; simpl; [|done]. intros _. by eapply lookup_lt_Some.
Qed.

Lemma cell_at_column (df : DataFrame) (i : nat) (c : string) (v : cell) :
  cell_at df i c = Some v → c ∈ columns df.
Proof.
  unfold cell_at. destruct (col_index c (columns df)) eqn:E; simpl; [|done].
  intros _. apply col_index_Some in E. by eapply list_elem_of_lookup_2.
Qed.

Section Cambio.
Context (mask : list bool) (nuevo_estado evidencia ts : string) (df : DataFrame).
Context (Hwf : wf df) (Hlen : length mask = nrows df).

Let d1 := loc_set mask "estado" (CStr nuevo_estado) df.
Let d2 := if bool_decide (nuevo_estado = "Recibida")
          then loc_set mask "ts_recibida" (CStr ts) d1 else d1.
Let d3 := if bool_decide (nuevo_estado = "Completada")
          then loc_set mask "ts_cerrada" (CStr ts) d2 else d2.

Local Lemma d1_ok : wf d1 ∧ length mask = nrows d1.
Proof. unfold d1. split; [by apply loc_set_wf | by rewrite loc_set_nrows]. Qed.

Local Lemma d2_ok : wf d2 ∧ length mask = nrows d2.
Proof.
  destruct d1_ok as [H1 H2]. unfold d2. case_bool_decide; [|done].
  split; [by apply loc_set_wf | by rewrite loc_set_nrows].
Qed.

Local Lemma d3_ok : wf d3 ∧ length mask = nrows d3.
Proof.
  destruct d2_ok as [H1 H2]. unfold d3. case_bool_decide; [|done].
  split; [by apply loc_set_wf | by rewrite loc_set_nrows].
Qed.

Lemma cambio_wf : wf (cambio_aplicado mask nuevo_estado evidencia ts df).
Proof.
  destruct d3_ok as [H1 H2]. unfold cambio_aplicado. fold d1 d2 d3.
  case_bool_decide; [by apply loc_set_wf | done].
Qed.

Lemma cambio_nrows :
  nrows (cambio_aplicado mask nuevo_estado evidencia ts df) = nrows df.
Proof.
  destruct d3_ok as [H1 H2]. unfold cambio_aplicado. fold d1 d2 d3.
  case_bool_decide; [rewrite loc_set_nrows by done|]; by rewrite <- H2.
Qed.

(** The fields that are not assigned keep their values. *)
Lemma cambio_other (i : nat) (c : string) :
  c ≠ "estado" →
  (c = "ts_recibida" → nuevo_estado ≠ "Recibida") →
  (c = "ts_cerrada" → nuevo_estado ≠ "Completada") →
  (c = "evidencia" → evidencia = "") →
  cell_at (cambio_aplicado mask nuevo_estado evidencia ts df) i c = cell_at df i c.
Proof.
  intros Hc1 Hc2 Hc3 Hc4.
  destruct d1_ok as [Hw1 Hl1], d2_ok as [Hw2 Hl2], d3_ok as [Hw3 Hl3].
  unfold cambio_aplicado. fold d1 d2 d3.
  assert (cell_at d1 i c = cell_at df i c) as E1
    by (by apply cell_at_loc_set_other).
  assert (cell_at d2 i c = cell_at d1 i c) as E2.
  { unfold d2. case_bool_decide as Hn; [|done].
    apply cell_at_loc_set_other; [done..|]. intros ->. by apply Hc2. }
  assert (cell_at d3 i c = cell_at d2 i c) as E3.
  { unfold d3. case_bool_decide as Hn; [|done].
    apply cell_at_loc_set_other; [done..|]. intros ->. by apply Hc3. }
  rewrite <- E1, <- E2, <- E3.
  case_bool_decide as Hn; [|done].
  apply cell_at_loc_set_other; [done..|]. intros ->. apply Hn. by apply Hc4.
Qed.

(** The rows that are not selected keep the fields they had. *)
Lemma cambio_miss (i : nat) (c : string) :
  mask !! i = Some false → c ∈ columns df →
  cell_at (cambio_aplicado mask nuevo_estado evidencia ts df) i c = cell_at df i c.
Proof.
  intros Hb Hc.
  destruct d1_ok as [Hw1 Hl1], d2_ok as [Hw2 Hl2], d3_ok as [Hw3 Hl3].
  assert (∀ c' v d, wf d → length mask = nrows d → c ∈ columns d →
            cell_at (loc_set mask c' v d) i c = cell_at d i c) as Hstep.
  { intros c' v d Hw Hl Hin. destruct (decide (c = c')) as [<-|Hne].
    - by apply cell_at_loc_set_miss.
    - by apply cell_at_loc_set_other. }
  assert (c ∈ columns d1) as Hc1 by (by apply loc_set_columns_incl).
  assert (c ∈ columns d2) as Hc2.
  { unfold d2. case_bool_decide; [by apply loc_set_columns_incl | done]. }
  assert (c ∈ columns d3) as Hc3.
  { unfold d3. case_bool_decide; [by apply loc_set_columns_incl | done]. }
  assert (cell_at d1 i c = cell_at df i c) as E1 by (by apply Hstep).
  assert (cell_at d2 i c = cell_at d1 i c) as E2.
  { unfold d2. case_bool_decide; [by apply Hstep | done]. }
  assert (cell_at d3 i c = cell_at d2 i c) as E3.
  { unfold d3. case_bool_decide; [by apply Hstep | done]. }
  unfold cambio_aplicado. fold d1 d2 d3. rewrite <- E1, <- E2, <- E3.
  case_bool_decide; [by apply Hstep | done].
Qed.

(** In the selected rows the state is the new one. *)
Lemma cambio_estado (i : nat) :
  mask !! i = Some true →
  cell_at (cambio_aplicado mask nuevo_estado evidencia ts df) i "estado"
  = Some (CStr nuevo_estado).
Proof.
  intros Hb.
  destruct d1_ok as [Hw1 Hl1], d2_ok as [Hw2 Hl2], d3_ok as [Hw3 Hl3].
  assert (i < nrows df) as Hi by (rewrite <- Hlen; by eapply lookup_lt_Some).
  assert (cell_at d1 i "estado" = Some (CStr nuevo_estado)) as E1
    by (by apply cell_at_loc_set_hit).
  assert (cell_at d2 i "estado" = cell_at d1 i "estado") as E2.
  { unfold d2. case_bool_decide; [by apply cell_at_loc_set_other | done]. }
  assert (cell_at d3 i "estado" = cell_at d2 i "estado") as E3.
  { unfold d3. case_bool_decide; [by apply cell_at_loc_set_other | done]. }
  unfold cambio_aplicado. fold d1 d2 d3. rewrite <- E1, <- E2, <- E3.
  case_bool_decide; [by apply cell_at_loc_set_other | done].
Qed.

(** In the selected rows "Recibida" stamps the reception time. *)
Lemma cambio_ts_recibida (i : nat) :
  mask !! i = Some true → nuevo_estado = "Recibida" →
  cell_at (cambio_aplicado mask nuevo_estado evidencia ts df) i "ts_recibida"
  = Some (CStr ts).
Proof.
  intros Hb Hn.
  destruct d1_ok as [Hw1 Hl1], d2_ok as [Hw2 Hl2], d3_ok as [Hw3 Hl3].
  assert (i < nrows d1) as Hi by (rewrite <- Hl1; by eapply lookup_lt_Some).
  assert (cell_at d2 i "ts_recibida" = Some (CStr ts)) as E2.
  { unfold d2. rewrite bool_decide_eq_true_2 by done. by apply cell_at_loc_set_hit. }
  assert (cell_at d3 i "ts_recibida" = cell_at d2 i "ts_recibida") as E3.
  { unfold d3. case_bool_decide; [by apply cell_at_loc_set_other | done]. }
  unfold cambio_aplicado. fold d1 d2 d3. rewrite <- E2, <- E3.
  case_bool_decide; [by apply cell_at_loc_set_other | done].
Qed.

(** In the selected rows "Completada" stamps the closing time. *)
Lemma cambio_ts_cerrada (i : nat) :
  mask !! i = Some true → nuevo_estado = "Completada" →
  cell_at (cambio_aplicado mask nuevo_estado evidencia ts df) i "ts_cerrada"
  = Some (CStr ts).
Proof.
  intros Hb Hn.
  destruct d1_ok as [Hw1 Hl1], d2_ok as [Hw2 Hl2], d3_ok as [Hw3 Hl3].
  assert (i < nrows d2) as Hi by (rewrite <- Hl2; by eapply lookup_lt_Some).
  assert (cell_at d3 i "ts_cerrada" = Some (CStr ts)) as E3.
  { unfold d3. rewrite bool_decide_eq_true_2 by done. by apply cell_at_loc_set_hit. }
  unfold cambio_aplicado. fold d1 d2 d3. rewrite <- E3.
  case_bool_decide; [by apply cell_at_loc_set_other | done].
Qed.

(** In the selected rows an evidence text that is not empty is stored. *)
Lemma cambio_evidencia (i : nat) :
  mask !! i = Some true → evidencia ≠ "" →
  cell_at (cambio_aplicado mask nuevo_estado evidencia ts df) i "evidencia"
  = Some (CStr evidencia).
Proof.
  intros Hb Hn.
  destruct d3_ok as [Hw3 Hl3].
  assert (i < nrows d3) as Hi by (rewrite <- Hl3; by eapply lookup_lt_Some).
  unfold cambio_aplicado. fold d1 d2 d3.
  rewrite bool_decide_eq_true_2 by done. by apply cell_at_loc_set_hit.
Qed.
End Cambio.

Lemma strftime_nonempty (d : datetime) : strftime d ≠ "".
Proof.
  unfold strftime. destruct (pad 4 (year d)) as [|a s]; [|done].
  done.
Qed.

(** ** Transitions *)

Lemma no_match_mask (df : DataFrame) (s : list cell) (k : Z) :
  wf df → getitem df "id" = Ok s →
  (∀ i v, cell_at df i "id" = Some v → cell_eq_int k v = false) →
  mask_any (series_eq_int s k) = false.
Proof.
  intros Hwf Hs Hno. apply mask_any_false. intros i b Hb.
  apply (mask_lookup df s k i b Hwf Hs) in Hb as (v & Hv & <-). by eapply Hno.
Qed.

(** C4: when no row of the collection has the requested identifier, the
    buttons "Aplicar cambio" (notifications) and "Aplicar" (permits)
    leave every frame and every file as they were and show the warning
    "ID no encontrado." The buttons are drawn only after [df["id"]] has
    been read (lines 255 and 354), so the frame has an identifier
    column. *)
Theorem transition_not_found (w : World) (l : loc) (df : DataFrame) (k : Z)
    (nuevo extra : string) :
  heap w !! l = Some df → wf df → "id" ∈ columns df →
  (∀ i v, cell_at df i "id" = Some v → cell_eq_int k v = false) →
  (∃ w', aplicar_cambio l k nuevo extra w = (Ok (), w')
         ∧ heap w' = heap w ∧ fs w' = fs w ∧ cache w' = cache w
         ∧ notices w' = notices w ++ [Warning "ID no encontrado."])
  ∧ (∃ w', aplicar_ptw l k nuevo extra w = (Ok (), w')
           ∧ heap w' = heap w ∧ fs w' = fs w ∧ cache w' = cache w
           ∧ notices w' = notices w ++ [Warning "ID no encontrado."]).
Proof.
  intros Hl Hwf [s Hs]%getitem_Ok Hno.
  pose proof (no_match_mask df s k Hwf Hs Hno) as Hany.
  split; eexists.
  - by rewrite (aplicar_cambio_not_found _ _ _ _ _ _ _ Hl Hs Hany).
  - by rewrite (aplicar_ptw_not_found _ _ _ _ _ _ _ Hl Hs Hany).
Qed.

Lemma transition_not_found_witness :
  ∃ w', aplicar_cambio 0 999 "Recibida" "" (world_with notifs_repetidas F_NOTIF) = (Ok (), w')
        ∧ heap w' = [notifs_repetidas]
        ∧ fs w' = {[F_NOTIF := to_csv notifs_repetidas]}
        ∧ cache w' = ∅
        ∧ notices w' = [Warning "ID no encontrado."].
Proof.
  refine (proj1 (transition_not_found (world_with notifs_repetidas F_NOTIF) 0
                   notifs_repetidas 999 "Recibida" "" eq_refl _ _ _)).
  - repeat constructor.
  - repeat constructor.
  - intros [|[|[|i]]] v Hv; vm_compute in Hv; try discriminate;
      injection Hv as <-; reflexivity.
Defined.

(** What the change to "Recibida" does, row by row. *)
Lemma recibida_effect (w : World) (notifs : loc) (df : DataFrame) (i : nat)
    (vid : cell) :
  heap w !! notifs = Some df → wf df →
  cell_at df i "id" = Some vid → cell_eq_int 2 vid = true →
  cell_at df i "estado" = Some (CStr "Pendiente") →
  ∃ w' df',
    aplicar_cambio notifs 2 "Recibida" "" w = (Ok (), w')
    ∧ heap w' !! notifs = Some df'
    ∧ fs w' !! F_NOTIF = Some (to_csv df')
    ∧ nrows df' = nrows df
    ∧ (∀ j v, cell_at df j "id" = Some v → cell_eq_int 2 v = true →
         cell_at df' j "estado" = Some (CStr "Recibida")
         ∧ ∃ ts, cell_at df' j "ts_recibida" = Some (CStr ts) ∧ ts ≠ "")
    ∧ (∀ j c, c ≠ "estado" → c ≠ "ts_recibida" → cell_at df' j c = cell_at df j c)
    ∧ (∀ j v c, cell_at df j "id" = Some v → cell_eq_int 2 v = false →
         c ∈ columns df → cell_at df' j c = cell_at df j c).
Proof.
  intros Hl Hwf Hid Heq Hest.
  destruct (getitem_Ok df "id") as [s Hs]; [by eapply cell_at_column|].
  pose proof (getitem_length _ _ _ Hs) as Hlen.
  assert (length (series_eq_int s 2) = nrows df) as Hmlen
    by (unfold series_eq_int; by rewrite length_map).
  assert (mask_any (series_eq_int s 2) = true) as Hany.
  { apply (mask_any_true _ i). apply (mask_lookup df s 2 i true Hwf Hs). eauto. }
  destruct (aplicar_cambio_found notifs df 2 "Recibida" "" s w Hl Hs Hany)
    as ([] & w' & Hrun & Hheap & Hfs & _ & _).
  set (ts := strftime (clock w (ticks w))) in *.
  set (df' := cambio_aplicado (series_eq_int s 2) "Recibida" "" ts df) in *.
  exists w', df'. split; [done|]. split.
  { rewrite Hheap. by eapply heap_updated. }
  split. { rewrite Hfs. unfold saved. apply lookup_insert_eq. }
  split. { by apply cambio_nrows. }
  split; [|split].
  - intros j v Hv Hv2.
    assert (series_eq_int s 2 !! j = Some true) as Hj
      by (apply (mask_lookup df s 2 j true Hwf Hs); eauto).
    split; [by apply cambio_estado|].
    exists ts. split; [by apply cambio_ts_recibida | apply strftime_nonempty].
  - intros j c Hc1 Hc2. by apply cambio_other.
  - intros j v c Hv Hv2 Hc.
    assert (series_eq_int s 2 !! j = Some false) as Hj
      by (apply (mask_lookup df s 2 j false Hwf Hs); eauto).
    by apply cambio_miss.
Qed.

Lemma cell_at_in_range (df : DataFrame) (j : nat) (c : string) :
  wf df → c ∈ columns df → j < nrows df → ∃ v, cell_at df j c = Some v.
Proof.
  intros Hwf [jc Hjc]%col_index_is_Some Hj. unfold cell_at. rewrite Hjc. simpl.
  destruct (lookup_lt_is_Some_2 (data df) j Hj) as [r Hr]. rewrite Hr. simpl.
  apply lookup_lt_is_Some_2.
  rewrite (proj1 (Forall_forall _ _) Hwf r (list_elem_of_lookup_2 _ _ _ Hr)).
  by eapply col_index_lt.
Qed.

Lemma cell_at_out_of_range (df : DataFrame) (j : nat) (c : string) :
  nrows df ≤ j → cell_at df j c = None.
Proof.
  intros Hj. destruct (cell_at df j c) as [v|] eqn:E; [|done].
  apply cell_at_lt in E. lia.
Qed.

(** C3: in a notifications table with unique identifiers and a row
    whose identifier is 2 and whose state is "Pendiente", the change to
    "Recibida" (with no evidence text, as the form has it unless one is
    typed) gives that row the state "Recibida" and a reception time that
    is not empty; every other field of that row, and every field of
    every other row, keeps its value; the table is saved. *)
Theorem transition_received (w : World) (notifs : loc) (df : DataFrame) (i : nat)
    (vid : cell) :
  heap w !! notifs = Some df → wf df → ids_unique df →
  cell_at df i "id" = Some vid → cell_eq_int 2 vid = true →
  cell_at df i "estado" = Some (CStr "Pendiente") →
  ∃ w' df',
    aplicar_cambio notifs 2 "Recibida" "" w = (Ok (), w')
    ∧ heap w' !! notifs = Some df'
    ∧ fs w' !! F_NOTIF = Some (to_csv df')
    ∧ nrows df' = nrows df
    ∧ cell_at df' i "estado" = Some (CStr "Recibida")
    ∧ (∃ ts, cell_at df' i "ts_recibida" = Some (CStr ts) ∧ ts ≠ "")
    ∧ (∀ c, c ≠ "estado" → c ≠ "ts_recibida" → cell_at df' i c = cell_at df i c)
    ∧ (∀ j c, j ≠ i → c ∈ columns df → cell_at df' j c = cell_at df j c).
Proof.
  intros Hl Hwf Huniq Hid Heq Hest.
  destruct (recibida_effect w notifs df i vid Hl Hwf Hid Heq Hest)
    as (w' & df' & Hrun & Hh & Hfs & Hn & Hhit & Hfield & Hmiss).
  exists w', df'. split; [done|]. split; [done|]. split; [done|]. split; [done|].
  destruct (Hhit i vid Hid Heq) as [He Hts].
  split; [done|]. split; [done|]. split; [intros c; apply Hfield|].
  intros j c Hne Hc. destruct (decide (j < nrows df)) as [Hj|Hj].
  - destruct (cell_at_in_range df j "id" Hwf) as [v Hv];
      [by eapply cell_at_column | done |].
    apply (Hmiss j v c Hv); [|done].
    destruct (cell_eq_int 2 v) eqn:E; [|done].
    destruct Hne. by apply (Huniq 2%Z j i v vid).
  - rewrite !cell_at_out_of_range; [done | lia | lia].
Qed.

Lemma transition_received_witness :
  ∃ w' df',
    aplicar_cambio 0 2 "Recibida" "" (world_with notifs_dos F_NOTIF) = (Ok (), w')
    ∧ heap w' !! 0 = Some df'
    ∧ cell_at df' 1 "estado" = Some (CStr "Recibida")
    ∧ cell_at df' 0 "estado" = Some (CStr "Pendiente").
Proof.
  destruct (transition_received (world_with notifs_dos F_NOTIF) 0 notifs_dos 1 (CInt 2)
              eq_refl)
    as (w' & df' & Hrun & Hh & _ & _ & H2 & _ & _ & Hother).
  - repeat constructor.
  - assert (∀ i v, cell_at notifs_dos i "id" = Some v → v = CInt (Z.of_nat (S i))) as Hid.
    { intros [|[|i]] v Hv; cbv in Hv; [injection Hv as <-; reflexivity..|discriminate]. }
    intros k i j vi vj Hvi%Hid Hvj%Hid Hki Hkj. subst vi vj.
    unfold cell_eq_int in Hki, Hkj. apply Z.eqb_eq in Hki, Hkj. lia.
  - reflexivity.
  - reflexivity.
  - reflexivity.
  - exists w', df'. split; [done|]. split; [done|]. split; [exact H2|].
    rewrite (Hother 0 "estado"); [reflexivity | lia |]. right. right. left.
Defined.

(** The identifiers have to be unique for that: when another row carries
    the identifier, that row changes too. *)
Lemma transition_changes_every_match :
  cell_at notifs_repetidas 1 "id" = Some (CInt 2)
  ∧ cell_at notifs_repetidas 1 "estado" = Some (CStr "Pendiente")
  ∧ ∃ w' df',
      aplicar_cambio 0 2 "Recibida" "" (world_with notifs_repetidas F_NOTIF) = (Ok (), w')
      ∧ heap w' !! 0 = Some df'
      ∧ cell_at notifs_repetidas 2 "estado" = Some (CStr "Completada")
      ∧ cell_at df' 2 "estado" = Some (CStr "Recibida")
      ∧ cell_at df' 2 "estado" ≠ cell_at notifs_repetidas 2 "estado".
Proof.
  split; [reflexivity|]. split; [reflexivity|].
  destruct (recibida_effect (world_with notifs_repetidas F_NOTIF) 0 notifs_repetidas 1
              (CInt 2) eq_refl) as (w' & df' & Hrun & Hh & _ & _ & H2 & _ & _).
  { repeat constructor. } { reflexivity. } { reflexivity. } { reflexivity. }
  exists w', df'. split; [done|]. split; [done|]. split; [reflexivity|].
  destruct (H2 2 (CInt 2) eq_refl eq_refl) as [Hest _]. split; [done|].
  rewrite Hest. discriminate.
Qed.

Lemma aplicar_cambio_no_column (notifs : loc) (df : DataFrame) (sel_id : Z)
    (nuevo_estado evidencia : string) (w : World) :
  heap w !! notifs = Some df → "id" ∉ columns df →
  aplicar_cambio notifs sel_id nuevo_estado evidencia w = (Raise (KeyError "id"), w).
Proof.
  intros Hl Hc. unfold aplicar_cambio.
  by rewrite bind_run, (column_eq_int_raise _ _ _ _ _ Hl Hc).
Qed.

(** The frame left by "Aplicar cambio", whatever the outcome. *)
Lemma aplicar_cambio_frame (w : World) (notifs : loc) (df : DataFrame) (sel_id : Z)
    (nuevo_estado evidencia : string) :
  heap w !! notifs = Some df → wf df →
  heap (aplicar_cambio notifs sel_id nuevo_estado evidencia w).2 !! notifs = Some df
  ∨ ∃ s, getitem df "id" = Ok s
         ∧ heap (aplicar_cambio notifs sel_id nuevo_estado evidencia w).2 !! notifs
           = Some (cambio_aplicado (series_eq_int s sel_id) nuevo_estado evidencia
                     (strftime (clock w (ticks w))) df).
Proof.
  intros Hl Hwf. destruct (decide ("id" ∈ columns df)) as [Hin|Hnin].
  - destruct (getitem_Ok df "id" Hin) as [s Hs].
    destruct (mask_any (series_eq_int s sel_id)) eqn:Hany.
    + right. exists s. split; [done|].
      destruct (aplicar_cambio_found notifs df sel_id nuevo_estado evidencia s w Hl Hs Hany)
        as ([] & w' & Hrun & Hheap & _).
      rewrite Hrun. simpl. rewrite Hheap. by eapply heap_updated.
    + left. by rewrite (aplicar_cambio_not_found _ _ _ _ _ _ _ Hl Hs Hany).
  - left. by rewrite (aplicar_cambio_no_column _ _ _ _ _ _ Hl Hnin).
Qed.

(** C10: "Aplicar cambio" never clears an optional field: the reception
    time is written only by a change to "Recibida", the closing time
    only by a change to "Completada", the evidence only when the text
    given is not empty; so a change back to an earlier state keeps the
    old times, an empty evidence text keeps the evidence, and a value
    of these fields is either kept or replaced by a text that is not
    empty. *)
Theorem transition_keeps_optional_fields (w : World) (notifs : loc) (df : DataFrame)
    (sel_id : Z) (nuevo_estado evidencia : string) :
  heap w !! notifs = Some df → wf df →
  ∃ df',
    heap (aplicar_cambio notifs sel_id nuevo_estado evidencia w).2 !! notifs = Some df'
    ∧ (nuevo_estado ≠ "Recibida" →
       ∀ i, cell_at df' i "ts_recibida" = cell_at df i "ts_recibida")
    ∧ (nuevo_estado ≠ "Completada" →
       ∀ i, cell_at df' i "ts_cerrada" = cell_at df i "ts_cerrada")
    ∧ (evidencia = "" → ∀ i, cell_at df' i "evidencia" = cell_at df i "evidencia")
    ∧ (∀ i c v, c ∈ ["ts_recibida"; "ts_cerrada"; "evidencia"] →
         cell_at df i c = Some v →
         cell_at df' i c = Some v
         ∨ ∃ s, cell_at df' i c = Some (CStr s) ∧ s ≠ "").
Proof.
  intros Hl Hwf.
  destruct (aplicar_cambio_frame w notifs df sel_id nuevo_estado evidencia Hl Hwf)
    as [Hsame | (s & Hs & Hnew)].
  { exists df. split; [done|]. repeat split; auto. }
  set (mask := series_eq_int s sel_id) in *.
  set (ts := strftime (clock w (ticks w))) in *.
  assert (length mask = nrows df) as Hlen.
  { unfold mask, series_eq_int. rewrite length_map. by eapply getitem_length. }
  eexists. split; [exact Hnew|]. split; [|split; [|split]].
  - intros Hn i. by apply cambio_other.
  - intros Hn i. by apply cambio_other.
  - intros Hn i. by apply cambio_other.
  - intros i c v Hc Hv.
    destruct (lookup_lt_is_Some_2 mask i) as [b Hb].
    { rewrite Hlen. by eapply cell_at_lt. }
    destruct b.
    2:{ left. rewrite cambio_miss; eauto using cell_at_column. }
    repeat (apply elem_of_cons in Hc as [-> | Hc]).
    + destruct (decide (nuevo_estado = "Recibida")) as [Hn|Hn].
      * right. exists ts. split; [by apply cambio_ts_recibida | apply strftime_nonempty].
      * left. by rewrite cambio_other.
    + destruct (decide (nuevo_estado = "Completada")) as [Hn|Hn].
      * right. exists ts. split; [by apply cambio_ts_cerrada | apply strftime_nonempty].
      * left. by rewrite cambio_other.
    + destruct (decide (evidencia = "")) as [Hn|Hn].
      * left. by rewrite cambio_other.
      * right. exists evidencia. split; [by apply cambio_evidencia | done].
    + by apply elem_of_nil in Hc.
Qed.

Lemma transition_keeps_optional_fields_witness :
  ∃ df',
    heap (aplicar_cambio 0 2 "Pendiente" "" (world_with notifs_repetidas F_NOTIF)).2 !! 0
    = Some df'
    ∧ cell_at df' 2 "ts_recibida" = Some (CStr "2024-05-01 08:00:00")
    ∧ cell_at df' 2 "ts_cerrada" = Some (CStr "2024-05-02 09:30:00")
    ∧ cell_at df' 2 "evidencia" = Some (CStr "foto.jpg").
Proof.
  destruct (transition_keeps_optional_fields (world_with notifs_repetidas F_NOTIF) 0
              notifs_repetidas 2 "Pendiente" "" eq_refl)
    as (df' & Hh & H1 & H2 & H3 & _).
  - repeat constructor.
  - exists df'. split; [done|].
    rewrite (H1 ltac:(discriminate) 2), (H2 ltac:(discriminate) 2), (H3 eq_refl 2).
    repeat split; reflexivity.
Defined.

(** ** Joining frames *)

Lemma add_labels_prefix (acc new : list string) :
  ∃ more, add_labels acc new = acc ++ more.
Proof.
  unfold add_labels. revert acc. induction new as [|k new IH]; intros acc; simpl.
  - exists []. by rewrite app_nil_r.
  - case_bool_decide.
    + apply IH.
    + destruct (IH (acc ++ [k])) as [more ->]. exists (k :: more).
      by rewrite <- app_assoc.
Qed.

Lemma add_labels_elem (acc new : list string) (k : string) :
  k ∈ add_labels acc new ↔ k ∈ acc ∨ k ∈ new.
Proof.
  unfold add_labels. revert acc. induction new as [|x new IH]; intros acc; simpl.
  - rewrite elem_of_nil. tauto.
  - rewrite IH, elem_of_cons. case_bool_decide as Hx.
    + split; [tauto|]. intros [?|[->|?]]; tauto.
    + rewrite elem_of_app, list_elem_of_singleton. tauto.
Qed.

Lemma add_labels_id (acc new : list string) :
  (∀ k, k ∈ new → k ∈ acc) → add_labels acc new = acc.
Proof.
  unfold add_labels. induction new as [|x new IH]; intros Hsub; simpl; [done|].
  rewrite bool_decide_eq_true_2 by (apply Hsub; left).
  apply IH. intros k Hk. apply Hsub. by right.
Qed.

Lemma add_labels_NoDup (acc new : list string) :
  NoDup acc → NoDup (add_labels acc new).
Proof.
  unfold add_labels. revert acc. induction new as [|x new IH]; intros acc Hnd; simpl; [done|].
  case_bool_decide as Hx; [by apply IH|].
  apply IH. apply NoDup_app. split; [done|]. split.
  - intros y Hy ->%list_elem_of_singleton. done.
  - apply NoDup_singleton.
Qed.

Lemma add_labels_nil_NoDup (cols : list string) :
  NoDup cols → add_labels [] cols = cols.
Proof.
  assert (∀ acc, NoDup (acc ++ cols) → add_labels acc cols = acc ++ cols) as H.
  { unfold add_labels. induction cols as [|x cols IH]; intros acc Hnd; simpl.
    - by rewrite app_nil_r.
    - apply NoDup_app in Hnd as (Ha & Hdisj & Hc).
      rewrite bool_decide_eq_false_2 by (intros Hx; by apply (Hdisj x Hx); left).
      rewrite (IH (acc ++ [x])); [by rewrite <- app_assoc|].
      rewrite <- app_assoc. simpl. apply NoDup_app. split; [done|]. split; [|done].
      done. }
  intros Hnd. by apply (H []).
Qed.

Lemma lookup_map_col {A} (f : string → A) (cols : list string) (c : string) (j : nat) :
  col_index c cols = Some j → map f cols !! j = Some (f c).
Proof.
  intros H%col_index_Some. by rewrite list_lookup_fmap, H.
Qed.

Lemma col_index_NoDup (cols : list string) (c : string) (j : nat) :
  NoDup cols → cols !! j = Some c → col_index c cols = Some j.
Proof.
  intros Hnd Hj. destruct (col_index c cols) as [j'|] eqn:E.
  - f_equal. apply col_index_Some in E. by eapply NoDup_lookup.
  - apply col_index_None in E. exfalso. apply E. by eapply list_elem_of_lookup_2.
Qed.

Lemma reindex_row_id (df : DataFrame) (r : list cell) :
  NoDup (columns df) → length r = length (columns df) →
  reindex_row df (columns df) r = r.
Proof.
  intros Hnd Hlen. unfold reindex_row. apply list_eq. intros j.
  rewrite list_lookup_fmap.
  destruct (columns df !! j) as [c|] eqn:Hc; simpl.
  - rewrite (col_index_NoDup _ _ _ Hnd Hc).
    destruct (lookup_lt_is_Some_2 r j) as [x Hx].
    { rewrite Hlen. by eapply lookup_lt_Some. }
    by rewrite Hx.
  - symmetry. apply lookup_ge_None. rewrite Hlen. by apply lookup_ge_None.
Qed.

Lemma concat_two (df1 df2 : DataFrame) :
  let cols := add_labels (add_labels [] (columns df1)) (columns df2) in
  concat [df1; df2]
  = Ok (mkDF cols (map (reindex_row df1 cols) (data df1)
                   ++ map (reindex_row df2 cols) (data df2))).
Proof. unfold concat. simpl. by rewrite app_nil_r. Qed.

Section Concat.
Context (df1 df2 d : DataFrame) (Hc : concat [df1; df2] = Ok d).

Lemma concat_wf : wf d.
Proof using Hc.
  rewrite concat_two in Hc. injection Hc as <-. unfold wf. simpl.
  apply Forall_app. split; apply Forall_forall; intros r (r0 & -> & _)%list_elem_of_fmap;
    unfold reindex_row; by rewrite length_map.
Qed.

Lemma concat_nrows : nrows d = nrows df1 + nrows df2.
Proof using Hc.
  rewrite concat_two in Hc. injection Hc as <-. unfold nrows. simpl.
  by rewrite length_app, !length_map.
Qed.

Lemma concat_columns (c : string) : c ∈ columns d ↔ c ∈ columns df1 ∨ c ∈ columns df2.
Proof using Hc.
  rewrite concat_two in Hc. injection Hc as <-. simpl.
  rewrite !add_labels_elem, elem_of_nil. tauto.
Qed.

(** The rows of the first frame come first, with their fields. *)
Lemma concat_cell_l (i : nat) (c : string) (v : cell) :
  cell_at df1 i c = Some v → cell_at d i c = Some v.
Proof using Hc.
  intros Hv. assert (c ∈ columns d) as [j Hj]%col_index_is_Some.
  { apply concat_columns. left. by eapply cell_at_column. }
  rewrite concat_two in Hc. injection Hc as <-. simpl in Hj.
  unfold cell_at in *. simpl. rewrite Hj. simpl.
  destruct (col_index c (columns df1)) as [j1|] eqn:Hj1; simpl in Hv; [|done].
  destruct (data df1 !! i) as [r|] eqn:Hr; simpl in Hv; [|done].
  rewrite lookup_app_l by (rewrite length_map; by eapply lookup_lt_Some).
  rewrite list_lookup_fmap, Hr. simpl. unfold reindex_row.
  rewrite (lookup_map_col _ _ _ _ Hj), Hj1, Hv. done.
Qed.

(** The rows of the second frame follow, with their fields. *)
Lemma concat_cell_r (i : nat) (c : string) (v : cell) :
  cell_at df2 i c = Some v → cell_at d (nrows df1 + i) c = Some v.
Proof using Hc.
  intros Hv. assert (c ∈ columns d) as [j Hj]%col_index_is_Some.
  { apply concat_columns. right. by eapply cell_at_column. }
  rewrite concat_two in Hc. injection Hc as <-. simpl in Hj.
  unfold cell_at in *. simpl. rewrite Hj. simpl.
  destruct (col_index c (columns df2)) as [j2|] eqn:Hj2; simpl in Hv; [|done].
  destruct (data df2 !! i) as [r|] eqn:Hr; simpl in Hv; [|done].
  rewrite lookup_app_r by (rewrite length_map; unfold nrows; lia).
  rewrite length_map. unfold nrows.
  replace (length (data df1) + i - length (data df1)) with i by lia.
  rewrite list_lookup_fmap, Hr. simpl. unfold reindex_row.
  rewrite (lookup_map_col _ _ _ _ Hj), Hj2, Hv. done.
Qed.

(** In the rows of the first frame a column that only the second frame
    has is NaN, and conversely. *)
Lemma concat_cell_l_inv (i : nat) (c : string) (v : cell) :
  wf df1 → i < nrows df1 → cell_at d i c = Some v →
  cell_at df1 i c = Some v ∨ ((c ∉ columns df1) ∧ v = CNaN).
Proof using Hc.
  intros Hwf Hi Hv. rewrite concat_two in Hc. injection Hc as <-.
  unfold cell_at in *. simpl in Hv.
  destruct (col_index c _) as [j|] eqn:Hj in Hv; simpl in Hv; [|done].
  destruct (lookup_lt_is_Some_2 (data df1) i Hi) as [r Hr].
  rewrite lookup_app_l in Hv by (by rewrite length_map).
  rewrite list_lookup_fmap, Hr in Hv. simpl in Hv. unfold reindex_row in Hv.
  rewrite (lookup_map_col _ _ _ _ Hj) in Hv. injection Hv as <-.
  destruct (col_index c (columns df1)) as [j1|] eqn:Hj1; simpl.
  - left. rewrite Hr. simpl.
    destruct (lookup_lt_is_Some_2 r j1) as [x Hx]; [|by rewrite Hx].
    rewrite (wf_row df1 i r Hwf Hr). by eapply col_index_lt.
  - right. split; [by apply col_index_None | done].
Qed.

Lemma concat_cell_r_inv (i : nat) (c : string) (v : cell) :
  wf df2 → i < nrows df2 → cell_at d (nrows df1 + i) c = Some v →
  cell_at df2 i c = Some v ∨ ((c ∉ columns df2) ∧ v = CNaN).
Proof using Hc.
  intros Hwf Hi Hv. rewrite concat_two in Hc. injection Hc as <-.
  unfold cell_at in *. simpl in Hv.
  destruct (col_index c _) as [j|] eqn:Hj in Hv; simpl in Hv; [|done].
  destruct (lookup_lt_is_Some_2 (data df2) i Hi) as [r Hr].
  rewrite lookup_app_r in Hv by (rewrite length_map; unfold nrows; lia).
  rewrite length_map in Hv. unfold nrows in Hv.
  replace (length (data df1) + i - length (data df1)) with i in Hv by lia.
  rewrite list_lookup_fmap, Hr in Hv. simpl in Hv. unfold reindex_row in Hv.
  rewrite (lookup_map_col _ _ _ _ Hj) in Hv. injection Hv as <-.
  destruct (col_index c (columns df2)) as [j2|] eqn:Hj2; simpl.
  - left. rewrite Hr. simpl.
    destruct (lookup_lt_is_Some_2 r j2) as [x Hx]; [|by rewrite Hx].
    rewrite (wf_row df2 i r Hwf Hr). by eapply col_index_lt.
  - right. split; [by apply col_index_None | done].
Qed.

(** When the second frame brings no new column, the first frame is an
    exact prefix of the result. *)
Lemma concat_same_columns :
  wf df1 → NoDup (columns df1) → (∀ c, c ∈ columns df2 → c ∈ columns df1) →
  columns d = columns df1 ∧ take (nrows df1) (data d) = data df1.
Proof using Hc.
  intros Hwf Hnd Hsub. rewrite concat_two in Hc. injection Hc as <-. simpl.
  rewrite (add_labels_nil_NoDup _ Hnd), (add_labels_id _ _ Hsub).
  split; [done|]. unfold nrows.
  rewrite take_app_le by (by rewrite length_map).
  rewrite take_ge by (by rewrite length_map).
  apply list_eq. intros i. rewrite list_lookup_fmap.
  destruct (data df1 !! i) as [r|] eqn:Hr; simpl; [|done].
  f_equal. apply reindex_row_id; [done|]. by eapply wf_row.
Qed.
End Concat.

(** ** Frames built from records *)

Lemma assoc_key (c : string) (r : record) (v : cell) :
  assoc c r = Some v → c ∈ r.*1.
Proof.
  induction r as [|[k x] r IH]; simpl; [done|].
  destruct (decide (c = k)) as [->|Hne]; [left | right; by apply IH].
Qed.

Lemma record_labels_elem (rs : list record) (acc : list string) (c : string) :
  c ∈ foldl (λ acc (r : record), add_labels acc (r.*1)) acc rs
  ↔ c ∈ acc ∨ ∃ r, r ∈ rs ∧ c ∈ r.*1.
Proof.
  revert acc. induction rs as [|r rs IH]; intros acc; simpl.
  - split; [by left | intros [?|(r & Hr & _)]; [done | by apply elem_of_nil in Hr]].
  - rewrite IH, add_labels_elem. split.
    + intros [[?|?]|(r' & Hr' & ?)]; [by left | right; exists r | right; exists r'];
        split; try done; [left | by right].
    + intros [?|(r' & [->|Hr']%elem_of_cons & ?)]; [tauto | tauto | right; eauto].
Qed.

Lemma DataFrame_of_records_wf (rs : list record) : wf (DataFrame_of_records rs).
Proof.
  unfold wf, DataFrame_of_records. simpl. apply Forall_forall.
  intros r (r0 & -> & _)%list_elem_of_fmap. by rewrite length_map.
Qed.

Lemma DataFrame_of_records_nrows (rs : list record) :
  nrows (DataFrame_of_records rs) = length rs.
Proof. unfold nrows, DataFrame_of_records. simpl. by rewrite length_map. Qed.

Lemma DataFrame_of_records_cell (rs : list record) (i : nat) (r : record)
    (c : string) (v : cell) :
  rs !! i = Some r → assoc c r = Some v →
  cell_at (DataFrame_of_records rs) i c = Some v.
Proof.
  intros Hr Hv. unfold cell_at, DataFrame_of_records. simpl.
  set (cols := foldl _ [] rs).
  assert (c ∈ cols) as [j Hj]%col_index_is_Some.
  { apply record_labels_elem. right. exists r. split;
      [by eapply list_elem_of_lookup_2 | by eapply assoc_key]. }
  rewrite Hj. simpl. rewrite list_lookup_fmap, Hr. simpl.
  rewrite (lookup_map_col _ _ _ _ Hj), Hv. done.
Qed.

Lemma DataFrame_of_records_columns (rs : list record) (c : string) :
  c ∈ columns (DataFrame_of_records rs) ↔ ∃ r, r ∈ rs ∧ c ∈ r.*1.
Proof.
  unfold DataFrame_of_records. simpl. rewrite record_labels_elem, elem_of_nil. tauto.
Qed.

(** ** Adding rows to a frame object *)

Lemma runs_pd_concat (w : World) (l1 l2 : loc) (d1 d2 d : DataFrame)
    (Q : loc → World → Prop) :
  heap w !! l1 = Some d1 → heap w !! l2 = Some d2 → concat [d1; d2] = Ok d →
  Q (length (heap w)) (set_heap (λ h, h ++ [d]) w) →
  runs (pd_concat [l1; l2]) w Q.
Proof.
  intros H1 H2 Hc HQ. eexists _, _. split; [|exact HQ].
  unfold pd_concat. simpl mapM.
  rewrite !bind_run, (deref_run _ _ _ H1), !bind_run, (deref_run _ _ _ H2).
  unfold mret, M_ret. rewrite !bind_run. unfold lift. by rewrite Hc.
Qed.

Lemma concat_ok (d1 d2 : DataFrame) : ∃ d, concat [d1; d2] = Ok d.
Proof. rewrite concat_two. eauto. Qed.

(** Adding records to the frame at [l]: two new objects, the records'
    frame and the result; nothing else changes. *)
Lemma runs_append (w : World) (l : loc) (df : DataFrame) (rs : list record)
    (Q : loc → World → Prop) :
  heap w !! l = Some df →
  (∀ d, concat [df; DataFrame_of_records rs] = Ok d →
        Q (S (length (heap w)))
          (set_heap (λ h, h ++ [DataFrame_of_records rs; d]) w)) →
  runs (r ← new_DataFrame rs; pd_concat [l; r]) w Q.
Proof.
  intros Hl HQ. destruct (concat_ok df (DataFrame_of_records rs)) as [d Hd].
  apply runs_bind. apply runs_alloc.
  eapply runs_pd_concat; [| |exact Hd|].
  - simpl. by apply lookup_app_l_Some.
  - simpl. by rewrite lookup_app_r, Nat.sub_diag.
  - specialize (HQ d Hd). unfold set_heap in *. simpl.
    rewrite length_app. simpl. rewrite Nat.add_1_r, <- app_assoc. exact HQ.
Qed.

(** C9: adding a row to a collection of [N] rows gives a new frame
    object of [N + 1] rows: the first [N] rows are the rows of the
    collection, in their order and with the values of all their fields,
    and the new row is the last one; the collection itself, like every
    other frame object and every file, is left as it was. When the new
    row brings no column that the collection lacks, the collection is
    literally the first [N] rows of the result. *)
Theorem append_row_spec (w : World) (l : loc) (df : DataFrame) (new_row : record) :
  heap w !! l = Some df → wf df →
  ∃ l' w' df',
    append_row l new_row w = (Ok l', w')
    ∧ heap w' !! l' = Some df' ∧ l' ≠ l
    ∧ (∀ k d, heap w !! k = Some d → heap w' !! k = Some d)
    ∧ fs w' = fs w
    ∧ nrows df' = S (nrows df)
    ∧ (∀ i c v, cell_at df i c = Some v → cell_at df' i c = Some v)
    ∧ (∀ c v, assoc c new_row = Some v → cell_at df' (nrows df) c = Some v)
    ∧ (NoDup (columns df) → (∀ c, c ∈ new_row.*1 → c ∈ columns df) →
       columns df' = columns df ∧ take (nrows df) (data df') = data df).
Proof.
  intros Hl Hwf.
  destruct (runs_append w l df [new_row]
    (λ l' w', ∃ d, concat [df; DataFrame_of_records [new_row]] = Ok d
                   ∧ l' = S (length (heap w))
                   ∧ w' = set_heap (λ h, h ++ [DataFrame_of_records [new_row]; d]) w) Hl)
    as (l' & w' & Hrun & d & Hd & -> & ->).
  { intros d Hd. by exists d. }
  eexists (S (length (heap w))), _, d. split; [exact Hrun|]. simpl.
  split.
  { rewrite lookup_app_r by lia.
    by replace (S (length (heap w)) - length (heap w)) with 1 by lia. }
  split. { apply lookup_lt_Some in Hl. lia. }
  split. { intros k d' Hk. by apply lookup_app_l_Some. }
  split; [done|].
  split. { rewrite (concat_nrows _ _ _ Hd), DataFrame_of_records_nrows. simpl. lia. }
  split. { intros i c v. by apply (concat_cell_l _ _ _ Hd). }
  split.
  { intros c v Hv. rewrite <- (Nat.add_0_r (nrows df)).
    apply (concat_cell_r _ _ _ Hd). by apply (DataFrame_of_records_cell _ 0 new_row). }
  intros Hnd Hsub. apply (concat_same_columns _ _ _ Hd); [done..|].
  intros c (r & ->%list_elem_of_singleton & Hc)%DataFrame_of_records_columns.
  by apply Hsub.
Qed.

Lemma append_row_spec_witness :
  ∃ l' w' df',
    append_row 0 [("id", CInt 3); ("titulo", CStr "Nueva"); ("estado", CStr "Pendiente")]
      (world_with notifs_repetidas F_NOTIF) = (Ok l', w')
    ∧ heap w' !! l' = Some df'
    ∧ heap w' !! 0 = Some notifs_repetidas
    ∧ nrows df' = 4
    ∧ take 3 (data df') = data notifs_repetidas
    ∧ cell_at df' 3 "id" = Some (CInt 3).
Proof.
  destruct (append_row_spec (world_with notifs_repetidas F_NOTIF) 0 notifs_repetidas
              [("id", CInt 3); ("titulo", CStr "Nueva"); ("estado", CStr "Pendiente")]
              eq_refl)
    as (l' & w' & df' & Hrun & Hh & _ & Hold & _ & Hn & _ & Hlast & Hsame).
  - repeat constructor.
  - exists l', w', df'. split; [done|]. split; [done|].
    split; [by apply Hold|]. split; [done|]. split.
    + apply Hsame.
      * compute_done.
      * intros c Hc. simpl in Hc.
        repeat (apply elem_of_cons in Hc as [-> | Hc]; [repeat constructor|]).
        by apply elem_of_nil in Hc.
    + by apply Hlast.
Defined.

(** ** Creating rows *)

Lemma runs_append_k {A} (w : World) (l : loc) (df : DataFrame) (rs : list record)
    (k : loc → M A) (Q : A → World → Prop) :
  heap w !! l = Some df →
  (∀ d, concat [df; DataFrame_of_records rs] = Ok d →
        runs (k (S (length (heap w))))
             (set_heap (λ h, h ++ [DataFrame_of_records rs; d]) w) Q) →
  runs (r ← new_DataFrame rs; l' ← pd_concat [l; r]; k l') w Q.
Proof.
  intros Hl Hk. destruct (concat_ok df (DataFrame_of_records rs)) as [d Hd].
  apply runs_bind. apply runs_alloc. apply runs_bind.
  eapply runs_pd_concat; [| |exact Hd|].
  - simpl. by apply lookup_app_l_Some.
  - simpl. by rewrite lookup_app_r, Nat.sub_diag.
  - specialize (Hk d Hd). unfold set_heap in *. simpl.
    rewrite length_app. simpl. rewrite Nat.add_1_r, <- app_assoc. exact Hk.
Qed.

Lemma rows_added_intro (w : World) (l : loc) (df : DataFrame) (path : Path)
    (rs : list record) (d : DataFrame) (clk : nat → datetime) (t : nat)
    (n : list notice) :
  heap w !! l = Some df → concat [df; DataFrame_of_records rs] = Ok d →
  rows_added w l df path rs (S (length (heap w)))
    (mkWorld (saved d path (fs w)) (heap w ++ [DataFrame_of_records rs; d]) ∅ clk t n) d.
Proof.
  intros Hl Hd. split; [done|]. simpl. split; [apply heap_appended|].
  split. { apply lookup_lt_Some in Hl. lia. }
  split; [|done]. intros k x Hk. by apply lookup_app_l_Some.
Qed.

Lemma crear_notificacion_run (w : World) (notifs : loc) (df : DataFrame)
    (tag titulo motivo prioridad asignado : string) :
  heap w !! notifs = Some df →
  runs (crear_notificacion notifs tag titulo motivo prioridad asignado) w (λ l' w',
    ∃ new_row d,
      assoc "id" new_row = Some (CInt (next_sequential_id (Some df) "id"))
      ∧ assoc "estado" new_row = Some (CStr "Pendiente")
      ∧ rows_added w notifs df F_NOTIF [new_row] l' w' d).
Proof.
  intros Hl. unfold crear_notificacion.
  repeat wp_step. eapply runs_append_k; [solve_heap|]. intros d Hd.
  repeat wp_step.
  lazymatch type of Hd with
  | concat [_; DataFrame_of_records [?r]] = _ => exists r, d
  end.
  split; [reflexivity|]. split; [reflexivity|]. by apply (rows_added_intro w).
Qed.

Lemma evaluar_evento_run (w : World) (notifs : loc) (df : DataFrame)
    (p_actual p_high : float64) :
  heap w !! notifs = Some df → float_leb p_actual p_high = false →
  runs (evaluar_evento notifs p_actual p_high) w (λ l' w',
    ∃ new_row d,
      assoc "id" new_row = Some (CInt (next_sequential_id (Some df) "id"))
      ∧ assoc "estado" new_row = Some (CStr "Pendiente")
      ∧ rows_added w notifs df F_NOTIF [new_row] l' w' d).
Proof.
  intros Hl Hp. unfold evaluar_evento. rewrite Hp. simpl negb. cbv iota.
  repeat wp_step. eapply runs_append_k; [solve_heap|]. intros d Hd.
  repeat wp_step.
  lazymatch type of Hd with
  | concat [_; DataFrame_of_records [?r]] = _ => exists r, d
  end.
  split; [reflexivity|]. split; [reflexivity|]. by apply (rows_added_intro w).
Qed.

Lemma crear_ptw_run (w : World) (ptwot : loc) (df : DataFrame)
    (tipo solicitante area : string) :
  heap w !! ptwot = Some df →
  runs (crear_ptw ptwot tipo solicitante area) w (λ l' w',
    ∃ new_row d,
      assoc "id" new_row = Some (CInt (next_sequential_id (Some df) "id"))
      ∧ assoc "estado" new_row = Some (CStr "Borrador")
      ∧ rows_added w ptwot df F_PTWOT [new_row] l' w' d).
Proof.
  intros Hl. unfold crear_ptw.
  repeat wp_step. eapply runs_append_k; [solve_heap|]. intros d Hd.
  repeat wp_step.
  lazymatch type of Hd with
  | concat [_; DataFrame_of_records [?r]] = _ => exists r, d
  end.
  split; [reflexivity|]. split; [reflexivity|]. by apply (rows_added_intro w).
Qed.

Lemma reportar_incidente_run (w : World) (incidentes : loc) (df : DataFrame)
    (tag titulo severidad descripcion reportado_por : string) :
  heap w !! incidentes = Some df →
  runs (reportar_incidente incidentes tag titulo severidad descripcion reportado_por) w
    (λ l' w',
      ∃ new_row d,
        assoc "id" new_row = Some (CInt (next_sequential_id (Some df) "id"))
        ∧ assoc "estado" new_row = Some (CStr "Abierto")
        ∧ rows_added w incidentes df F_INCIDENTES [new_row] l' w' d).
Proof.
  intros Hl. unfold reportar_incidente.
  repeat wp_step. eapply runs_append_k; [solve_heap|]. intros d Hd.
  repeat wp_step.
  lazymatch type of Hd with
  | concat [_; DataFrame_of_records [?r]] = _ => exists r, d
  end.
  split; [reflexivity|]. split; [reflexivity|]. by apply (rows_added_intro w).
Qed.

(** ** Identifiers stay unique *)





Section Ptw.
Context (mask : list bool) (nuevo aprob_hse ts : string) (df : DataFrame).
Context (Hwf : wf df) (Hlen : length mask = nrows df).

Lemma ptw_other (i : nat) (c : string) :
  c ≠ "estado" → c ≠ "aprob_hse" → c ≠ "ts_cierre" →
  cell_at (ptw_aplicado mask nuevo aprob_hse ts df) i c = cell_at df i c.
Proof using Hwf Hlen.
  intros Hc1 Hc2 Hc3. unfold ptw_aplicado.
  pose proof (loc_set_wf mask "estado" (CStr nuevo) df Hwf) as Hw1.
  pose proof (loc_set_nrows mask "estado" (CStr nuevo) df Hlen) as Hn1.
  set (d1 := loc_set mask "estado" (CStr nuevo) df) in *.
  pose proof (loc_set_wf mask "aprob_hse" (CStr aprob_hse) d1 Hw1) as Hw2.
  assert (length mask = nrows d1) as Hl1 by by rewrite Hn1.
  pose proof (loc_set_nrows mask "aprob_hse" (CStr aprob_hse) d1 Hl1) as Hn2.
  set (d2 := loc_set mask "aprob_hse" (CStr aprob_hse) d1) in *.
  assert (length mask = nrows d2) as Hl2 by (rewrite Hn2; done).
  assert (cell_at d2 i c = cell_at df i c) as E.
  { unfold d2, d1. by rewrite !cell_at_loc_set_other. }
  case_bool_decide; [|done]. by rewrite cell_at_loc_set_other.
Qed.

End Ptw.

(** ** Rondas *)

Section Lecturas.
Context (plt : DataFrame) (rondas_run : loc) (run : DataFrame)
        (sel_pl operario : string) (entered : nat → option (option float64)).

Lemma lectura_run (w : World) (idx : nat) (r : list cell) :
  heap w !! rondas_run = Some run → lectura_ok plt r →
  runs (lectura plt rondas_run sel_pl operario entered idx r) w (λ row w',
    w' = tick w
    ∧ assoc "id" row
      = Some (CInt (next_sequential_id (Some run) "id" + Z.of_nat idx))).
Proof using Type.
  intros Hl ((tag & Ht) & (var & Hv) & (li & Hli) & (ls & Hls)). unfold lectura.
  apply runs_bind. eapply runs_lift; [exact Ht|].
  apply runs_bind. eapply runs_lift; [exact Hv|].
  apply runs_bind. eapply runs_lift; [exact Hli|].
  apply runs_bind. eapply runs_lift; [exact Hls|].
  repeat wp_step. done.
Qed.

Lemma lecturas_rows_run (rows : list (list cell)) (i0 : nat) (w : World) :
  heap w !! rondas_run = Some run → Forall (lectura_ok plt) rows →
  runs (imapM (lectura plt rondas_run sel_pl operario entered) i0 rows) w (λ res w',
    heap w' = heap w ∧ fs w' = fs w ∧ cache w' = cache w ∧ notices w' = notices w
    ∧ length res = length rows
    ∧ ∀ idx r, res !! idx = Some r →
        assoc "id" r
        = Some (CInt (next_sequential_id (Some run) "id" + Z.of_nat (i0 + idx)))).
Proof using Type.
  revert i0 w. induction rows as [|r rows IH]; intros i0 w Hl Hok; simpl.
  - apply runs_ret. repeat split; done.
  - apply Forall_cons in Hok as [Hr Hok].
    apply runs_bind.
    destruct (lectura_run w i0 r Hl Hr) as (row & w1 & Hrun & -> & Hid).
    exists row, (tick w). split; [done|].
    apply runs_bind.
    destruct (IH (S i0) (tick w) Hl Hok)
      as (res & w2 & Hrun2 & Hh & Hf & Hc & Hn & Hlen & Hids).
    exists res, w2. split; [done|]. apply runs_ret.
    split; [done|]. split; [done|]. split; [done|]. split; [done|].
    split; [simpl; by rewrite Hlen|].
    intros [|idx] r'; simpl.
    + intros [= <-]. by rewrite Nat.add_0_r.
    + intros Hr'. rewrite (Hids idx r' Hr'). do 3 f_equal. lia.
Qed.
End Lecturas.

Lemma lecturas_run (w : World) (rondas_plt rondas_run : loc) (plt run : DataFrame)
    (pl : list cell) (sel_pl operario : string) (entered : nat → option (option float64)) :
  heap w !! rondas_plt = Some plt → heap w !! rondas_run = Some run →
  getitem plt "plantilla" = Ok pl →
  Forall (lectura_ok (plantilla_rows plt pl sel_pl)) (data (plantilla_rows plt pl sel_pl)) →
  runs (lecturas rondas_plt rondas_run sel_pl operario entered) w (λ rows w',
    heap w' = heap w ∧ fs w' = fs w ∧ cache w' = cache w ∧ notices w' = notices w
    ∧ length rows = nrows (plantilla_rows plt pl sel_pl)
    ∧ ∀ idx r, rows !! idx = Some r →
        assoc "id" r
        = Some (CInt (next_sequential_id (Some run) "id" + Z.of_nat idx))).
Proof.
  intros Hp Hr Hpl Hok. unfold lecturas.
  apply runs_bind. eapply runs_deref; [done|].
  apply runs_bind. eapply runs_lift; [exact Hpl|].
  by apply lecturas_rows_run.
Qed.

Lemma guardar_ronda_run (w : World) (rondas_run : loc) (run : DataFrame)
    (rows : list record) :
  heap w !! rondas_run = Some run → rows ≠ [] →
  runs (guardar_ronda rondas_run rows) w (λ l' w',
    ∃ d, rows_added w rondas_run run F_RONDAS_RUN rows l' w' d).
Proof.
  intros Hl Hne. unfold guardar_ronda. rewrite bool_decide_eq_true_2 by done.
  eapply runs_append_k; [solve_heap|]. intros d Hd.
  repeat wp_step. exists d. by apply (rows_added_intro w).
Qed.

(** C5: on the page "Rondas", for the [N] rows of the chosen template,
    the row at offset [i] is given the identifier
    [next_sequential_id(rondas_run) + i], computed from the executions
    frame as loaded for this run of the page; "Guardar ronda" appends
    the rows in that order and saves the frame. *)
Theorem ronda_ids (w : World) (rondas_plt rondas_run : loc) (plt run : DataFrame)
    (pl : list cell) (sel_pl operario : string) (entered : nat → option (option float64)) :
  heap w !! rondas_plt = Some plt → heap w !! rondas_run = Some run →
  getitem plt "plantilla" = Ok pl →
  Forall (lectura_ok (plantilla_rows plt pl sel_pl)) (data (plantilla_rows plt pl sel_pl)) →
  let n := next_sequential_id (Some run) "id" in
  let N := nrows (plantilla_rows plt pl sel_pl) in
  ∃ rows w1 l' w' d,
    lecturas rondas_plt rondas_run sel_pl operario entered w = (Ok rows, w1)
    ∧ length rows = N
    ∧ (∀ i r, rows !! i = Some r → assoc "id" r = Some (CInt (n + Z.of_nat i)))
    ∧ pagina_rondas rondas_plt rondas_run sel_pl operario entered w = (Ok l', w')
    ∧ heap w' !! l' = Some d
    ∧ nrows d = nrows run + N
    ∧ (∀ i, i < N → cell_at d (nrows run + i) "id" = Some (CInt (n + Z.of_nat i)))
    ∧ (0 < N → fs w' !! F_RONDAS_RUN = Some (to_csv d)).
Proof.
  intros Hp Hr Hpl Hok n N.
  destruct (lecturas_run w rondas_plt rondas_run plt run pl sel_pl operario entered
              Hp Hr Hpl Hok) as (rows & w1 & Hrun & Hh & Hf & _ & _ & Hlen & Hids).
  fold N in Hlen. fold n in Hids.
  exists rows, w1.
  assert (∃ l' w' d,
    pagina_rondas rondas_plt rondas_run sel_pl operario entered w = (Ok l', w')
    ∧ heap w' !! l' = Some d
    ∧ nrows d = nrows run + N
    ∧ (∀ i, i < N → cell_at d (nrows run + i) "id" = Some (CInt (n + Z.of_nat i)))
    ∧ (0 < N → fs w' !! F_RONDAS_RUN = Some (to_csv d))) as (l' & w' & d & H).
  { unfold pagina_rondas. rewrite bind_run, (deref_run _ _ _ Hp).
    destruct (df_empty plt) eqn:He.
    { assert (N = 0) as HN.
      { unfold N, plantilla_rows, select_rows, nrows. simpl.
        rewrite (df_empty_no_values _ _ _ He Hpl). done. }
      eexists _, _, run. split; [reflexivity|]. simpl.
      split; [done|]. split; [lia|]. split; intros; lia. }
    rewrite bind_run, Hrun.
    destruct (decide (rows = [])) as [->|Hne].
    { simpl in Hlen. unfold guardar_ronda. simpl.
      exists rondas_run, w1, run. split; [done|]. rewrite Hh.
      split; [done|]. split; [lia|]. split; intros; lia. }
    assert (heap w1 !! rondas_run = Some run) as Hr1 by by rewrite Hh.
    destruct (guardar_ronda_run w1 rondas_run run rows Hr1 Hne)
      as (l' & w' & Hg & d & Hd & Hl' & _ & _ & Hfs & _).
    exists l', w', d. split; [done|]. split; [done|].
    split. { rewrite (concat_nrows _ _ _ Hd), DataFrame_of_records_nrows. lia. }
    split.
    - intros i Hi. destruct (lookup_lt_is_Some_2 rows i) as [r Hri]; [lia|].
      apply (concat_cell_r _ _ _ Hd).
      eapply DataFrame_of_records_cell; [exact Hri | by apply Hids].
    - intros _. rewrite Hfs. apply lookup_insert_eq. }
  exists l', w', d. split; [done|]. split; [done|]. split; [done|]. exact H.
Qed.

Lemma ronda_ids_witness :
  ∃ l' w' d,
    pagina_rondas 0 1 "Ronda Compresores" "Operario 2" (λ _, None) world_rondas = (Ok l', w')
    ∧ heap w' !! l' = Some d
    ∧ nrows d = 3
    ∧ cell_at d 1 "id" = Some (CInt 8)
    ∧ cell_at d 2 "id" = Some (CInt 9).
Proof.
  destruct (ronda_ids world_rondas 0 1 _ _
              [CStr "Ronda Compresores"; CStr "Ronda Compresores";
               CStr "Ronda Tanques"; CStr "Ronda Tanques"]
              "Ronda Compresores" "Operario 2" (λ _, None) eq_refl eq_refl eq_refl)
    as (rows & w1 & l' & w' & d & _ & _ & _ & Hrun & Hd & Hn & Hids & _).
  - apply Forall_forall. intros r Hr. vm_compute in Hr.
    repeat (apply elem_of_cons in Hr as [-> | Hr];
            [repeat split; eexists; vm_compute; reflexivity|]).
    by apply elem_of_nil in Hr.
  - exists l', w', d. split; [done|]. split; [done|]. split; [exact Hn|].
    split; [apply (Hids 0) | apply (Hids 1)]; vm_compute; lia.
Defined.

(** ** Every handler keeps the identifiers unique *)

Lemma next_id_int_part (df : DataFrame) (s : list cell) (m : float64) :
  getitem df "id" = Ok s → is_max m (numeric_values s) →
  next_sequential_id (Some df) "id" = (int_of_float m + 1)%Z.
Proof.
  intros Hs Hmax. rewrite (next_sequential_id_unfold _ _ _ Hs).
  destruct (df_empty df) eqn:He.
  { rewrite (df_empty_no_values _ _ _ He Hs) in Hmax.
    destruct Hmax as [Hin _]. by apply elem_of_nil in Hin. }
  pose proof (series_max_spec s) as Hm.
  destruct (series_max (to_numeric s)) as [m'|].
  - by rewrite (is_max_int_part _ _ _ Hm Hmax).
  - destruct Hmax as [Hin _]. rewrite Hm in Hin. by apply elem_of_nil in Hin.
Qed.



Lemma aplicar_ptw_no_column (ptwot : loc) (df : DataFrame) (idp : Z)
    (nuevo aprob_hse : string) (w : World) :
  heap w !! ptwot = Some df → "id" ∉ columns df →
  aplicar_ptw ptwot idp nuevo aprob_hse w = (Raise (KeyError "id"), w).
Proof.
  intros Hl Hc. unfold aplicar_ptw.
  by rewrite bind_run, (column_eq_int_raise _ _ _ _ _ Hl Hc).
Qed.


Lemma series_eq_int_length (df : DataFrame) (s : list cell) (k : Z) :
  getitem df "id" = Ok s → length (series_eq_int s k) = nrows df.
Proof.
  intros Hs. unfold series_eq_int. rewrite length_map. by eapply getitem_length.
Qed.



(** ** Seeding *)

Lemma dataset_path_inj (d d' : dataset) : dataset_path d = dataset_path d' → d = d'.
Proof. destruct d, d'; (done || discriminate). Qed.

Lemma saved_self (df : DataFrame) (p : Path) (fs : gmap Path string) :
  saved df p fs !! p = Some (to_csv df).
Proof. apply lookup_insert_eq. Qed.

Lemma saved_other (d d' : dataset) (df : DataFrame) (fs : gmap Path string) :
  d' ≠ d → saved df (dataset_path d) fs !! dataset_path d' = fs !! dataset_path d'.
Proof.
  intros Hne. unfold saved, tmp_path.
  rewrite lookup_insert_ne by (intros H; by apply dataset_path_inj in H).
  apply lookup_delete_ne. apply dataset_tmp_ne.
Qed.

Lemma runs_unless_exists (w : World) (p : Path) (body : M unit)
    (Q : () → World → Prop) :
  (is_Some (fs w !! p) → Q () w) → (fs w !! p = None → runs body w Q) →
  runs (unless_exists p body) w Q.
Proof.
  intros Hyes Hno. unfold unless_exists. apply runs_bind, runs_path_exists.
  destruct (fs w !! p) as [c|] eqn:E.
  - rewrite bool_decide_eq_true_2 by eauto. simpl. apply runs_ret. eauto.
  - rewrite bool_decide_eq_false_2 by (by intros [? ?]). simpl. by apply Hno.
Qed.

Ltac seed_block d :=
  apply (runs_unless_exists _ (dataset_path d));
  [ intros Hex; split; [done|]; split; [done|]; intros Hnone; rewrite Hnone in Hex;
    by destruct Hex
  | intros Hnone; repeat wp_step; try (apply runs_bind, runs_alloc); repeat wp_step;
    split; [intros d' Hd'; world_simpl; by apply saved_other|];
    split; [intros Hex; rewrite Hnone in Hex; by destruct Hex|];
    intros _; eexists; split; [|world_simpl; apply saved_self]; simpl; eauto ].

Lemma seed_usuarios_block (w : World) :
  runs (unless_exists F_USUARIOS
          (usuarios ← new_DataFrame seed_usuarios; save_csv usuarios F_USUARIOS))
       w (λ _ w', seeds Usuarios w w').
Proof. seed_block Usuarios. Qed.

Lemma seed_activos_block (w : World) :
  runs (unless_exists F_ACTIVOS
          (activos ← new_DataFrame seed_activos; save_csv activos F_ACTIVOS))
       w (λ _ w', seeds Activos w w').
Proof. seed_block Activos. Qed.

Lemma seed_notif_block (w : World) :
  runs (unless_exists F_NOTIF
          (ts1 ← now_iso; ts2 ← now_iso;
           notif ← new_DataFrame (seed_notif ts1 ts2); save_csv notif F_NOTIF))
       w (λ _ w', seeds Notificaciones w w').
Proof. seed_block Notificaciones. Qed.

Lemma seed_rondas_block (w : World) :
  runs (unless_exists F_RONDAS_PLT
          (rondas ← new_DataFrame seed_rondas; save_csv rondas F_RONDAS_PLT))
       w (λ _ w', seeds RondasPlantillas w w').
Proof. seed_block RondasPlantillas. Qed.

Lemma seed_run_block (w : World) :
  runs (unless_exists F_RONDAS_RUN
          (run ← alloc (DataFrame_of_columns rondas_run_columns);
           save_csv run F_RONDAS_RUN))
       w (λ _ w', seeds RondasEjecuciones w w').
Proof. seed_block RondasEjecuciones. Qed.

Lemma seed_incidentes_block (w : World) :
  runs (unless_exists F_INCIDENTES
          (ts ← now_iso; inc ← new_DataFrame (seed_incidentes ts);
           save_csv inc F_INCIDENTES))
       w (λ _ w', seeds Incidentes w w').
Proof. seed_block Incidentes. Qed.

Lemma seed_ptw_block (w : World) :
  runs (unless_exists F_PTWOT
          (ts ← now_iso; ptw ← new_DataFrame (seed_ptw ts); save_csv ptw F_PTWOT))
       w (λ _ w', seeds PtwOt w w').
Proof. seed_block PtwOt. Qed.

Lemma seed_if_missing_run (w : World) :
  runs seed_if_missing w (λ _ w', seeded_in_turn all_datasets w w').
Proof.
  unfold seed_if_missing, all_datasets. simpl seeded_in_turn.
  apply runs_bind.
  destruct (seed_usuarios_block w) as ([] & w1 & EH1 & H1). exists (), w1. split; [exact EH1|].
  apply runs_bind.
  destruct (seed_activos_block w1) as ([] & w2 & EH2 & H2). exists (), w2. split; [exact EH2|].
  apply runs_bind.
  destruct (seed_notif_block w2) as ([] & w3 & EH3 & H3). exists (), w3. split; [exact EH3|].
  apply runs_bind.
  destruct (seed_rondas_block w3) as ([] & w4 & EH4 & H4). exists (), w4. split; [exact EH4|].
  apply runs_bind.
  destruct (seed_run_block w4) as ([] & w5 & EH5 & H5). exists (), w5. split; [exact EH5|].
  apply runs_bind.
  destruct (seed_incidentes_block w5) as ([] & w6 & EH6 & H6). exists (), w6. split; [exact EH6|].
  destruct (seed_ptw_block w6) as ([] & w7 & EH7 & H7). exists (), w7. split; [exact EH7|].
  eauto 20.
Qed.

Lemma seeded_in_turn_spec (ds : list dataset) (w w' : World) :
  NoDup ds → seeded_in_turn ds w w' →
  (∀ d, d ∉ ds → fs w' !! dataset_path d = fs w !! dataset_path d)
  ∧ (∀ d c, fs w !! dataset_path d = Some c → fs w' !! dataset_path d = Some c)
  ∧ (∀ d, d ∈ ds → fs w !! dataset_path d = None →
       ∃ df, is_seed d df ∧ fs w' !! dataset_path d = Some (to_csv df))
  ∧ ((∀ d, d ∈ ds → is_Some (fs w !! dataset_path d)) → w' = w).
Proof.
  revert w. induction ds as [|d ds IH]; intros w Hnd; simpl.
  - intros ->. repeat split; try done. intros d Hd. by apply elem_of_nil in Hd.
  - intros (w1 & (Hother & Hsame & Hnew) & Hrest).
    apply NoDup_cons in Hnd as [Hd Hnd].
    destruct (IH w1 Hnd Hrest) as (IH1 & IH2 & IH3 & IH4).
    split; [|split; [|split]].
    + intros d' [Hne Hd']%not_elem_of_cons. by rewrite IH1, Hother.
    + intros d' c Hc. apply IH2. destruct (decide (d' = d)) as [->|Hne].
      * rewrite (Hsame ltac:(eauto)). done.
      * by rewrite Hother.
    + intros d' [->|Hd']%elem_of_cons Hnone.
      * destruct (Hnew Hnone) as (df & Hseed & Hdf). exists df. split; [done|].
        by rewrite IH1.
      * apply IH3; [done|]. rewrite Hother; [done|]. by intros ->.
    + intros Hall. assert (w1 = w) as -> by (apply Hsame, Hall; left).
      apply IH4. intros d' Hd'. apply Hall. by right.
Qed.

Lemma all_datasets_NoDup : NoDup all_datasets.
Proof. unfold all_datasets. apply NoDup_ListNoDup. repeat constructor; simpl; intuition discriminate. Qed.

Lemma all_datasets_complete (d : dataset) : d ∈ all_datasets.
Proof. unfold all_datasets. destruct d; repeat constructor. Qed.

(** C7: [seed_if_missing] writes the seed rows of each of the seven
    tables only when its file does not exist: a file that exists keeps
    its content, whatever it is; after one call the seven files exist,
    so a second call changes nothing at all and the files are exactly
    as the first call left them. *)
Theorem seed_if_missing_idempotent (w : World) :
  ∃ w1,
    seed_if_missing w = (Ok (), w1)
    ∧ (∀ d, is_Some (fs w1 !! dataset_path d))
    ∧ (∀ d c, fs w !! dataset_path d = Some c → fs w1 !! dataset_path d = Some c)
    ∧ (∀ d, fs w !! dataset_path d = None →
         ∃ df, is_seed d df ∧ fs w1 !! dataset_path d = Some (to_csv df))
    ∧ seed_if_missing w1 = (Ok (), w1)
    ∧ (seed_if_missing;; seed_if_missing) w = (Ok (), w1).
Proof.
  destruct (seed_if_missing_run w) as ([] & w1 & Hrun & Hturn).
  destruct (seeded_in_turn_spec _ _ _ all_datasets_NoDup Hturn) as (_ & Hkeep & Hnew & _).
  assert (∀ d, is_Some (fs w1 !! dataset_path d)) as Hall.
  { intros d. destruct (fs w !! dataset_path d) as [c|] eqn:E.
    - rewrite (Hkeep d c E). eauto.
    - destruct (Hnew d (all_datasets_complete d) E) as (df & _ & ->). eauto. }
  assert (seed_if_missing w1 = (Ok (), w1)) as Hagain.
  { destruct (seed_if_missing_run w1) as ([] & w2 & Hrun2 & Hturn2).
    destruct (seeded_in_turn_spec _ _ _ all_datasets_NoDup Hturn2) as (_ & _ & _ & Hsame).
    rewrite Hrun2. f_equal. apply Hsame. intros d _. apply Hall. }
  exists w1. split; [done|]. split; [done|]. split; [done|].
  split. { intros d. apply Hnew, all_datasets_complete. }
  split; [done|]. by rewrite bind_run, Hrun.
Qed.

(** ** Reading back what was written *)

Lemma csv_special_false (c : ascii) :
  csv_special c = false → c ≠ LF ∧ c ≠ COMMA ∧ c ≠ QUOTE.
Proof. unfold csv_special. intros H%bool_decide_eq_false. tauto. Qed.

Lemma plain_char (c : ascii) :
  csv_special c = false → c ≠ CR → is_newline c = false ∧ c ≠ COMMA ∧ c ≠ QUOTE.
Proof.
  intros (Hlf & Hcomma & Hq)%csv_special_false Hcr.
  split; [|done]. unfold is_newline. apply bool_decide_eq_false. tauto.
Qed.

Lemma is_blank_plain (c : ascii) :
  is_blank c = true → is_newline c = false ∧ c ≠ COMMA ∧ c ≠ QUOTE.
Proof.
  unfold is_blank, is_newline. intros [-> | ->]%bool_decide_eq_true; by repeat split.
Qed.

(** Inside a field that needs no quotes the characters are collected. *)
Lemma tk_in_field (f fld : list ascii) (row : list (list ascii))
    (lines : list (list (list ascii))) :
  existsb csv_special f = false → CR ∉ f →
  foldl tk_step (Tk IN_FIELD fld row lines) f = Tk IN_FIELD (rev f ++ fld) row lines.
Proof.
  revert fld. induction f as [|c f IH]; intros fld Hf Hcr; simpl; [done|].
  simpl in Hf. apply orb_false_iff in Hf as [Hc Hf].
  apply not_elem_of_cons in Hcr as [Hc' Hcr]. apply not_eq_sym in Hc'.
  destruct (plain_char c Hc) as (Hnl & Hcomma & _); [done|].
  unfold tk_step at 2. simpl. rewrite Hnl, decide_False by done.
  unfold push_char. simpl. rewrite IH by done. by rewrite <- app_assoc.
Qed.

(** So are they at the start of a line, where the spaces and tabs that
    come first may still turn out to be a blank line. *)
Lemma tk_in_blank (f fld : list ascii) (row : list (list ascii))
    (lines : list (list (list ascii))) :
  existsb csv_special f = false → CR ∉ f →
  foldl tk_step (Tk WHITESPACE_LINE fld row lines) f
  = Tk (if forallb is_blank f then WHITESPACE_LINE else IN_FIELD) (rev f ++ fld) row lines.
Proof.
  revert fld. induction f as [|c f IH]; intros fld Hf Hcr; simpl; [done|].
  simpl in Hf. apply orb_false_iff in Hf as [Hc Hf].
  apply not_elem_of_cons in Hcr as [Hc' Hcr]. apply not_eq_sym in Hc'.
  destruct (plain_char c Hc) as (Hnl & Hcomma & _); [done|].
  unfold tk_step at 2. simpl. rewrite Hnl.
  destruct (is_blank c) eqn:Hb; simpl.
  - unfold push_char. simpl. rewrite IH by done. by rewrite <- app_assoc.
  - rewrite decide_False by done. unfold push_char. simpl.
    rewrite tk_in_field by done. by rewrite <- app_assoc.
Qed.

(** Inside quotes the characters are collected, a doubled quote as one. *)
Lemma tk_in_quoted (f fld : list ascii) (row : list (list ascii))
    (lines : list (list (list ascii))) :
  foldl tk_step (Tk IN_QUOTED_FIELD fld row lines)
    (mjoin (map (λ c, if decide (c = QUOTE) then [QUOTE; QUOTE] else [c]) f))
  = Tk IN_QUOTED_FIELD (rev f ++ fld) row lines.
Proof.
  revert fld. induction f as [|c f IH]; intros fld; simpl; [done|].
  rewrite foldl_app. destruct (decide (c = QUOTE)) as [->|Hne]; simpl.
  - unfold tk_step at 2 3. simpl. unfold push_char. simpl.
    rewrite IH. by rewrite <- app_assoc.
  - unfold tk_step at 2. simpl. rewrite decide_False by done.
    unfold push_char. simpl. rewrite IH. by rewrite <- app_assoc.
Qed.

(** The first character of a field written without quotes, read at the
    start of a field or of a line. *)
Lemma tk_first_char (st : tstate) (c : ascii) (row : list (list ascii))
    (lines : list (list (list ascii))) :
  st = START_FIELD ∨ st = START_RECORD → csv_special c = false → c ≠ CR →
  tk_step (Tk st [] row lines) c
  = Tk (if decide (st = START_RECORD) then
          if is_blank c then WHITESPACE_LINE else IN_FIELD
        else IN_FIELD) [c] row lines.
Proof.
  intros Hst Hc Hcr. destruct (plain_char c Hc Hcr) as (Hnl & Hcomma & Hq).
  destruct Hst as [-> | ->]; unfold tk_step, step_start_field; simpl; rewrite Hnl.
  - by rewrite !decide_False.
  - destruct (is_blank c); [done|]. by rewrite !decide_False.
Qed.

(** A written field followed by a comma, or by a line feed, is read back
    as that field; [st] is the state in front of the field. *)
Lemma tk_field_comma (st : tstate) (f : list ascii) (row : list (list ascii))
    (lines : list (list (list ascii))) :
  st = START_FIELD ∨ st = START_RECORD → CR ∉ f →
  foldl tk_step (Tk st [] row lines) (write_field f ++ [COMMA])
  = Tk START_FIELD [] (f :: row) lines.
Proof.
  intros Hst Hcr. unfold write_field. destruct (existsb csv_special f) eqn:Hf.
  - unfold quote_field. simpl.
    assert (tk_step (Tk st [] row lines) QUOTE = Tk IN_QUOTED_FIELD [] row lines) as ->.
    { by destruct Hst as [-> | ->]. }
    rewrite <- app_assoc, foldl_app, tk_in_quoted. simpl. rewrite app_nil_r.
    unfold tk_step, end_field, end_line. simpl. by rewrite rev_involutive.
  - destruct f as [|c f]; simpl.
    + by destruct Hst as [-> | ->].
    + simpl in Hf. apply orb_false_iff in Hf as [Hc Hf].
      apply not_elem_of_cons in Hcr as [Hc' Hcr]. apply not_eq_sym in Hc'.
      rewrite (tk_first_char st c row lines Hst Hc Hc'). rewrite foldl_app.
      destruct (decide (st = START_RECORD)) as [E|E]; [destruct (is_blank c)|].
      * rewrite tk_in_blank by done. simpl.
        destruct (forallb is_blank f); unfold tk_step, end_field; simpl;
          by rewrite rev_app_distr, rev_involutive.
      * rewrite tk_in_field by done. simpl. unfold tk_step, end_field. simpl.
        by rewrite rev_app_distr, rev_involutive.
      * rewrite tk_in_field by done. simpl. unfold tk_step, end_field. simpl.
        by rewrite rev_app_distr, rev_involutive.
Qed.

Lemma tk_field_newline (st : tstate) (f : list ascii) (row : list (list ascii))
    (lines : list (list (list ascii))) :
  st = START_FIELD ∨ (st = START_RECORD ∧ f ≠ [] ∧ forallb is_blank f = false) →
  CR ∉ f →
  foldl tk_step (Tk st [] row lines) (write_field f ++ [LF])
  = Tk START_RECORD [] [] (rev (f :: row) :: lines).
Proof.
  intros Hst Hcr. unfold write_field in *. destruct (existsb csv_special f) eqn:Hf.
  - unfold quote_field. simpl.
    assert (tk_step (Tk st [] row lines) QUOTE = Tk IN_QUOTED_FIELD [] row lines) as ->.
    { by destruct Hst as [-> | [-> _]]. }
    rewrite <- app_assoc, foldl_app, tk_in_quoted. simpl. rewrite app_nil_r.
    unfold tk_step, end_field, end_line. simpl. by rewrite rev_involutive.
  - destruct f as [|c f]; simpl.
    + by destruct Hst as [-> | [_ [? _]]].
    + simpl in Hf. apply orb_false_iff in Hf as [Hc Hf].
      apply not_elem_of_cons in Hcr as [Hc' Hcr]. apply not_eq_sym in Hc'.
      assert (st = START_FIELD ∨ st = START_RECORD) as Hst' by (destruct Hst; tauto).
      rewrite (tk_first_char st c row lines Hst' Hc Hc'). rewrite foldl_app.
      destruct (decide (st = START_RECORD)) as [E|E]; [destruct (is_blank c) eqn:Hb|].
      * destruct Hst as [-> | (_ & _ & Hnb)]; [done|]. simpl in Hnb. rewrite Hb in Hnb.
        simpl in Hnb. rewrite tk_in_blank by done. rewrite Hnb. simpl.
        unfold tk_step, end_line, end_field. simpl.
        by rewrite rev_app_distr, rev_involutive.
      * rewrite tk_in_field by done. simpl. unfold tk_step, end_line, end_field. simpl.
        by rewrite rev_app_distr, rev_involutive.
      * rewrite tk_in_field by done. simpl. unfold tk_step, end_line, end_field. simpl.
        by rewrite rev_app_distr, rev_involutive.
Qed.

(** The fields of a line, after the first. *)
Lemma tk_written_fields (fs : list (list ascii)) (row : list (list ascii))
    (lines : list (list (list ascii))) :
  fs ≠ [] → Forall (λ f, CR ∉ f) fs →
  foldl tk_step (Tk START_FIELD [] row lines) (join_fields fs ++ [LF])
  = Tk START_RECORD [] [] ((rev row ++ fs) :: lines).
Proof.
  revert row. induction fs as [|f fs IH]; intros row Hne Hcr; [done|].
  apply Forall_cons in Hcr as [Hf Hcr].
  destruct fs as [|f' fs].
  - simpl join_fields. rewrite tk_field_newline by auto. simpl. done.
  - change (join_fields (f :: f' :: fs))
      with (write_field f ++ COMMA :: join_fields (f' :: fs)).
    rewrite <- app_assoc. simpl app.
    change (write_field f ++ COMMA :: ?x) with (write_field f ++ [COMMA] ++ x).
    rewrite app_assoc, foldl_app, tk_field_comma by auto.
    rewrite IH by done. simpl. by rewrite <- app_assoc.
Qed.

Lemma line_ok_fields (fs : list (list ascii)) :
  line_ok fs = true → Forall (λ f, CR ∉ f) fs.
Proof.
  unfold line_ok. intros [H _]%andb_true_iff. apply Forall_forall. intros f Hf.
  apply list_elem_of_In in Hf.
  by apply (proj1 (forallb_forall _ _) H), negb_true_iff, bool_decide_eq_false in Hf.
Qed.

(** A written line is read back as its fields. *)
Lemma tk_written_row (fs : list (list ascii)) (lines : list (list (list ascii))) :
  fs ≠ [] → line_ok fs = true →
  foldl tk_step (Tk START_RECORD [] [] lines) (write_row fs)
  = Tk START_RECORD [] [] (fs :: lines).
Proof.
  intros Hne Hok. pose proof (line_ok_fields fs Hok) as Hcr.
  destruct fs as [|f fs]; [done|].
  apply Forall_cons in Hcr as [Hf Hcr].
  destruct fs as [|f' fs].
  - destruct f as [|c f].
    + reflexivity.
    + change (write_row [c :: f]) with (write_field (c :: f) ++ [LF]).
      rewrite tk_field_newline; [done | | done]. right. split; [done|]. split; [done|].
      unfold line_ok in Hok. apply andb_true_iff in Hok as [_ Hok].
      rewrite bool_decide_eq_false_2 in Hok by done. by apply negb_true_iff in Hok.
  - assert (write_row (f :: f' :: fs)
            = (write_field f ++ [COMMA]) ++ join_fields (f' :: fs) ++ [LF]) as ->.
    { assert (write_row (f :: f' :: fs) = join_fields (f :: f' :: fs) ++ [LF]) as ->
        by (by destruct f).
      change (join_fields (f :: f' :: fs))
        with (write_field f ++ COMMA :: join_fields (f' :: fs)).
      by rewrite <- !app_assoc. }
    rewrite foldl_app, tk_field_comma by auto.
    by rewrite tk_written_fields.
Qed.

Lemma tk_written_rows (ls lines : list (list (list ascii))) :
  Forall (λ fs, fs ≠ [] ∧ line_ok fs = true) ls →
  foldl tk_step (Tk START_RECORD [] [] lines) (mjoin (map write_row ls))
  = Tk START_RECORD [] [] (rev ls ++ lines).
Proof.
  revert lines. induction ls as [|fs ls IH]; intros lines Hne; simpl; [done|].
  apply Forall_cons in Hne as [[Hfs Hok] Hne].
  rewrite foldl_app, tk_written_row, IH by done. by rewrite <- app_assoc.
Qed.

(** The lines written are the lines read. *)
Lemma tokenize_written (ls : list (list (list ascii))) :
  Forall (λ fs, fs ≠ [] ∧ line_ok fs = true) ls →
  tokenize (mjoin (map write_row ls)) = Ok ls.
Proof.
  intros Hne. unfold tokenize, tk_init. rewrite tk_written_rows by done.
  unfold tk_eof. simpl. by rewrite app_nil_r, rev_involutive.
Qed.

(** The lines of a frame with at least one column, for the reader. *)
Lemma csv_safe_lines (df : DataFrame) :
  wf df → columns df ≠ [] → csv_safe df = true →
  Forall (λ fs, fs ≠ [] ∧ line_ok fs = true)
    (map list_ascii_of_string (columns df)
     :: map (λ r, map (λ v, list_ascii_of_string (render_cell v)) r) (data df)).
Proof.
  intros Hwf Hcols [Hh Hrows]%andb_true_iff. apply Forall_cons. split.
  - split; [|done]. destruct (columns df); [done | discriminate].
  - apply Forall_forall. intros fs (r & -> & Hr)%list_elem_of_fmap. split.
    + pose proof (proj1 (Forall_forall _ _) Hwf r Hr) as Hlen. simpl in Hlen.
      destruct r; [|discriminate]. destruct (columns df); done.
    + apply (proj1 (forallb_forall _ _) Hrows). by apply list_elem_of_In.
Qed.

Lemma to_csv_lines (df : DataFrame) :
  list_ascii_of_string (to_csv df)
  = mjoin (map write_row
             (map list_ascii_of_string (columns df)
              :: map (λ r, map (λ v, list_ascii_of_string (render_cell v)) r) (data df))).
Proof.
  unfold to_csv. rewrite list_ascii_of_string_of_list_ascii. simpl.
  by rewrite map_map.
Qed.

Lemma length_rows_of_columns {A} (d : A) (n : nat) (cols : list (list A)) :
  length (rows_of_columns d n cols) = n.
Proof. unfold rows_of_columns. by rewrite length_map, length_seq. Qed.

Lemma rows_of_columns_wf {A} (d : A) (n : nat) (cols : list (list A)) :
  Forall (λ r, length r = length cols) (rows_of_columns d n cols).
Proof.
  unfold rows_of_columns. apply Forall_forall.
  intros r (i & -> & _)%list_elem_of_fmap. by rewrite length_map.
Qed.

(** Whatever [read_csv] returns is rectangular. *)
Lemma read_csv_wf (content : string) (df : DataFrame) :
  read_csv content = Ok df → wf df.
Proof.
  unfold read_csv. destruct (tokenize _) as [lines|]; simpl; [|done].
  destruct lines as [|header rest]; [done|].
  destruct (forallb _ _); [|done]. intros [= <-]. unfold wf. simpl.
  eapply Forall_impl; [apply rows_of_columns_wf|].
  intros r ->. simpl. by rewrite !length_map, length_seq.
Qed.

(** A frame with at least one column is read back from the text written
    for it, with its columns and as many rows. *)
Lemma read_csv_to_csv (df : DataFrame) :
  wf df → columns df ≠ [] → csv_safe df = true →
  ∃ df', read_csv (to_csv df) = Ok df'
         ∧ columns df' = columns df ∧ nrows df' = nrows df.
Proof.
  intros Hwf Hcols Hsafe. unfold read_csv. rewrite to_csv_lines.
  rewrite tokenize_written by (by apply csv_safe_lines).
  simpl.
  set (rest := map _ (data df)).
  assert (Forall (λ l, length l = length (columns df)) rest) as Hrest.
  { apply Forall_forall. intros fs (r & -> & Hr)%list_elem_of_fmap.
    rewrite length_map. exact (proj1 (Forall_forall _ _) Hwf r Hr). }
  rewrite length_map.
  assert (forallb (λ l, length l <=? match rest with
                                      | [] => length (columns df)
                                      | l1 :: _ => length (columns df) `max` length l1
                                      end) (tail rest) = true) as ->.
  { apply forallb_forall. intros l Hl%list_elem_of_In. apply Nat.leb_le.
    assert (length l = length (columns df)) as ->.
    { apply (proj1 (Forall_forall _ _) Hrest). destruct rest; [done | by right]. }
    destruct rest; lia. }
  eexists. split; [reflexivity|]. simpl. split.
  - rewrite map_map. rewrite <- (map_id (columns df)) at 2.
    apply map_ext. intros c. apply string_of_list_ascii_of_string.
  - unfold nrows. simpl. rewrite length_rows_of_columns, length_map.
    unfold rest. by rewrite length_map.
Qed.

(** ** Loading *)

Lemma safe_read_csv_run (w : World) (path : Path) :
  ∃ df w', _safe_read_csv path w = (Ok (length (heap w)), w')
           ∧ heap w' = heap w ++ [df] ∧ fs w' = fs w ∧ cache w' = cache w
           ∧ loaded w path df w'.
Proof.
  unfold _safe_read_csv, loaded. rewrite bind_run. unfold path_exists.
  destruct (fs w !! path) as [c|] eqn:E.
  - rewrite bool_decide_eq_true_2 by eauto. cbn [negb].
    rewrite bind_run. unfold get_world. rewrite E. change (default "" (Some c)) with c.
    destruct (read_csv c) as [df|e].
    + eexists _, _. split; [reflexivity|]. by simpl.
    + eexists _, _. split; [reflexivity|]. by simpl.
  - rewrite bool_decide_eq_false_2 by (by intros [? ?]). simpl.
    eexists _, _. split; [reflexivity|]. by simpl.
Qed.

Lemma load_csv_miss (w : World) (path : Path) :
  cache w !! path = None →
  ∃ df w', load_csv path w = (Ok (length (heap w)), w')
           ∧ heap w' = heap w ++ [df] ∧ fs w' = fs w
           ∧ cache w' !! path = Some (df, drop (length (notices w)) (notices w'))
           ∧ loaded w path df w'.
Proof.
  intros Hmiss. unfold load_csv. rewrite bind_run. unfold get_world at 1. rewrite Hmiss.
  destruct (safe_read_csv_run w path) as (df & w' & Hrun & Hh & Hf & Hc & Hl).
  rewrite bind_run, Hrun.
  assert (heap w' !! length (heap w) = Some df) as Hdf by (rewrite Hh; apply heap_alloc).
  rewrite bind_run, (deref_run _ _ _ Hdf). rewrite bind_run. unfold get_world.
  rewrite bind_run. unfold cache_put. simpl.
  eexists _, _. split; [reflexivity|]. simpl.
  split; [done|]. split; [done|]. split; [apply lookup_insert_eq|].
  unfold loaded in *. simpl. exact Hl.
Qed.

Lemma load_csv_hit (w : World) (path : Path) (df : DataFrame) (shown : list notice) :
  cache w !! path = Some (df, shown) →
  load_csv path w
  = (Ok (length (heap w)),
     set_heap (λ h, h ++ [df]) (set_notices (λ n, n ++ shown) w)).
Proof.
  intros Hhit. unfold load_csv. rewrite bind_run. unfold get_world. by rewrite Hhit.
Qed.

(** C6 (as amended): loading never raises. Without a cached result, a
    missing file gives an empty frame and no notice, a file that cannot
    be parsed gives an empty frame and a warning, and the files are left
    as they are; with a cached result the cached frame is returned. A
    later save succeeds whatever the frame is, and leaves the text
    written for the frame in the file. That file is parsed without
    error when the frame has at least one column and is written on
    lines that are read back as such ([csv_safe]): the reader then finds
    as many columns and as many rows as the frame has, and the names of
    the columns when none is empty or repeated. *)
Theorem load_never_raises (w : World) (d : dataset) :
  (∃ l w' df, _safe_read_csv (dataset_path d) w = (Ok l, w')
              ∧ heap w' !! l = Some df ∧ fs w' = fs w
              ∧ loaded w (dataset_path d) df w')
  ∧ (∃ l w' df, load_csv (dataset_path d) w = (Ok l, w')
                ∧ heap w' !! l = Some df ∧ fs w' = fs w
                ∧ (cache w !! dataset_path d = None → loaded w (dataset_path d) df w'))
  ∧ (∀ w2 l2 df2, heap w2 !! l2 = Some df2 →
       ∃ w3, save_csv l2 (dataset_path d) w2 = (Ok (), w3)
             ∧ fs w3 !! dataset_path d = Some (to_csv df2)
             ∧ (wf df2 → columns df2 ≠ [] → csv_safe df2 = true →
                ∃ df3,
                  read_csv (to_csv df2) = Ok df3
                  ∧ length (columns df3) = length (columns df2)
                  ∧ nrows df3 = nrows df2
                  ∧ (NoDup (columns df2) → "" ∉ columns df2 → columns df3 = columns df2)
                  ∧ ∃ l4 w4, _safe_read_csv (dataset_path d) w3 = (Ok l4, w4)
                             ∧ heap w4 !! l4 = Some df3 ∧ notices w4 = notices w3)).
Proof.
  split; [|split].
  - destruct (safe_read_csv_run w (dataset_path d)) as (df & w' & Hrun & Hh & Hf & _ & Hl).
    exists (length (heap w)), w', df. split; [done|].
    split; [rewrite Hh; apply heap_alloc|]. done.
  - destruct (cache w !! dataset_path d) as [[df shown]|] eqn:Hc.
    + rewrite (load_csv_hit _ _ _ _ Hc). eexists _, _, df. split; [reflexivity|].
      simpl. split; [apply heap_alloc|]. done.
    + destruct (load_csv_miss w (dataset_path d) Hc) as (df & w' & Hrun & Hh & Hf & _ & Hl).
      exists (length (heap w)), w', df. split; [done|].
      split; [rewrite Hh; apply heap_alloc|]. done.
  - intros w2 l2 df2 Hl2.
    eexists. split; [by apply save_csv_saved|]. simpl.
    split; [apply saved_self|]. intros Hwf Hcols Hsafe.
    destruct (read_csv_to_csv df2 Hwf Hcols Hsafe) as (df3 & Hread & Hc3 & Hn3).
    exists df3. split; [done|]. split; [by rewrite Hc3|]. split; [done|].
    split; [done|].
    set (w3 := set_fs _ w2).
    destruct (safe_read_csv_run w3 (dataset_path d)) as (df & w4 & Hrun & Hh & _ & _ & Hl).
    exists (length (heap w3)), w4. split; [done|].
    unfold loaded in Hl. unfold w3 in Hl at 1. simpl in Hl.
    unfold saved in Hl. rewrite lookup_insert_eq, Hread in Hl. destruct Hl as [-> Hn].
    split; [rewrite Hh; apply heap_alloc | done].
Qed.

Lemma load_never_raises_witness :
  (∃ l w', load_csv F_NOTIF (mkWorld {[F_NOTIF := texto_roto]} [] ∅ noon 0 []) = (Ok l, w')
           ∧ heap w' !! l = Some DataFrame_empty
           ∧ notices w' = [aviso_roto F_NOTIF (ParserError "EOF inside string")])
  ∧ ∃ w3 df3,
      save_csv 0 F_NOTIF (world_with notifs_repetidas F_NOTIF) = (Ok (), w3)
      ∧ read_csv (to_csv notifs_repetidas) = Ok df3
      ∧ nrows df3 = 3.
Proof.
  destruct (load_never_raises (mkWorld {[F_NOTIF := texto_roto]} [] ∅ noon 0 [])
              Notificaciones) as (_ & (l & w' & df & Hrun & Hdf & _ & Hl) & _).
  destruct (load_never_raises (world_with notifs_repetidas F_NOTIF) Notificaciones)
    as (_ & _ & Hsave).
  destruct (Hsave (world_with notifs_repetidas F_NOTIF) 0 notifs_repetidas eq_refl)
    as (w3 & Hs & _ & Hback).
  destruct Hback as (df3 & Hr & _ & Hn & _).
  { repeat constructor. } { discriminate. } { reflexivity. }
  split.
  - specialize (Hl eq_refl). unfold loaded in Hl.
    change (fs _ !! dataset_path Notificaciones) with (Some texto_roto) in Hl.
    change (read_csv texto_roto) with (@Raise DataFrame (ParserError "EOF inside string")) in Hl.
    destruct Hl as [-> Hn']. exists l, w'.
    split; [exact Hrun|]. split; [exact Hdf | exact Hn'].
  - exists w3, df3. split; [exact Hs|]. split; [exact Hr | exact Hn].
Defined.

(** C6 as stated fails for the frame a failed load returns: it has no
    column, the text written for it is a bare line feed, and the next
    load reports that file as unreadable. *)
Lemma save_of_empty_frame_unreadable :
  ∃ l w1 w2 l' w3,
    load_csv F_NOTIF (mkWorld {[F_NOTIF := texto_roto]} [] ∅ noon 0 []) = (Ok l, w1)
    ∧ heap w1 !! l = Some DataFrame_empty
    ∧ save_csv l F_NOTIF w1 = (Ok (), w2)
    ∧ fs w2 !! F_NOTIF = Some (String LF "")
    ∧ read_csv (String LF "") = Raise EmptyDataError
    ∧ (cache_data_clear;; load_csv F_NOTIF) w2 = (Ok l', w3)
    ∧ heap w3 !! l' = Some DataFrame_empty
    ∧ notices w3 = notices w2 ++ [aviso_roto F_NOTIF EmptyDataError].
Proof.
  set (w0 := mkWorld {[F_NOTIF := texto_roto]} [] ∅ noon 0 []).
  destruct (load_csv_miss w0 F_NOTIF (lookup_empty _))
    as (df & w1 & Hrun & Hh & Hf & _ & Hl).
  unfold loaded in Hl.
  change (fs w0 !! F_NOTIF) with (Some texto_roto) in Hl.
  change (read_csv texto_roto) with (@Raise DataFrame (ParserError "EOF inside string")) in Hl.
  destruct Hl as [-> Hn1].
  assert (heap w1 !! 0 = Some DataFrame_empty) as Hl0 by (by rewrite Hh).
  set (w2 := set_fs (saved DataFrame_empty F_NOTIF) w1).
  set (w2' := set_cache (λ _, ∅) w2).
  assert (fs w2' !! F_NOTIF = Some (String LF "")) as Hf2 by apply saved_self.
  destruct (load_csv_miss w2' F_NOTIF (lookup_empty _))
    as (df & w3 & Hrun3 & Hh3 & _ & _ & Hl3).
  unfold loaded in Hl3. rewrite Hf2 in Hl3.
  change (read_csv (String LF "")) with (@Raise DataFrame EmptyDataError) in Hl3.
  destruct Hl3 as [-> Hn3].
  exists 0, w1, w2, (length (heap w2')), w3.
  split; [exact Hrun|]. split; [exact Hl0|].
  split; [exact (save_csv_saved Notificaciones 0 _ w1 Hl0)|].
  split; [apply saved_self|]. split; [reflexivity|].
  split; [rewrite bind_run; exact Hrun3|].
  split; [rewrite Hh3; apply heap_alloc | exact Hn3].
Qed.

(** ** Integers in text *)

Lemma list_ascii_app (a b : string) :
  list_ascii_of_string (a +:+ b) = list_ascii_of_string a ++ list_ascii_of_string b.
Proof. induction a as [|x a IH]; [done|]. rewrite append_cons. simpl. by rewrite IH. Qed.

Lemma read_digits_all (acc : Z) (l : list ascii) :
  forallb is_digit l = true →
  read_digits acc l = (foldl (λ a c, (a * 10 + digit_val c)%Z) acc l, length l, []).
Proof.
  revert acc. induction l as [|c l IH]; intros acc Hl; simpl; [done|].
  simpl in Hl. apply andb_true_iff in Hl as [Hc Hl]. rewrite Hc, IH by done. done.
Qed.

Lemma pretty_N_go_app (x : N) (s : string) : pretty_N_go x s = pretty_N_go x "" +:+ s.
Proof.
  revert s. induction (N.lt_wf_0 x) as [x _ IH]; intros s.
  assert (x = 0 ∨ 0 < x)%N as [->|Hx] by lia; [done|].
  rewrite !(pretty_N_go_step x) by done.
  rewrite (IH (x `div` 10)%N) by (by apply N.div_lt).
  rewrite (IH (x `div` 10)%N ltac:(by apply N.div_lt) (String _ "")).
  by rewrite append_snoc.
Qed.

Lemma pretty_N_char_digit (d : N) :
  (d < 10)%N →
  is_digit (pretty_N_char d) = true ∧ digit_val (pretty_N_char d) = Z.of_N d.
Proof.
  intros Hd.
  assert (d = 0 ∨ d = 1 ∨ d = 2 ∨ d = 3 ∨ d = 4 ∨ d = 5 ∨ d = 6 ∨ d = 7 ∨ d = 8 ∨ d = 9)%N
    as H by lia.
  repeat (destruct H as [-> | H]; [done|]). by subst.
Qed.

(** The numeral of a natural number is made of digits and reads as it. *)
Lemma pretty_N_go_digits (x : N) :
  let l := list_ascii_of_string (pretty_N_go x "") in
  forallb is_digit l = true
  ∧ foldl (λ a c, (a * 10 + digit_val c)%Z) 0%Z l = Z.of_N x
  ∧ ((0 < x)%N → l ≠ []).
Proof.
  induction (N.lt_wf_0 x) as [x _ IH]. simpl.
  assert (x = 0 ∨ 0 < x)%N as [->|Hx] by lia.
  { split; [done|]. split; [done|]. lia. }
  rewrite pretty_N_go_step, pretty_N_go_app, list_ascii_app by done.
  destruct (IH (x `div` 10)%N ltac:(by apply N.div_lt)) as (Hd & Hv & _).
  destruct (pretty_N_char_digit (x `mod` 10)%N) as [Hc1 Hc2].
  { apply N.mod_lt. lia. }
  split; [|split].
  - rewrite forallb_app, Hd. simpl. by rewrite Hc1.
  - rewrite foldl_app, Hv. simpl. rewrite Hc2.
    rewrite (N.div_mod x 10) at 3 by lia. lia.
  - intros _. by destruct (list_ascii_of_string (pretty_N_go (x `div` 10) "")).
Qed.

Lemma digit_not_sign (c : ascii) :
  is_digit c = true → c ≠ "-"%char ∧ c ≠ "+"%char ∧ c ≠ "."%char.
Proof. intros Hc. repeat split; intros ->; done. Qed.

Lemma digits_no_point (l : list ascii) :
  forallb is_digit l = true → "."%char ∉ l.
Proof.
  intros Hl Hin. apply list_elem_of_In in Hin.
  pose proof (proj1 (forallb_forall _ _) Hl _ Hin). done.
Qed.

(** A run of digits, with or without a minus sign, is read as the
    integer it writes. *)
Lemma parse_digits (l : list ascii) (neg : bool) :
  forallb is_digit l = true → l ≠ [] →
  let v := foldl (λ a c, (a * 10 + digit_val c)%Z) 0%Z l in
  parse_number (string_of_list_ascii ((if neg then ["-"%char] else []) ++ l))
  = Some (Dec (if neg then - v else v)%Z 0).
Proof.
  intros Hl Hne v. unfold parse_number.
  rewrite list_ascii_of_string_of_list_ascii.
  destruct l as [|c l]; [done|].
  assert (is_digit c = true) as Hc by (simpl in Hl; by apply andb_true_iff in Hl as [? _]).
  assert ((match (if neg then ["-"%char] else []) ++ c :: l with
           | "-"%char :: r => (true, r)
           | "+"%char :: r => (false, r)
           | _ => (false, (if neg then ["-"%char] else []) ++ c :: l)
           end) = (neg, c :: l)) as ->.
  { destruct neg; [done|]. simpl app.
    destruct c as [[] [] [] [] [] [] [] []]; done. }
  rewrite read_digits_all by done. simpl length. fold v. by destruct neg.
Qed.

Lemma pretty_Z_digits (z : Z) :
  ∃ (l : list ascii) (neg : bool),
    pretty z = string_of_list_ascii ((if neg then ["-"%char] else []) ++ l)
           ∧ forallb is_digit l = true ∧ l ≠ []
           ∧ (if neg : bool then - foldl (λ a c, (a * 10 + digit_val c)%Z) 0%Z l
              else foldl (λ a c, (a * 10 + digit_val c)%Z) 0%Z l)%Z = z.
Proof.
  destruct z as [|p|p].
  - exists ["0"%char], false. done.
  - destruct (pretty_N_go_digits (N.pos p)) as (Hd & Hv & Hne).
    exists (list_ascii_of_string (pretty_N_go (N.pos p) "")), false.
    split; [|split; [done|split; [by apply Hne|]]].
    + simpl. by rewrite string_of_list_ascii_of_string.
    + rewrite Hv. done.
  - destruct (pretty_N_go_digits (N.pos p)) as (Hd & Hv & Hne).
    exists (list_ascii_of_string (pretty_N_go (N.pos p) "")), true.
    split; [|split; [done|split; [by apply Hne|]]].
    + change (["-"%char] ++ ?l) with ("-"%char :: l). simpl string_of_list_ascii.
      by rewrite string_of_list_ascii_of_string.
    + rewrite Hv. done.
Qed.

(** The text written for an integer is read back as that integer. *)
Lemma parse_number_pretty (z : Z) :
  parse_number (pretty z) = Some (Dec z 0) ∧ is_int_literal (pretty z) = true.
Proof.
  destruct (pretty_Z_digits z) as (l & neg & -> & Hd & Hne & Hv).
  pose proof (parse_digits l neg Hd Hne) as Hp. simpl in Hp. rewrite Hv in Hp.
  split; [done|]. unfold is_int_literal. rewrite Hp.
  rewrite list_ascii_of_string_of_list_ascii.
  rewrite bool_decide_eq_false_2; [done|].
  intros [Hin | Hin]%elem_of_app.
  - destruct neg; [|by apply elem_of_nil in Hin].
    apply list_elem_of_singleton in Hin. done.
  - by apply digits_no_point in Hin.
Qed.

(** ** What a column looks like after a save and a load *)

(** A column of integers is read back as the same integers. *)
Lemma infer_column_ints (zs : list Z) :
  infer_column (map render_cell (map CInt zs)) = map CInt zs.
Proof.
  unfold infer_column. rewrite map_map. simpl.
  assert (forallb is_int_literal (map (λ z : Z, pretty z) zs) = true) as ->.
  { apply forallb_forall. intros s (z & <- & _)%in_map_iff.
    apply parse_number_pretty. }
  rewrite map_map. apply map_ext. intros z.
  by rewrite (proj1 (parse_number_pretty z)).
Qed.

(** A column holding a text that is not a numeral and a text that is
    not a truth value is read back as text. *)
Lemma infer_column_text (ss : list string) (s1 s2 : string) :
  s1 ∈ ss → parse_number s1 = None → s2 ∈ ss → is_bool_literal s2 = None →
  infer_column ss = map CStr ss.
Proof.
  intros H1 Hp H2 Hb. unfold infer_column.
  apply list_elem_of_In in H1, H2.
  destruct (forallb is_int_literal ss) eqn:E1.
  { pose proof (proj1 (forallb_forall _ _) E1 _ H1) as H.
    unfold is_int_literal in H. by rewrite Hp in H. }
  destruct (forallb (λ s, bool_decide (is_Some (parse_number s))) ss) eqn:E2.
  { pose proof (proj1 (forallb_forall _ _) E2 _ H1) as H. simpl in H.
    apply bool_decide_eq_true in H. rewrite Hp in H. by destruct H. }
  destruct (forallb (λ s, bool_decide (is_Some (is_bool_literal s))) ss) eqn:E3.
  { pose proof (proj1 (forallb_forall _ _) E3 _ H2) as H. simpl in H.
    apply bool_decide_eq_true in H. rewrite Hb in H. by destruct H. }
  done.
Qed.

(** A column of truth values is read back as the same truth values. *)
Lemma infer_column_bools (bs : list bool) :
  infer_column (map render_cell (map CBool bs)) = map CBool bs.
Proof.
  destruct bs as [|b bs]; [done|].
  unfold infer_column. rewrite map_map.
  assert (∀ b : bool, parse_number (render_cell (CBool b)) = None
                      ∧ is_bool_literal (render_cell (CBool b)) = Some b) as Hb
    by (by intros []).
  assert (forallb is_int_literal (map (λ x, render_cell (CBool x)) (b :: bs)) = false) as ->.
  { cbn [map forallb]. unfold is_int_literal at 1. by rewrite (proj1 (Hb b)). }
  assert (forallb (λ s, bool_decide (is_Some (parse_number s)))
            (map (λ x, render_cell (CBool x)) (b :: bs)) = false) as ->.
  { cbn [map forallb]. rewrite (proj1 (Hb b)). done. }
  assert (forallb (λ s, bool_decide (is_Some (is_bool_literal s)))
            (map (λ x, render_cell (CBool x)) (b :: bs)) = true) as ->.
  { apply forallb_forall. intros s (b' & <- & _)%in_map_iff.
    rewrite (proj2 (Hb b')). by apply bool_decide_eq_true. }
  rewrite map_map. apply map_ext. intros b'. by rewrite (proj2 (Hb b')).
Qed.

Lemma infer_column_length (ss : list string) : length (infer_column ss) = length ss.
Proof. unfold infer_column. repeat case_match; by rewrite length_map. Qed.

Lemma nth_seq_all {A} (d : A) (l : list A) :
  map (λ i, nth i l d) (seq 0 (length l)) = l.
Proof.
  apply list_eq. intros i. rewrite list_lookup_fmap.
  destruct (decide (i < length l)) as [Hi|Hi].
  - rewrite lookup_seq_lt by done. simpl.
    destruct (lookup_lt_is_Some_2 l i Hi) as [x Hx]. rewrite Hx.
    f_equal. apply nth_lookup_Some with (d := d) in Hx. done.
  - rewrite lookup_seq_ge by lia. simpl. symmetry. apply lookup_ge_None. lia.
Qed.

(** The frame read from the text written for [df]: every column is what
    the reader infers from the texts written for its cells. *)
Lemma read_csv_to_csv_column (df : DataFrame) :
  wf df → columns df ≠ [] → csv_safe df = true →
  ∃ df', read_csv (to_csv df) = Ok df'
         ∧ columns df' = columns df ∧ nrows df' = nrows df
         ∧ ∀ c s, getitem df c = Ok s →
             getitem df' c = Ok (infer_column (map render_cell s)).
Proof.
  intros Hwf Hcols Hsafe. unfold read_csv. rewrite to_csv_lines.
  rewrite tokenize_written by (by apply csv_safe_lines).
  simpl.
  set (rest := map _ (data df)).
  assert (Forall (λ l, length l = length (columns df)) rest) as Hrest.
  { apply Forall_forall. intros fs (r & -> & Hr)%list_elem_of_fmap.
    rewrite length_map. exact (proj1 (Forall_forall _ _) Hwf r Hr). }
  rewrite length_map.
  set (width := match rest with
                | [] => length (columns df)
                | l1 :: _ => length (columns df) `max` length l1
                end).
  assert (width = length (columns df)) as Hwidth.
  { unfold width. destruct rest as [|l1 rest']; [done|].
    apply Forall_cons in Hrest as [-> _]. lia. }
  assert (forallb (λ l, length l <=? width) (tail rest) = true) as ->.
  { apply forallb_forall. intros l Hl%list_elem_of_In. apply Nat.leb_le.
    assert (length l = length (columns df)) as ->.
    { apply (proj1 (Forall_forall _ _) Hrest). destruct rest; [done | by right]. }
    lia. }
  rewrite Hwidth, Nat.sub_diag.
  assert (map (λ l, drop 0 (resize (length (columns df)) "" (map string_of_list_ascii l))) rest
          = map (map render_cell) (data df)) as ->.
  { unfold rest. rewrite map_map. apply map_ext_in. intros r Hr%list_elem_of_In.
    rewrite drop_0, map_map.
    rewrite <- (proj1 (Forall_forall _ _) Hwf r Hr).
    rewrite <- (length_map (λ x, string_of_list_ascii (list_ascii_of_string (render_cell x))) r).
    rewrite resize_all. apply map_ext. intros v. apply string_of_list_ascii_of_string. }
  eexists. split; [reflexivity|].
  assert (map string_of_list_ascii (map list_ascii_of_string (columns df)) = columns df)
    as Hhdr.
  { rewrite map_map. rewrite <- (map_id (columns df)) at 2.
    apply map_ext. intros c. apply string_of_list_ascii_of_string. }
  simpl. split; [done|]. split.
  { unfold nrows. simpl. by rewrite length_rows_of_columns, length_map. }
  intros c s. unfold getitem. simpl. rewrite Hhdr.
  destruct (col_index c (columns df)) as [j|] eqn:Hj; [|done]. intros [= <-].
  f_equal. rewrite length_map. unfold rows_of_columns. rewrite map_map.
  set (col := infer_column _).
  assert (length col = length (data df)) as Hlen.
  { unfold col, column_of. by rewrite infer_column_length, !length_map. }
  rewrite <- Hlen. etrans; [|apply (nth_seq_all CNaN col)].
  apply map_ext_in. intros i _.
  rewrite !list_lookup_fmap, lookup_seq_lt by (by eapply col_index_lt). simpl.
  unfold col. do 2 f_equal. unfold column_of. rewrite !map_map. apply map_ext. intros r.
  destruct (r !! j) as [v|] eqn:Hv.
  - apply nth_lookup_Some. by rewrite list_lookup_fmap, Hv.
  - apply nth_overflow. rewrite length_map. by apply lookup_ge_None.
Qed.

(** ** Words are not numerals *)

Lemma read_digits_split (acc : Z) (l : list ascii) (v : Z) (n : nat) (r : list ascii) :
  read_digits acc l = (v, n, r) →
  ∃ ds, l = ds ++ r ∧ forallb is_digit ds = true.
Proof.
  revert acc v n. induction l as [|c l IH]; intros acc v n; simpl.
  - intros [= <- <- <-]. by exists [].
  - destruct (is_digit c) eqn:Hc.
    + destruct (read_digits _ l) as [[v' n'] r'] eqn:E. intros [= <- <- <-].
      destruct (IH _ _ _ E) as (ds & -> & Hds). exists (c :: ds). simpl.
      by rewrite Hc, Hds.
    + intros [= <- <- <-]. by exists [].
Qed.

Lemma digit_numeral_char (ds : list ascii) :
  forallb is_digit ds = true → forallb numeral_char ds = true.
Proof.
  intros H. apply forallb_forall. intros c Hc.
  unfold numeral_char. by rewrite (proj1 (forallb_forall _ _) H c Hc).
Qed.

(** Whatever [parse_number] reads is made of numeral characters. *)
Lemma parse_number_chars (s : string) (x : float64) :
  parse_number s = Some x →
  s ≠ "" ∧ forallb numeral_char (list_ascii_of_string s) = true.
Proof.
  unfold parse_number.
  set (l := list_ascii_of_string s).
  assert (∃ (neg : bool) (l0 sg : list ascii),
            match l with
            | "-"%char :: r => (true, r)
            | "+"%char :: r => (false, r)
            | _ => (false, l)
            end = (neg, l0)
            ∧ l = sg ++ l0 ∧ forallb numeral_char sg = true) as (neg & l0 & sg & -> & Hl & Hsg).
  { destruct l as [|c l']; [by exists false, [], []|].
    destruct c as [[] [] [] [] [] [] [] []];
      first [ by exists true, l', ["-"%char]
            | by exists false, l', ["+"%char]
            | by (eexists false, _, []; split; [reflexivity|]) ]. }
  destruct (read_digits 0 l0) as [[ip n1] r1] eqn:E1.
  destruct (read_digits_split _ _ _ _ _ E1) as (ds1 & Hl0 & Hds1).
  apply digit_numeral_char in Hds1.
  assert (s ≠ "" ↔ l ≠ []) as Hne.
  { unfold l. destruct s; simpl; split; done. }
  destruct r1 as [|c r2].
  - destruct (0 <? n1) eqn:Hn; [|done]. intros _. split.
    + apply Hne. rewrite Hl, Hl0, app_nil_r. intros [-> ->]%app_eq_nil.
      rewrite Hl0 in E1. simpl in E1. injection E1 as <- <-. done.
    + by rewrite Hl, Hl0, app_nil_r, forallb_app, Hsg, Hds1.
  - destruct (decide (c = "."%char)) as [->|Hc].
    2:{ destruct c as [[] [] [] [] [] [] [] []]; done. }
    destruct (read_digits ip r2) as [[v n2] r3] eqn:E2.
    destruct (read_digits_split _ _ _ _ _ E2) as (ds2 & Hr2 & Hds2).
    apply digit_numeral_char in Hds2.
    destruct r3; [|done]. intros _. split.
    + apply Hne. rewrite Hl, Hl0. by destruct sg, ds1.
    + rewrite Hl, Hl0, Hr2, app_nil_r, !forallb_app. simpl.
      by rewrite Hsg, Hds1, Hds2.
Qed.

Lemma is_word_not_number (s : string) : is_word s = true → parse_number s = None.
Proof.
  intros Hw. destruct (parse_number s) as [x|] eqn:E; [|done].
  destruct (parse_number_chars s x E) as [Hne Hall].
  unfold is_word in Hw. rewrite bool_decide_eq_false_2 in Hw by done. simpl in Hw.
  apply existsb_exists in Hw as (c & Hc & Hn).
  rewrite (proj1 (forallb_forall _ _) Hall c Hc) in Hn. done.
Qed.

(** ** Saving, then loading *)

(** A load that finds nothing cached reads the file a save has left. *)
Lemma load_csv_saved (w : World) (path : Path) (df : DataFrame) :
  cache w !! path = None → fs w !! path = Some (to_csv df) →
  wf df → columns df ≠ [] → csv_safe df = true →
  ∃ df' w', load_csv path w = (Ok (length (heap w)), w')
            ∧ heap w' = heap w ++ [df'] ∧ fs w' = fs w ∧ notices w' = notices w
            ∧ cache w' !! path = Some (df', [])
            ∧ read_csv (to_csv df) = Ok df'.
Proof.
  intros Hc Hf Hwf Hcols Hsafe.
  destruct (load_csv_miss w path Hc) as (df' & w' & Hrun & Hh & Hfs & Hcache & Hl).
  unfold loaded in Hl. rewrite Hf in Hl.
  destruct (read_csv_to_csv df Hwf Hcols Hsafe) as (df0 & Hread & _).
  rewrite Hread in Hl. destruct Hl as [-> Hn].
  exists df0, w'. split; [done|]. split; [done|]. split; [done|]. split; [done|].
  split; [|done]. rewrite Hcache, Hn. by rewrite drop_all.
Qed.

(** X1: what [save_csv] writes is what the next [load_csv] returns, once
    the cache has been cleared as every handler does. For a frame with
    at least one column, whose names are not empty and not repeated and
    whose lines are read back as such ([csv_safe]: no carriage return
    in a name or a value, no value made of blanks only in a table of
    one column), the load shows no warning and returns a new frame
    object with the same columns and as many rows; a column of 64-bit
    integers comes back as the same integers, a column of truth values
    as the same truth values, and a column of texts comes back as the
    same texts when one of them is no numeral and one of them is no
    truth value (the state names and the empty text are such). *)
Theorem save_then_load (w : World) (d : dataset) (l : loc) (df : DataFrame) :
  heap w !! l = Some df → wf df → columns df ≠ [] →
  NoDup (columns df) → "" ∉ columns df → csv_safe df = true →
  ∃ l' w' df',
    (save_csv l (dataset_path d);; cache_data_clear;; load_csv (dataset_path d)) w
    = (Ok l', w')
    ∧ heap w' !! l' = Some df' ∧ l' ≠ l ∧ heap w' !! l = Some df
    ∧ notices w' = notices w
    ∧ columns df' = columns df ∧ nrows df' = nrows df
    ∧ (∀ c zs, getitem df c = Ok (map CInt zs) → Forall int64 zs →
         getitem df' c = Ok (map CInt zs))
    ∧ (∀ c bs, getitem df c = Ok (map CBool bs) → getitem df' c = Ok (map CBool bs))
    ∧ (∀ c ss s1 s2, getitem df c = Ok (map CStr ss) →
         s1 ∈ ss → is_word s1 = true → s2 ∈ ss → is_bool_literal s2 = None →
         getitem df' c = Ok (map CStr ss)).
Proof.
  intros Hl Hwf Hcols _ _ Hsafe.
  destruct (read_csv_to_csv_column df Hwf Hcols Hsafe) as (df' & Hread & Hc' & Hn' & Hcol).
  set (w1 := set_cache (λ _, ∅) (set_fs (saved df (dataset_path d)) w)).
  destruct (load_csv_saved w1 (dataset_path d) df) as (df0 & w' & Hrun & Hh & _ & Hn & _ & Hr);
    [done | apply saved_self | done | done | done |].
  assert (df0 = df') as -> by congruence.
  exists (length (heap w)), w', df'. split.
  { rewrite bind_run, (save_csv_saved _ _ _ _ Hl). rewrite bind_run. exact Hrun. }
  split. { rewrite Hh. apply heap_alloc. }
  split. { apply lookup_lt_Some in Hl. lia. }
  split. { rewrite Hh. by apply lookup_app_l_Some. }
  split; [done|]. split; [done|]. split; [done|].
  split; [|split].
  - intros c zs Hs _. rewrite (Hcol _ _ Hs). by rewrite infer_column_ints.
  - intros c bs Hs. rewrite (Hcol _ _ Hs). by rewrite infer_column_bools.
  - intros c ss s1 s2 Hs H1 Hw H2 Hb. rewrite (Hcol _ _ Hs).
    rewrite map_map. simpl. rewrite map_id.
    by rewrite (infer_column_text ss s1 s2 H1 (is_word_not_number _ Hw) H2 Hb).
Qed.

Lemma save_then_load_witness :
  ∃ l' w' df',
    (save_csv 0 F_NOTIF;; cache_data_clear;; load_csv F_NOTIF)
      (world_with notifs_repetidas F_NOTIF) = (Ok l', w')
    ∧ heap w' !! l' = Some df'
    ∧ getitem df' "id" = Ok [CInt 1; CInt 2; CInt 2]
    ∧ getitem df' "estado" = Ok [CStr "Pendiente"; CStr "Pendiente"; CStr "Completada"].
Proof.
  destruct (save_then_load (world_with notifs_repetidas F_NOTIF) Notificaciones 0
              notifs_repetidas eq_refl)
    as (l' & w' & df' & Hrun & Hh & _ & _ & _ & _ & _ & Hint & _ & Htxt).
  - repeat constructor.
  - discriminate.
  - apply (bool_decide_unpack _). vm_compute. exact I.
  - apply (bool_decide_unpack _). vm_compute. exact I.
  - reflexivity.
  - exists l', w', df'. split; [exact Hrun|]. split; [exact Hh|]. split.
    + apply (Hint "id" [1; 2; 2]%Z eq_refl).
      repeat constructor; unfold int64; lia.
    + apply (Htxt "estado" ["Pendiente"; "Pendiente"; "Completada"]
               "Pendiente" "Pendiente" eq_refl); [left | reflexivity | left | reflexivity].
Defined.

(** ** Saving to any path *)

Lemma rfind_Some (c : ascii) (l : list ascii) (i : nat) :
  rfind c l = Some i → l !! i = Some c.
Proof.
  revert i. induction l as [|x l IH]; intros i; simpl; [done|].
  destruct (rfind c l) as [j|].
  - intros [= <-]. by apply IH.
  - destruct (decide (x = c)) as [->|]; [|done]. by intros [= <-].
Qed.

(** The suffix of a name is its tail, and starts with a point. *)
Lemma suffix_of_name_spec (name : list ascii) :
  take (length name - length (suffix_of_name name)) name ++ suffix_of_name name = name
  ∧ (suffix_of_name name = [] ∨ head (suffix_of_name name) = Some "."%char)
  ∧ ∀ c, c ∈ suffix_of_name name → c ∈ name.
Proof.
  unfold suffix_of_name. destruct (rfind "."%char name) as [i|] eqn:Hi.
  2:{ rewrite Nat.sub_0_r, firstn_all, app_nil_r. split; [done|]. split; [by left|].
      intros c Hc. by apply elem_of_nil in Hc. }
  destruct ((0 <? i) && (i <? length name - 1)) eqn:Hb.
  2:{ rewrite Nat.sub_0_r, firstn_all, app_nil_r. split; [done|]. split; [by left|].
      intros c Hc. by apply elem_of_nil in Hc. }
  apply andb_true_iff in Hb as [_ Hlt%Nat.ltb_lt].
  apply rfind_Some in Hi.
  split; [|split].
  - rewrite length_drop. replace (length name - (length name - i)) with i by lia.
    apply take_drop.
  - right. rewrite head_lookup, lookup_drop, Nat.add_0_r. done.
  - intros c Hc. apply list_elem_of_lookup in Hc as [k Hk]. rewrite lookup_drop in Hk.
    by eapply list_elem_of_lookup_2.
Qed.

Lemma string_of_list_ascii_app (a b : list ascii) :
  string_of_list_ascii (a ++ b) = string_of_list_ascii a +:+ string_of_list_ascii b.
Proof. induction a as [|x a IH]; [done|]. simpl. by rewrite IH. Qed.

(** The temporary file of a save: the file name with [.tmp] added, in
    the same directory. *)
Lemma with_suffix_tmp (p : Path) :
  path_name p ≠ "" → "/"%char ∉ list_ascii_of_string (path_name p) →
  with_suffix p (path_suffix p +:+ ".tmp") = Ok (tmp_path p).
Proof.
  intros Hname Hsep. unfold with_suffix, tmp_path, path_suffix.
  set (name := list_ascii_of_string (path_name p)) in *.
  destruct (suffix_of_name_spec name) as (Hstem & Hhead & Hsub).
  rewrite list_ascii_app, list_ascii_of_string_of_list_ascii.
  rewrite bool_decide_eq_false_2.
  2:{ intros Hn. apply Hname. unfold name in Hn. by destruct (path_name p). }
  rewrite bool_decide_eq_false_2.
  2:{ intros (_ & [Hh | [Hp | Hs]]).
      - apply Hh. destruct Hhead as [-> | Hh']; [done|].
        by destruct (suffix_of_name name).
      - by destruct (suffix_of_name name) as [|? [|? ?]].
      - apply elem_of_app in Hs as [Hs | Hs]; [by apply Hsep, Hsub|].
        simpl in Hs. by repeat (apply elem_of_cons in Hs as [Hs | Hs]; [done|]);
          apply elem_of_nil in Hs. }
  do 2 f_equal. rewrite app_assoc, Hstem, string_of_list_ascii_app.
  unfold name. by rewrite string_of_list_ascii_of_string.
Qed.

Lemma with_suffix_no_name (p : Path) (suf : string) :
  path_name p = "" → with_suffix p suf = Raise (ValueError "has an empty name").
Proof. intros Hn. unfold with_suffix. by rewrite Hn. Qed.

Lemma length_append (a b : string) :
  String.length (a +:+ b) = String.length a + String.length b.
Proof. induction a as [|x a IH]; [done|]. rewrite append_cons. simpl. by rewrite IH. Qed.

Lemma tmp_path_ne (p : Path) : path_name p ≠ "" → tmp_path p ≠ p.
Proof.
  intros Hname Heq. unfold tmp_path, path_name in *.
  destruct (last p) as [n|] eqn:Hlast; [|done]. simpl in *.
  apply last_Some in Hlast as [q ->]. rewrite removelast_last in Heq.
  apply app_inv_head in Heq. injection Heq as Heq.
  apply (f_equal String.length) in Heq. rewrite length_append in Heq. simpl in Heq. lia.
Qed.

(** A save touches two files only. *)
Lemma save_csv_ops_others (df : DataFrame) (tmp path p : Path) (fs : gmap Path string)
    (n : nat) :
  p ≠ path → p ≠ tmp → after_steps n (save_csv_ops df tmp path) fs !! p = fs !! p.
Proof.
  intros Hp Ht. unfold after_steps.
  assert (Forall (λ op, ∀ f, fs_exec f op !! p = f !! p) (save_csv_ops df tmp path)) as Hops.
  { unfold save_csv_ops, write_ops. apply Forall_app. split.
    - apply Forall_cons. split.
      + intros f. simpl. by rewrite lookup_insert_ne.
      + apply Forall_forall. intros op (c & -> & _)%list_elem_of_fmap f. simpl.
        by rewrite lookup_insert_ne.
    - apply Forall_cons. split; [|done]. intros f. simpl.
      destruct (f !! tmp); [|done].
      rewrite lookup_insert_ne by done. by rewrite lookup_delete_ne. }
  apply (Forall_take _ n) in Hops. revert fs.
  induction Hops as [|op ops Hop _ IH]; intros fs; simpl; [done|].
  by rewrite IH, Hop.
Qed.

(** Until the last step of a save, a target that does not exist yet
    still does not exist. *)
Lemma save_csv_ops_new (df : DataFrame) (tmp path : Path) (fs : gmap Path string) (n : nat) :
  tmp ≠ path → fs !! path = None → n < length (save_csv_ops df tmp path) →
  after_steps n (save_csv_ops df tmp path) fs !! path = None.
Proof.
  intros Hne Hnone Hn. unfold save_csv_ops in *.
  rewrite length_app, length_write_ops in Hn. simpl in Hn.
  unfold after_steps. rewrite take_app_le by (rewrite length_write_ops; lia).
  destruct n as [|n]; [done|].
  fold (after_steps (S n) (write_ops tmp (to_csv df)) fs).
  rewrite after_steps_write. by rewrite lookup_insert_ne.
Qed.

(** X2: [save_csv] on any path with a file name writes the text of the
    frame to the file of that name with [.tmp] added, in the same
    directory, and then moves it over the target: in the end the target
    holds the whole text and the temporary file is gone; at every step
    on the way every other file is as it was, and the target is as it
    was (its old text, or still missing for a first save) until the last
    step; the frames, the cache and the notices are not touched. On a
    path without a file name it raises [ValueError] and changes
    nothing. *)
Theorem save_csv_any_path (w : World) (l : loc) (df : DataFrame) (path : Path) :
  heap w !! l = Some df →
  (path_name path ≠ "" → "/"%char ∉ list_ascii_of_string (path_name path) →
   let tmp := tmp_path path in
   let ops := save_csv_ops df tmp path in
   path_name tmp = path_name path +:+ ".tmp" ∧ removelast tmp = removelast path
   ∧ (∃ w', save_csv l path w = (Ok (), w')
            ∧ fs w' = after_steps (length ops) ops (fs w)
            ∧ fs w' !! path = Some (to_csv df) ∧ fs w' !! tmp = None
            ∧ heap w' = heap w ∧ cache w' = cache w ∧ notices w' = notices w)
   ∧ (∀ n p, p ≠ path → p ≠ tmp → after_steps n ops (fs w) !! p = fs w !! p)
   ∧ (∀ n, n < length ops → after_steps n ops (fs w) !! path = fs w !! path))
  ∧ (path_name path = "" →
     save_csv l path w = (Raise (ValueError "has an empty name"), w)).
Proof.
  intros Hl. split.
  - intros Hname Hsep tmp ops.
    pose proof (tmp_path_ne path Hname) as Hne. fold tmp in Hne.
    split. { unfold tmp, tmp_path, path_name. by rewrite last_snoc. }
    split. { unfold tmp, tmp_path. by rewrite removelast_last. }
    split.
    + exists (set_fs (λ f, <[path:=to_csv df]> (delete tmp f)) w). split.
      { unfold save_csv. rewrite bind_run. unfold lift.
        rewrite (with_suffix_tmp path Hname Hsep).
        rewrite bind_run, (deref_run _ _ _ Hl). unfold run_ops, set_fs. fold tmp.
        by rewrite save_csv_ops_final. }
      simpl. unfold after_steps. rewrite take_ge by done.
      unfold ops. rewrite save_csv_ops_final.
      split; [done|]. split; [apply lookup_insert_eq|]. split; [|done].
      rewrite lookup_insert_ne by done. apply lookup_delete_eq.
    + split.
      * intros n p Hp Ht. by apply save_csv_ops_others.
      * intros n Hn. destruct (fs w !! path) as [old|] eqn:Hold.
        -- by apply (save_csv_ops_steps df tmp path (fs w) old n Hne Hold).
        -- by apply save_csv_ops_new.
  - intros Hname. unfold save_csv. rewrite bind_run. unfold lift.
    by rewrite (with_suffix_no_name _ _ Hname).
Qed.

Lemma save_csv_any_path_witness :
  (∃ w', save_csv 0 ["docs"; "copia.v2.csv"] world_stale = (Ok (), w')
         ∧ fs w' !! ["docs"; "copia.v2.csv"] = Some (to_csv (mkDF ["id"] [[CInt 1]]))
         ∧ fs w' !! ["docs"; "copia.v2.csv.tmp"] = None)
  ∧ save_csv 0 [] world_stale = (Raise (ValueError "has an empty name"), world_stale).
Proof.
  destruct (save_csv_any_path world_stale 0 (mkDF ["id"] [[CInt 1]]) ["docs"; "copia.v2.csv"]
              eq_refl) as [H _].
  destruct (H ltac:(discriminate)) as (_ & _ & (w' & Hrun & _ & Hp & Ht & _) & _).
  { vm_compute. intros Hin. apply list_elem_of_In in Hin. simpl in Hin.
    repeat (destruct Hin as [Hin | Hin]; [discriminate|]). done. }
  split.
  - exists w'. split; [exact Hrun|]. split; [exact Hp | exact Ht].
  - destruct (save_csv_any_path world_stale 0 (mkDF ["id"] [[CInt 1]]) [] eq_refl) as [_ H0].
    exact (H0 eq_refl).
Defined.

(** ** The next identifier after rows have been added *)

(** A float is below its integer part plus one. *)
Lemma float_below_next_int (m : float64) :
  float_leb m (of_int (int_of_float m + 1)) = true.
Proof.
  unfold float_leb, int_of_float, of_int. simpl. apply Z.leb_le.
  pose proof (pow10_pos (scale m)) as Hp.
  set (p := (10 ^ Z.of_nat (scale m))%Z) in *.
  pose proof (Z.quot_rem' (mant m) p) as Hq.
  pose proof (Z.rem_bound_abs (mant m) p ltac:(lia)) as Hr.
  rewrite Z.mul_1_r. nia.
Qed.

Lemma of_int_leb (a b : Z) : (a ≤ b)%Z → float_leb (of_int a) (of_int b) = true.
Proof. intros H. unfold float_leb. simpl. apply Z.leb_le. lia. Qed.

(** Every numeric identifier in use is below the next identifier. *)
Lemma numeric_below_next (df : DataFrame) (i : nat) (v : cell) (x : float64) :
  wf df → cell_at df i "id" = Some v → to_numeric_cell v = Some x →
  float_leb x (of_int (next_sequential_id (Some df) "id")) = true.
Proof.
  intros Hwf Hv Hx.
  destruct (getitem_Ok df "id") as [s Hs]; [by eapply cell_at_column|].
  apply (getitem_lookup df "id" s i v Hwf Hs) in Hv.
  assert (x ∈ numeric_values s) as Hin.
  { apply list_elem_of_omap. exists v. split; [by eapply list_elem_of_lookup_2 | done]. }
  rewrite (next_sequential_id_unfold _ _ _ Hs).
  destruct (df_empty df) eqn:He.
  { rewrite (df_empty_no_values _ _ _ He Hs) in Hv. done. }
  pose proof (series_max_spec s) as Hm.
  destruct (series_max (to_numeric s)) as [m|].
  - destruct Hm as [_ Hub].
    eapply float_leb_trans; [by apply Hub | apply float_below_next_int].
  - rewrite Hm in Hin. by apply elem_of_nil in Hin.
Qed.

(** After rows numbered from the next identifier on have been added,
    the next identifier is past the last of them. *)
Lemma next_id_after_concat (df : DataFrame) (rs : list record) (d : DataFrame) :
  wf df → concat [df; DataFrame_of_records rs] = Ok d →
  (∀ idx r, rs !! idx = Some r →
     assoc "id" r = Some (CInt (next_sequential_id (Some df) "id" + Z.of_nat idx))) →
  rs ≠ [] →
  next_sequential_id (Some d) "id"
  = (next_sequential_id (Some df) "id" + Z.of_nat (length rs))%Z.
Proof.
  intros Hwf Hd Hids Hne.
  set (n := next_sequential_id (Some df) "id") in *.
  pose proof (concat_wf _ _ _ Hd) as Hwfd.
  pose proof (concat_nrows _ _ _ Hd) as Hnd. rewrite DataFrame_of_records_nrows in Hnd.
  assert (∀ idx, idx < length rs →
            cell_at d (nrows df + idx) "id" = Some (CInt (n + Z.of_nat idx))) as Hnew.
  { intros idx Hi. destruct (lookup_lt_is_Some_2 rs idx Hi) as [r Hr].
    apply (concat_cell_r _ _ _ Hd). eapply DataFrame_of_records_cell; [exact Hr|].
    by apply Hids. }
  assert (0 < length rs) as Hpos by (destruct rs; [done | simpl; lia]).
  pose proof (Hnew (length rs - 1) ltac:(lia)) as Hlast.
  destruct (getitem_Ok d "id") as [s Hs]; [by eapply cell_at_column|].
  assert (is_max (of_int (n + Z.of_nat (length rs - 1))) (numeric_values s)) as Hmax.
  { split.
    - apply list_elem_of_omap. exists (CInt (n + Z.of_nat (length rs - 1))).
      split; [|reflexivity].
      eapply list_elem_of_lookup_2. by apply (getitem_lookup d "id" s _ _ Hwfd Hs).
    - intros x (v & Hv & Hx)%list_elem_of_omap.
      apply list_elem_of_lookup in Hv as [i Hi].
      apply (getitem_lookup d "id" s i v Hwfd Hs) in Hi.
      pose proof (cell_at_lt _ _ _ _ Hi) as Hlt. rewrite Hnd in Hlt.
      destruct (decide (i < nrows df)) as [Hold|Hge].
      + destruct (concat_cell_l_inv _ _ _ Hd i "id" v Hwf Hold Hi) as [Hv|[_ ->]]; [|done].
        eapply float_leb_trans; [exact (numeric_below_next df i v x Hwf Hv Hx)|].
        apply of_int_leb. fold n. lia.
      + pose proof (Hnew (i - nrows df) ltac:(lia)) as Hc.
        replace (nrows df + (i - nrows df)) with i in Hc by lia.
        rewrite Hi in Hc. injection Hc as ->. simpl in Hx. injection Hx as <-.
        apply of_int_leb. lia. }
  rewrite (next_id_int_part d s _ Hs Hmax).
  unfold int_of_float, of_int. simpl. rewrite Z.quot_1_r. lia.
Qed.

Lemma rows_added_advances (m : M loc) (w : World) (l : loc) (df : DataFrame) (path : Path)
    (new_row : record) :
  wf df →
  assoc "id" new_row = Some (CInt (next_sequential_id (Some df) "id")) →
  runs m w (λ l' w', ∃ d, rows_added w l df path [new_row] l' w' d) →
  advances m w df 1.
Proof.
  intros Hwf Hid (l' & w' & Hrun & d & Hd & Hl' & _).
  exists l', w', d. split; [done|]. split; [done|]. split.
  { rewrite (concat_nrows _ _ _ Hd), DataFrame_of_records_nrows. done. }
  apply (next_id_after_concat df [new_row] d Hwf Hd); [|done].
  intros [|idx] r; simpl; [|by rewrite lookup_nil].
  intros [= <-]. by rewrite Z.add_0_r.
Qed.

(** After any handler that creates rows the next identifier is past
    the identifiers just assigned. *)
Lemma handlers_advance (w : World) (l : loc) (df : DataFrame) :
  heap w !! l = Some df → wf df →
  (∀ tag titulo motivo prioridad asignado,
     advances (crear_notificacion l tag titulo motivo prioridad asignado) w df 1)
  ∧ (∀ p_actual p_high, float_leb p_actual p_high = false →
       advances (evaluar_evento l p_actual p_high) w df 1)
  ∧ (∀ tipo solicitante area, advances (crear_ptw l tipo solicitante area) w df 1)
  ∧ (∀ tag titulo severidad descripcion reportado_por,
       advances (reportar_incidente l tag titulo severidad descripcion reportado_por)
         w df 1)
  ∧ (∀ rondas_plt plt pl sel_pl operario entered,
       heap w !! rondas_plt = Some plt → getitem plt "plantilla" = Ok pl →
       Forall (lectura_ok (plantilla_rows plt pl sel_pl))
              (data (plantilla_rows plt pl sel_pl)) →
       advances (pagina_rondas rondas_plt l sel_pl operario entered) w df
         (nrows (plantilla_rows plt pl sel_pl))).
Proof.
  intros Hl Hwf.
  split.
  { intros tag titulo motivo prioridad asignado.
    destruct (crear_notificacion_run w l df tag titulo motivo prioridad asignado Hl)
      as (l' & w' & Hrun & row & d & Hid & _ & Hadd).
    apply (rows_added_advances _ w l df F_NOTIF row Hwf Hid).
    exists l', w'. split; [done|]. by exists d. }
  split.
  { intros p_actual p_high Hp.
    destruct (evaluar_evento_run w l df p_actual p_high Hl Hp)
      as (l' & w' & Hrun & row & d & Hid & _ & Hadd).
    apply (rows_added_advances _ w l df F_NOTIF row Hwf Hid).
    exists l', w'. split; [done|]. by exists d. }
  split.
  { intros tipo solicitante area.
    destruct (crear_ptw_run w l df tipo solicitante area Hl)
      as (l' & w' & Hrun & row & d & Hid & _ & Hadd).
    apply (rows_added_advances _ w l df F_PTWOT row Hwf Hid).
    exists l', w'. split; [done|]. by exists d. }
  split.
  { intros tag titulo severidad descripcion reportado_por.
    destruct (reportar_incidente_run w l df tag titulo severidad descripcion
                reportado_por Hl) as (l' & w' & Hrun & row & d & Hid & _ & Hadd).
    apply (rows_added_advances _ w l df F_INCIDENTES row Hwf Hid).
    exists l', w'. split; [done|]. by exists d. }
  intros rondas_plt plt pl sel_pl operario entered Hp Hpl Hok.
  destruct (lecturas_run w rondas_plt l plt df pl sel_pl operario entered
              Hp Hl Hpl Hok) as (rows & w1 & Hrun & Hh & _ & _ & _ & Hlen & Hids).
  unfold advances, pagina_rondas. rewrite bind_run, (deref_run _ _ _ Hp).
  destruct (df_empty plt) eqn:He.
  { assert (nrows (plantilla_rows plt pl sel_pl) = 0) as ->.
    { unfold plantilla_rows, select_rows, nrows. simpl.
      rewrite (df_empty_no_values _ _ _ He Hpl). done. }
    eexists _, _, df. split; [reflexivity|]. simpl.
    split; [done|]. split; lia. }
  rewrite bind_run, Hrun.
  destruct (decide (rows = [])) as [->|Hne].
  { simpl in Hlen. rewrite <- Hlen. unfold guardar_ronda. simpl.
    exists l, w1, df. rewrite Hh. split; [done|]. split; [done|]. split; lia. }
  assert (heap w1 !! l = Some df) as Hr1 by by rewrite Hh.
  destruct (guardar_ronda_run w1 l df rows Hr1 Hne)
    as (l' & w' & Hg & d & Hd & Hl' & _).
  exists l', w', d. split; [done|]. split; [done|]. rewrite <- Hlen. split.
  { by rewrite (concat_nrows _ _ _ Hd), DataFrame_of_records_nrows. }
  by apply (next_id_after_concat df rows d Hwf Hd).
Qed.

(** ** Frames without carriage returns *)

Lemma plain_app (a b : string) : plain (a +:+ b) ↔ plain a ∧ plain b.
Proof. unfold plain. rewrite list_ascii_app, not_elem_of_app. tauto. Qed.

Lemma digits_plain (l : list ascii) :
  forallb is_digit l = true → CR ∉ l.
Proof.
  intros Hd Hin. by apply list_elem_of_In, (proj1 (forallb_forall _ _) Hd) in Hin.
Qed.

Lemma pretty_Z_plain (z : Z) : plain (pretty z).
Proof.
  destruct (pretty_Z_digits z) as (l & neg & -> & Hd & _). unfold plain.
  rewrite list_ascii_of_string_of_list_ascii. apply not_elem_of_app. split.
  - destruct neg; [|apply not_elem_of_nil]. by intros [= ]%list_elem_of_singleton.
  - by apply digits_plain.
Qed.

Lemma pretty_nat_digits (n : nat) :
  forallb is_digit (list_ascii_of_string (pretty n)) = true.
Proof.
  unfold pretty, pretty_nat, pretty, pretty_N.
  destruct (decide (N.of_nat n = 0%N)); [done|].
  by destruct (pretty_N_go_digits (N.of_nat n)) as (Hd & _).
Qed.

Lemma pad_zeros_digits (w : nat) (l : list ascii) :
  forallb is_digit l = true → forallb is_digit (pad_zeros w l) = true.
Proof.
  intros Hl. induction w as [|w IH]; [done|]. cbn [pad_zeros].
  by destruct (decide (length l < S w)).
Qed.

Lemma pad_plain (w n : nat) : plain (pad w n).
Proof.
  unfold plain, pad. rewrite list_ascii_of_string_of_list_ascii.
  apply digits_plain, pad_zeros_digits, pretty_nat_digits.
Qed.

Lemma strftime_plain (d : datetime) : plain (strftime d).
Proof.
  unfold strftime. rewrite !plain_app.
  repeat split; try apply pad_plain;
    (intros Hin; repeat (apply elem_of_cons in Hin as [Hin | Hin]; [discriminate|]);
     by apply elem_of_nil in Hin).
Qed.

Lemma render_float_plain (x : float64) : plain (render_float x).
Proof.
  unfold render_float. rewrite !plain_app. split; [|split; [|split]].
  - destruct (mant x <? 0)%Z; unfold plain; simpl;
      [by intros [= ]%list_elem_of_singleton | apply not_elem_of_nil].
  - apply pretty_Z_plain.
  - unfold plain. simpl. by intros [= ]%list_elem_of_singleton.
  - destruct (scale x) as [|n].
    + unfold plain. simpl. by intros [= ]%list_elem_of_singleton.
    + unfold plain. rewrite list_ascii_of_string_of_list_ascii.
      generalize (S n). intros w.
      pose proof (pretty_Z_plain (Z.abs (mant x) `mod` 10 ^ Z.of_nat w)) as Hp.
      unfold plain in Hp. revert Hp. generalize (list_ascii_of_string
        (pretty (Z.abs (mant x) `mod` 10 ^ Z.of_nat w)%Z)). intros l Hl.
      generalize w at 1. intros k. induction k as [|k IH]; [done|]. cbn [pad_zeros].
      destruct (decide (length l < S k)); [|done].
      apply not_elem_of_cons. by split.
Qed.

Lemma render_cell_plain (v : cell) :
  (∀ s, v = CStr s → plain s) → plain (render_cell v).
Proof.
  destruct v as [z|x|s|[]|]; intros Hs; simpl;
    [apply pretty_Z_plain | apply render_float_plain | by apply Hs | ..];
    unfold plain; simpl;
    (intros Hin; repeat (apply elem_of_cons in Hin as [Hin | Hin]; [discriminate|]);
     by apply elem_of_nil in Hin).
Qed.

Lemma csv_safe_no_cr (df : DataFrame) : csv_safe df = true → no_cr df.
Proof.
  intros [Hh Hrows]%andb_true_iff. split.
  - apply line_ok_fields in Hh. apply Forall_forall. intros c Hc.
    apply (proj1 (Forall_forall _ _) Hh). apply list_elem_of_fmap. eauto.
  - apply Forall_forall. intros r Hr.
    apply list_elem_of_In in Hr.
    apply (proj1 (forallb_forall _ _) Hrows), line_ok_fields in Hr.
    apply Forall_forall. intros v Hv.
    apply (proj1 (Forall_forall _ _) Hr). apply list_elem_of_fmap. eauto.
Qed.

Lemma line_ok_long (fs : list (list ascii)) :
  2 ≤ length fs → Forall (λ f, CR ∉ f) fs → line_ok fs = true.
Proof.
  intros Hlen Hcr. unfold line_ok. apply andb_true_iff. split.
  - apply forallb_forall. intros f Hf%list_elem_of_In.
    apply negb_true_iff, bool_decide_eq_false.
    by apply (proj1 (Forall_forall _ _) Hcr).
  - destruct fs as [|? [|? ?]]; simpl in *; [lia | lia | done].
Qed.

(** With two columns or more no line of the frame can be taken for a
    blank line. *)
Lemma no_cr_csv_safe (df : DataFrame) :
  wf df → 2 ≤ length (columns df) → no_cr df → csv_safe df = true.
Proof.
  intros Hwf Hlen [Hh Hrows]. unfold csv_safe. apply andb_true_iff. split.
  - apply line_ok_long; [by rewrite length_map|].
    apply Forall_forall. intros f (c & -> & Hc)%list_elem_of_fmap.
    by apply (proj1 (Forall_forall _ _) Hh).
  - apply forallb_forall. intros r Hr%list_elem_of_In. apply line_ok_long.
    + rewrite length_map. by rewrite (proj1 (Forall_forall _ _) Hwf r Hr).
    + apply Forall_forall. intros f (v & -> & Hv)%list_elem_of_fmap.
      by apply (proj1 (Forall_forall _ _) (proj1 (Forall_forall _ _) Hrows r Hr)).
Qed.

Lemma two_columns (cols : list string) (a b : string) :
  a ∈ cols → b ∈ cols → a ≠ b → 2 ≤ length cols.
Proof.
  intros Ha Hb Hne. destruct cols as [|x [|y cols]]; simpl; [|  |lia].
  - by apply elem_of_nil in Ha.
  - apply list_elem_of_singleton in Ha, Hb. congruence.
Qed.

Lemma reindex_row_plain (df : DataFrame) (cols : list string) (r : list cell) :
  Forall (λ v, plain (render_cell v)) r →
  Forall (λ v, plain (render_cell v)) (reindex_row df cols r).
Proof.
  intros Hr. unfold reindex_row. apply Forall_forall.
  intros v (c & -> & _)%list_elem_of_fmap.
  assert (plain (render_cell CNaN)) as Hnan by apply not_elem_of_nil.
  destruct (col_index c (columns df)) as [j|]; [|done].
  destruct (r !! j) as [v|] eqn:E; [|done]. simpl.
  by apply (proj1 (Forall_forall _ _) Hr), list_elem_of_lookup_2 with j.
Qed.

Lemma no_cr_concat (df1 df2 d : DataFrame) :
  concat [df1; df2] = Ok d → no_cr df1 → no_cr df2 → no_cr d.
Proof.
  intros Hd [Hh1 Hr1] [Hh2 Hr2]. split.
  - apply Forall_forall. intros c Hc. apply (concat_columns _ _ _ Hd) in Hc.
    destruct Hc as [Hc | Hc];
      [by apply (proj1 (Forall_forall _ _) Hh1) | by apply (proj1 (Forall_forall _ _) Hh2)].
  - rewrite concat_two in Hd. injection Hd as <-. simpl.
    apply Forall_app. split; apply Forall_forall;
      intros r' (r & -> & Hr)%list_elem_of_fmap; apply reindex_row_plain.
    + by apply (proj1 (Forall_forall _ _) Hr1).
    + by apply (proj1 (Forall_forall _ _) Hr2).
Qed.

Lemma assoc_elem (c : string) (r : record) (v : cell) :
  assoc c r = Some v → (c, v) ∈ r.
Proof.
  induction r as [|[k x] r IH]; simpl; [done|].
  destruct (decide (c = k)) as [->|Hne]; [intros [= ->]; left | right; by apply IH].
Qed.

Lemma no_cr_records (rs : list record) :
  Forall record_plain rs → no_cr (DataFrame_of_records rs).
Proof.
  intros Hrs. split.
  - apply Forall_forall. intros c (r & Hr & Hc)%DataFrame_of_records_columns.
    apply list_elem_of_fmap in Hc as ([k v] & -> & Hkv).
    pose proof (proj1 (Forall_forall _ _) Hrs r Hr) as Hp.
    by apply (proj1 (Forall_forall _ _) Hp) in Hkv as [? _].
  - unfold DataFrame_of_records. simpl. apply Forall_forall.
    intros r' (r & -> & Hr)%list_elem_of_fmap. apply Forall_forall.
    intros v' (c & -> & _)%list_elem_of_fmap.
    destruct (assoc c r) as [v|] eqn:E; [|apply not_elem_of_nil]. simpl.
    apply assoc_elem in E. pose proof (proj1 (Forall_forall _ _) Hrs r Hr) as Hp.
    by apply (proj1 (Forall_forall _ _) Hp) in E as [_ ?].
Qed.

Lemma no_cr_loc_set (mask : list bool) (c : string) (v : cell) (df : DataFrame) :
  plain c → plain (render_cell v) → no_cr df → no_cr (loc_set mask c v df).
Proof.
  intros Hc Hv [Hh Hr]. assert (plain (render_cell CNaN)) as Hnan by apply not_elem_of_nil.
  unfold loc_set. destruct (col_index c (columns df)) as [j|]; split; simpl; try done.
  - apply Forall_forall. intros r (i & Hi)%list_elem_of_lookup_1.
    apply lookup_zip_with_Some in Hi as (b & r0 & -> & _ & Hr0).
    pose proof (proj1 (Forall_forall _ _) Hr r0 (list_elem_of_lookup_2 _ _ _ Hr0)) as H0.
    destruct b; [|done]. by apply Forall_insert.
  - apply Forall_app. split; [done | by apply Forall_singleton].
  - apply Forall_forall. intros r (i & Hi)%list_elem_of_lookup_1.
    apply lookup_zip_with_Some in Hi as (b & r0 & -> & _ & Hr0).
    pose proof (proj1 (Forall_forall _ _) Hr r0 (list_elem_of_lookup_2 _ _ _ Hr0)) as H0.
    apply Forall_app. split; [done|]. apply Forall_singleton. by destruct b.
Qed.

Lemma Forall_cons_1_3 {A} (P : A → Prop) (a b c : A) :
  Forall P [a; b; c] → P a ∧ P b ∧ P c ∧ True.
Proof. intros H. by repeat (apply Forall_cons in H as [? H]; split; [done|]). Qed.

Lemma Forall_cons_1_5 {A} (P : A → Prop) (a b c d e : A) :
  Forall P [a; b; c; d; e] → P a ∧ P b ∧ P c ∧ P d ∧ P e ∧ True.
Proof. intros H. by repeat (apply Forall_cons in H as [? H]; split; [done|]). Qed.

(** The rows the handlers build hold no carriage return unless a text
    typed in has one. *)
Ltac plain_field :=
  first [ assumption | apply pretty_Z_plain | apply strftime_plain
        | apply render_float_plain
        | (apply (bool_decide_unpack _); vm_compute; exact I) ].

Ltac plain_record :=
  repeat (apply Forall_cons; split;
          [split; cbn [fst snd render_cell]; rewrite ?plain_app;
           repeat split; plain_field|]);
  apply Forall_nil_2.

Lemma crear_notificacion_plain (w : World) (notifs : loc) (df : DataFrame)
    (tag titulo motivo prioridad asignado : string) :
  heap w !! notifs = Some df →
  Forall plain [tag; titulo; motivo; prioridad; asignado] →
  runs (crear_notificacion notifs tag titulo motivo prioridad asignado) w (λ l' w',
    ∃ new_row d,
      assoc "id" new_row = Some (CInt (next_sequential_id (Some df) "id"))
      ∧ assoc "estado" new_row = Some (CStr "Pendiente")
      ∧ record_plain new_row
      ∧ rows_added w notifs df F_NOTIF [new_row] l' w' d).
Proof.
  intros Hl (H1 & H2 & H3 & H4 & H5 & _)%Forall_cons_1_5. unfold crear_notificacion.
  repeat wp_step. eapply runs_append_k; [solve_heap|]. intros d Hd.
  repeat wp_step.
  lazymatch type of Hd with
  | concat [_; DataFrame_of_records [?r]] = _ => exists r, d
  end.
  split; [reflexivity|]. split; [reflexivity|].
  split; [plain_record | by apply (rows_added_intro w)].
Qed.

Lemma evaluar_evento_plain (w : World) (notifs : loc) (df : DataFrame)
    (p_actual p_high : float64) :
  heap w !! notifs = Some df → float_leb p_actual p_high = false →
  runs (evaluar_evento notifs p_actual p_high) w (λ l' w',
    ∃ new_row d,
      assoc "id" new_row = Some (CInt (next_sequential_id (Some df) "id"))
      ∧ assoc "estado" new_row = Some (CStr "Pendiente")
      ∧ record_plain new_row
      ∧ rows_added w notifs df F_NOTIF [new_row] l' w' d).
Proof.
  intros Hl Hp. unfold evaluar_evento. rewrite Hp. simpl negb. cbv iota.
  repeat wp_step. eapply runs_append_k; [solve_heap|]. intros d Hd.
  repeat wp_step.
  lazymatch type of Hd with
  | concat [_; DataFrame_of_records [?r]] = _ => exists r, d
  end.
  split; [reflexivity|]. split; [reflexivity|].
  split; [plain_record | by apply (rows_added_intro w)].
Qed.

Lemma crear_ptw_plain (w : World) (ptwot : loc) (df : DataFrame)
    (tipo solicitante area : string) :
  heap w !! ptwot = Some df → Forall plain [tipo; solicitante; area] →
  runs (crear_ptw ptwot tipo solicitante area) w (λ l' w',
    ∃ new_row d,
      assoc "id" new_row = Some (CInt (next_sequential_id (Some df) "id"))
      ∧ assoc "estado" new_row = Some (CStr "Borrador")
      ∧ record_plain new_row
      ∧ rows_added w ptwot df F_PTWOT [new_row] l' w' d).
Proof.
  intros Hl (H1 & H2 & H3 & _)%Forall_cons_1_3. unfold crear_ptw.
  repeat wp_step. eapply runs_append_k; [solve_heap|]. intros d Hd.
  repeat wp_step.
  lazymatch type of Hd with
  | concat [_; DataFrame_of_records [?r]] = _ => exists r, d
  end.
  split; [reflexivity|]. split; [reflexivity|].
  split; [plain_record | by apply (rows_added_intro w)].
Qed.

Lemma reportar_incidente_plain (w : World) (incidentes : loc) (df : DataFrame)
    (tag titulo severidad descripcion reportado_por : string) :
  heap w !! incidentes = Some df →
  Forall plain [tag; titulo; severidad; descripcion; reportado_por] →
  runs (reportar_incidente incidentes tag titulo severidad descripcion reportado_por) w
    (λ l' w',
      ∃ new_row d,
        assoc "id" new_row = Some (CInt (next_sequential_id (Some df) "id"))
        ∧ assoc "estado" new_row = Some (CStr "Abierto")
        ∧ record_plain new_row
        ∧ rows_added w incidentes df F_INCIDENTES [new_row] l' w' d).
Proof.
  intros Hl (H1 & H2 & H3 & H4 & H5 & _)%Forall_cons_1_5. unfold reportar_incidente.
  repeat wp_step. eapply runs_append_k; [solve_heap|]. intros d Hd.
  repeat wp_step.
  lazymatch type of Hd with
  | concat [_; DataFrame_of_records [?r]] = _ => exists r, d
  end.
  split; [reflexivity|]. split; [reflexivity|].
  split; [plain_record | by apply (rows_added_intro w)].
Qed.

(** ** A creation, then the load of the next run *)

Lemma next_sequential_id_ext (d d' : DataFrame) (c : string) :
  columns d' = columns d → nrows d' = nrows d → getitem d' c = getitem d c →
  next_sequential_id (Some d') c = next_sequential_id (Some d) c.
Proof.
  intros Hc Hn Hg. unfold next_sequential_id, df_empty, has_column.
  rewrite Hc, Hg.
  assert (bool_decide (data d' = []) = bool_decide (data d = [])) as ->.
  { unfold nrows in Hn. apply bool_decide_ext.
    split; intros H; apply length_zero_iff_nil; apply (f_equal length) in H;
      simpl in H; lia. }
  done.
Qed.

Lemma all_ints (s : list cell) :
  (∀ v, v ∈ s → ∃ z, v = CInt z) → ∃ zs, s = map CInt zs.
Proof.
  induction s as [|v s IH]; intros H; [by exists []|].
  destruct (H v) as [z ->]; [left|].
  destruct IH as [zs ->]; [intros v Hv; apply H; by right|].
  by exists (z :: zs).
Qed.

(** The column [c] of a frame read from the text written for [d],
    cell by cell, when the column is read as text. *)
Lemma reread_text_cell (d d' : DataFrame) (c : string) (s : list cell) (i : nat)
    (v w1 w2 : cell) :
  wf d → wf d' → getitem d c = Ok s →
  getitem d' c = Ok (infer_column (map render_cell s)) →
  cell_at d i c = Some v →
  w1 ∈ s → is_word (render_cell w1) = true →
  w2 ∈ s → is_bool_literal (render_cell w2) = None →
  cell_at d' i c = Some (CStr (render_cell v)).
Proof.
  intros Hwf Hwf' Hs Hs' Hv H1 Hw H2 Hb.
  rewrite (infer_column_text (map render_cell s) (render_cell w1) (render_cell w2)) in Hs'.
  - apply (getitem_lookup d' c _ i _ Hwf' Hs').
    apply (getitem_lookup d c s i v Hwf Hs) in Hv.
    by rewrite !list_lookup_fmap, Hv.
  - apply list_elem_of_fmap. eauto.
  - by apply is_word_not_number.
  - apply list_elem_of_fmap. eauto.
  - done.
Qed.

Lemma created_ids_ints (df : DataFrame) (row : record) (d : DataFrame) (n : Z) :
  wf df → concat [df; DataFrame_of_records [row]] = Ok d →
  assoc "id" row = Some (CInt n) →
  "id" ∈ columns df ∨ nrows df = 0 →
  (∀ i v, cell_at df i "id" = Some v → ∃ z, v = CInt z) →
  ∃ zs, getitem d "id" = Ok (map CInt zs).
Proof.
  intros Hwf Hd Hid Hcol Hints.
  pose proof (concat_wf _ _ _ Hd) as Hwfd.
  pose proof (concat_nrows _ _ _ Hd) as Hnd. rewrite DataFrame_of_records_nrows in Hnd.
  assert (cell_at d (nrows df + 0) "id" = Some (CInt n)) as Hnew.
  { apply (concat_cell_r _ _ _ Hd). by apply (DataFrame_of_records_cell _ 0 row). }
  destruct (getitem_Ok d "id") as [s Hs]; [by eapply cell_at_column|].
  destruct (all_ints s) as [zs ->]; [|by exists zs].
  intros v [i Hi]%list_elem_of_lookup.
  apply (getitem_lookup d "id" s i v Hwfd Hs) in Hi.
  pose proof (cell_at_lt _ _ _ _ Hi) as Hlt. rewrite Hnd in Hlt. simpl in Hlt.
  destruct (decide (i < nrows df)) as [Hold|Hge].
  - destruct (concat_cell_l_inv _ _ _ Hd i "id" v Hwf Hold Hi) as [Hv|[Hno _]].
    + by eapply Hints.
    + destruct Hcol as [Hin | H0]; [done | lia].
  - replace (nrows df + 0) with i in Hnew by lia. rewrite Hi in Hnew.
    injection Hnew as ->. eauto.
Qed.

(** From the outcome of a handler that adds one row to what the next
    run loads. *)
Lemma rows_added_reloaded (m : M loc) (w : World) (l : loc) (df : DataFrame) (ds : dataset)
    (new_row : record) (estado : string) :
  wf df → csv_safe df = true →
  "id" ∈ columns df ∨ nrows df = 0 →
  (∀ i v, cell_at df i "id" = Some v → ∃ z, v = CInt z) →
  assoc "id" new_row = Some (CInt (next_sequential_id (Some df) "id")) →
  assoc "estado" new_row = Some (CStr estado) →
  is_word estado = true → is_bool_literal estado = None →
  record_plain new_row →
  runs m w (λ l' w', ∃ d, rows_added w l df (dataset_path ds) [new_row] l' w' d) →
  created_and_reloaded m w df (dataset_path ds) estado.
Proof.
  intros Hwf Hsafe Hcol Hints Hid Hest Hword Hbool Hplain
    (l1 & w1 & Hrun & d & Hd & Hl1 & _ & _ & Hfs & Hcache).
  pose proof (concat_wf _ _ _ Hd) as Hwfd.
  pose proof (concat_nrows _ _ _ Hd) as Hnd. rewrite DataFrame_of_records_nrows in Hnd.
  simpl in Hnd.
  assert (cell_at d (nrows df + 0) "id"
          = Some (CInt (next_sequential_id (Some df) "id"))) as Hnew.
  { apply (concat_cell_r _ _ _ Hd). by apply (DataFrame_of_records_cell _ 0 new_row). }
  assert (cell_at d (nrows df + 0) "estado" = Some (CStr estado)) as Hnewe.
  { apply (concat_cell_r _ _ _ Hd). by apply (DataFrame_of_records_cell _ 0 new_row). }
  rewrite Nat.add_0_r in Hnew, Hnewe.
  assert (columns d ≠ []) as Hcols.
  { apply cell_at_column in Hnew. intros E. rewrite E in Hnew. by apply elem_of_nil in Hnew. }
  assert (csv_safe d = true) as Hsafed.
  { apply no_cr_csv_safe; [done| |].
    - apply (two_columns _ "id" "estado"); [by eapply cell_at_column.. | done].
    - apply (no_cr_concat _ _ _ Hd); [by apply csv_safe_no_cr|].
      apply no_cr_records. by apply Forall_singleton. }
  destruct (read_csv_to_csv_column d Hwfd Hcols Hsafed)
    as (d' & Hread & Hc' & Hn' & Hcolumn).
  pose proof (read_csv_wf _ _ Hread) as Hwfd'.
  destruct (load_csv_saved w1 (dataset_path ds) d) as (d0 & w2 & Hload & Hh & _ & Hn & _ & Hr);
    [by rewrite Hcache | rewrite Hfs; apply saved_self | done | done | done |].
  assert (d0 = d') as -> by congruence.
  destruct (created_ids_ints df new_row d _ Hwf Hd Hid Hcol Hints) as [zs Hzs].
  pose proof (Hcolumn _ _ Hzs) as Hzs'. rewrite infer_column_ints in Hzs'.
  assert (∀ i v, cell_at d i "id" = Some v → cell_at d' i "id" = Some v) as Hsame.
  { intros i v Hv. apply (getitem_lookup d' "id" _ i v Hwfd' Hzs').
    by apply (getitem_lookup d "id" _ i v Hwfd Hzs). }
  exists l1, w1, (length (heap w1)), w2, d'.
  split; [done|]. split; [done|].
  split. { rewrite Hh. apply heap_alloc. }
  split; [done|]. split. { rewrite Hn', Hnd. lia. }
  split. { intros i z Hv. apply Hsame. by apply (concat_cell_l _ _ _ Hd). }
  split. { by apply Hsame. }
  split.
  { destruct (getitem_Ok d "estado") as [s Hs]; [by eapply cell_at_column|].
    assert (CStr estado ∈ s) as Hin.
    { eapply list_elem_of_lookup_2. by apply (getitem_lookup d "estado" s _ _ Hwfd Hs). }
    by apply (reread_text_cell d d' "estado" s (nrows df) (CStr estado)
                (CStr estado) (CStr estado) Hwfd Hwfd' Hs (Hcolumn _ _ Hs)). }
  rewrite (next_sequential_id_ext d d' "id" Hc' Hn') by (by rewrite Hzs, Hzs').
  rewrite (next_id_after_concat df [new_row] d Hwf Hd); [done| |done].
  intros [|idx] r; simpl; [|by rewrite lookup_nil].
  intros [= <-]. by rewrite Z.add_0_r.
Qed.

(** X4: a row that has been created is there in the next run of the
    script. For a table whose identifiers are 64-bit integers with room
    for one more (or that was loaded empty) and whose lines are read
    back as such ([csv_safe]), after a notification, a permit or an
    incident has been created from texts without carriage return, the
    load of the table's file shows no warning and returns the old rows
    with their identifiers, then the new row with the identifier that
    was assigned and its initial state; the next identifier is then one
    more, so the numbering goes on across runs. *)
Theorem create_then_reload (w : World) (l : loc) (df : DataFrame) :
  heap w !! l = Some df → wf df → csv_safe df = true →
  "id" ∈ columns df ∨ nrows df = 0 →
  (∀ i v, cell_at df i "id" = Some v → ∃ z, v = CInt z ∧ int64 z ∧ int64 (z + 1)) →
  (∀ tag titulo motivo prioridad asignado,
     Forall plain [tag; titulo; motivo; prioridad; asignado] →
     created_and_reloaded (crear_notificacion l tag titulo motivo prioridad asignado)
       w df F_NOTIF "Pendiente")
  ∧ (∀ p_actual p_high, float_leb p_actual p_high = false →
       created_and_reloaded (evaluar_evento l p_actual p_high) w df F_NOTIF "Pendiente")
  ∧ (∀ tipo solicitante area,
       Forall plain [tipo; solicitante; area] →
       created_and_reloaded (crear_ptw l tipo solicitante area) w df F_PTWOT "Borrador")
  ∧ (∀ tag titulo severidad descripcion reportado_por,
       Forall plain [tag; titulo; severidad; descripcion; reportado_por] →
       created_and_reloaded
         (reportar_incidente l tag titulo severidad descripcion reportado_por)
         w df F_INCIDENTES "Abierto").
Proof.
  intros Hl Hwf Hsafe Hcol Hints64.
  assert (∀ i v, cell_at df i "id" = Some v → ∃ z, v = CInt z) as Hints.
  { intros i v Hv. destruct (Hints64 i v Hv) as (z & -> & _). eauto. }
  split.
  { intros tag titulo motivo prioridad asignado Hp.
    destruct (crear_notificacion_plain w l df tag titulo motivo prioridad asignado Hl Hp)
      as (l' & w' & Hrun & row & d & Hid & Hest & Hrow & Hadd).
    apply (rows_added_reloaded _ w l df Notificaciones row "Pendiente"); try done.
    exists l', w'. split; [done|]. by exists d. }
  split.
  { intros p_actual p_high Hp.
    destruct (evaluar_evento_plain w l df p_actual p_high Hl Hp)
      as (l' & w' & Hrun & row & d & Hid & Hest & Hrow & Hadd).
    apply (rows_added_reloaded _ w l df Notificaciones row "Pendiente"); try done.
    exists l', w'. split; [done|]. by exists d. }
  split.
  { intros tipo solicitante area Hp.
    destruct (crear_ptw_plain w l df tipo solicitante area Hl Hp)
      as (l' & w' & Hrun & row & d & Hid & Hest & Hrow & Hadd).
    apply (rows_added_reloaded _ w l df PtwOt row "Borrador"); try done.
    exists l', w'. split; [done|]. by exists d. }
  intros tag titulo severidad descripcion reportado_por Hp.
  destruct (reportar_incidente_plain w l df tag titulo severidad descripcion
              reportado_por Hl Hp) as (l' & w' & Hrun & row & d & Hid & Hest & Hrow & Hadd).
  apply (rows_added_reloaded _ w l df Incidentes row "Abierto"); try done.
  exists l', w'. split; [done|]. by exists d.
Qed.

Lemma create_then_reload_witness :
  created_and_reloaded
    (crear_notificacion 0 "V-210" "Chequear V-210" "Lectura fuera de rango" "P2" "Operario 1")
    (world_with (DataFrame_of_records (seed_notif "a" "b")) F_NOTIF)
    (DataFrame_of_records (seed_notif "a" "b")) F_NOTIF "Pendiente".
Proof.
  destruct (create_then_reload
              (world_with (DataFrame_of_records (seed_notif "a" "b")) F_NOTIF) 0
              (DataFrame_of_records (seed_notif "a" "b")) eq_refl
              (DataFrame_of_records_wf _)) as (H & _).
  - vm_compute. reflexivity.
  - left. vm_compute. left.
  - intros [|[|i]] v Hv; cbv in Hv; [injection Hv as <-; eexists; split;
      [reflexivity | unfold int64; lia]..|discriminate].
  - apply H. repeat constructor; apply (bool_decide_unpack _); vm_compute; exact I.
Defined.

(** ** A change of state, then the load of the next run *)

Lemma strftime_colon (d : datetime) : ":"%char ∈ list_ascii_of_string (strftime d).
Proof.
  unfold strftime. rewrite !list_ascii_app.
  do 7 (apply elem_of_app; right). apply elem_of_app; left. left.
Qed.

(** A time stamp is neither a numeral nor a truth value. *)
Lemma strftime_word (d : datetime) :
  is_word (strftime d) = true ∧ is_bool_literal (strftime d) = None.
Proof.
  pose proof (strftime_colon d) as Hc. split.
  - unfold is_word. apply orb_true_iff. right. apply existsb_exists.
    exists ":"%char. split; [by apply list_elem_of_In | done].
  - unfold is_bool_literal.
    rewrite !bool_decide_eq_false_2; [done|..];
      intros Hin; repeat (apply elem_of_cons in Hin as [Hin | Hin];
        [rewrite Hin in Hc; vm_compute in Hc; apply list_elem_of_In in Hc;
         simpl in Hc; intuition discriminate|]);
      by apply elem_of_nil in Hin.
Qed.

Lemma no_cr_cambio (mask : list bool) (nuevo evidencia ts : string) (df : DataFrame) :
  plain nuevo → plain evidencia → plain ts → no_cr df →
  no_cr (cambio_aplicado mask nuevo evidencia ts df).
Proof.
  intros Hn He Ht Hdf. unfold cambio_aplicado.
  repeat case_bool_decide;
    repeat (apply no_cr_loc_set; [plain_field | by cbn [render_cell] |]); done.
Qed.

(** The field [c] of row [j], read back as text. *)
Lemma reread_cell_word (d d' : DataFrame) (c : string) (j : nat) (v : cell) (t : string) :
  wf d → columns d ≠ [] → csv_safe d = true → read_csv (to_csv d) = Ok d' →
  cell_at d j c = Some v →
  (∃ j0, cell_at d j0 c = Some (CStr t)) → is_word t = true → is_bool_literal t = None →
  cell_at d' j c = Some (CStr (render_cell v)).
Proof.
  intros Hwf Hcols Hsafe Hread Hv [j0 Hj0] Hw Hb.
  destruct (read_csv_to_csv_column d Hwf Hcols Hsafe) as (d0 & Hread0 & _ & _ & Hcolumn).
  assert (d0 = d') as -> by congruence.
  destruct (getitem_Ok d c) as [s Hs]; [by eapply cell_at_column|].
  assert (CStr t ∈ s) as Hin.
  { eapply list_elem_of_lookup_2. by apply (getitem_lookup d c s _ _ Hwf Hs). }
  by apply (reread_text_cell d d' c s j v (CStr t) (CStr t) Hwf (read_csv_wf _ _ Hread)
              Hs (Hcolumn _ _ Hs)).
Qed.

(** X5: a change of state is there in the next run of the script. For
    a table whose lines are read back as such ([csv_safe]) and an
    evidence text without carriage return: when a row carries the
    identifier, "Aplicar cambio" with one of the three states of the
    form succeeds, and the load of the notifications file that follows
    shows no warning and returns a table of as many rows in which every
    row with that identifier has the new state and, for "Recibida" and
    "Completada", a reception or closing time that is not empty; the
    rows with another identifier have the state they had. *)
Theorem transition_then_reload (w : World) (l : loc) (df : DataFrame) (i : nat)
    (vid : cell) (k : Z) (nuevo evidencia : string) :
  heap w !! l = Some df → wf df → csv_safe df = true → plain evidencia →
  cell_at df i "id" = Some vid → cell_eq_int k vid = true →
  nuevo ∈ ["Pendiente"; "Recibida"; "Completada"] →
  ∃ w1 l2 w2 d',
    aplicar_cambio l k nuevo evidencia w = (Ok (), w1)
    ∧ load_csv F_NOTIF w1 = (Ok l2, w2)
    ∧ heap w2 !! l2 = Some d'
    ∧ notices w2 = notices w1
    ∧ nrows d' = nrows df
    ∧ (∀ j v, cell_at df j "id" = Some v → cell_eq_int k v = true →
         cell_at d' j "estado" = Some (CStr nuevo)
         ∧ (nuevo = "Recibida" →
            ∃ ts, ts ≠ "" ∧ cell_at d' j "ts_recibida" = Some (CStr ts))
         ∧ (nuevo = "Completada" →
            ∃ ts, ts ≠ "" ∧ cell_at d' j "ts_cerrada" = Some (CStr ts)))
    ∧ (∀ j v s, cell_at df j "id" = Some v → cell_eq_int k v = false →
         cell_at df j "estado" = Some (CStr s) →
         cell_at d' j "estado" = Some (CStr s)).
Proof.
  intros Hl Hwf Hsafe Hevid Hid Heq Hnuevo.
  destruct (getitem_Ok df "id") as [s Hs]; [by eapply cell_at_column|].
  pose proof (series_eq_int_length df s k Hs) as Hmlen.
  assert (∀ j b, series_eq_int s k !! j = Some b ↔
            ∃ v, cell_at df j "id" = Some v ∧ cell_eq_int k v = b) as Hmask
    by (intros j b; by apply mask_lookup).
  assert (mask_any (series_eq_int s k) = true) as Hany.
  { apply (mask_any_true _ i). apply Hmask. eauto. }
  destruct (aplicar_cambio_found l df k nuevo evidencia s w Hl Hs Hany)
    as ([] & w1 & Hrun & Hheap & Hfs & Hcache & _).
  set (ts := strftime (clock w (ticks w))) in *.
  set (d := cambio_aplicado (series_eq_int s k) nuevo evidencia ts df) in *.
  pose proof (cambio_wf _ nuevo evidencia ts df Hwf Hmlen) as Hwfd. fold d in Hwfd.
  assert (cell_at d i "estado" = Some (CStr nuevo)) as Hest.
  { apply cambio_estado; [done..|]. apply Hmask. eauto. }
  assert (columns d ≠ []) as Hcols.
  { apply cell_at_column in Hest. intros E. rewrite E in Hest. by apply elem_of_nil in Hest. }
  assert (is_word nuevo = true ∧ is_bool_literal nuevo = None ∧ plain nuevo)
    as (Hw & Hb & Hpn).
  { repeat (apply elem_of_cons in Hnuevo as [-> | Hnuevo];
            [split; [done|]; split; [done|];
             apply (bool_decide_unpack _); vm_compute; exact I|]).
    by apply elem_of_nil in Hnuevo. }
  assert (csv_safe d = true) as Hsafed.
  { apply no_cr_csv_safe; [done| |].
    - apply (two_columns _ "id" "estado"); [|by eapply cell_at_column | done].
      apply (cell_at_column _ i _ vid). unfold d. rewrite cambio_other; done.
    - apply no_cr_cambio; [done | done | apply strftime_plain | by apply csv_safe_no_cr]. }
  destruct (load_csv_saved w1 F_NOTIF d) as (d' & w2 & Hload & Hh & _ & Hn & _ & Hread);
    [by rewrite Hcache | rewrite Hfs; apply lookup_insert_eq | done | done | done |].
  destruct (read_csv_to_csv d Hwfd Hcols Hsafed) as (d0 & Hread0 & _ & Hn0).
  assert (d0 = d') as -> by congruence.
  destruct (strftime_word (clock w (ticks w))) as [Hwts Hbts]. fold ts in Hwts, Hbts.
  exists w1, (length (heap w1)), w2, d'.
  split; [done|]. split; [done|].
  split. { rewrite Hh. apply heap_alloc. }
  split; [done|].
  split. { rewrite Hn0. by apply cambio_nrows. }
  split.
  - intros j v Hv Hk.
    assert (series_eq_int s k !! j = Some true) as Hj by (apply Hmask; eauto).
    split; [|split].
    + apply (reread_cell_word d d' "estado" j (CStr nuevo) nuevo); eauto.
      by apply cambio_estado.
    + intros ->. exists ts. split; [apply strftime_nonempty|].
      assert (cell_at d j "ts_recibida" = Some (CStr ts)) as Hc
        by (by apply cambio_ts_recibida).
      apply (reread_cell_word d d' "ts_recibida" j (CStr ts) ts); eauto.
    + intros ->. exists ts. split; [apply strftime_nonempty|].
      assert (cell_at d j "ts_cerrada" = Some (CStr ts)) as Hc
        by (by apply cambio_ts_cerrada).
      apply (reread_cell_word d d' "ts_cerrada" j (CStr ts) ts); eauto.
  - intros j v s0 Hv Hk Hs0.
    assert (series_eq_int s k !! j = Some false) as Hj by (apply Hmask; eauto).
    assert (cell_at d j "estado" = Some (CStr s0)) as Hc.
    { unfold d. rewrite cambio_miss; eauto using cell_at_column. }
    apply (reread_cell_word d d' "estado" j (CStr s0) nuevo); eauto.
Qed.

Lemma transition_then_reload_witness :
  ∃ w1 l2 w2 d',
    aplicar_cambio 0 2 "Completada" "foto.jpg" (world_with notifs_repetidas F_NOTIF)
    = (Ok (), w1)
    ∧ load_csv F_NOTIF w1 = (Ok l2, w2)
    ∧ heap w2 !! l2 = Some d'
    ∧ cell_at d' 1 "estado" = Some (CStr "Completada")
    ∧ cell_at d' 0 "estado" = Some (CStr "Pendiente").
Proof.
  destruct (transition_then_reload (world_with notifs_repetidas F_NOTIF) 0 notifs_repetidas
              1 (CInt 2) 2 "Completada" "foto.jpg" eq_refl)
    as (w1 & l2 & w2 & d' & Hrun & Hload & Hh & _ & _ & Hhit & Hmiss).
  - repeat constructor.
  - reflexivity.
  - apply (bool_decide_unpack _). vm_compute. exact I.
  - reflexivity.
  - reflexivity.
  - right. right. left.
  - exists w1, l2, w2, d'. split; [exact Hrun|]. split; [exact Hload|].
    split; [exact Hh|]. split.
    + exact (proj1 (Hhit 1 (CInt 2) eq_refl eq_refl)).
    + exact (Hmiss 0 (CInt 1) "Pendiente" eq_refl eq_refl eq_refl).
Defined.

(** ** Creating a row after a load that failed *)

(** X6: a table whose file is missing or cannot be parsed is loaded as
    an empty frame, so the first notification created afterwards gets
    the identifier 1 and the save replaces the file by a table holding
    that row only: whatever the unreadable file held is lost. *)
Theorem create_after_failed_load (w : World)
    (tag titulo motivo prioridad asignado : string) :
  cache w !! F_NOTIF = None →
  (fs w !! F_NOTIF = None ∨ ∃ c e, fs w !! F_NOTIF = Some c ∧ read_csv c = Raise e) →
  ∃ l w1 l' w2 d,
    load_csv F_NOTIF w = (Ok l, w1)
    ∧ heap w1 !! l = Some DataFrame_empty
    ∧ crear_notificacion l tag titulo motivo prioridad asignado w1 = (Ok l', w2)
    ∧ heap w2 !! l' = Some d
    ∧ nrows d = 1
    ∧ cell_at d 0 "id" = Some (CInt 1)
    ∧ fs w2 !! F_NOTIF = Some (to_csv d).
Proof.
  intros Hc Hbad.
  destruct (load_csv_miss w F_NOTIF Hc) as (df & w1 & Hload & Hh & _ & _ & Hl).
  assert (df = DataFrame_empty) as ->.
  { unfold loaded in Hl. destruct Hbad as [Hnone | (c & e & Hsome & He)].
    - rewrite Hnone in Hl. by destruct Hl.
    - rewrite Hsome, He in Hl. by destruct Hl. }
  assert (heap w1 !! length (heap w) = Some DataFrame_empty) as Hdf
    by (rewrite Hh; apply heap_alloc).
  destruct (crear_notificacion_run w1 (length (heap w)) DataFrame_empty
              tag titulo motivo prioridad asignado Hdf)
    as (l' & w2 & Hrun & row & d & Hid & _ & Hd & Hl' & _ & _ & Hfs & _).
  exists (length (heap w)), w1, l', w2, d.
  split; [done|]. split; [done|]. split; [done|]. split; [done|].
  split. { by rewrite (concat_nrows _ _ _ Hd), DataFrame_of_records_nrows. }
  split.
  { change 0 with (nrows DataFrame_empty + 0). apply (concat_cell_r _ _ _ Hd).
    by apply (DataFrame_of_records_cell _ 0 row). }
  rewrite Hfs. apply lookup_insert_eq.
Qed.

Lemma create_after_failed_load_witness :
  ∃ l w1 l' w2 d,
    load_csv F_NOTIF (mkWorld {[F_NOTIF := texto_roto]} [] ∅ noon 0 []) = (Ok l, w1)
    ∧ crear_notificacion l "V-210" "Chequear V-210" "Lectura fuera de rango" "P2"
        "Operario 1" w1 = (Ok l', w2)
    ∧ heap w2 !! l' = Some d
    ∧ nrows d = 1
    ∧ fs w2 !! F_NOTIF = Some (to_csv d).
Proof.
  destruct (create_after_failed_load (mkWorld {[F_NOTIF := texto_roto]} [] ∅ noon 0 [])
              "V-210" "Chequear V-210" "Lectura fuera de rango" "P2" "Operario 1")
    as (l & w1 & l' & w2 & d & Hload & _ & Hrun & Hd & Hn & _ & Hfs).
  - apply lookup_empty.
  - right. exists texto_roto, (ParserError "EOF inside string"). split; reflexivity.
  - exists l, w1, l', w2, d. repeat split; assumption.
Defined.

(** ** What "Aplicar" does to the permits *)

Section PtwEffect.
Context (mask : list bool) (nuevo aprob_hse ts : string) (df : DataFrame).
Context (Hwf : wf df) (Hlen : length mask = nrows df).

Let p1 := loc_set mask "estado" (CStr nuevo) df.
Let p2 := loc_set mask "aprob_hse" (CStr aprob_hse) p1.

Local Lemma p1_ok : wf p1 ∧ length mask = nrows p1.
Proof using Hwf Hlen. unfold p1. split; [by apply loc_set_wf | by rewrite loc_set_nrows]. Qed.

Local Lemma p2_ok : wf p2 ∧ length mask = nrows p2.
Proof using Hwf Hlen.
  destruct p1_ok as [H1 H2]. unfold p2.
  split; [by apply loc_set_wf | by rewrite loc_set_nrows].
Qed.

Lemma ptw_wf : wf (ptw_aplicado mask nuevo aprob_hse ts df).
Proof using Hwf Hlen.
  destruct p2_ok as [H1 H2]. unfold ptw_aplicado. fold p1 p2.
  case_bool_decide; [by apply loc_set_wf | done].
Qed.

Lemma ptw_nrows : nrows (ptw_aplicado mask nuevo aprob_hse ts df) = nrows df.
Proof using Hwf Hlen.
  destruct p2_ok as [H1 H2]. unfold ptw_aplicado. fold p1 p2.
  case_bool_decide; [rewrite loc_set_nrows by done|]; by rewrite <- H2.
Qed.

(** The rows that are not selected keep the fields they had. *)
Lemma ptw_miss (i : nat) (c : string) :
  mask !! i = Some false → c ∈ columns df →
  cell_at (ptw_aplicado mask nuevo aprob_hse ts df) i c = cell_at df i c.
Proof using Hwf Hlen.
  intros Hb Hc. destruct p1_ok as [Hw1 Hl1], p2_ok as [Hw2 Hl2].
  assert (∀ c' v d, wf d → length mask = nrows d → c ∈ columns d →
            cell_at (loc_set mask c' v d) i c = cell_at d i c) as Hstep.
  { intros c' v d Hw Hl Hin. destruct (decide (c = c')) as [<-|Hne].
    - by apply cell_at_loc_set_miss.
    - by apply cell_at_loc_set_other. }
  assert (c ∈ columns p1) as Hc1 by (by apply loc_set_columns_incl).
  assert (c ∈ columns p2) as Hc2 by (by apply loc_set_columns_incl).
  assert (cell_at p2 i c = cell_at df i c) as E.
  { unfold p2. rewrite Hstep by done. by apply Hstep. }
  unfold ptw_aplicado. fold p1 p2. rewrite <- E.
  case_bool_decide; [by apply Hstep | done].
Qed.

(** In the selected rows the state and the approval are the new ones. *)
Lemma ptw_estado (i : nat) :
  mask !! i = Some true →
  cell_at (ptw_aplicado mask nuevo aprob_hse ts df) i "estado" = Some (CStr nuevo)
  ∧ cell_at (ptw_aplicado mask nuevo aprob_hse ts df) i "aprob_hse"
    = Some (CStr aprob_hse).
Proof using Hwf Hlen.
  intros Hb. destruct p1_ok as [Hw1 Hl1], p2_ok as [Hw2 Hl2].
  assert (i < nrows df) as Hi by (rewrite <- Hlen; by eapply lookup_lt_Some).
  assert (cell_at p2 i "estado" = Some (CStr nuevo)) as E1.
  { unfold p2. rewrite cell_at_loc_set_other by done. by apply cell_at_loc_set_hit. }
  assert (cell_at p2 i "aprob_hse" = Some (CStr aprob_hse)) as E2.
  { unfold p2. apply cell_at_loc_set_hit; [done..|]. by rewrite <- Hl1, Hlen. }
  unfold ptw_aplicado. fold p1 p2. rewrite <- E1, <- E2.
  case_bool_decide; [|done]. by rewrite !cell_at_loc_set_other.
Qed.

(** The closing time: stamped by "Cerrado", left alone otherwise. *)
Lemma ptw_ts_cierre (i : nat) :
  mask !! i = Some true →
  (nuevo = "Cerrado" →
   cell_at (ptw_aplicado mask nuevo aprob_hse ts df) i "ts_cierre" = Some (CStr ts))
  ∧ (nuevo ≠ "Cerrado" →
     cell_at (ptw_aplicado mask nuevo aprob_hse ts df) i "ts_cierre"
     = cell_at df i "ts_cierre").
Proof using Hwf Hlen.
  intros Hb. destruct p1_ok as [Hw1 Hl1], p2_ok as [Hw2 Hl2].
  unfold ptw_aplicado. fold p1 p2. split; intros Hn.
  - rewrite bool_decide_eq_true_2 by done. apply cell_at_loc_set_hit; [done..|].
    rewrite <- Hl2. by eapply lookup_lt_Some.
  - rewrite bool_decide_eq_false_2 by done. unfold p2, p1.
    by rewrite !cell_at_loc_set_other.
Qed.
End PtwEffect.

(** X7: when a row carries the identifier, "Aplicar" on the permits
    page gives every row with that identifier the chosen state and the
    chosen HSE approval, whatever their combination, and stamps the
    closing time only for "Cerrado" (any other state, also for a permit
    that was closed, leaves the closing time as it was); no other field
    and no row with another identifier changes; the table is saved, the
    cache cleared and "PTW actualizado." shown. *)
Theorem ptw_transition_effect (w : World) (ptwot : loc) (df : DataFrame) (i : nat)
    (vid : cell) (idp : Z) (nuevo aprob_hse : string) :
  heap w !! ptwot = Some df → wf df →
  cell_at df i "id" = Some vid → cell_eq_int idp vid = true →
  ∃ w' df',
    aplicar_ptw ptwot idp nuevo aprob_hse w = (Ok (), w')
    ∧ heap w' = <[ptwot:=df']> (heap w)
    ∧ fs w' !! F_PTWOT = Some (to_csv df')
    ∧ cache w' = ∅
    ∧ notices w' = notices w ++ [Success "PTW actualizado."]
    ∧ nrows df' = nrows df
    ∧ (∀ j v, cell_at df j "id" = Some v → cell_eq_int idp v = true →
         cell_at df' j "estado" = Some (CStr nuevo)
         ∧ cell_at df' j "aprob_hse" = Some (CStr aprob_hse)
         ∧ (nuevo = "Cerrado" →
            ∃ ts, ts ≠ "" ∧ cell_at df' j "ts_cierre" = Some (CStr ts))
         ∧ (nuevo ≠ "Cerrado" → cell_at df' j "ts_cierre" = cell_at df j "ts_cierre"))
    ∧ (∀ j c, c ∉ ["estado"; "aprob_hse"; "ts_cierre"] →
         cell_at df' j c = cell_at df j c)
    ∧ (∀ j v c, cell_at df j "id" = Some v → cell_eq_int idp v = false →
         c ∈ columns df → cell_at df' j c = cell_at df j c).
Proof.
  intros Hl Hwf Hid Heq.
  destruct (getitem_Ok df "id") as [s Hs]; [by eapply cell_at_column|].
  pose proof (series_eq_int_length df s idp Hs) as Hmlen.
  assert (∀ j b, series_eq_int s idp !! j = Some b ↔
            ∃ v, cell_at df j "id" = Some v ∧ cell_eq_int idp v = b) as Hmask
    by (intros j b; by apply mask_lookup).
  assert (mask_any (series_eq_int s idp) = true) as Hany.
  { apply (mask_any_true _ i). apply Hmask. eauto. }
  destruct (aplicar_ptw_found ptwot df idp nuevo aprob_hse s w Hl Hs Hany)
    as ([] & w' & Hrun & Hheap & Hfs & Hcache & Hnot).
  set (ts := strftime (clock w (ticks w))) in *.
  eexists w', _. split; [exact Hrun|]. split; [exact Hheap|].
  split. { rewrite Hfs. apply lookup_insert_eq. }
  split; [done|]. split; [done|].
  split. { by apply ptw_nrows. }
  split; [|split].
  - intros j v Hv Hk.
    assert (series_eq_int s idp !! j = Some true) as Hj by (apply Hmask; eauto).
    destruct (ptw_estado _ nuevo aprob_hse ts df Hwf Hmlen j Hj) as [He Ha].
    destruct (ptw_ts_cierre _ nuevo aprob_hse ts df Hwf Hmlen j Hj) as [Hc Hnc].
    split; [done|]. split; [done|]. split; [|done].
    intros Hn. exists ts. split; [apply strftime_nonempty | by apply Hc].
  - intros j c Hc. apply ptw_other; [done..| | |]; intros ->; apply Hc;
      repeat constructor.
  - intros j v c Hv Hk Hc.
    assert (series_eq_int s idp !! j = Some false) as Hj by (apply Hmask; eauto).
    by apply ptw_miss.
Qed.

Lemma ptw_transition_effect_witness :
  ∃ w' df',
    aplicar_ptw 0 1 "Borrador" "Sí"
      (world_with (mkDF ["id"; "estado"; "aprob_hse"; "ts_cierre"]
                     [[CInt 1; CStr "Cerrado"; CStr "No"; CStr "2024-05-02 09:30:00"]])
         F_PTWOT) = (Ok (), w')
    ∧ heap w' !! 0 = Some df'
    ∧ cell_at df' 0 "estado" = Some (CStr "Borrador")
    ∧ cell_at df' 0 "aprob_hse" = Some (CStr "Sí")
    ∧ cell_at df' 0 "ts_cierre" = Some (CStr "2024-05-02 09:30:00").
Proof.
  destruct (ptw_transition_effect
              (world_with (mkDF ["id"; "estado"; "aprob_hse"; "ts_cierre"]
                             [[CInt 1; CStr "Cerrado"; CStr "No"; CStr "2024-05-02 09:30:00"]])
                 F_PTWOT) 0 _ 0 (CInt 1) 1 "Borrador" "Sí" eq_refl)
    as (w' & df' & Hrun & Hh & _ & _ & _ & _ & Hhit & _).
  - repeat constructor.
  - reflexivity.
  - reflexivity.
  - destruct (Hhit 0 (CInt 1) eq_refl eq_refl) as (He & Ha & _ & Hts).
    exists w', df'. split; [exact Hrun|]. split; [by rewrite Hh|].
    split; [exact He|]. split; [exact Ha|]. rewrite Hts; [reflexivity | discriminate].
Defined.

(** ** What "Aplicar cambio" does to the notifications, in general *)

(** X8: when a row carries the identifier, "Aplicar cambio" gives every
    row with that identifier the new state, whatever it is; it stamps
    the reception time for "Recibida" and the closing time for
    "Completada" with the reading of the clock at that moment, and
    stores the evidence text when it is not empty; no other field and no
    row with another identifier changes, no row is added or removed;
    the table is saved, the cache cleared and "Estado actualizado."
    shown. *)
Theorem cambio_effect (w : World) (notifs : loc) (df : DataFrame) (i : nat)
    (vid : cell) (sel_id : Z) (nuevo_estado evidencia : string) :
  heap w !! notifs = Some df → wf df →
  cell_at df i "id" = Some vid → cell_eq_int sel_id vid = true →
  ∃ w' df',
    aplicar_cambio notifs sel_id nuevo_estado evidencia w = (Ok (), w')
    ∧ heap w' = <[notifs:=df']> (heap w)
    ∧ fs w' !! F_NOTIF = Some (to_csv df')
    ∧ cache w' = ∅
    ∧ notices w' = notices w ++ [Success "Estado actualizado."]
    ∧ nrows df' = nrows df
    ∧ (∀ j v, cell_at df j "id" = Some v → cell_eq_int sel_id v = true →
         cell_at df' j "estado" = Some (CStr nuevo_estado)
         ∧ (nuevo_estado = "Recibida" →
            cell_at df' j "ts_recibida" = Some (CStr (strftime (clock w (ticks w)))))
         ∧ (nuevo_estado = "Completada" →
            cell_at df' j "ts_cerrada" = Some (CStr (strftime (clock w (ticks w)))))
         ∧ (evidencia ≠ "" → cell_at df' j "evidencia" = Some (CStr evidencia)))
    ∧ (∀ j c, c ∉ ["estado"; "ts_recibida"; "ts_cerrada"; "evidencia"] →
         cell_at df' j c = cell_at df j c)
    ∧ (∀ j v c, cell_at df j "id" = Some v → cell_eq_int sel_id v = false →
         c ∈ columns df → cell_at df' j c = cell_at df j c).
Proof.
  intros Hl Hwf Hid Heq.
  destruct (getitem_Ok df "id") as [s Hs]; [by eapply cell_at_column|].
  pose proof (series_eq_int_length df s sel_id Hs) as Hmlen.
  assert (∀ j b, series_eq_int s sel_id !! j = Some b ↔
            ∃ v, cell_at df j "id" = Some v ∧ cell_eq_int sel_id v = b) as Hmask
    by (intros j b; by apply mask_lookup).
  assert (mask_any (series_eq_int s sel_id) = true) as Hany.
  { apply (mask_any_true _ i). apply Hmask. eauto. }
  destruct (aplicar_cambio_found notifs df sel_id nuevo_estado evidencia s w Hl Hs Hany)
    as ([] & w' & Hrun & Hheap & Hfs & Hcache & Hnot).
  eexists w', _. split; [exact Hrun|]. split; [exact Hheap|].
  split. { rewrite Hfs. apply lookup_insert_eq. }
  split; [done|]. split; [done|].
  split. { by apply cambio_nrows. }
  split; [|split].
  - intros j v Hv Hk.
    assert (series_eq_int s sel_id !! j = Some true) as Hj by (apply Hmask; eauto).
    split; [by apply cambio_estado|].
    split; [intros Hn; by apply cambio_ts_recibida|].
    split; [intros Hn; by apply cambio_ts_cerrada|].
    intros Hn. by apply cambio_evidencia.
  - intros j c Hc. apply cambio_other; try done; intros ->; exfalso; apply Hc;
      repeat constructor.
  - intros j v c Hv Hk Hc.
    assert (series_eq_int s sel_id !! j = Some false) as Hj by (apply Hmask; eauto).
    by apply cambio_miss.
Qed.

Lemma cambio_effect_witness :
  ∃ w' df',
    aplicar_cambio 0 1 "Completada" "foto.jpg" (world_with notifs_repetidas F_NOTIF)
    = (Ok (), w')
    ∧ heap w' !! 0 = Some df'
    ∧ cell_at df' 0 "estado" = Some (CStr "Completada")
    ∧ cell_at df' 0 "ts_cerrada" = Some (CStr "2024-05-17 12:00:00")
    ∧ cell_at df' 0 "evidencia" = Some (CStr "foto.jpg")
    ∧ cell_at df' 0 "titulo" = Some (CStr "Chequear V-210")
    ∧ cell_at df' 1 "estado" = Some (CStr "Pendiente").
Proof.
  destruct (cambio_effect (world_with notifs_repetidas F_NOTIF) 0 notifs_repetidas 0
              (CInt 1) 1 "Completada" "foto.jpg" eq_refl)
    as (w' & df' & Hrun & Hh & _ & _ & _ & _ & Hhit & Hother & Hmiss).
  - repeat constructor.
  - reflexivity.
  - reflexivity.
  - destruct (Hhit 0 (CInt 1) eq_refl eq_refl) as (He & _ & Hts & Hev).
    exists w', df'. split; [exact Hrun|]. split; [by rewrite Hh|].
    split; [exact He|]. split; [exact (Hts eq_refl)|].
    split; [apply Hev; discriminate|]. split.
    + rewrite Hother; [reflexivity|].
      intros Hin. apply list_elem_of_In in Hin. simpl in Hin.
      repeat (destruct Hin as [Hin | Hin]; [discriminate|]). done.
    + rewrite (Hmiss 1 (CInt 2) "estado"); [reflexivity..|]. repeat constructor.
Defined.

(** ** The value proposed for a reading *)





(** ** The IoT rule *)

(** X10: "Evaluar evento" creates a notification only when the pressure
    is strictly above the threshold: at the threshold or below it only
    says so, and the frames, the files and the cache stay as they are;
    above it one row is added at the end of the table and saved, with
    the next identifier, priority P1, state "Pendiente" and the two
    readings in its reason. *)
Theorem iot_rule (w : World) (notifs : loc) (df : DataFrame) (p_actual p_high : float64) :
  heap w !! notifs = Some df →
  (float_leb p_actual p_high = true →
   evaluar_evento notifs p_actual p_high w
   = (Ok notifs,
      set_notices (λ n, n ++ [Info "No se dispara evento (P dentro de umbral)."]) w))
  ∧ (float_leb p_actual p_high = false →
     ∃ l' w' d,
       evaluar_evento notifs p_actual p_high w = (Ok l', w')
       ∧ heap w' !! l' = Some d ∧ heap w' !! notifs = Some df
       ∧ fs w' !! F_NOTIF = Some (to_csv d)
       ∧ nrows d = S (nrows df)
       ∧ (∀ i c v, cell_at df i c = Some v → cell_at d i c = Some v)
       ∧ cell_at d (nrows df) "id" = Some (CInt (next_sequential_id (Some df) "id"))
       ∧ cell_at d (nrows df) "prioridad" = Some (CStr "P1")
       ∧ cell_at d (nrows df) "estado" = Some (CStr "Pendiente")
       ∧ cell_at d (nrows df) "motivo"
         = Some (CStr ("P=" +:+ render_float p_actual +:+ " > " +:+ render_float p_high))).
Proof.
  intros Hl. split.
  - intros Hle. unfold evaluar_evento. rewrite Hle. reflexivity.
  - intros Hgt.
    assert (runs (evaluar_evento notifs p_actual p_high) w (λ l' w',
      ∃ new_row d,
        assoc "id" new_row = Some (CInt (next_sequential_id (Some df) "id"))
        ∧ assoc "prioridad" new_row = Some (CStr "P1")
        ∧ assoc "estado" new_row = Some (CStr "Pendiente")
        ∧ assoc "motivo" new_row
          = Some (CStr ("P=" +:+ render_float p_actual +:+ " > " +:+ render_float p_high))
        ∧ rows_added w notifs df F_NOTIF [new_row] l' w' d))
      as (l' & w' & Hrun & row & d & Hid & Hpri & Hest & Hmot & Hd & Hl' & _ & Hold & Hfs & _).
    { unfold evaluar_evento. rewrite Hgt. simpl negb. cbv iota.
      repeat wp_step. eapply runs_append_k; [solve_heap|]. intros d Hd.
      repeat wp_step.
      lazymatch type of Hd with
      | concat [_; DataFrame_of_records [?r]] = _ => exists r, d
      end.
      repeat (split; [reflexivity|]). by apply (rows_added_intro w). }
    assert (∀ c v, assoc c row = Some v → cell_at d (nrows df) c = Some v) as Hnew.
    { intros c v Hv. rewrite <- (Nat.add_0_r (nrows df)).
      apply (concat_cell_r _ _ _ Hd). by apply (DataFrame_of_records_cell _ 0 row). }
    exists l', w', d. split; [done|]. split; [done|]. split; [by apply Hold|].
    split. { rewrite Hfs. apply lookup_insert_eq. }
    split. { rewrite (concat_nrows _ _ _ Hd), DataFrame_of_records_nrows. simpl. lia. }
    split. { intros i c v. by apply (concat_cell_l _ _ _ Hd). }
    repeat split; by apply Hnew.
Qed.

Lemma iot_rule_witness :
  evaluar_evento 0 (Dec 80 1) (Dec 80 1) (world_with notifs_repetidas F_NOTIF)
  = (Ok 0, set_notices (λ n, n ++ [Info "No se dispara evento (P dentro de umbral)."])
             (world_with notifs_repetidas F_NOTIF)).
Proof.
  exact (proj1 (iot_rule (world_with notifs_repetidas F_NOTIF) 0 notifs_repetidas
                  (Dec 80 1) (Dec 80 1) eq_refl) eq_refl).
Defined.

(** ** Inicio: the counters *)

Lemma mask_sum_cons (b : bool) (mask : list bool) :
  mask_sum (b :: mask) = ((if b then 1 else 0) + mask_sum mask)%Z.
Proof.
  unfold mask_sum. rewrite filter_cons. destruct b.
  - rewrite decide_True by done. simpl length. lia.
  - rewrite decide_False by done. lia.
Qed.

Lemma mask_sum_app (m1 m2 : list bool) :
  mask_sum (m1 ++ m2) = (mask_sum m1 + mask_sum m2)%Z.
Proof.
  induction m1 as [|b m1 IH]; [unfold mask_sum; simpl; lia|].
  simpl app. rewrite !mask_sum_cons, IH. lia.
Qed.

(** The three states share out the rows they count. *)
Lemma three_states_bound (s : list cell) :
  (0 ≤ mask_sum (series_eq_str s "Pendiente")
   ∧ 0 ≤ mask_sum (series_eq_str s "Recibida")
   ∧ 0 ≤ mask_sum (series_eq_str s "Completada")
   ∧ mask_sum (series_eq_str s "Pendiente") + mask_sum (series_eq_str s "Recibida")
     + mask_sum (series_eq_str s "Completada") ≤ Z.of_nat (length s))%Z
  ∧ ((mask_sum (series_eq_str s "Pendiente") + mask_sum (series_eq_str s "Recibida")
      + mask_sum (series_eq_str s "Completada") = Z.of_nat (length s))%Z
     ↔ ∀ v, v ∈ s → v ∈ [CStr "Pendiente"; CStr "Recibida"; CStr "Completada"]).
Proof.
  induction s as [|v s [IH1 IH2]].
  { split; [unfold mask_sum; simpl; lia|]. split; [|done].
    intros _ v Hv. by apply elem_of_nil in Hv. }
  unfold series_eq_str in *. cbn [map]. rewrite !mask_sum_cons.
  assert (cell_eq_str "Pendiente" v = true ∧ cell_eq_str "Recibida" v = false
            ∧ cell_eq_str "Completada" v = false ∧ v = CStr "Pendiente"
          ∨ cell_eq_str "Pendiente" v = false ∧ cell_eq_str "Recibida" v = true
            ∧ cell_eq_str "Completada" v = false ∧ v = CStr "Recibida"
          ∨ cell_eq_str "Pendiente" v = false ∧ cell_eq_str "Recibida" v = false
            ∧ cell_eq_str "Completada" v = true ∧ v = CStr "Completada"
          ∨ cell_eq_str "Pendiente" v = false ∧ cell_eq_str "Recibida" v = false
            ∧ cell_eq_str "Completada" v = false
            ∧ v ∉ [CStr "Pendiente"; CStr "Recibida"; CStr "Completada"]) as Hv.
  { destruct v as [z|x|t|b|]; simpl;
      try (right; right; right; repeat split; try done;
           intros Hin; repeat (apply elem_of_cons in Hin as [Hin | Hin]; [done|]);
           by apply elem_of_nil in Hin).
    destruct (decide (t = "Pendiente")) as [->|H1]; [by left|].
    destruct (decide (t = "Recibida")) as [->|H2]; [by right; left|].
    destruct (decide (t = "Completada")) as [->|H3]; [by right; right; left|].
    right; right; right. rewrite !bool_decide_eq_false_2 by done.
    repeat split; try done.
    intros Hin. repeat (apply elem_of_cons in Hin as [Hin | Hin]; [congruence|]).
    by apply elem_of_nil in Hin. }
  simpl length. rewrite Nat2Z.inj_succ.
  split.
  - destruct Hv as [(-> & -> & -> & _) | [(-> & -> & -> & _) | [(-> & -> & -> & _)
                    | (-> & -> & -> & _)]]]; lia.
  - split.
    + intros Hsum u [-> | Hu]%elem_of_cons.
      * destruct Hv as [(_ & _ & _ & ->) | [(_ & _ & _ & ->) | [(_ & _ & _ & ->)
                        | (E1 & E2 & E3 & _)]]]; [repeat constructor..|].
        rewrite E1, E2, E3 in Hsum. lia.
      * apply IH2; [|done].
        destruct Hv as [(E1 & E2 & E3 & _) | [(E1 & E2 & E3 & _) | [(E1 & E2 & E3 & _)
                        | (E1 & E2 & E3 & _)]]]; rewrite E1, E2, E3 in Hsum; lia.
    + intros Hall.
      assert (∀ u, u ∈ s → u ∈ [CStr "Pendiente"; CStr "Recibida"; CStr "Completada"])
        as Hs by (intros u Hu; apply Hall; by right).
      apply IH2 in Hs.
      destruct Hv as [(-> & -> & -> & _) | [(-> & -> & -> & _) | [(-> & -> & -> & _)
                      | (_ & _ & _ & Hno)]]]; [lia..|].
      exfalso. apply Hno, Hall. left.
Qed.

(** The column of a field after a row has been added. *)
Lemma getitem_concat_snoc (df : DataFrame) (row : record) (d : DataFrame) (c : string)
    (s : list cell) (v : cell) :
  wf df → concat [df; DataFrame_of_records [row]] = Ok d →
  getitem df c = Ok s → assoc c row = Some v →
  getitem d c = Ok (s ++ [v]).
Proof.
  intros Hwf Hd Hs Hv.
  pose proof (concat_wf _ _ _ Hd) as Hwfd.
  pose proof (concat_nrows _ _ _ Hd) as Hnd. rewrite DataFrame_of_records_nrows in Hnd.
  simpl in Hnd.
  pose proof (getitem_length _ _ _ Hs) as Hls.
  assert (cell_at d (nrows df + 0) c = Some v) as Hnew.
  { apply (concat_cell_r _ _ _ Hd). by apply (DataFrame_of_records_cell _ 0 row). }
  rewrite Nat.add_0_r in Hnew.
  destruct (getitem_Ok d c) as [s' Hs']; [by eapply cell_at_column|].
  pose proof (getitem_length _ _ _ Hs') as Hls'.
  rewrite Hs'. f_equal. apply list_eq. intros i.
  destruct (decide (i < nrows df)) as [Hlt|Hge].
  - destruct (lookup_lt_is_Some_2 s i) as [x Hx]; [lia|].
    rewrite lookup_app_l by lia. rewrite Hx.
    apply (getitem_lookup d c s' i x Hwfd Hs'). apply (concat_cell_l _ _ _ Hd).
    by apply (getitem_lookup df c s i x Hwf Hs).
  - destruct (decide (i = nrows df)) as [->|Hne].
    + rewrite lookup_app_r by lia. rewrite Hls, Nat.sub_diag. simpl.
      by apply (getitem_lookup d c s' _ v Hwfd Hs').
    + rewrite (proj2 (lookup_ge_None _ _)) by lia.
      symmetry. apply lookup_ge_None. rewrite length_app. simpl. lia.
Qed.

Lemma count_eq_nonempty (df : DataFrame) (c t : string) (s : list cell) :
  df_empty df = false → getitem df c = Ok s →
  count_eq df c t = Ok (mask_sum (series_eq_str s t)).
Proof. intros He Hs. unfold count_eq. by rewrite He, Hs. Qed.

Lemma inicio_kpis_nonempty (df : DataFrame) (s : list cell) :
  df_empty df = false → getitem df "estado" = Ok s →
  inicio_kpis df
  = Ok (mkKpis (Z.of_nat (nrows df)) (mask_sum (series_eq_str s "Pendiente"))
          (mask_sum (series_eq_str s "Recibida"))
          (mask_sum (series_eq_str s "Completada"))).
Proof.
  intros He Hs. unfold inicio_kpis, len_or_zero.
  rewrite !(count_eq_nonempty df "estado" _ s He Hs). by rewrite He.
Qed.

Lemma inicio_kpis_empty (df : DataFrame) :
  df_empty df = true → inicio_kpis df = Ok (mkKpis 0 0 0 0).
Proof. intros He. unfold inicio_kpis, len_or_zero, count_eq. by rewrite He. Qed.

(** X11: the counters of the page "Inicio". For an empty table they are
    all 0; for a table with rows but no state column the page fails with
    [KeyError]; otherwise the numbers of pending, received and completed
    notifications never add up to more than the total, and add up to it
    exactly when every row is in one of the three states. Creating a
    notification raises the total and the pending count by one and
    leaves the other two as they were. *)
Theorem inicio_kpis_spec (w : World) (l : loc) (df : DataFrame) :
  heap w !! l = Some df → wf df →
  (df_empty df = true → inicio_kpis df = Ok (mkKpis 0 0 0 0))
  ∧ (df_empty df = false → "estado" ∉ columns df →
     inicio_kpis df = Raise (KeyError "estado"))
  ∧ (∀ k, inicio_kpis df = Ok k →
       (0 ≤ k_pend k ∧ 0 ≤ k_rec k ∧ 0 ≤ k_comp k
        ∧ k_pend k + k_rec k + k_comp k ≤ k_total k)%Z
       ∧ (df_empty df = false →
          (k_pend k + k_rec k + k_comp k = k_total k)%Z
          ↔ ∀ i v, cell_at df i "estado" = Some v →
              v ∈ [CStr "Pendiente"; CStr "Recibida"; CStr "Completada"]))
  ∧ (∀ k tag titulo motivo prioridad asignado,
       inicio_kpis df = Ok k → "estado" ∈ columns df ∨ nrows df = 0 →
       ∃ l' w' d,
         crear_notificacion l tag titulo motivo prioridad asignado w = (Ok l', w')
         ∧ heap w' !! l' = Some d
         ∧ inicio_kpis d
           = Ok (mkKpis (k_total k + 1) (k_pend k + 1) (k_rec k) (k_comp k))).
Proof.
  intros Hl Hwf.
  split; [apply inicio_kpis_empty|].
  split.
  { intros He Hno. unfold inicio_kpis, count_eq, getitem. rewrite He. simpl.
    by rewrite (proj2 (col_index_None _ _) Hno). }
  split.
  { intros k Hk. destruct (df_empty df) eqn:He.
    { rewrite (inicio_kpis_empty df He) in Hk. injection Hk as <-. simpl.
      split; [lia | done]. }
    destruct (decide ("estado" ∈ columns df)) as [Hin|Hno].
    2:{ unfold inicio_kpis, count_eq, getitem in Hk. rewrite He in Hk. simpl in Hk.
        by rewrite (proj2 (col_index_None _ _) Hno) in Hk. }
    destruct (getitem_Ok df "estado" Hin) as [s Hs].
    rewrite (inicio_kpis_nonempty df s He Hs) in Hk. injection Hk as <-. simpl.
    destruct (three_states_bound s) as [Hb Hiff].
    rewrite (getitem_length _ _ _ Hs) in Hb, Hiff.
    split; [exact Hb|]. intros _. rewrite Hiff. split.
    - intros Hall i v Hv. apply Hall. eapply list_elem_of_lookup_2.
      by apply (getitem_lookup df "estado" s i v Hwf Hs).
    - intros Hall v [i Hi]%list_elem_of_lookup. apply (Hall i).
      by apply (getitem_lookup df "estado" s i v Hwf Hs). }
  intros k tag titulo motivo prioridad asignado Hk Hcol.
  destruct (crear_notificacion_run w l df tag titulo motivo prioridad asignado Hl)
    as (l' & w' & Hrun & row & d & _ & Hest & Hd & Hl' & _).
  exists l', w', d. split; [done|]. split; [done|].
  pose proof (concat_wf _ _ _ Hd) as Hwfd.
  pose proof (concat_nrows _ _ _ Hd) as Hnd. rewrite DataFrame_of_records_nrows in Hnd.
  simpl in Hnd.
  assert (cell_at d (nrows df + 0) "estado" = Some (CStr "Pendiente")) as Hnew.
  { apply (concat_cell_r _ _ _ Hd). by apply (DataFrame_of_records_cell _ 0 row). }
  assert (df_empty d = false) as Hed.
  { unfold df_empty. apply orb_false_iff. split; apply bool_decide_eq_false.
    - apply cell_at_column in Hnew. intros E. rewrite E in Hnew.
      by apply elem_of_nil in Hnew.
    - intros E. unfold nrows in Hnd. rewrite E in Hnd. simpl in Hnd. lia. }
  destruct (df_empty df) eqn:He.
  - rewrite (inicio_kpis_empty df He) in Hk. injection Hk as <-. simpl.
    assert (nrows df = 0) as Hn0.
    { destruct Hcol as [Hin | Hn0]; [|done].
      unfold df_empty in He. apply orb_true_iff in He as [He | He];
        apply bool_decide_eq_true in He.
      - rewrite He in Hin. by apply elem_of_nil in Hin.
      - unfold nrows. by rewrite He. }
    destruct (getitem_Ok d "estado") as [s Hs]; [by eapply cell_at_column|].
    pose proof (getitem_length _ _ _ Hs) as Hls. rewrite Hnd, Hn0 in Hls.
    rewrite Hn0 in Hnew. apply (getitem_lookup d "estado" s _ _ Hwfd Hs) in Hnew.
    destruct s as [|v [|? ?]]; try done. simpl in Hnew. injection Hnew as ->.
    rewrite (inicio_kpis_nonempty d _ Hed Hs). by rewrite Hnd, Hn0.
  - destruct (decide ("estado" ∈ columns df)) as [Hin|Hno].
    2:{ unfold inicio_kpis, count_eq, getitem in Hk. rewrite He in Hk. simpl in Hk.
        by rewrite (proj2 (col_index_None _ _) Hno) in Hk. }
    destruct (getitem_Ok df "estado" Hin) as [s Hs].
    rewrite (inicio_kpis_nonempty df s He Hs) in Hk. injection Hk as <-. simpl.
    pose proof (getitem_concat_snoc df row d "estado" s _ Hwf Hd Hs Hest) as Hs'.
    rewrite (inicio_kpis_nonempty d _ Hed Hs'). f_equal.
    unfold series_eq_str. rewrite !map_app, !mask_sum_app. simpl map.
    rewrite !mask_sum_cons. unfold mask_sum at 2 4 6. simpl.
    rewrite Hnd. f_equal; lia.
Qed.

Lemma inicio_kpis_spec_witness :
  inicio_kpis notifs_repetidas = Ok (mkKpis 3 2 0 1)
  ∧ ∃ l' w' d,
      crear_notificacion 0 "V-210" "Chequear V-210" "Lectura fuera de rango" "P2"
        "Operario 1" (world_with notifs_repetidas F_NOTIF) = (Ok l', w')
      ∧ heap w' !! l' = Some d
      ∧ inicio_kpis d = Ok (mkKpis 4 3 0 1).
Proof.
  split; [reflexivity|].
  destruct (inicio_kpis_spec (world_with notifs_repetidas F_NOTIF) 0 notifs_repetidas
              eq_refl) as (_ & _ & _ & H).
  - repeat constructor.
  - apply (H (mkKpis 3 2 0 1)); [reflexivity|]. left. repeat constructor.
Defined.

Example py_strip_ex :
  py_strip "  Ana María  " = "Ana María" ∧ py_strip "   " = ""
  ∧ py_strip (String "009" (String "010" "x y")) = "x y"
  ∧ py_strip (string_of_list_ascii ["194"%char; "160"%char; "a"%char; "226"%char;
                                    "128"%char; "131"%char]) = "a"
  ∧ py_strip "" = "".
Proof. repeat split; reflexivity. Qed.

(** ** Gestión de usuarios *)

Lemma lstrip_blanks (l : list ascii) (fuel : nat) :
  Forall (λ c, c ∈ [" "%char; "009"%char; "010"%char; "013"%char]) l →
  length l ≤ fuel → lstrip fuel l = [].
Proof.
  revert fuel. induction l as [|c l IH]; intros fuel Hall Hf.
  - by destruct fuel.
  - apply Forall_cons in Hall as [Hc Hall]. destruct fuel as [|fuel]; [simpl in Hf; lia|].
    assert (space_width (c :: l) = 1) as Hw.
    { repeat (apply elem_of_cons in Hc as [-> | Hc]; [done|]). by apply elem_of_nil in Hc. }
    cbn [lstrip]. rewrite Hw. simpl drop. apply IH; [done|]. simpl in Hf. lia.
Qed.

Lemma py_strip_blanks (s : string) :
  Forall (λ c, c ∈ [" "%char; "009"%char; "010"%char; "013"%char]) (list_ascii_of_string s) →
  py_strip s = "".
Proof. intros Hall. unfold py_strip. by rewrite lstrip_blanks. Qed.

Lemma agregar_usuario_run (w : World) (usuarios : loc) (df : DataFrame)
    (nombre rol area : string) :
  heap w !! usuarios = Some df → py_strip nombre ≠ "" →
  runs (agregar_usuario usuarios true nombre rol area) w (λ l' w',
    ∃ new_row d,
      assoc "user_id" new_row = Some (CStr ("u" +:+ pretty (nrows df + 1)%nat))
      ∧ assoc "nombre" new_row = Some (CStr nombre)
      ∧ assoc "rol" new_row = Some (CStr rol)
      ∧ assoc "area" new_row = Some (CStr area)
      ∧ rows_added w usuarios df F_USUARIOS [new_row] l' w' d
      ∧ notices w' = notices w ++ [Success "Usuario agregado."]).
Proof.
  intros Hl Hn. unfold agregar_usuario. rewrite bool_decide_eq_true_2 by done.
  simpl andb. cbv iota.
  repeat wp_step. eapply runs_append_k; [solve_heap|]. intros d Hd.
  repeat wp_step.
  lazymatch type of Hd with
  | concat [_; DataFrame_of_records [?r]] = _ => exists r, d
  end.
  repeat (split; [reflexivity|]). split; [by apply (rows_added_intro w) | done].
Qed.

Lemma seed_usuarios_ok : user_ids_ok (DataFrame_of_records seed_usuarios).
Proof.
  assert (∀ i v, cell_at (DataFrame_of_records seed_usuarios) i "user_id" = Some v →
            (i = 0 ∧ v = CStr "op1") ∨ (i = 1 ∧ v = CStr "op2")
            ∨ (i = 2 ∧ v = CStr "sup1") ∨ (i = 3 ∧ v = CStr "hse1")) as Hid.
  { intros [|[|[|[|i]]]] v Hv; vm_compute in Hv; [injection Hv as <-; auto 6..|discriminate]. }
  split; [|split].
  - left. vm_compute. left.
  - intros i j v Hi%Hid Hj%Hid.
    destruct Hi as [[-> ->] | [[-> ->] | [[-> ->] | [-> ->]]]];
      destruct Hj as [[-> E] | [[-> E] | [[-> E] | [-> E]]]]; done.
  - intros i k Hi%Hid.
    destruct Hi as [[_ E] | [[_ E] | [[_ E] | [_ E]]]]; discriminate.
Qed.

(** X12: the form "Agregar". Nothing happens unless the form is
    submitted with a name that has a character other than white space
    (a name of spaces, tabs or line ends adds nothing). Otherwise one
    row is added at the end of the users table, with the name as it was
    typed and the identifier [u<n+1>], [n] being the number of rows
    before; the table is saved and the cache cleared. Identifiers that
    tell the rows apart still do so afterwards, provided no identifier
    of the form [u<k>] had [k] above the number of rows, as is the case
    of the seeded users. *)
Theorem agregar_usuario_spec (w : World) (usuarios : loc) (df : DataFrame)
    (submitted : bool) (nombre rol area : string) :
  heap w !! usuarios = Some df → wf df →
  (submitted = false ∨ py_strip nombre = "" →
   agregar_usuario usuarios submitted nombre rol area w = (Ok usuarios, w))
  ∧ (Forall (λ c, c ∈ [" "%char; "009"%char; "010"%char; "013"%char])
            (list_ascii_of_string nombre) →
     agregar_usuario usuarios submitted nombre rol area w = (Ok usuarios, w))
  ∧ (submitted = true → py_strip nombre ≠ "" →
     ∃ l' w' d,
       agregar_usuario usuarios submitted nombre rol area w = (Ok l', w')
       ∧ heap w' !! l' = Some d ∧ heap w' !! usuarios = Some df
       ∧ fs w' !! F_USUARIOS = Some (to_csv d) ∧ cache w' = ∅
       ∧ notices w' = notices w ++ [Success "Usuario agregado."]
       ∧ nrows d = S (nrows df)
       ∧ (∀ i c v, cell_at df i c = Some v → cell_at d i c = Some v)
       ∧ cell_at d (nrows df) "user_id" = Some (CStr ("u" +:+ pretty (S (nrows df))))
       ∧ cell_at d (nrows df) "nombre" = Some (CStr nombre)
       ∧ (user_ids_ok df → user_ids_ok d))
  ∧ user_ids_ok (DataFrame_of_records seed_usuarios).
Proof.
  intros Hl Hwf.
  assert (submitted = false ∨ py_strip nombre = "" →
          agregar_usuario usuarios submitted nombre rol area w = (Ok usuarios, w)) as Hno.
  { intros [-> | Hn]; unfold agregar_usuario; [done|].
    rewrite bool_decide_eq_false_2 by (by intros H). by rewrite andb_false_r. }
  split; [done|]. split. { intros Hb. apply Hno. right. by apply py_strip_blanks. }
  split; [|apply seed_usuarios_ok].
  intros -> Hn.
  destruct (agregar_usuario_run w usuarios df nombre rol area Hl Hn)
    as (l' & w' & Hrun & row & d & Hid & Hnom & _ & _
        & (Hd & Hl' & _ & Hold & Hfs & Hcache) & Hnot).
  pose proof (concat_nrows _ _ _ Hd) as Hnd. rewrite DataFrame_of_records_nrows in Hnd.
  simpl in Hnd.
  assert (∀ c v, assoc c row = Some v → cell_at d (nrows df) c = Some v) as Hnew.
  { intros c v Hv. rewrite <- (Nat.add_0_r (nrows df)).
    apply (concat_cell_r _ _ _ Hd). by apply (DataFrame_of_records_cell _ 0 row). }
  replace (nrows df + 1) with (S (nrows df)) in Hid by lia.
  exists l', w', d. split; [done|]. split; [done|]. split; [by apply Hold|].
  split. { rewrite Hfs. apply lookup_insert_eq. }
  split; [done|]. split; [done|]. split; [lia|].
  split. { intros i c v. by apply (concat_cell_l _ _ _ Hd). }
  split; [by apply Hnew|]. split; [by apply Hnew|].
  intros (Hcol & Huniq & Hbound).
  assert (∀ i v, cell_at d i "user_id" = Some v →
            (i < nrows df ∧ cell_at df i "user_id" = Some v)
            ∨ (i = nrows df ∧ v = CStr ("u" +:+ pretty (S (nrows df))))) as Hcases.
  { intros i v Hv. pose proof (cell_at_lt _ _ _ _ Hv) as Hi. rewrite Hnd in Hi.
    destruct (decide (i < nrows df)) as [Hlt|Hge].
    - left. split; [done|].
      destruct (concat_cell_l_inv _ _ _ Hd i "user_id" v Hwf Hlt Hv) as [Hv'|[Hnc _]];
        [done|]. destruct Hcol as [Hin | H0]; [done | lia].
    - right. assert (i = nrows df) as -> by lia. split; [done|].
      rewrite (Hnew _ _ Hid) in Hv. by injection Hv as <-. }
  split; [|split].
  - left. eapply cell_at_column. by apply (Hnew _ _ Hid).
  - intros i j v Hi Hj.
    destruct (Hcases i v Hi) as [[Hlt Hi'] | [Ei Ev]];
      destruct (Hcases j v Hj) as [[Hlt' Hj'] | [Ej Ev']].
    + by eapply Huniq.
    + rewrite Ev' in Hi'. apply Hbound in Hi'. lia.
    + rewrite Ev in Hj'. apply Hbound in Hj'. lia.
    + congruence.
  - intros i k Hi. destruct (Hcases i _ Hi) as [[Hlt Hi'] | [-> E]].
    + apply Hbound in Hi'. lia.
    + injection E as E. change (pretty k = pretty (S (nrows df))) in E.
      apply (inj pretty) in E. lia.
Qed.

Lemma agregar_usuario_spec_witness :
  agregar_usuario 0 true "   " "HSE" "HSE"
    (world_with (DataFrame_of_records seed_usuarios) F_USUARIOS)
  = (Ok 0, world_with (DataFrame_of_records seed_usuarios) F_USUARIOS)
  ∧ ∃ l' w' d,
      agregar_usuario 0 true " Ana " "HSE" "HSE"
        (world_with (DataFrame_of_records seed_usuarios) F_USUARIOS) = (Ok l', w')
      ∧ heap w' !! l' = Some d
      ∧ cell_at d 4 "user_id" = Some (CStr "u5")
      ∧ cell_at d 4 "nombre" = Some (CStr " Ana ")
      ∧ user_ids_ok d.
Proof.
  destruct (agregar_usuario_spec
              (world_with (DataFrame_of_records seed_usuarios) F_USUARIOS) 0
              (DataFrame_of_records seed_usuarios) true "   " "HSE" "HSE" eq_refl
              (DataFrame_of_records_wf _)) as (H1 & _).
  destruct (agregar_usuario_spec
              (world_with (DataFrame_of_records seed_usuarios) F_USUARIOS) 0
              (DataFrame_of_records seed_usuarios) true " Ana " "HSE" "HSE" eq_refl
              (DataFrame_of_records_wf _)) as (_ & _ & H2 & Hseed).
  split; [apply H1; right; reflexivity|].
  destruct (H2 eq_refl ltac:(discriminate))
    as (l' & w' & d & Hrun & Hd & _ & _ & _ & _ & _ & _ & Hid & Hnom & Hok).
  exists l', w', d. split; [exact Hrun|]. split; [exact Hd|].
  split; [exact Hid|]. split; [exact Hnom|]. exact (Hok Hseed).
Defined.

(** ** The start of the script *)

Lemma keeps_seq (m1 m2 : M unit) :
  (∀ w, runs m1 w (λ _ w', cache w' = cache w ∧ notices w' = notices w)) →
  (∀ w, runs m2 w (λ _ w', cache w' = cache w ∧ notices w' = notices w)) →
  ∀ w, runs (m1;; m2) w (λ _ w', cache w' = cache w ∧ notices w' = notices w).
Proof.
  intros H1 H2 w. apply runs_bind.
  destruct (H1 w) as ([] & w1 & Hrun1 & Hc1 & Hn1). exists (), w1. split; [done|].
  destruct (H2 w1) as ([] & w2 & Hrun2 & Hc2 & Hn2). exists (), w2. split; [done|].
  split; congruence.
Qed.

Ltac keeps_block :=
  intros w; apply runs_unless_exists;
  [ done
  | intros _; repeat wp_step; try (apply runs_bind, runs_alloc); repeat wp_step; done ].

(** Seeding leaves the cache and the notices alone. *)
Lemma seed_if_missing_keeps (w : World) :
  runs seed_if_missing w (λ _ w', cache w' = cache w ∧ notices w' = notices w).
Proof.
  revert w. unfold seed_if_missing.
  repeat (apply keeps_seq; [keeps_block|]). keeps_block.
Qed.

(** A load that finds nothing cached, and what it leaves in the cache. *)
Lemma load_csv_fresh (w : World) (d : dataset) :
  cache w !! dataset_path d = None →
  ∃ df w', load_csv (dataset_path d) w = (Ok (length (heap w)), w')
           ∧ heap w' = heap w ++ [df] ∧ fs w' = fs w
           ∧ (∀ d', d' ≠ d → cache w' !! dataset_path d' = cache w !! dataset_path d')
           ∧ frame_of_file (fs w !! dataset_path d) df
           ∧ notices w' = notices w ++ warnings_for (fs w) [d].
Proof.
  intros Hmiss. unfold load_csv. rewrite bind_run. unfold get_world at 1. rewrite Hmiss.
  destruct (safe_read_csv_run w (dataset_path d)) as (df & w' & Hrun & Hh & Hf & Hc & Hl).
  rewrite bind_run, Hrun.
  assert (heap w' !! length (heap w) = Some df) as Hdf by (rewrite Hh; apply heap_alloc).
  rewrite bind_run, (deref_run _ _ _ Hdf). rewrite bind_run. unfold get_world.
  rewrite bind_run. unfold cache_put. simpl.
  eexists _, _. split; [reflexivity|]. simpl.
  split; [done|]. split; [done|].
  split.
  { intros d' Hne. rewrite lookup_insert_ne; [by rewrite Hc|].
    intros E. by apply dataset_path_inj in E. }
  unfold loaded in Hl. unfold frame_of_file, warnings_for. simpl.
  destruct (fs w !! dataset_path d) as [c|].
  - destruct (read_csv c) as [df0|e]; destruct Hl as [-> ->]; [|done].
    by rewrite app_nil_r.
  - destruct Hl as [-> ->]. by rewrite app_nil_r.
Qed.

(** A load, whatever the cache holds. *)
Lemma load_csv_total (w : World) (path : Path) :
  ∃ df w', load_csv path w = (Ok (length (heap w)), w')
           ∧ heap w' = heap w ++ [df] ∧ fs w' = fs w.
Proof.
  destruct (cache w !! path) as [[df shown]|] eqn:Hc.
  - rewrite (load_csv_hit _ _ _ _ Hc). by eexists _, _.
  - destruct (load_csv_miss w path Hc) as (df & w' & Hrun & Hh & Hf & _).
    by exists df, w'.
Qed.

(** One load of the start of the script. *)
Lemma load_csv_step (w : World) (d : dataset) :
  ∃ df w', load_csv (dataset_path d) w = (Ok (length (heap w)), w')
           ∧ heap w' = heap w ++ [df] ∧ fs w' = fs w
           ∧ (∀ d', d' ≠ d → cache w !! dataset_path d' = None →
                cache w' !! dataset_path d' = None)
           ∧ (cache w !! dataset_path d = None →
              frame_of_file (fs w !! dataset_path d) df
              ∧ notices w' = notices w ++ warnings_for (fs w) [d]).
Proof.
  destruct (cache w !! dataset_path d) as [[df shown]|] eqn:Hc.
  - rewrite (load_csv_hit _ _ _ _ Hc). eexists _, _. split; [reflexivity|]. simpl.
    split; [done|]. split; [done|]. split; [done|]. done.
  - destruct (load_csv_fresh w d Hc) as (df & w' & Hrun & Hh & Hf & Hcache & Hfile & Hn).
    exists df, w'. split; [done|]. split; [done|]. split; [done|].
    split; [|done]. intros d' Hne Hd'. by rewrite Hcache.
Qed.

Lemma is_seed_readable (d : dataset) (seed : DataFrame) :
  is_seed d seed → wf seed ∧ columns seed ≠ [] ∧ csv_safe seed = true.
Proof.
  assert (∀ rs, 2 ≤ length (columns (DataFrame_of_records rs)) →
                Forall record_plain rs →
                wf (DataFrame_of_records rs) ∧ columns (DataFrame_of_records rs) ≠ []
                ∧ csv_safe (DataFrame_of_records rs) = true) as Hrs.
  { intros rs Hlen Hp. split; [apply DataFrame_of_records_wf|]. split.
    - intros E. rewrite E in Hlen. simpl in Hlen. lia.
    - apply no_cr_csv_safe; [apply DataFrame_of_records_wf | done | by apply no_cr_records]. }
  destruct d; simpl.
  - intros ->. apply Hrs; [vm_compute; lia|]. repeat (apply Forall_cons; split; [plain_record|]).
    apply Forall_nil_2.
  - intros ->. apply Hrs; [vm_compute; lia|]. repeat (apply Forall_cons; split; [plain_record|]).
    apply Forall_nil_2.
  - intros (t1 & t2 & ->). apply Hrs; [vm_compute; lia|].
    repeat (apply Forall_cons; split; [plain_record|]). apply Forall_nil_2.
  - intros ->. apply Hrs; [vm_compute; lia|]. repeat (apply Forall_cons; split; [plain_record|]).
    apply Forall_nil_2.
  - intros ->. split; [by apply Forall_nil|]. split; [discriminate | reflexivity].
  - intros (t & ->). apply Hrs; [vm_compute; lia|].
    repeat (apply Forall_cons; split; [plain_record|]). apply Forall_nil_2.
  - intros (t & ->). apply Hrs; [vm_compute; lia|].
    repeat (apply Forall_cons; split; [plain_record|]). apply Forall_nil_2.
Qed.

Lemma warnings_for_app (fs : gmap Path string) (ds1 ds2 : list dataset) :
  warnings_for fs (ds1 ++ ds2) = warnings_for fs ds1 ++ warnings_for fs ds2.
Proof. unfold warnings_for. apply omap_app. Qed.

(** X13: the start of the script never fails, whatever the data
    directory and the cache hold. Afterwards the seven files exist, the
    files that existed are untouched and the missing ones hold their
    seed rows, and the script has seven different frame objects. In a
    process whose cache holds none of the tables, each frame is what its
    file holds (an empty frame when the file cannot be parsed), a table
    that has just been seeded is loaded with the columns and the number
    of rows of its seed, and the only notices shown are the warnings for
    the files that cannot be parsed, in the order of the loads. *)
Theorem startup_spec (w : World) :
  ∃ fr w',
    startup w = (Ok fr, w')
    ∧ (∀ d, is_Some (fs w' !! dataset_path d))
    ∧ (∀ d c, fs w !! dataset_path d = Some c → fs w' !! dataset_path d = Some c)
    ∧ (∀ d, fs w !! dataset_path d = None →
         ∃ seed, is_seed d seed ∧ fs w' !! dataset_path d = Some (to_csv seed))
    ∧ (∀ d, is_Some (heap w' !! frame_of fr d))
    ∧ (∀ d d', frame_of fr d = frame_of fr d' → d = d')
    ∧ ((∀ d, cache w !! dataset_path d = None) →
       (∀ d, ∃ df, heap w' !! frame_of fr d = Some df
                   ∧ frame_of_file (fs w' !! dataset_path d) df)
       ∧ (∀ d, fs w !! dataset_path d = None →
            ∃ seed df, is_seed d seed ∧ heap w' !! frame_of fr d = Some df
                       ∧ columns df = columns seed ∧ nrows df = nrows seed)
       ∧ notices w' = notices w ++ warnings_for (fs w') all_datasets).
Proof.
  destruct (seed_if_missing_run w) as ([] & w0 & Hseed & Hturn).
  destruct (seed_if_missing_keeps w) as ([] & w0' & Hseed' & Hc0 & Hn0).
  assert (w0' = w0) as -> by congruence.
  destruct (seeded_in_turn_spec _ _ _ all_datasets_NoDup Hturn) as (_ & Hkeep & Hnew & _).
  destruct (load_csv_step w0 Usuarios) as (df1 & w1 & Hr1 & Hh1 & Hf1 & Hk1 & Hl1).
  destruct (load_csv_step w1 Activos) as (df2 & w2 & Hr2 & Hh2 & Hf2 & Hk2 & Hl2).
  destruct (load_csv_step w2 Notificaciones) as (df3 & w3 & Hr3 & Hh3 & Hf3 & Hk3 & Hl3).
  destruct (load_csv_step w3 RondasPlantillas) as (df4 & w4 & Hr4 & Hh4 & Hf4 & Hk4 & Hl4).
  destruct (load_csv_step w4 RondasEjecuciones) as (df5 & w5 & Hr5 & Hh5 & Hf5 & Hk5 & Hl5).
  destruct (load_csv_step w5 Incidentes) as (df6 & w6 & Hr6 & Hh6 & Hf6 & Hk6 & Hl6).
  destruct (load_csv_step w6 PtwOt) as (df7 & w7 & Hr7 & Hh7 & Hf7 & Hk7 & Hl7).
  set (n := length (heap w0)).
  assert (length (heap w1) = n + 1 ∧ length (heap w2) = n + 2 ∧ length (heap w3) = n + 3
          ∧ length (heap w4) = n + 4 ∧ length (heap w5) = n + 5
          ∧ length (heap w6) = n + 6) as (L1 & L2 & L3 & L4 & L5 & L6).
  { rewrite Hh6, Hh5, Hh4, Hh3, Hh2, Hh1, !length_app. simpl. unfold n. lia. }
  assert (heap w7 = heap w0 ++ [df1; df2; df3; df4; df5; df6; df7]) as Hheap.
  { rewrite Hh7, Hh6, Hh5, Hh4, Hh3, Hh2, Hh1, <- !app_assoc. done. }
  assert (fs w7 = fs w0) as Hfs by congruence.
  assert (fs w6 = fs w0 ∧ fs w5 = fs w0 ∧ fs w4 = fs w0 ∧ fs w3 = fs w0 ∧ fs w2 = fs w0
          ∧ fs w1 = fs w0) as (F6 & F5 & F4 & F3 & F2 & F1) by (repeat split; congruence).
  assert (∀ d, is_Some (fs w0 !! dataset_path d)) as Hall.
  { intros d. destruct (fs w !! dataset_path d) as [c|] eqn:E.
    - rewrite (Hkeep d c E). eauto.
    - destruct (Hnew d (all_datasets_complete d) E) as (df & _ & ->). eauto. }
  assert (∀ k x, [df1; df2; df3; df4; df5; df6; df7] !! k = Some x →
            heap w7 !! (n + k) = Some x) as Hk.
  { intros k x Hx. rewrite Hheap, lookup_app_r by (unfold n; lia).
    unfold n. by replace (length (heap w0) + k - length (heap w0)) with k by lia. }
  exists (mkFrames n (n + 1) (n + 2) (n + 3) (n + 4) (n + 5) (n + 6)), w7.
  split.
  { unfold startup. rewrite bind_run, Hseed.
    change F_USUARIOS with (dataset_path Usuarios).
    change F_ACTIVOS with (dataset_path Activos).
    change F_NOTIF with (dataset_path Notificaciones).
    change F_RONDAS_PLT with (dataset_path RondasPlantillas).
    change F_RONDAS_RUN with (dataset_path RondasEjecuciones).
    change F_INCIDENTES with (dataset_path Incidentes).
    change F_PTWOT with (dataset_path PtwOt).
    rewrite bind_run, Hr1, bind_run, Hr2, bind_run, Hr3, bind_run, Hr4, bind_run, Hr5,
      bind_run, Hr6, bind_run, Hr7. fold n. by rewrite L1, L2, L3, L4, L5, L6. }
  split. { intros d. rewrite Hfs. apply Hall. }
  split. { intros d c Hc. rewrite Hfs. by apply Hkeep. }
  split. { intros d Hd. rewrite Hfs. apply Hnew; [apply all_datasets_complete | done]. }
  split.
  { intros []; simpl; [rewrite <- (Nat.add_0_r n)|..]; erewrite Hk; eauto. }
  split. { intros [] []; simpl; intros; (done || lia). }
  intros Hfresh.
  assert (∀ d, cache w0 !! dataset_path d = None) as H0 by (intros d; by rewrite Hc0).
  assert (cache w1 !! dataset_path Activos = None) as C1 by (apply Hk1; [discriminate|apply H0]).
  assert (∀ d, d ≠ Usuarios → cache w1 !! dataset_path d = None) as H1
    by (intros d Hd; by apply Hk1).
  assert (∀ d, d ≠ Usuarios → d ≠ Activos → cache w2 !! dataset_path d = None) as H2
    by (intros d ? ?; apply Hk2; auto).
  assert (∀ d, d ≠ Usuarios → d ≠ Activos → d ≠ Notificaciones →
            cache w3 !! dataset_path d = None) as H3
    by (intros d ? ? ?; apply Hk3; auto).
  assert (∀ d, d ≠ Usuarios → d ≠ Activos → d ≠ Notificaciones → d ≠ RondasPlantillas →
            cache w4 !! dataset_path d = None) as H4
    by (intros d ? ? ? ?; apply Hk4; auto).
  assert (∀ d, d ≠ Usuarios → d ≠ Activos → d ≠ Notificaciones → d ≠ RondasPlantillas →
            d ≠ RondasEjecuciones → cache w5 !! dataset_path d = None) as H5
    by (intros d ? ? ? ? ?; apply Hk5; auto).
  assert (∀ d, d ≠ Usuarios → d ≠ Activos → d ≠ Notificaciones → d ≠ RondasPlantillas →
            d ≠ RondasEjecuciones → d ≠ Incidentes →
            cache w6 !! dataset_path d = None) as H6
    by (intros d ? ? ? ? ? ?; apply Hk6; auto).
  destruct (Hl1 (H0 Usuarios)) as [E1 N1].
  destruct (Hl2 (H1 Activos ltac:(discriminate))) as [E2 N2].
  destruct (Hl3 (H2 Notificaciones ltac:(discriminate) ltac:(discriminate))) as [E3 N3].
  destruct (Hl4 (H3 RondasPlantillas ltac:(discriminate) ltac:(discriminate) ltac:(discriminate)))
    as [E4 N4].
  destruct (Hl5 (H4 RondasEjecuciones ltac:(discriminate) ltac:(discriminate) ltac:(discriminate)
                   ltac:(discriminate))) as [E5 N5].
  destruct (Hl6 (H5 Incidentes ltac:(discriminate) ltac:(discriminate) ltac:(discriminate)
                   ltac:(discriminate) ltac:(discriminate))) as [E6 N6].
  destruct (Hl7 (H6 PtwOt ltac:(discriminate) ltac:(discriminate) ltac:(discriminate)
                   ltac:(discriminate) ltac:(discriminate) ltac:(discriminate)))
    as [E7 N7].
  rewrite F1 in E2, N2. rewrite F2 in E3, N3. rewrite F3 in E4, N4.
  rewrite F4 in E5, N5. rewrite F5 in E6, N6. rewrite F6 in E7, N7.
  assert (∀ d, ∃ df, heap w7 !! frame_of (mkFrames n (n + 1) (n + 2) (n + 3) (n + 4)
                                            (n + 5) (n + 6)) d = Some df
                     ∧ frame_of_file (fs w0 !! dataset_path d) df) as Hframes.
  { assert (heap w7 !! n = Some df1) as Hk0
      by (rewrite <- (Nat.add_0_r n); by apply Hk).
    intros [];
      cbn [frame_of f_usuarios f_activos f_notifs f_rondas_plt f_rondas_run f_incidentes
           f_ptwot];
      [exists df1 | exists df2 | exists df3 | exists df4 | exists df5 | exists df6
       | exists df7];
      (split; [first [exact Hk0 | apply Hk; reflexivity] | assumption]). }
  split. { intros d. rewrite Hfs. apply Hframes. }
  split.
  { intros d Hd. destruct (Hnew d (all_datasets_complete d) Hd) as (seed & Hs & Hfile).
    destruct (Hframes d) as (df & Hdf & Hff). rewrite Hfile in Hff. simpl in Hff.
    destruct (is_seed_readable d seed Hs) as (Hwf & Hcols & Hsafe).
    destruct (read_csv_to_csv seed Hwf Hcols Hsafe) as (df' & Hread & Hc' & Hn').
    rewrite Hread in Hff. subst df'. by exists seed, df. }
  rewrite N7, N6, N5, N4, N3, N2, N1, Hn0, Hfs, <- !app_assoc. f_equal.
  unfold all_datasets.
  change [Usuarios; Activos; Notificaciones; RondasPlantillas; RondasEjecuciones;
          Incidentes; PtwOt]
    with ([Usuarios] ++ [Activos] ++ [Notificaciones] ++ [RondasPlantillas]
          ++ [RondasEjecuciones] ++ [Incidentes] ++ [PtwOt]).
  by rewrite !warnings_for_app.
Qed.

(** ** The cache between a save and a load *)

(** X14: [load_csv] answers from the cache as long as it has not been
    cleared. After a first load of a table, a save to its file that is
    not followed by [st.cache_data.clear()] is not seen: the next load
    returns, as a new object, the frame the first load returned, and
    shows again the notices of the first load, although the file now
    holds the saved frame. With the clear, as in every handler, the
    next load returns what the file holds. *)
Theorem stale_until_cleared (w : World) (d : dataset) (l : loc) (df : DataFrame) :
  cache w !! dataset_path d = None → heap w !! l = Some df →
  ∃ l1 w1 df1,
    load_csv (dataset_path d) w = (Ok l1, w1)
    ∧ heap w1 !! l1 = Some df1
    ∧ (∃ l2 w2,
         (save_csv l (dataset_path d);; load_csv (dataset_path d)) w1 = (Ok l2, w2)
         ∧ l2 ≠ l1 ∧ heap w2 !! l2 = Some df1 ∧ heap w2 !! l1 = Some df1
         ∧ fs w2 !! dataset_path d = Some (to_csv df)
         ∧ notices w2 = notices w1 ++ drop (length (notices w)) (notices w1))
    ∧ (∃ l3 w3 df3,
         (save_csv l (dataset_path d);; cache_data_clear;; load_csv (dataset_path d)) w1
         = (Ok l3, w3)
         ∧ heap w3 !! l3 = Some df3
         ∧ frame_of_file (Some (to_csv df)) df3).
Proof.
  intros Hc Hl.
  destruct (load_csv_miss w (dataset_path d) Hc) as (df1 & w1 & Hrun & Hh & Hf & Hcache & _).
  assert (heap w1 !! l = Some df) as Hl1 by (rewrite Hh; by apply lookup_app_l_Some).
  assert (heap w1 !! length (heap w) = Some df1) as Hdf1 by (rewrite Hh; apply heap_alloc).
  exists (length (heap w)), w1, df1. split; [done|]. split; [done|]. split.
  - eexists _, _. split.
    + rewrite bind_run, (save_csv_saved _ _ _ _ Hl1).
      apply load_csv_hit. simpl. exact Hcache.
    + simpl. split. { rewrite Hh, length_app. simpl. lia. }
      split. { apply heap_alloc. }
      split. { by apply lookup_app_l_Some. }
      split; [apply saved_self | done].
  - set (w1' := set_cache (λ _, ∅) (set_fs (saved df (dataset_path d)) w1)).
    destruct (load_csv_step w1' d) as (df3 & w3 & Hr3 & Hh3 & _ & _ & Hl3).
    destruct (Hl3 (lookup_empty _)) as [Hfile _].
    exists (length (heap w1')), w3, df3. split.
    + rewrite bind_run, (save_csv_saved _ _ _ _ Hl1). rewrite bind_run. exact Hr3.
    + split. { rewrite Hh3. apply heap_alloc. }
      unfold w1' in Hfile. simpl in Hfile. by rewrite saved_self in Hfile.
Qed.

Lemma stale_until_cleared_witness :
  ∃ l1 w1 df1 l2 w2,
    load_csv F_NOTIF world_stale = (Ok l1, w1)
    ∧ heap w1 !! l1 = Some df1
    ∧ (save_csv 0 F_NOTIF;; load_csv F_NOTIF) w1 = (Ok l2, w2)
    ∧ heap w2 !! l2 = Some df1
    ∧ fs w2 !! F_NOTIF = Some (to_csv (mkDF ["id"] [[CInt 1]])).
Proof.
  destruct (stale_until_cleared world_stale Notificaciones 0 (mkDF ["id"] [[CInt 1]])
              (lookup_empty _) eq_refl)
    as (l1 & w1 & df1 & Hrun & Hdf1 & (l2 & w2 & Hrun2 & _ & Hdf2 & _ & Hfs & _) & _).
  exists l1, w1, df1, l2, w2. repeat split; assumption.
Defined.

Example chip_ex :
  chip_estado (CStr "Pendiente") = "🟡 Pendiente"
  ∧ chip_estado (CStr "Anulada") = "⚪ Anulada"
  ∧ chip_estado CNaN = "⚪ nan"
  ∧ chip_prioridad (CStr "P1") = CStr "🔴 P1"
  ∧ chip_prioridad (CStr "Urgente") = CStr "Urgente"
  ∧ chip_prioridad (CInt 1) = CInt 1.
Proof. repeat split; vm_compute; reflexivity. Qed.

(** ** Helpers visuales *)

Lemma append_inv_head (s a b : string) : s +:+ a = s +:+ b → a = b.
Proof.
  induction s as [|c s IH]; [done|]. rewrite !append_cons. intros [= H]. by apply IH.
Qed.

Lemma estado_icon (s : string) :
  default "⚪" (estado_palette !! s) ∈ ["🟡"; "🟠"; "🟢"; "⚪"; "🟦"].
Proof.
  destruct (estado_palette !! s) as [x|] eqn:E; simpl; [|repeat constructor].
  unfold estado_palette in E. apply elem_of_list_to_map_2 in E.
  repeat (apply elem_of_cons in E as [E | E]; [injection E as -> ->; repeat constructor|]).
  by apply elem_of_nil in E.
Qed.

(** Two states are never shown alike. *)
Lemma chip_estado_inj (a b : string) :
  chip_estado (CStr a) = chip_estado (CStr b) → a = b.
Proof.
  unfold chip_estado, dict_get. simpl py_str.
  pose proof (estado_icon a) as Ha. pose proof (estado_icon b) as Hb.
  set (ia := default "⚪" (estado_palette !! a)) in *.
  set (ib := default "⚪" (estado_palette !! b)) in *.
  clearbody ia ib. intros H.
  repeat (apply elem_of_cons in Ha as [-> | Ha]);
    try (by apply elem_of_nil in Ha);
    repeat (apply elem_of_cons in Hb as [-> | Hb]);
    try (by apply elem_of_nil in Hb);
    first [ by (apply append_inv_head in H; apply (append_inv_head " ") in H)
          | (vm_compute in H; discriminate H) ].
Qed.

Section SetColumn.
Context (c : string) (vals : list cell) (df : DataFrame).
Context (Hwf : wf df) (Hc : c ∈ columns df) (Hlen : length vals = nrows df).

Lemma set_column_columns : columns (set_column c vals df) = columns df.
Proof using Hc.
  unfold set_column. destruct (col_index_is_Some c _ Hc) as [j ->]. done.
Qed.

Lemma set_column_nrows : nrows (set_column c vals df) = nrows df.
Proof using Hc Hlen.
  unfold set_column. destruct (col_index_is_Some c _ Hc) as [j ->].
  unfold nrows in *. simpl. rewrite length_zip_with. lia.
Qed.

Lemma set_column_wf : wf (set_column c vals df).
Proof using Hwf Hc.
  unfold set_column. destruct (col_index_is_Some c _ Hc) as [j ->].
  unfold wf in *. simpl. apply Forall_forall. intros r Hr.
  apply list_elem_of_lookup in Hr as [i Hi]. rewrite lookup_zip_with in Hi.
  destruct (vals !! i) as [v|]; simpl in Hi; [|done].
  destruct (data df !! i) as [r0|] eqn:Hr0; simpl in Hi; [|done]. injection Hi as <-.
  rewrite length_insert. eapply (proj1 (Forall_forall _ _) Hwf).
  by eapply list_elem_of_lookup_2.
Qed.

Lemma set_column_cell (i : nat) : cell_at (set_column c vals df) i c = vals !! i.
Proof using Hwf Hc Hlen.
  unfold set_column, cell_at. destruct (col_index_is_Some c _ Hc) as [j Hj]. rewrite Hj.
  simpl. rewrite Hj. simpl. rewrite lookup_zip_with.
  destruct (vals !! i) as [v|] eqn:Hv; simpl; [|done].
  destruct (lookup_lt_is_Some_2 (data df) i) as [r Hr].
  { unfold nrows in Hlen. rewrite <- Hlen. by eapply lookup_lt_Some. }
  rewrite Hr. simpl. apply list_lookup_insert_eq.
  rewrite (wf_row df i r Hwf Hr). by eapply col_index_lt.
Qed.

Lemma set_column_other (i : nat) (c' : string) :
  c' ≠ c → cell_at (set_column c vals df) i c' = cell_at df i c'.
Proof using Hwf Hc Hlen.
  intros Hne. unfold set_column, cell_at.
  destruct (col_index_is_Some c _ Hc) as [j Hj]. rewrite Hj. simpl.
  destruct (col_index c' (columns df)) as [j'|] eqn:Hj'; simpl; [|done].
  rewrite lookup_zip_with.
  destruct (data df !! i) as [r|] eqn:Hr; simpl.
  - destruct (lookup_lt_is_Some_2 vals i) as [v Hv].
    { rewrite Hlen. unfold nrows. by eapply lookup_lt_Some. }
    rewrite Hv. simpl. apply list_lookup_insert_ne.
    intros <-. apply Hne. by eapply col_index_inj.
  - by destruct (vals !! i).
Qed.
End SetColumn.

Lemma runs_apply_column (w : World) (l : loc) (d : DataFrame) (c : string)
    (f : cell → cell) (s : list cell) (Q : () → World → Prop) :
  heap w !! l = Some d → getitem d c = Ok s →
  Q () (set_heap (λ h, <[l:=set_column c (map f s) d]> h) w) →
  runs (apply_column l c f) w Q.
Proof.
  intros Hl Hs HQ. unfold apply_column.
  apply runs_bind. eapply runs_deref; [done|].
  apply runs_bind. eapply runs_lift; [done|]. by eexists _, _.
Qed.

(** X15: the inbox is built on a copy. [bandeja_df_show] leaves the
    notifications table, every other frame and the files as they are,
    and returns a new frame with the same columns and rows in which only
    the state and the priority differ: each state is shown as an icon, a
    blank and the state itself, so that two rows show the same chip only
    when they have the same state, and a priority other than P1-P4 is
    shown as it is. Without a state column the page fails with
    [KeyError]. *)
Theorem bandeja_on_a_copy (w : World) (notifs : loc) (df : DataFrame) :
  heap w !! notifs = Some df → wf df →
  ("estado" ∈ columns df → "prioridad" ∈ columns df →
   ∃ l' w' v,
     bandeja_df_show notifs w = (Ok l', w')
     ∧ heap w' !! l' = Some v ∧ l' ≠ notifs
     ∧ (∀ k x, heap w !! k = Some x → heap w' !! k = Some x)
     ∧ fs w' = fs w ∧ cache w' = cache w ∧ notices w' = notices w
     ∧ columns v = columns df ∧ nrows v = nrows df
     ∧ (∀ i c, c ≠ "estado" → c ≠ "prioridad" → cell_at v i c = cell_at df i c)
     ∧ (∀ i e, cell_at df i "estado" = Some e →
          cell_at v i "estado" = Some (CStr (chip_estado e)))
     ∧ (∀ i p, cell_at df i "prioridad" = Some p →
          cell_at v i "prioridad" = Some (chip_prioridad p))
     ∧ (∀ i j a b, cell_at df i "estado" = Some (CStr a) →
          cell_at df j "estado" = Some (CStr b) →
          cell_at v i "estado" = cell_at v j "estado" → a = b))
  ∧ ("estado" ∉ columns df →
     ∃ w', bandeja_df_show notifs w = (Raise (KeyError "estado"), w')
           ∧ heap w' !! notifs = Some df ∧ fs w' = fs w).
Proof.
  intros Hl Hwf. split.
  - intros He Hp.
    destruct (getitem_Ok df "estado" He) as [se Hse].
    set (d1 := set_column "estado" (map (λ v, CStr (chip_estado v)) se) df).
    assert (length (map (λ v, CStr (chip_estado v)) se) = nrows df) as Hlen1
      by (rewrite length_map; by eapply getitem_length).
    pose proof (set_column_wf _ _ df Hwf He : wf d1) as Hwf1.
    pose proof (set_column_columns _ (map (λ v, CStr (chip_estado v)) se) df He
                : columns d1 = columns df) as Hc1.
    pose proof (set_column_nrows _ _ df He Hlen1 : nrows d1 = nrows df) as Hn1.
    assert ("prioridad" ∈ columns d1) as Hp1 by (by rewrite Hc1).
    destruct (getitem_Ok d1 "prioridad" Hp1) as [sp Hsp].
    set (d2 := set_column "prioridad" (map chip_prioridad sp) d1).
    assert (length (map chip_prioridad sp) = nrows d1) as Hlen2
      by (rewrite length_map; by eapply getitem_length).
    assert (bandeja_df_show notifs w
            = (Ok (length (heap w)), set_heap (λ h, h ++ [d2]) w)) as Hrun.
    { assert (runs (bandeja_df_show notifs) w (λ l' w',
                l' = length (heap w) ∧ w' = set_heap (λ h, h ++ [d2]) w))
        as (l' & w' & Hr & -> & ->); [|done].
      unfold bandeja_df_show. repeat wp_step.
      eapply runs_apply_column; [solve_heap | exact Hse|].
      apply runs_bind.
      eapply runs_apply_column; [solve_heap | exact Hsp|].
      apply runs_ret. split; [done|]. unfold set_heap. simpl. f_equal.
      rewrite list_insert_insert_eq.
      rewrite insert_app_r_alt, Nat.sub_diag by done. done. }
    exists (length (heap w)), (set_heap (λ h, h ++ [d2]) w), d2.
    split; [done|]. simpl. split; [apply heap_alloc|].
    split. { apply lookup_lt_Some in Hl. lia. }
    split. { intros k x Hk. by apply lookup_app_l_Some. }
    split; [done|]. split; [done|]. split; [done|].
    split. { unfold d2. by rewrite set_column_columns, Hc1. }
    split. { unfold d2. by rewrite set_column_nrows, Hn1. }
    assert (∀ i, cell_at d2 i "estado" = cell_at d1 i "estado") as Hest
      by (intros i; by apply set_column_other).
    assert (∀ i e, cell_at df i "estado" = Some e →
              cell_at d2 i "estado" = Some (CStr (chip_estado e))) as Hchip.
    { intros i e Hi. rewrite Hest. unfold d1. rewrite set_column_cell by done.
      apply (getitem_lookup df "estado" se i e Hwf Hse) in Hi.
      by rewrite list_lookup_fmap, Hi. }
    split.
    { intros i c Hce Hcp. unfold d2. rewrite set_column_other by done.
      unfold d1. by rewrite set_column_other. }
    split; [exact Hchip|]. split.
    { intros i p Hi. unfold d2. rewrite set_column_cell by done.
      assert (cell_at d1 i "prioridad" = Some p) as Hi1.
      { unfold d1. by rewrite set_column_other. }
      apply (getitem_lookup d1 "prioridad" sp i p Hwf1 Hsp) in Hi1.
      by rewrite list_lookup_fmap, Hi1. }
    intros i j a b Hi Hj. rewrite (Hchip _ _ Hi), (Hchip _ _ Hj).
    intros [= H]. by apply chip_estado_inj.
  - intros Hno. eexists. split.
    + unfold bandeja_df_show. rewrite bind_run, (deref_run _ _ _ Hl).
      rewrite bind_run. unfold alloc at 1. rewrite bind_run.
      unfold apply_column. rewrite bind_run.
      rewrite (deref_run _ df) by (simpl; apply heap_alloc).
      rewrite bind_run. unfold lift, getitem.
      rewrite (proj2 (col_index_None _ _) Hno). reflexivity.
    + simpl. split; [by apply lookup_app_l_Some | done].
Qed.

Lemma bandeja_on_a_copy_witness :
  ∃ l' w' v,
    bandeja_df_show 0
      (world_with (mkDF ["id"; "prioridad"; "estado"]
                     [[CInt 1; CStr "P1"; CStr "Pendiente"];
                      [CInt 2; CStr "Urgente"; CStr "Anulada"]]) F_NOTIF) = (Ok l', w')
    ∧ heap w' !! l' = Some v
    ∧ heap w' !! 0 = Some (mkDF ["id"; "prioridad"; "estado"]
                             [[CInt 1; CStr "P1"; CStr "Pendiente"];
                              [CInt 2; CStr "Urgente"; CStr "Anulada"]])
    ∧ cell_at v 0 "estado" = Some (CStr "🟡 Pendiente")
    ∧ cell_at v 1 "estado" = Some (CStr "⚪ Anulada")
    ∧ cell_at v 1 "prioridad" = Some (CStr "Urgente").
Proof.
  destruct (bandeja_on_a_copy
              (world_with (mkDF ["id"; "prioridad"; "estado"]
                             [[CInt 1; CStr "P1"; CStr "Pendiente"];
                              [CInt 2; CStr "Urgente"; CStr "Anulada"]]) F_NOTIF) 0 _
              eq_refl) as [H _].
  - repeat constructor.
  - destruct H as (l' & w' & v & Hrun & Hv & _ & Hold & _ & _ & _ & _ & _ & _ & He & Hp & _).
    + repeat constructor.
    + repeat constructor.
    + exists l', w', v. split; [exact Hrun|]. split; [exact Hv|].
      split; [by apply Hold|].
      split; [exact (He 0 _ eq_refl)|]. split; [exact (He 1 _ eq_refl)|].
      exact (Hp 1 _ eq_refl).
Defined.

(** ** Each handler writes its own file only *)

Lemma saved_elsewhere (df : DataFrame) (path p : Path) (fs : gmap Path string) :
  p ≠ path → p ≠ tmp_path path → saved df path fs !! p = fs !! p.
Proof.
  intros Hp Ht. unfold saved. rewrite lookup_insert_ne by done. by apply lookup_delete_ne.
Qed.

Lemma rows_added_writes_only (m : M loc) (w : World) (l : loc) (df : DataFrame)
    (d : dataset) (Q : loc → World → record → DataFrame → Prop) :
  runs m w (λ l' w', ∃ new_row d', Q l' w' new_row d'
                       ∧ rows_added w l df (dataset_path d) [new_row] l' w' d') →
  writes_only d m w.
Proof.
  intros (l' & w' & Hrun & row & d' & _ & _ & _ & _ & _ & Hfs & _) p Hp Ht.
  rewrite Hrun. simpl. rewrite Hfs. by apply saved_elsewhere.
Qed.

(** X16: a handler writes the file of its own table and nothing else.
    Whatever their arguments and their outcome, the handlers of the
    notifications (creation by hand or by the IoT rule, change of
    state), of the permits (creation, change of state), of the
    incidents, of the users and of the round executions leave every
    file other than that of their table and its temporary [.tmp]
    companion exactly as it was. The file of another table is neither
    of the two, so that no handler ever writes the assets or the round
    templates. *)
Theorem handlers_write_own_file (w : World) (l : loc) (df : DataFrame) :
  heap w !! l = Some df → wf df →
  (∀ tag titulo motivo prioridad asignado,
     writes_only Notificaciones
       (crear_notificacion l tag titulo motivo prioridad asignado) w)
  ∧ (∀ p_actual p_high, writes_only Notificaciones (evaluar_evento l p_actual p_high) w)
  ∧ (∀ sel_id nuevo_estado evidencia,
       writes_only Notificaciones (aplicar_cambio l sel_id nuevo_estado evidencia) w)
  ∧ (∀ tipo solicitante area, writes_only PtwOt (crear_ptw l tipo solicitante area) w)
  ∧ (∀ idp nuevo aprob_hse, writes_only PtwOt (aplicar_ptw l idp nuevo aprob_hse) w)
  ∧ (∀ tag titulo severidad descripcion reportado_por,
       writes_only Incidentes
         (reportar_incidente l tag titulo severidad descripcion reportado_por) w)
  ∧ (∀ submitted nombre rol area,
       writes_only Usuarios (agregar_usuario l submitted nombre rol area) w)
  ∧ (∀ rows, writes_only RondasEjecuciones (guardar_ronda l rows) w)
  ∧ (∀ d d', d' ≠ d →
       dataset_path d' ≠ dataset_path d ∧ dataset_path d' ≠ tmp_path (dataset_path d)).
Proof.
  intros Hl Hwf.
  split.
  { intros tag titulo motivo prioridad asignado.
    apply (rows_added_writes_only _ w l df Notificaciones
             (λ _ _ row _, assoc "id" row = Some (CInt (next_sequential_id (Some df) "id"))
                           ∧ assoc "estado" row = Some (CStr "Pendiente"))).
    destruct (crear_notificacion_run w l df tag titulo motivo prioridad asignado Hl)
      as (l' & w' & Hrun & row & d & Hid & Hest & Hadd).
    exists l', w'. split; [done|]. by exists row, d. }
  split.
  { intros p_actual p_high. destruct (float_leb p_actual p_high) eqn:Hp.
    - intros p _ _. unfold evaluar_evento. by rewrite Hp.
    - apply (rows_added_writes_only _ w l df Notificaciones
               (λ _ _ row _, assoc "id" row
                             = Some (CInt (next_sequential_id (Some df) "id"))
                             ∧ assoc "estado" row = Some (CStr "Pendiente"))).
      destruct (evaluar_evento_run w l df p_actual p_high Hl Hp)
        as (l' & w' & Hrun & row & d & Hid & Hest & Hadd).
      exists l', w'. split; [done|]. by exists row, d. }
  split.
  { intros sel_id nuevo_estado evidencia p Hp Ht.
    destruct (decide ("id" ∈ columns df)) as [Hin|Hnin].
    - destruct (getitem_Ok df "id" Hin) as [s Hs].
      destruct (mask_any (series_eq_int s sel_id)) eqn:Hany.
      + destruct (aplicar_cambio_found l df sel_id nuevo_estado evidencia s w Hl Hs Hany)
          as ([] & w' & Hrun & _ & Hfs & _).
        rewrite Hrun. simpl. rewrite Hfs. by apply saved_elsewhere.
      + by rewrite (aplicar_cambio_not_found _ _ _ _ _ _ _ Hl Hs Hany).
    - by rewrite (aplicar_cambio_no_column _ _ _ _ _ _ Hl Hnin). }
  split.
  { intros tipo solicitante area.
    apply (rows_added_writes_only _ w l df PtwOt
             (λ _ _ row _, assoc "id" row = Some (CInt (next_sequential_id (Some df) "id"))
                           ∧ assoc "estado" row = Some (CStr "Borrador"))).
    destruct (crear_ptw_run w l df tipo solicitante area Hl)
      as (l' & w' & Hrun & row & d & Hid & Hest & Hadd).
    exists l', w'. split; [done|]. by exists row, d. }
  split.
  { intros idp nuevo aprob_hse p Hp Ht.
    destruct (decide ("id" ∈ columns df)) as [Hin|Hnin].
    - destruct (getitem_Ok df "id" Hin) as [s Hs].
      destruct (mask_any (series_eq_int s idp)) eqn:Hany.
      + destruct (aplicar_ptw_found l df idp nuevo aprob_hse s w Hl Hs Hany)
          as ([] & w' & Hrun & _ & Hfs & _).
        rewrite Hrun. simpl. rewrite Hfs. by apply saved_elsewhere.
      + by rewrite (aplicar_ptw_not_found _ _ _ _ _ _ _ Hl Hs Hany).
    - by rewrite (aplicar_ptw_no_column _ _ _ _ _ _ Hl Hnin). }
  split.
  { intros tag titulo severidad descripcion reportado_por.
    apply (rows_added_writes_only _ w l df Incidentes
             (λ _ _ row _, assoc "id" row = Some (CInt (next_sequential_id (Some df) "id"))
                           ∧ assoc "estado" row = Some (CStr "Abierto"))).
    destruct (reportar_incidente_run w l df tag titulo severidad descripcion
                reportado_por Hl) as (l' & w' & Hrun & row & d & Hid & Hest & Hadd).
    exists l', w'. split; [done|]. by exists row, d. }
  split.
  { intros submitted nombre rol area p Hp Ht.
    destruct submitted; [|done].
    destruct (decide (py_strip nombre = "")) as [Hb|Hb].
    { unfold agregar_usuario. rewrite bool_decide_eq_false_2 by (by intros H). done. }
    destruct (agregar_usuario_run w l df nombre rol area Hl Hb)
      as (l' & w' & Hrun & row & d & _ & _ & _ & _ & (_ & _ & _ & _ & Hfs & _) & _).
    rewrite Hrun. simpl. rewrite Hfs. by apply saved_elsewhere. }
  split.
  { intros rows p Hp Ht. destruct (decide (rows = [])) as [->|Hne]; [done|].
    destruct (guardar_ronda_run w l df rows Hl Hne)
      as (l' & w' & Hrun & d & _ & _ & _ & _ & Hfs & _).
    rewrite Hrun. simpl. rewrite Hfs. by apply saved_elsewhere. }
  intros [] [] Hne; try done;
    (split; apply (bool_decide_unpack _); vm_compute; exact I).
Qed.

Lemma handlers_write_own_file_witness :
  fs (crear_notificacion 0 "V-210" "Chequear V-210" "Lectura fuera de rango" "P2"
        "Operario 1"
        (mkWorld {[F_USUARIOS := "user_id"]} [notifs_repetidas] ∅ noon 0 [])).2
  !! F_USUARIOS = Some "user_id".
Proof.
  destruct (handlers_write_own_file
              (mkWorld {[F_USUARIOS := "user_id"]} [notifs_repetidas] ∅ noon 0 []) 0
              notifs_repetidas eq_refl) as (H & _).
  - repeat constructor.
  - rewrite (H "V-210" "Chequear V-210" "Lectura fuera de rango" "P2" "Operario 1"
               F_USUARIOS); [apply lookup_singleton_eq | discriminate | discriminate].
Defined.

(** ** Time stamps as texts *)

Lemma lex_ltb_app (a1 a2 r1 r2 : list ascii) :
  length a1 = length a2 →
  lex_ltb (a1 ++ r1) (a2 ++ r2)
  = if decide (a1 = a2) then lex_ltb r1 r2 else lex_ltb a1 a2.
Proof.
  revert a2. induction a1 as [|x a1 IH]; intros [|y a2] Hlen; try done.
  simpl in Hlen. injection Hlen as Hlen. simpl.
  destruct (nat_of_ascii x <? nat_of_ascii y) eqn:Hlt.
  { apply Nat.ltb_lt in Hlt. rewrite decide_False; [done|]. intros [= -> _]. lia. }
  destruct (nat_of_ascii x =? nat_of_ascii y) eqn:Heq.
  - apply Nat.eqb_eq in Heq.
    assert (x = y) as -> by (by rewrite <- (ascii_nat_embedding x), Heq, ascii_nat_embedding).
    rewrite IH by done. destruct (decide (a1 = a2)) as [->|Hne].
    + by rewrite decide_True.
    + rewrite decide_False; [done|]. by intros [= ?].
  - apply Nat.eqb_neq in Heq. rewrite decide_False; [done|]. by intros [= -> _].
Qed.

Lemma is_digit_val (c : ascii) :
  is_digit c = true →
  (0 ≤ digit_val c ≤ 9)%Z ∧ digit_val c = (Z.of_nat (nat_of_ascii c) - 48)%Z.
Proof.
  unfold is_digit, digit_val. intros [H1%Nat.leb_le H2%Nat.leb_le]%andb_true_iff. lia.
Qed.

(** Numerals of the same length compare as the numbers they write. *)
Lemma lex_ltb_digits (a b : list ascii) (acc1 acc2 : Z) :
  length a = length b → forallb is_digit a = true → forallb is_digit b = true →
  ((foldl (λ x c, (x * 10 + digit_val c)%Z) acc1 a
    < foldl (λ x c, (x * 10 + digit_val c)%Z) acc2 b)%Z
   ↔ (acc1 < acc2)%Z ∨ (acc1 = acc2 ∧ lex_ltb a b = true))
  ∧ (foldl (λ x c, (x * 10 + digit_val c)%Z) acc1 a
     = foldl (λ x c, (x * 10 + digit_val c)%Z) acc2 b ↔ acc1 = acc2 ∧ a = b).
Proof.
  revert b acc1 acc2. induction a as [|x a IH]; intros [|y b] acc1 acc2 Hlen Ha Hb;
    try done.
  { simpl. split; [|by intuition]. split; [auto | intros [? | [_ ?]]; done]. }
  simpl in Hlen, Ha, Hb. injection Hlen as Hlen.
  apply andb_true_iff in Ha as [Hx Ha]. apply andb_true_iff in Hb as [Hy Hb].
  destruct (is_digit_val x Hx) as [Bx Vx]. destruct (is_digit_val y Hy) as [By Vy].
  destruct (IH b (acc1 * 10 + digit_val x)%Z (acc2 * 10 + digit_val y)%Z Hlen Ha Hb)
    as [IH1 IH2].
  cbn [foldl lex_ltb]. rewrite IH1, IH2.
  assert (x = y ↔ digit_val x = digit_val y) as Hxy.
  { split; [by intros ->|]. intros E.
    rewrite <- (ascii_nat_embedding x), <- (ascii_nat_embedding y). f_equal. lia. }
  split.
  - destruct (nat_of_ascii x <? nat_of_ascii y) eqn:Hlt;
      [apply Nat.ltb_lt in Hlt | apply Nat.ltb_ge in Hlt].
    + split.
      * intros [H | [H _]];
          (destruct (decide (acc1 < acc2)%Z); [by left | right; split; [lia | done]]).
      * intros [H | [H _]]; left; lia.
    + destruct (nat_of_ascii x =? nat_of_ascii y) eqn:Heq;
        [apply Nat.eqb_eq in Heq | apply Nat.eqb_neq in Heq].
      * split; (intros [H | [H L]]; [left; lia | right; split; [lia | done]]).
      * split; [intros [H | [H L]]; [left; lia | lia]
               | intros [H | [_ H]]; [left; lia | done]].
  - split.
    + intros [E ->]. assert (acc1 = acc2 ∧ digit_val x = digit_val y) as [-> Hd] by lia.
      apply Hxy in Hd. by subst.
    + intros [-> [= -> ->]]. done.
Qed.

Lemma pad_zeros_spec (w : nat) (l : list ascii) :
  length l ≤ w → forallb is_digit l = true →
  length (pad_zeros w l) = w
  ∧ forallb is_digit (pad_zeros w l) = true
  ∧ foldl (λ x c, (x * 10 + digit_val c)%Z) 0%Z (pad_zeros w l)
    = foldl (λ x c, (x * 10 + digit_val c)%Z) 0%Z l.
Proof.
  induction w as [|w IH]; intros Hlen Hd.
  { simpl. split; [lia | done]. }
  cbn [pad_zeros]. destruct (decide (length l < S w)) as [Hlt | Hge].
  - destruct IH as (IH1 & IH2 & IH3); [lia | done |].
    split; [simpl; lia|]. split; [simpl; done|]. simpl. done.
  - split; [lia | done].
Qed.

Lemma pretty_N_go_length (x : N) (w : nat) :
  (x < 10 ^ N.of_nat w)%N →
  length (list_ascii_of_string (pretty_N_go x "")) ≤ w.
Proof.
  revert w. induction (N.lt_wf_0 x) as [x _ IH]. intros w Hx.
  assert (x = 0 ∨ 0 < x)%N as [->|Hpos] by lia.
  { simpl. lia. }
  rewrite pretty_N_go_step, pretty_N_go_app, list_ascii_app, length_app by done.
  destruct w as [|w]; [simpl in Hx; lia|].
  rewrite Nat2N.inj_succ, N.pow_succ_r' in Hx.
  assert (x `div` 10 < 10 ^ N.of_nat w)%N as Hdiv.
  { apply N.Div0.div_lt_upper_bound. lia. }
  specialize (IH (x `div` 10)%N (N.div_lt x 10 Hpos eq_refl) w Hdiv). simpl. lia.
Qed.

(** [pad w n] writes [n] on exactly [w] digits when [n] has no more. *)
Lemma pad_spec (w n : nat) :
  0 < w → (N.of_nat n < 10 ^ N.of_nat w)%N →
  length (list_ascii_of_string (pad w n)) = w
  ∧ forallb is_digit (list_ascii_of_string (pad w n)) = true
  ∧ foldl (λ x c, (x * 10 + digit_val c)%Z) 0%Z (list_ascii_of_string (pad w n))
    = Z.of_nat n.
Proof.
  intros Hw Hn. unfold pad. rewrite list_ascii_of_string_of_list_ascii.
  assert (length (list_ascii_of_string (pretty n)) ≤ w
          ∧ forallb is_digit (list_ascii_of_string (pretty n)) = true
          ∧ foldl (λ x c, (x * 10 + digit_val c)%Z) 0%Z (list_ascii_of_string (pretty n))
            = Z.of_nat n) as (H1 & H2 & H3).
  { unfold pretty, pretty_nat, pretty, pretty_N.
    destruct (decide (N.of_nat n = 0%N)) as [E | E].
    - assert (n = 0) as -> by lia. split; [simpl; lia|]. by split.
    - destruct (pretty_N_go_digits (N.of_nat n)) as (D1 & D2 & _).
      split; [by apply pretty_N_go_length|]. split; [done|]. rewrite D2. lia. }
  destruct (pad_zeros_spec w _ H1 H2) as (P1 & P2 & P3).
  split; [done|]. split; [done|]. by rewrite P3.
Qed.

(** A field of fixed width decides the comparison unless it is equal. *)
Lemma lex_ltb_pad (w n1 n2 : nat) (r1 r2 : list ascii) :
  0 < w → (N.of_nat n1 < 10 ^ N.of_nat w)%N → (N.of_nat n2 < 10 ^ N.of_nat w)%N →
  lex_ltb (list_ascii_of_string (pad w n1) ++ r1) (list_ascii_of_string (pad w n2) ++ r2)
  = if (n1 <? n2)%nat then true
    else if negb (n1 =? n2)%nat then false else lex_ltb r1 r2.
Proof.
  intros Hw H1 H2.
  destruct (pad_spec w n1 Hw H1) as (L1 & D1 & V1).
  destruct (pad_spec w n2 Hw H2) as (L2 & D2 & V2).
  rewrite lex_ltb_app by congruence.
  destruct (lex_ltb_digits _ _ 0%Z 0%Z (eq_trans L1 (eq_sym L2)) D1 D2) as [Hlt Heq].
  rewrite V1, V2 in Hlt, Heq.
  destruct (decide (_ = _)) as [E | E].
  - assert (n1 = n2) as -> by (apply Nat2Z.inj, Heq; done).
    by rewrite Nat.ltb_irrefl, Nat.eqb_refl.
  - destruct (n1 <? n2)%nat eqn:Hb; [apply Nat.ltb_lt in Hb | apply Nat.ltb_ge in Hb].
    + destruct (proj1 Hlt) as [? | [_ ?]]; [lia | lia | done].
    + destruct (n1 =? n2)%nat eqn:Hq; [apply Nat.eqb_eq in Hq | apply Nat.eqb_neq in Hq].
      * subst n2. done.
      * simpl. destruct (lex_ltb _ _) eqn:Hl; [|done].
        assert (Z.of_nat n1 < Z.of_nat n2)%Z by (apply Hlt; by right). lia.
Qed.

Lemma lex_ltb_sep (c : ascii) (r1 r2 : list ascii) :
  lex_ltb (c :: r1) (c :: r2) = lex_ltb r1 r2.
Proof. simpl. by rewrite Nat.ltb_irrefl, Nat.eqb_refl. Qed.

Lemma pad_inj (w n1 n2 : nat) :
  0 < w → (N.of_nat n1 < 10 ^ N.of_nat w)%N → (N.of_nat n2 < 10 ^ N.of_nat w)%N →
  list_ascii_of_string (pad w n1) = list_ascii_of_string (pad w n2) → n1 = n2.
Proof.
  intros Hw H1 H2 E.
  destruct (pad_spec w n1 Hw H1) as (_ & _ & V1).
  destruct (pad_spec w n2 Hw H2) as (_ & _ & V2).
  rewrite E in V1. lia.
Qed.

(** The texts [strftime] gives are ordered as the readings they write. *)
Lemma strftime_order (d1 d2 : datetime) :
  valid_datetime d1 → valid_datetime d2 →
  str_ltb (strftime d1) (strftime d2) = datetime_ltb d1 d2
  ∧ String.length (strftime d1) = 19
  ∧ (strftime d1 = strftime d2 → d1 = d2).
Proof.
  intros (Y1 & M1 & D1 & H1 & I1 & S1) (Y2 & M2 & D2 & H2 & I2 & S2).
  assert (∀ n, n < 100 → (N.of_nat n < 10 ^ N.of_nat 2)%N) as B2 by (intros; simpl; lia).
  assert (∀ n, n < 10 ^ 4 → (N.of_nat n < 10 ^ N.of_nat 4)%N) as B4.
  { intros n Hn. change (10 ^ N.of_nat 4)%N with (N.of_nat (10 ^ 4)). lia. }
  split; [|split].
  - unfold str_ltb, strftime, datetime_ltb. rewrite !list_ascii_app.
    change (list_ascii_of_string "-") with ["-"%char].
    change (list_ascii_of_string " ") with [" "%char].
    change (list_ascii_of_string ":") with [":"%char].
    cbn [app].
    rewrite (lex_ltb_pad 4) by (try apply B4; lia). rewrite lex_ltb_sep.
    do 4 (rewrite (lex_ltb_pad 2) by (try apply B2; lia); rewrite lex_ltb_sep).
    rewrite <- (app_nil_r (list_ascii_of_string (pad 2 (second d1)))),
      <- (app_nil_r (list_ascii_of_string (pad 2 (second d2)))).
    rewrite (lex_ltb_pad 2) by (try apply B2; lia). simpl.
    by destruct (second d1 <? second d2)%nat, (second d1 =? second d2)%nat.
  - unfold strftime. rewrite !length_append, <- !length_list_ascii.
    rewrite (proj1 (pad_spec 4 _ ltac:(lia) (B4 _ (proj2 Y1)))).
    rewrite !(λ n H, proj1 (pad_spec 2 n ltac:(lia) (B2 n H))) by lia. done.
  - intros E. apply (f_equal list_ascii_of_string) in E. revert E.
    unfold strftime. rewrite !list_ascii_app.
    change (list_ascii_of_string "-") with ["-"%char].
    change (list_ascii_of_string " ") with [" "%char].
    change (list_ascii_of_string ":") with [":"%char].
    cbn [app]. intros E.
    pose proof (λ n H, proj1 (pad_spec 2 n ltac:(lia) (B2 n H))) as L2.
    pose proof (λ n H, proj1 (pad_spec 4 n ltac:(lia) (B4 n H))) as L4.
    apply app_inj_1 in E as [Ey E]; [|rewrite !L4; lia].
    injection E as E. apply app_inj_1 in E as [Em E]; [|rewrite !L2; lia].
    injection E as E. apply app_inj_1 in E as [Ed E]; [|rewrite !L2; lia].
    injection E as E. apply app_inj_1 in E as [Eh E]; [|rewrite !L2; lia].
    injection E as E. apply app_inj_1 in E as [Ei E]; [|rewrite !L2; lia].
    injection E as Es.
    apply (pad_inj 4) in Ey; [|lia | apply B4; lia ..].
    apply (pad_inj 2) in Em, Ed, Eh, Ei, Es; try lia; try (apply B2; lia).
    destruct d1 as [y1 m1 a1 h1 i1 s1], d2 as [y2 m2 a2 h2 i2 s2].
    cbn [year month day hour minute second] in Ey, Em, Ed, Eh, Ei, Es.
    by subst.
Qed.

(** X17: the time stamps [now_iso] writes sort as text the way they sort
    in time.  For two readings of the clock with a year of four digits,
    the texts have 19 characters, the first text is below the second as
    Python compares strings exactly when the first reading is earlier,
    and equal texts come from equal readings. *)
Theorem now_iso_sorts (w1 w2 : World) :
  valid_datetime (clock w1 (ticks w1)) → valid_datetime (clock w2 (ticks w2)) →
  ∃ s1 s2, (now_iso w1).1 = Ok s1 ∧ (now_iso w2).1 = Ok s2
    ∧ String.length s1 = 19
    ∧ str_ltb s1 s2 = datetime_ltb (clock w1 (ticks w1)) (clock w2 (ticks w2))
    ∧ (s1 = s2 → clock w1 (ticks w1) = clock w2 (ticks w2)).
Proof.
  intros V1 V2. destruct (strftime_order _ _ V1 V2) as (Hlt & Hlen & Hinj).
  exists (strftime (clock w1 (ticks w1))), (strftime (clock w2 (ticks w2))).
  by repeat split.
Qed.

Lemma now_iso_sorts_witness :
  ∃ s1 s2, (now_iso (mkWorld ∅ [] ∅ noon 3 [])).1 = Ok s1
    ∧ (now_iso (mkWorld ∅ [] ∅ noon 7 [])).1 = Ok s2
    ∧ String.length s1 = 19
    ∧ str_ltb s1 s2 = datetime_ltb (noon 3) (noon 7)
    ∧ (s1 = s2 → noon 3 = noon 7).
Proof.
  apply (now_iso_sorts (mkWorld ∅ [] ∅ noon 3 []) (mkWorld ∅ [] ∅ noon 7 []));
    unfold valid_datetime, noon; cbn [year month day hour minute second clock ticks];
    (repeat split; try lia; apply Nat.ltb_lt; vm_compute; reflexivity).
Defined.

(** * Identifiers in the data model *)














(** X3: identifiers are handed out consecutively. For an identifier
    column of the data model, after any handler that creates a row (a
    notification by hand or by the IoT rule, a permit, an incident) the
    next identifier of the resulting table is the one just assigned
    plus 1; after the rounds page has saved the [N] readings of a
    template, numbered up to 2^53 at most, it is [N] above what it
    was. *)
Theorem next_id_advances (w : World) (l : loc) (df : DataFrame) :
  heap w !! l = Some df → wf df → id_column_ok df "id" →
  (∀ tag titulo motivo prioridad asignado,
     advances (crear_notificacion l tag titulo motivo prioridad asignado) w df 1)
  ∧ (∀ p_actual p_high, float_leb p_actual p_high = false →
       advances (evaluar_evento l p_actual p_high) w df 1)
  ∧ (∀ tipo solicitante area, advances (crear_ptw l tipo solicitante area) w df 1)
  ∧ (∀ tag titulo severidad descripcion reportado_por,
       advances (reportar_incidente l tag titulo severidad descripcion reportado_por)
         w df 1)
  ∧ (∀ rondas_plt plt pl sel_pl operario entered,
       heap w !! rondas_plt = Some plt → getitem plt "plantilla" = Ok pl →
       Forall (lectura_ok (plantilla_rows plt pl sel_pl))
              (data (plantilla_rows plt pl sel_pl)) →
       (next_sequential_id (Some df) "id"
        + Z.of_nat (nrows (plantilla_rows plt pl sel_pl)) ≤ 2 ^ 53 + 1)%Z →
       advances (pagina_rondas rondas_plt l sel_pl operario entered) w df
         (nrows (plantilla_rows plt pl sel_pl))).
Proof.
  intros Hl Hwf _.
  destruct (handlers_advance w l df Hl Hwf) as (H1 & H2 & H3 & H4 & H5).
  split; [done|]. split; [done|]. split; [done|]. split; [done|].
  intros rondas_plt plt pl sel_pl operario entered Hp Hpl Hok _. by eapply H5.
Qed.

Lemma next_id_advances_witness :
  advances (crear_notificacion 0 "V-210" "Chequear V-210" "Lectura fuera de rango" "P2"
              "Operario 1")
    (world_with (DataFrame_of_records (seed_notif "a" "b")) F_NOTIF)
    (DataFrame_of_records (seed_notif "a" "b")) 1.
Proof.
  destruct (next_id_advances
              (world_with (DataFrame_of_records (seed_notif "a" "b")) F_NOTIF) 0
              (DataFrame_of_records (seed_notif "a" "b")) eq_refl
              (DataFrame_of_records_wf _)) as (H & _).
  - intros [|[|i]] v Hv; cbv in Hv; [injection Hv as <-; reflexivity..|discriminate].
  - apply H.
Defined.
